(** * nano-banana-cli: the local image pipeline, embedded and verified

    The development follows the Go sources of the repository:

    - package [image], [internal/image/combine.go]: [CombineImages],
      [combineHorizontal], [combineVertical], [combineGrid],
      [calculateAlignment], [fillBackground];
    - package [image], chroma key: [MakeTransparent], [parseColor],
      [colorDistance];
    - package [image], transformation: [Transform], [applyCrop],
      [applyResize];
    - package [image], inspection: [InspectTransparency];
    - package [cli]: [runTransform], [runCombine], [runTransparentMake],
      [runGenerate], and the request [runIcon] builds;
    - package [output]: the [Formatter];
    - package [gemini]: [GenerateImage], [EditImage], [extractImages],
      [SaveImage], [classifyError], [ResolveModelName]; package [config]:
      [ResolveModel].

    Conventions.  A Go [int] is a [Z] with the 64-bit wrap-around written
    out ([GoInt]); a [uint8]/[uint32] is a [Z] reduced modulo its width; a
    [float64] is the kernel's binary64 ([PrimFloat]); a Go [string] is a
    [string] (a sequence of 8-bit characters).  Functions of Go's standard
    library and of [disintegration/imaging] whose code is not part of the
    repository are either embedded from their documented behaviour
    ([image.Rect], [color.NRGBA.RGBA], [strings.Split], [strconv.Atoi]) or
    taken as section variables ([strings.ToLower], [strings.TrimSpace],
    [filepath.Dir], the [imaging] operations).  The file system is explicit
    state: a finite map from paths to file contents and a set of
    directories. *)

From stdpp Require Import base gmap strings list.
From Stdlib Require Import ZArith QArith Qround Floats Uint63 Lia Bool Ascii String.

Open Scope Z_scope.

(** ** Go's [int] (64 bits, two's complement) *)

Module GoInt.

Definition min_int : Z := - 2 ^ 63.
Definition max_int : Z := 2 ^ 63 - 1.

Definition wrap (z : Z) : Z := (z + 2 ^ 63) mod 2 ^ 64 - 2 ^ 63.

Definition add (a b : Z) : Z := wrap (a + b).
Definition sub (a b : Z) : Z := wrap (a - b).
Definition mul (a b : Z) : Z := wrap (a * b).
(** Go's [/] and [%] truncate towards zero.  A zero divisor panics in Go;
    no division of the embedded code has one ([2], or a column count that
    is at least [1]). *)
Definition quo (a b : Z) : Z := wrap (Z.quot a b).
Definition rem (a b : Z) : Z := Z.rem a b.

Definition in_range (z : Z) : Prop := min_int <= z <= max_int.

End GoInt.

(** ** Go's [image] geometry *)

Module Geom.

Record Point := mkPoint { X : Z; Y : Z }.
Record Rectangle := mkRectangle { Min : Point; Max : Point }.

(** [image.Rect]: "The returned rectangle has minimum and maximum
    coordinates swapped if necessary so that it is well-formed." *)
Definition Rect (x0 y0 x1 y1 : Z) : Rectangle :=
  let '(x0, x1) := if x0 >? x1 then (x1, x0) else (x0, x1) in
  let '(y0, y1) := if y0 >? y1 then (y1, y0) else (y0, y1) in
  {| Min := mkPoint x0 y0; Max := mkPoint x1 y1 |}.

Definition Dx (r : Rectangle) : Z := GoInt.sub (X (Max r)) (X (Min r)).
Definition Dy (r : Rectangle) : Z := GoInt.sub (Y (Max r)) (Y (Min r)).

(** The rectangles image decoders produce: well-formed, with coordinates
    and sizes that fit an [int]. *)
Definition wf_rect (r : Rectangle) : Prop :=
  GoInt.in_range (X (Min r)) /\ GoInt.in_range (Y (Min r)) /\
  GoInt.in_range (X (Max r)) /\ GoInt.in_range (Y (Max r)) /\
  0 <= X (Max r) - X (Min r) <= GoInt.max_int /\
  0 <= Y (Max r) - Y (Min r) <= GoInt.max_int.

End Geom.

(** ** Go's [image/color] *)

Module GoColor.

(** [color.NRGBA]: 8-bit channels, not alpha-premultiplied. *)
Record NRGBA := mkNRGBA { nR : Z; nG : Z; nB : Z; nA : Z }.
(** [color.RGBA]: 8-bit channels, alpha-premultiplied. *)
Record RGBA := mkRGBA { cR : Z; cG : Z; cB : Z; cA : Z }.

(** The [color.Color] interface is its one method, [RGBA()].  The
    constructors are the implementations the code meets: [color.NRGBA]
    (PNG with an alpha channel), [color.RGBA], [color.Gray], and
    [color.RGBA64], through which every other implementation is given by
    the four 16-bit values its [RGBA()] returns. *)
Inductive Color :=
| ColorNRGBA (c : NRGBA)
| ColorRGBA (c : RGBA)
| ColorGray (y : Z)
| ColorRGBA64 (r g b a : Z).

Definition uint32 (z : Z) : Z := z mod 2 ^ 32.
Definition uint8 (z : Z) : Z := z mod 2 ^ 8.

(** [r := uint32(c); r |= r << 8] *)
Definition widen (c : Z) : Z := uint32 (Z.lor c (uint32 (Z.shiftl c 8))).

(** [func (c NRGBA) RGBA()]: [r |= r << 8; r *= uint32(c.A); r /= 0xff]
    for the three colour channels, [a |= a << 8] for alpha. *)
Definition NRGBA_RGBA (c : NRGBA) : Z * Z * Z * Z :=
  let premul v := uint32 (widen v * nA c) / 255 in
  (premul (nR c), premul (nG c), premul (nB c), widen (nA c)).

Definition RGBA_RGBA (c : RGBA) : Z * Z * Z * Z :=
  (widen (cR c), widen (cG c), widen (cB c), widen (cA c)).

Definition Gray_RGBA (y : Z) : Z * Z * Z * Z :=
  let y := widen y in (y, y, y, 65535).

Definition Color_RGBA (c : Color) : Z * Z * Z * Z :=
  match c with
  | ColorNRGBA c => NRGBA_RGBA c
  | ColorRGBA c => RGBA_RGBA c
  | ColorGray y => Gray_RGBA y
  | ColorRGBA64 r g b a => (r, g, b, a)
  end.

(** Values a [uint8] field can hold. *)
Definition is_uint8 (z : Z) : Prop := 0 <= z < 256.
Definition wf_NRGBA (c : NRGBA) : Prop :=
  is_uint8 (nR c) /\ is_uint8 (nG c) /\ is_uint8 (nB c) /\ is_uint8 (nA c).

End GoColor.

(** ** Rasters *)

Module Raster.
Import Geom GoColor.

(** [image.Image]: bounds and a colour at every point. *)
Record Image := mkImage { Bounds : Rectangle; At : Z -> Z -> Color }.

(** [*image.NRGBA] as [image.NewNRGBA] allocates it and [SetNRGBA] fills
    it: all pixels start as the zero colour; a write outside the bounds is
    dropped. *)
Record NRGBAImage := mkNRGBAImage { nBounds : Rectangle; NRGBAAt : Z -> Z -> NRGBA }.

Definition NewNRGBA (r : Rectangle) : NRGBAImage :=
  {| nBounds := r; NRGBAAt := fun _ _ => mkNRGBA 0 0 0 0 |}.

Definition inside (r : Rectangle) (x y : Z) : bool :=
  (X (Min r) <=? x) && (x <? X (Max r)) && (Y (Min r) <=? y) && (y <? Y (Max r)).

Definition SetNRGBA (m : NRGBAImage) (x y : Z) (c : NRGBA) : NRGBAImage :=
  if inside (nBounds m) x y
  then {| nBounds := nBounds m;
          NRGBAAt := fun x' y' => if (x' =? x) && (y' =? y) then c else NRGBAAt m x' y' |}
  else m.

End Raster.

(** ** Go's [float64] *)

Module GoFloat.

(** [float64(n)] for an unsigned [n] below [2^63] (a [uint8] channel, a
    length): exact below [2^53], rounded to nearest even above. *)
Definition of_uint (n : Z) : float := PrimFloat.of_uint63 (Uint63.of_Z n).

(** [float64(i)] for a signed [int]. *)
Definition of_int (i : Z) : float :=
  if i <? 0
  then if i =? GoInt.min_int then (-0x1p63)%float
       else (- of_uint (- i))%float
  else of_uint i.

(** [int(f)]: the fraction is discarded.  The result for a value that does
    not fit is implementation-specific in Go; amd64 gives the smallest
    [int], which is what the model returns. *)
Definition to_int (f : float) : Z :=
  match Prim2SF f with
  | S754_zero _ => 0
  | S754_finite s m e =>
      let mag := if 0 <=? e then Z.shiftl (Z.pos m) e else Z.shiftr (Z.pos m) (- e) in
      let v := if s then - mag else mag in
      if (GoInt.min_int <=? v) && (v <=? GoInt.max_int) then v else GoInt.min_int
  | _ => GoInt.min_int
  end.

End GoFloat.

(** ** Go's [strings] and [strconv] *)

Module GoStrings.

Definition byte_of (c : ascii) : Z := Z.of_N (Ascii.N_of_ascii c).

(** [s[n:]] for [n <= len(s)]. *)
Fixpoint drop (n : nat) (s : string) : string :=
  match n, s with
  | O, _ => s
  | S n, String _ s' => drop n s'
  | S _, EmptyString => EmptyString
  end.

(** [s[lo:hi]] for [lo <= hi <= len(s)]. *)
Definition slice (lo hi : nat) (s : string) : string :=
  String.substring lo (hi - lo) s.

(** [strings.HasPrefix(s, p)] *)
Definition HasPrefix (s p : string) : bool := String.prefix p s.

(** [strings.HasSuffix(s, "%")], [strings.TrimSuffix(s, "%")]: the suffix
    is one byte. *)
Fixpoint HasSuffixByte (s : string) (c : ascii) : bool :=
  match s with
  | EmptyString => false
  | String a EmptyString => Ascii.eqb a c
  | String _ s' => HasSuffixByte s' c
  end.

Fixpoint dropLast (s : string) : string :=
  match s with
  | EmptyString => EmptyString
  | String _ EmptyString => EmptyString
  | String a s' => String a (dropLast s')
  end.

Definition TrimSuffixByte (s : string) (c : ascii) : string :=
  if HasSuffixByte s c then dropLast s else s.

(** [strings.Split(s, sep)] for a one-byte separator: the substrings
    between the separators, one more than there are separators. *)
Fixpoint Split (s : string) (sep : ascii) : list string :=
  match s with
  | EmptyString => [EmptyString]
  | String c s' =>
      if Ascii.eqb c sep then EmptyString :: Split s' sep
      else match Split s' sep with
           | [] => [String c EmptyString]
           | p :: ps => String c p :: ps
           end
  end.

(** A decimal digit's value. *)
Definition digit (c : ascii) : option Z :=
  let b := byte_of c in
  if (48 <=? b) && (b <=? 57) then Some (b - 48) else None.

(** The value of a non-empty string of decimal digits. *)
Fixpoint digits (acc : Z) (s : string) : option Z :=
  match s with
  | EmptyString => Some acc
  | String c s' =>
      match digit c with
      | Some d => digits (acc * 10 + d) s'
      | None => None
      end
  end.

Definition unsigned (s : string) : option Z :=
  match s with
  | EmptyString => None
  | _ => digits 0 s
  end.

(** [strconv.Atoi]: an optional sign, then at least one decimal digit and
    nothing else; the value has to fit an [int] (otherwise [ErrRange]).
    Errors are not told apart: the callers only test [err != nil]. *)
Definition Atoi (s : string) : option Z :=
  match s with
  | EmptyString => None
  | String c s' =>
      let '(neg, body) :=
        if Ascii.eqb c "-"%char then (true, s')
        else if Ascii.eqb c "+"%char then (false, s')
        else (false, s) in
      match unsigned body with
      | None => None
      | Some n =>
          let v := if neg then - n else n in
          if (GoInt.min_int <=? v) && (v <=? GoInt.max_int) then Some v else None
      end
  end.

(** A hexadecimal digit's value. *)
Definition hexdigit (c : ascii) : option Z :=
  let b := byte_of c in
  if (48 <=? b) && (b <=? 57) then Some (b - 48)
  else if (97 <=? b) && (b <=? 102) then Some (b - 97 + 10)
  else if (65 <=? b) && (b <=? 70) then Some (b - 65 + 10)
  else None.

Fixpoint hexdigits (acc : Z) (s : string) : option Z :=
  match s with
  | EmptyString => Some acc
  | String c s' =>
      match hexdigit c with
      | Some d => hexdigits (acc * 16 + d) s'
      | None => None
      end
  end.

(** [strconv.ParseUint(s, 16, 8)]: hexadecimal digits only, at least one,
    no sign, no prefix, no underscore; the value has to fit 8 bits. *)
Definition ParseUint_16_8 (s : string) : option Z :=
  match s with
  | EmptyString => None
  | _ => match hexdigits 0 s with
         | Some v => if v <? 256 then Some v else None
         | None => None
         end
  end.

End GoStrings.

(** ** Loops *)

Module Loop.

(** [for i := lo; i < hi; i++ { s = body i s }] *)
Fixpoint for_range {S : Type} (n : nat) (i : Z) (body : Z -> S -> S) (s : S) : S :=
  match n with
  | O => s
  | Datatypes.S k => for_range k (i + 1) body (body i s)
  end.

Definition for_loop {S : Type} (lo hi : Z) (body : Z -> S -> S) (s : S) : S :=
  for_range (Z.to_nat (hi - lo)) lo body s.

End Loop.

(** ** The drawing surface of the composition *)

Module Draw.
Import Geom GoColor Raster.

Inductive Op := Over | Src.

Inductive Source :=
| SrcImage (img : Image)
| SrcUniform (c : NRGBA).

(** One call [draw.Draw(dst, r, src, sp, op)]. *)
Record DrawCall := mkDrawCall
  { dc_rect : Rectangle; dc_src : Source; dc_sp : Point; dc_op : Op }.

(** The canvas of a composition: the rectangle [image.NewNRGBA] was given
    and the [draw.Draw] calls made on it, oldest first.  The pixels are
    what Go's [image/draw] computes from these calls. *)
Record Canvas := mkCanvas { cv_bounds : Rectangle; cv_draws : list DrawCall }.

Definition NewCanvas (r : Rectangle) : Canvas :=
  {| cv_bounds := r; cv_draws := [] |}.

Definition draw_Draw (dst : Canvas) (r : Rectangle) (src : Source) (sp : Point) (op : Op)
  : Canvas :=
  {| cv_bounds := cv_bounds dst;
     cv_draws := cv_draws dst ++ [mkDrawCall r src sp op] |}.

End Draw.

(** ** The file system *)

Module FileSys.
Import Geom Raster Draw.

(** What [png.Encode] is given: an [*image.NRGBA]. *)
Inductive Picture :=
| PicNRGBA (m : NRGBAImage)
| PicCanvas (c : Canvas).

Definition pic_bounds (p : Picture) : Rectangle :=
  match p with
  | PicNRGBA m => nBounds m
  | PicCanvas c => cv_bounds c
  end.

Inductive FileData :=
| Bytes (b : string)       (* a file that was there before *)
| PNGOf (pic : Picture)    (* the complete PNG encoding of a picture *)
| Incomplete.              (* created or truncated, encoding not completed *)

Record FileSystem := mkFS { files : gmap string FileData; dirs : gset string }.

(** Which system calls the environment lets succeed. *)
Record Env := mkEnv
  { mkdir_ok : string -> bool; create_ok : string -> bool; write_ok : string -> bool }.

(** [os.MkdirAll(dir, 0755)] *)
Definition os_MkdirAll (env : Env) (fs : FileSystem) (dir : string) : option FileSystem :=
  if mkdir_ok env dir
  then Some {| files := files fs; dirs := {[ dir ]} ∪ dirs fs |}
  else None.

(** [os.Create(path)]: "creates or truncates the named file". *)
Definition os_Create (env : Env) (fs : FileSystem) (path : string) : option FileSystem :=
  if create_ok env path
  then Some {| files := <[ path := Incomplete ]> (files fs); dirs := dirs fs |}
  else None.

(** [png.Encode(file, m)] on a file [os.Create] has just opened: it
    refuses a picture whose width or height is not in [1, 2^32), and fails
    when a write does; in both cases the file it was given stays as it
    is. *)
Definition png_Encode (env : Env) (fs : FileSystem) (path : string) (pic : Picture)
  : option FileSystem :=
  let mw := Dx (pic_bounds pic) in
  let mh := Dy (pic_bounds pic) in
  if (mw <=? 0) || (mh <=? 0) || (2 ^ 32 <=? mw) || (2 ^ 32 <=? mh) then None
  else if write_ok env path
  then Some {| files := <[ path := PNGOf pic ]> (files fs); dirs := dirs fs |}
  else None.

End FileSys.

(** ** Chroma key: [parseColor], [colorDistance], [MakeTransparent] *)

Module Transparency.
Import Geom GoColor Raster FileSys GoStrings.

Record TransparencyOptions := mkTransparencyOptions
  { Color : string; Tolerance : Z }.

Record TransparencyResult := mkTransparencyResult
  { Width : Z; Height : Z }.

Inductive Error :=
| ErrInvalidColor      (* "invalid color: ..." *)
| ErrOpen              (* "failed to open image: ..." *)
| ErrMkdir             (* "failed to create directory: ..." *)
| ErrCreate            (* "failed to create output file: ..." *)
| ErrEncode.           (* "failed to encode PNG: ..." *)

(** [colorDistance] *)
Definition colorDistance (r g b : Z) (target : RGBA) : float :=
  let dr := (GoFloat.of_uint r - GoFloat.of_uint (cR target))%float in
  let dg := (GoFloat.of_uint g - GoFloat.of_uint (cG target))%float in
  let db := (GoFloat.of_uint b - GoFloat.of_uint (cB target))%float in
  ((dr * dr + dg * dg + db * db) / 3)%float.

(** [tolerance := float64(opts.Tolerance) / 100.0 * 255.0] *)
Definition threshold (tolerance : Z) : float :=
  (GoFloat.of_int tolerance / 100 * 255)%float.

(** The body of the pixel loop of [MakeTransparent]. *)
Definition keyPixel (target : RGBA) (tolerance : float) (pixel : GoColor.Color) : NRGBA :=
  let '(r, g, b, a) := Color_RGBA pixel in
  let r8 := uint8 (Z.shiftr r 8) in
  let g8 := uint8 (Z.shiftr g 8) in
  let b8 := uint8 (Z.shiftr b 8) in
  let a8 := uint8 (Z.shiftr a 8) in
  if PrimFloat.leb (colorDistance r8 g8 b8 target) tolerance
  then mkNRGBA r8 g8 b8 0
  else mkNRGBA r8 g8 b8 a8.

(** The two nested loops of [MakeTransparent]. *)
Definition keyImage (target : RGBA) (tolerance : float) (src : Image) : NRGBAImage :=
  let bounds := Bounds src in
  Loop.for_loop (Y (Min bounds)) (Y (Max bounds))
    (fun y result =>
       Loop.for_loop (X (Min bounds)) (X (Max bounds))
         (fun x result => SetNRGBA result x y (keyPixel target tolerance (At src x y)))
         result)
    (NewNRGBA bounds).

Section WithLibrary.
(** [strings.ToLower], [filepath.Dir], [imaging.Open] *)
Variable strings_ToLower : string -> string.
Variable filepath_Dir : string -> string.
Variable imaging_Open : FileSystem -> string -> option Image.

(** [parseColor] *)
Definition parseColor (colorStr : string) : option RGBA :=
  let lower := strings_ToLower colorStr in
  if String.eqb lower "white" then Some (mkRGBA 255 255 255 255)
  else if String.eqb lower "black" then Some (mkRGBA 0 0 0 255)
  else
    let colorStr := if HasPrefix colorStr "#" then drop 1 colorStr else colorStr in
    if negb (Nat.eqb (String.length colorStr) 6) then None
    else
      match ParseUint_16_8 (slice 0 2 colorStr) with
      | None => None
      | Some r =>
          match ParseUint_16_8 (slice 2 4 colorStr) with
          | None => None
          | Some g =>
              match ParseUint_16_8 (slice 4 6 colorStr) with
              | None => None
              | Some b => Some (mkRGBA r g b 255)
              end
          end
      end.

(** [MakeTransparent]: the file system after the call, and what the
    call returns. *)
Definition MakeTransparent (env : Env) (fs : FileSystem)
  (inputPath outputPath : string) (opts : option TransparencyOptions)
  : FileSystem * (TransparencyResult + Error) :=
  let opts := match opts with
              | None => mkTransparencyOptions "white" 10
              | Some o => o
              end in
  match parseColor (Color opts) with
  | None => (fs, inr ErrInvalidColor)
  | Some targetColor =>
      match imaging_Open fs inputPath with
      | None => (fs, inr ErrOpen)
      | Some src =>
          let bounds := Bounds src in
          let width := Dx bounds in
          let height := Dy bounds in
          let tolerance := threshold (Tolerance opts) in
          let result := keyImage targetColor tolerance src in
          let dir := filepath_Dir outputPath in
          let made :=
            if negb (String.eqb dir "") && negb (String.eqb dir ".")
            then os_MkdirAll env fs dir
            else Some fs in
          match made with
          | None => (fs, inr ErrMkdir)
          | Some fs1 =>
              match os_Create env fs1 outputPath with
              | None => (fs1, inr ErrCreate)
              | Some fs2 =>
                  match png_Encode env fs2 outputPath (PicNRGBA result) with
                  | None => (fs2, inr ErrEncode)
                  | Some fs3 => (fs3, inl (mkTransparencyResult width height))
                  end
              end
          end
      end
  end.

End WithLibrary.

End Transparency.

(** ** Composition: [CombineImages] and its layouts *)

Module Combine.
Import Geom GoColor Raster Draw FileSys.

Record CombineOptions := mkCombineOptions
  { Direction : string; Gap : Z; Columns : Z; Align : string; Background : string }.

Record CombineResult := mkCombineResult
  { Width : Z; Height : Z; Format : string }.

Inductive Error :=
| ErrNotEnoughImages                 (* "at least 2 images are required" *)
| ErrOpen (path : string)            (* "failed to open %s: ..." *)
| ErrInvalidDirection (d : string)   (* "invalid direction: %s (use: ...)" *)
| ErrMkdir                           (* "failed to create directory: ..." *)
| ErrCreate                          (* "failed to create output file: ..." *)
| ErrEncode.                         (* "failed to encode PNG: ..." *)

(** [calculateAlignment] *)
Definition calculateAlignment (containerSize itemSize : Z) (align : string) : Z :=
  if String.eqb align "start" then 0
  else if String.eqb align "end" then GoInt.sub containerSize itemSize
  else if String.eqb align "center" || String.eqb align ""
       then GoInt.quo (GoInt.sub containerSize itemSize) 2
       else GoInt.quo (GoInt.sub containerSize itemSize) 2.

(** The first loop of [combineHorizontal]: total width and maximal
    height; [i] is the index of the head of [images]. *)
Fixpoint measureHorizontal (gap : Z) (i : Z) (images : list Image)
  (totalWidth maxHeight : Z) : Z * Z :=
  match images with
  | [] => (totalWidth, maxHeight)
  | img :: rest =>
      let bounds := Bounds img in
      let totalWidth := GoInt.add totalWidth (Dx bounds) in
      let maxHeight := if Dy bounds >? maxHeight then Dy bounds else maxHeight in
      let totalWidth := if i >? 0 then GoInt.add totalWidth gap else totalWidth in
      measureHorizontal gap (i + 1) rest totalWidth maxHeight
  end.

(** The second loop of [combineHorizontal]; [n] is [len(images)] of the
    whole slice. *)
Fixpoint drawHorizontal (opts : CombineOptions) (n maxHeight : Z) (i : Z)
  (images : list Image) (x : Z) (canvas : Canvas) : Canvas :=
  match images with
  | [] => canvas
  | img :: rest =>
      let bounds := Bounds img in
      let y := calculateAlignment maxHeight (Dy bounds) (Align opts) in
      let canvas :=
        draw_Draw canvas
          (Rect x y (GoInt.add x (Dx bounds)) (GoInt.add y (Dy bounds)))
          (SrcImage img) (Min bounds) Over in
      let x := GoInt.add x (Dx bounds) in
      let x := if i <? n - 1 then GoInt.add x (Gap opts) else x in
      drawHorizontal opts n maxHeight (i + 1) rest x canvas
  end.

(** The first loop of [combineVertical]. *)
Fixpoint measureVertical (gap : Z) (i : Z) (images : list Image)
  (maxWidth totalHeight : Z) : Z * Z :=
  match images with
  | [] => (maxWidth, totalHeight)
  | img :: rest =>
      let bounds := Bounds img in
      let maxWidth := if Dx bounds >? maxWidth then Dx bounds else maxWidth in
      let totalHeight := GoInt.add totalHeight (Dy bounds) in
      let totalHeight := if i >? 0 then GoInt.add totalHeight gap else totalHeight in
      measureVertical gap (i + 1) rest maxWidth totalHeight
  end.

(** The second loop of [combineVertical]. *)
Fixpoint drawVertical (opts : CombineOptions) (n maxWidth : Z) (i : Z)
  (images : list Image) (y : Z) (canvas : Canvas) : Canvas :=
  match images with
  | [] => canvas
  | img :: rest =>
      let bounds := Bounds img in
      let x := calculateAlignment maxWidth (Dx bounds) (Align opts) in
      let canvas :=
        draw_Draw canvas
          (Rect x y (GoInt.add x (Dx bounds)) (GoInt.add y (Dy bounds)))
          (SrcImage img) (Min bounds) Over in
      let y := GoInt.add y (Dy bounds) in
      let y := if i <? n - 1 then GoInt.add y (Gap opts) else y in
      drawVertical opts n maxWidth (i + 1) rest y canvas
  end.

(** The column count of [combineGrid]:
    [cols = int(float64(len(images))*0.5 + 0.5)] when none is given. *)
Definition gridColumns (columns : Z) (count : Z) : Z :=
  if columns <=? 0
  then
    let cols := GoFloat.to_int (GoFloat.of_uint count * 0.5 + 0.5)%float in
    if cols <? 1 then 1 else cols
  else columns.

(** The loop of [combineGrid] that finds the cell size. *)
Fixpoint measureCells (images : list Image) (maxCellWidth maxCellHeight : Z) : Z * Z :=
  match images with
  | [] => (maxCellWidth, maxCellHeight)
  | img :: rest =>
      let bounds := Bounds img in
      let maxCellWidth := if Dx bounds >? maxCellWidth then Dx bounds else maxCellWidth in
      let maxCellHeight := if Dy bounds >? maxCellHeight then Dy bounds else maxCellHeight in
      measureCells rest maxCellWidth maxCellHeight
  end.

(** The drawing loop of [combineGrid]. *)
Fixpoint drawGrid (gap cols maxCellWidth maxCellHeight : Z) (i : Z)
  (images : list Image) (canvas : Canvas) : Canvas :=
  match images with
  | [] => canvas
  | img :: rest =>
      let row := GoInt.quo i cols in
      let col := GoInt.rem i cols in
      let bounds := Bounds img in
      let cellX := GoInt.mul col (GoInt.add maxCellWidth gap) in
      let cellY := GoInt.mul row (GoInt.add maxCellHeight gap) in
      let x := GoInt.add cellX (GoInt.quo (GoInt.sub maxCellWidth (Dx bounds)) 2) in
      let y := GoInt.add cellY (GoInt.quo (GoInt.sub maxCellHeight (Dy bounds)) 2) in
      let canvas :=
        draw_Draw canvas
          (Rect x y (GoInt.add x (Dx bounds)) (GoInt.add y (Dy bounds)))
          (SrcImage img) (Min bounds) Over in
      drawGrid gap cols maxCellWidth maxCellHeight (i + 1) rest canvas
  end.

(** [for i, path := range inputPaths { img, err := imaging.Open(path) ... }] *)
Fixpoint loadImages (open : string -> option Image) (paths : list string)
  : list Image + Error :=
  match paths with
  | [] => inl []
  | path :: rest =>
      match open path with
      | None => inr (ErrOpen path)
      | Some img =>
          match loadImages open rest with
          | inl imgs => inl (img :: imgs)
          | inr e => inr e
          end
      end
  end.

Section WithLibrary.
(** [strings.ToLower], [filepath.Dir], [imaging.Open] *)
Variable strings_ToLower : string -> string.
Variable filepath_Dir : string -> string.
Variable imaging_Open : FileSystem -> string -> option Image.

(** [fillBackground] *)
Definition fillBackground (canvas : Canvas) (bg : string) : Canvas :=
  let lower := strings_ToLower bg in
  let bgColor :=
    if String.eqb lower "transparent" || String.eqb lower "" then mkNRGBA 0 0 0 0
    else if String.eqb lower "white" then mkNRGBA 255 255 255 255
    else if String.eqb lower "black" then mkNRGBA 0 0 0 255
    else match Transparency.parseColor strings_ToLower bg with
         | Some c => mkNRGBA (cR c) (cG c) (cB c) (cA c)
         | None => mkNRGBA 0 0 0 0
         end in
  draw_Draw canvas (cv_bounds canvas) (SrcUniform bgColor) (mkPoint 0 0) Src.

(** [combineHorizontal] *)
Definition combineHorizontal (images : list Image) (opts : CombineOptions) : Canvas :=
  let '(totalWidth, maxHeight) := measureHorizontal (Gap opts) 0 images 0 0 in
  let canvas := NewCanvas (Rect 0 0 totalWidth maxHeight) in
  let canvas := fillBackground canvas (Background opts) in
  drawHorizontal opts (Z.of_nat (List.length images)) maxHeight 0 images 0 canvas.

(** [combineVertical] *)
Definition combineVertical (images : list Image) (opts : CombineOptions) : Canvas :=
  let '(maxWidth, totalHeight) := measureVertical (Gap opts) 0 images 0 0 in
  let canvas := NewCanvas (Rect 0 0 maxWidth totalHeight) in
  let canvas := fillBackground canvas (Background opts) in
  drawVertical opts (Z.of_nat (List.length images)) maxWidth 0 images 0 canvas.

(** [combineGrid] *)
Definition combineGrid (images : list Image) (opts : CombineOptions) : Canvas :=
  let count := Z.of_nat (List.length images) in
  let cols := gridColumns (Columns opts) count in
  let rows := GoInt.quo (GoInt.sub (GoInt.add count cols) 1) cols in
  let '(maxCellWidth, maxCellHeight) := measureCells images 0 0 in
  let totalWidth :=
    GoInt.add (GoInt.mul cols maxCellWidth) (GoInt.mul (GoInt.sub cols 1) (Gap opts)) in
  let totalHeight :=
    GoInt.add (GoInt.mul rows maxCellHeight) (GoInt.mul (GoInt.sub rows 1) (Gap opts)) in
  let canvas := NewCanvas (Rect 0 0 totalWidth totalHeight) in
  let canvas := fillBackground canvas (Background opts) in
  drawGrid (Gap opts) cols maxCellWidth maxCellHeight 0 images canvas.

(** [CombineImages]: the file system after the call, and what the call
    returns. *)
Definition CombineImages (env : Env) (fs : FileSystem)
  (inputPaths : list string) (outputPath : string) (opts : option CombineOptions)
  : FileSystem * (CombineResult + Error) :=
  if Z.of_nat (List.length inputPaths) <? 2 then (fs, inr ErrNotEnoughImages)
  else
    let opts := match opts with
                | None => mkCombineOptions "horizontal" 0 0 "center" "transparent"
                | Some o => o
                end in
    match loadImages (imaging_Open fs) inputPaths with
    | inr e => (fs, inr e)
    | inl images =>
        let layout :=
          if String.eqb (Direction opts) "horizontal"
          then inl (combineHorizontal images opts)
          else if String.eqb (Direction opts) "vertical"
          then inl (combineVertical images opts)
          else if String.eqb (Direction opts) "grid"
          then inl (combineGrid images opts)
          else inr (ErrInvalidDirection (Direction opts)) in
        match layout with
        | inr e => (fs, inr e)
        | inl result =>
            let dir := filepath_Dir outputPath in
            let made :=
              if negb (String.eqb dir "") && negb (String.eqb dir ".")
              then os_MkdirAll env fs dir
              else Some fs in
            match made with
            | None => (fs, inr ErrMkdir)
            | Some fs1 =>
                match os_Create env fs1 outputPath with
                | None => (fs1, inr ErrCreate)
                | Some fs2 =>
                    match png_Encode env fs2 outputPath (PicCanvas result) with
                    | None => (fs2, inr ErrEncode)
                    | Some fs3 =>
                        let bounds := cv_bounds result in
                        (fs3, inl (mkCombineResult (Dx bounds) (Dy bounds) "png"))
                    end
                end
            end
        end
    end.

End WithLibrary.

End Combine.

(** ** Transformation: [Transform], [applyCrop], [applyResize] *)

Module Transform.
Import Geom GoColor Raster FileSys GoStrings.

Record TransformOptions := mkTransformOptions
  { Resize : string; Fit : string; Crop : string;
    Rotate : Z; Flip : bool; Flop : bool }.

Record TransformResult := mkTransformResult
  { Width : Z; Height : Z; Format : string }.

Inductive CropError :=
| CropFormat     (* "invalid crop format, expected: left,top,width,height" *)
| CropLeft       (* "invalid left value: ..." *)
| CropTop        (* "invalid top value: ..." *)
| CropWidth      (* "invalid width value: ..." *)
| CropHeight.    (* "invalid height value: ..." *)

Inductive ResizeError :=
| ResizePercentage          (* "invalid percentage: ..." *)
| ResizeFormat              (* "invalid size format, expected: WxH or percentage" *)
| ResizeWidth               (* "invalid width: ..." *)
| ResizeHeight              (* "invalid height: ..." *)
| ResizeFit (fit : string). (* "invalid fit mode: %s (use: ...)" *)

Inductive Error :=
| ErrOpen                      (* "failed to open image: ..." *)
| ErrCrop (e : CropError)      (* "crop failed: ..." *)
| ErrResize (e : ResizeError)  (* "resize failed: ..." *)
| ErrMkdir                     (* "failed to create directory: ..." *)
| ErrSave.                     (* "failed to save image: ..." *)

(** [imaging.Lanczos], [imaging.Center] *)
Inductive ResampleFilter := Lanczos.
Inductive Anchor := Center.

(** [strings.TrimPrefix(s, ".")] *)
Definition TrimPrefixDot (s : string) : string :=
  if HasPrefix s "." then drop 1 s else s.

(** The library the package calls: [strings.TrimSpace],
    [strings.ToLower], [strconv.ParseFloat(s, 64)], [filepath.Dir],
    [filepath.Ext], [imaging.Open], [imaging.Save] (the file system it
    leaves, and whether it succeeded) and the pixel operations of
    [disintegration/imaging]. *)
Record Library := mkLibrary
  { strings_TrimSpace : string -> string;
    strings_ToLower : string -> string;
    strconv_ParseFloat : string -> option float;
    filepath_Dir : string -> string;
    filepath_Ext : string -> string;
    imaging_Open : FileSystem -> string -> option Image;
    imaging_Save : FileSystem -> Image -> string -> FileSystem * bool;
    imaging_Crop : Image -> Rectangle -> Image;
    imaging_Resize : Image -> Z -> Z -> ResampleFilter -> Image;
    imaging_Fit : Image -> Z -> Z -> ResampleFilter -> Image;
    imaging_Fill : Image -> Z -> Z -> Anchor -> ResampleFilter -> Image;
    imaging_Rotate : Image -> float -> NRGBA -> Image;
    imaging_FlipV : Image -> Image;
    imaging_FlipH : Image -> Image }.

Section WithLibrary.
Variable lib : Library.

(** [applyCrop] *)
Definition applyCrop (img : Image) (cropSpec : string) : Image + CropError :=
  match Split cropSpec "," with
  | [p0; p1; p2; p3] =>
      match Atoi (strings_TrimSpace lib p0) with
      | None => inr CropLeft
      | Some left_ =>
          match Atoi (strings_TrimSpace lib p1) with
          | None => inr CropTop
          | Some top_ =>
              match Atoi (strings_TrimSpace lib p2) with
              | None => inr CropWidth
              | Some width =>
                  match Atoi (strings_TrimSpace lib p3) with
                  | None => inr CropHeight
                  | Some height =>
                      inl (imaging_Crop lib img
                             (Rect left_ top_ (GoInt.add left_ width) (GoInt.add top_ height)))
                  end
              end
          end
      end
  | _ => inr CropFormat
  end.

(** The size [applyResize] reads from its specification. *)
Definition resizeTarget (origWidth origHeight : Z) (sizeSpec : string)
  : (Z * Z) + ResizeError :=
  if HasSuffixByte sizeSpec "%"
  then
    match strconv_ParseFloat lib (TrimSuffixByte sizeSpec "%") with
    | None => inr ResizePercentage
    | Some pct =>
        inl (GoFloat.to_int (GoFloat.of_int origWidth * pct / 100)%float,
             GoFloat.to_int (GoFloat.of_int origHeight * pct / 100)%float)
    end
  else
    match Split (strings_ToLower lib sizeSpec) "x" with
    | [p0; p1] =>
        match Atoi (strings_TrimSpace lib p0) with
        | None => inr ResizeWidth
        | Some width =>
            match Atoi (strings_TrimSpace lib p1) with
            | None => inr ResizeHeight
            | Some height => inl (width, height)
            end
        end
    | _ => inr ResizeFormat
    end.

(** [applyResize] *)
Definition applyResize (img : Image) (sizeSpec : string) (fit : string)
  : Image + ResizeError :=
  let bounds := Bounds img in
  let origWidth := Dx bounds in
  let origHeight := Dy bounds in
  match resizeTarget origWidth origHeight sizeSpec with
  | inr e => inr e
  | inl (width, height) =>
      if String.eqb fit "fill" then inl (imaging_Resize lib img width height Lanczos)
      else if String.eqb fit "contain" then inl (imaging_Fit lib img width height Lanczos)
      else if String.eqb fit "cover" then inl (imaging_Fill lib img width height Center Lanczos)
      else if String.eqb fit "inside" || String.eqb fit ""
      then inl (imaging_Fit lib img width height Lanczos)
      else if String.eqb fit "outside"
      then
        let aspectOrig := (GoFloat.of_int origWidth / GoFloat.of_int origHeight)%float in
        let aspectTarget := (GoFloat.of_int width / GoFloat.of_int height)%float in
        if PrimFloat.ltb aspectTarget aspectOrig
        then inl (imaging_Resize lib img 0 height Lanczos)
        else inl (imaging_Resize lib img width 0 Lanczos)
      else inr (ResizeFit fit)
  end.

(** [Transform]: the file system after the call, and what the call
    returns. *)
Definition Transform (env : Env) (fs : FileSystem)
  (inputPath outputPath : string) (opts : TransformOptions)
  : FileSystem * (TransformResult + Error) :=
  match imaging_Open lib fs inputPath with
  | None => (fs, inr ErrOpen)
  | Some src =>
      let result := src in
      (* 1. Crop *)
      match (if negb (String.eqb (Crop opts) "")
             then applyCrop result (Crop opts) else inl result) with
      | inr e => (fs, inr (ErrCrop e))
      | inl result =>
          (* 2. Resize *)
          match (if negb (String.eqb (Resize opts) "")
                 then applyResize result (Resize opts) (Fit opts) else inl result) with
          | inr e => (fs, inr (ErrResize e))
          | inl result =>
              (* 3. Rotate *)
              let result :=
                if negb (Rotate opts =? 0)
                then imaging_Rotate lib result (GoFloat.of_int (Rotate opts)) (mkNRGBA 0 0 0 0)
                else result in
              (* 4. Flip (vertical) *)
              let result := if Flip opts then imaging_FlipV lib result else result in
              (* 5. Flop (horizontal) *)
              let result := if Flop opts then imaging_FlipH lib result else result in
              let dir := filepath_Dir lib outputPath in
              let made :=
                if negb (String.eqb dir "") && negb (String.eqb dir ".")
                then os_MkdirAll env fs dir
                else Some fs in
              match made with
              | None => (fs, inr ErrMkdir)
              | Some fs1 =>
                  match imaging_Save lib fs1 result outputPath with
                  | (fs2, false) => (fs2, inr ErrSave)
                  | (fs2, true) =>
                      let bounds := Bounds result in
                      (fs2, inl (mkTransformResult (Dx bounds) (Dy bounds)
                                   (TrimPrefixDot (filepath_Ext lib outputPath))))
                  end
              end
          end
      end
  end.

End WithLibrary.

End Transform.

(** ** The [transform] command: [runTransform] *)

Module Cli.
Import Geom GoColor Raster FileSys.

(** The package-level flag variables of the command. *)
Record TransformFlags := mkTransformFlags
  { transformOutput : string; transformResize : string; transformFit : string;
    transformCrop : string; transformRotate : Z;
    transformFlip : bool; transformFlop : bool }.

(** What the formatter is asked to print, in order.  The timing of
    [f.Success] is wall-clock time and is left out. *)
Inductive Output :=
| OutError (command code message hint : string)
| OutTransformFailed (e : Transform.Error)   (* code TRANSFORM_FAILED, message err.Error() *)
| OutProgress (message : string)
| OutImageSaved (path : string) (width height : Z)
| OutSuccess (command : string) (result : Transform.TransformResult).

Inductive Error :=
| ErrNotExist                     (* the error of os.Stat *)
| ErrNoOperation                  (* "no operation specified" *)
| ErrInvalidRotation              (* "invalid rotation" *)
| ErrTransform (e : Transform.Error).

(** [_, err := os.Stat(path); os.IsNotExist(err)] *)
Definition notExist (fs : FileSystem) (path : string) : bool :=
  negb (bool_decide (is_Some (files fs !! path)) || bool_decide (path ∈ dirs fs)).

Section WithLibrary.
Variable lib : Transform.Library.

(** [runTransform]: the file system after the command, what it printed,
    and the error it returns ([None] for [nil]). *)
Definition runTransform (env : Env) (fs : FileSystem) (flags : TransformFlags)
  (inputPath : string) : FileSystem * list Output * option Error :=
  if notExist fs inputPath
  then (fs,
        [OutError "transform" "FILE_NOT_FOUND"
           ("Input file not found: " +:+ inputPath) ""],
        Some ErrNotExist)
  else if String.eqb (transformResize flags) "" && String.eqb (transformCrop flags) ""
          && (transformRotate flags =? 0)
          && negb (transformFlip flags) && negb (transformFlop flags)
  then (fs,
        [OutError "transform" "NO_OPERATION" "No transformation specified"
           "Use --resize, --crop, --rotate, --flip, or --flop"],
        Some ErrNoOperation)
  else if (transformRotate flags <? -360) || (transformRotate flags >? 360)
  then (fs,
        [OutError "transform" "INVALID_ROTATION"
           "Rotation must be between -360 and 360 degrees" ""],
        Some ErrInvalidRotation)
  else
    let progress := OutProgress "Transforming image..." in
    let opts :=
      Transform.mkTransformOptions
        (transformResize flags) (transformFit flags) (transformCrop flags)
        (transformRotate flags) (transformFlip flags) (transformFlop flags) in
    match Transform.Transform lib env fs inputPath (transformOutput flags) opts with
    | (fs', inr e) => (fs', [progress; OutTransformFailed e], Some (ErrTransform e))
    | (fs', inl result) =>
        (fs',
         [progress;
          OutImageSaved (transformOutput flags)
            (Transform.Width result) (Transform.Height result);
          OutSuccess "transform" result],
         None)
    end.

End WithLibrary.

End Cli.

(** ** The specification's vocabulary *)

Module Spec.
Import Geom GoColor Raster Draw FileSys.

(** *** Composition *)

Definition sumZ (l : list Z) : Z := foldr Z.add 0 l.
Definition maxZ (l : list Z) : Z := foldr Z.max 0 l.

Definition widths (images : list Image) : list Z := map (fun img => Dx (Bounds img)) images.
Definition heights (images : list Image) : list Z := map (fun img => Dy (Bounds img)) images.

(** The images a decoder hands over. *)
Definition wf_images (images : list Image) : Prop :=
  Forall (fun img => wf_rect (Bounds img)) images.

(** Image [img] drawn with its top-left corner at [(x, y)]. *)
Definition placed (img : Image) (x y : Z) : DrawCall :=
  mkDrawCall
    (mkRectangle (mkPoint x y)
       (mkPoint (x + Dx (Bounds img)) (y + Dy (Bounds img))))
    (SrcImage img) (Min (Bounds img)) Over.

(** The cross-axis offset of the alignment policy: [start], [end], and
    centred otherwise. *)
Definition crossOffset (align : string) (container item : Z) : Z :=
  if String.eqb align "start" then 0
  else if String.eqb align "end" then container - item
  else (container - item) / 2.

(** A row: images left to right from [x], [gap] between neighbours. *)
Fixpoint row (align : string) (gap height : Z) (x : Z) (images : list Image)
  : list DrawCall :=
  match images with
  | [] => []
  | img :: rest =>
      placed img x (crossOffset align height (Dy (Bounds img)))
      :: row align gap height (x + Dx (Bounds img) + gap) rest
  end.

(** A column: images top to bottom from [y], [gap] between neighbours. *)
Fixpoint column (align : string) (gap width : Z) (y : Z) (images : list Image)
  : list DrawCall :=
  match images with
  | [] => []
  | img :: rest =>
      placed img (crossOffset align width (Dx (Bounds img))) y
      :: column align gap width (y + Dy (Bounds img) + gap) rest
  end.

(** round(q), halves rounded up. *)
Definition round_half_up (q : Q) : Z := Qfloor (q + (1 # 2)).

(** ceil(a / b) *)
Definition ceil_div (a b : Z) : Z := Qceiling (inject_Z a / inject_Z b).

(** Image number [i] centred in its cell of a grid of [cols] columns. *)
Definition inCell (gap cols cellWidth cellHeight : Z) (i : nat) (img : Image) : DrawCall :=
  let r := Z.of_nat i / cols in
  let c := Z.of_nat i mod cols in
  placed img
    (c * (cellWidth + gap) + (cellWidth - Dx (Bounds img)) / 2)
    (r * (cellHeight + gap) + (cellHeight - Dy (Bounds img)) / 2).

(** A grid: the images from number [i] on, each in its cell. *)
Fixpoint cells (gap cols cellWidth cellHeight : Z) (i : nat) (images : list Image)
  : list DrawCall :=
  match images with
  | [] => []
  | img :: rest =>
      inCell gap cols cellWidth cellHeight i img
      :: cells gap cols cellWidth cellHeight (S i) rest
  end.

(** The options with another alignment. *)
Definition withAlign (opts : Combine.CombineOptions) (align : string) : Combine.CombineOptions :=
  Combine.mkCombineOptions (Combine.Direction opts) (Combine.Gap opts) (Combine.Columns opts)
    align (Combine.Background opts).

(** The grid extended by a trailing gap fits an [int], and so does the
    sum the row count is computed from. *)
Definition grid_fits (gap cols rows cellWidth cellHeight count : Z) : Prop :=
  count + cols <= GoInt.max_int /\
  cols * (cellWidth + gap) <= GoInt.max_int /\
  rows * (cellHeight + gap) <= GoInt.max_int.

(** *** Chroma key *)

(** [color.NRGBAModel.Convert]: the 8-bit, not alpha-premultiplied red,
    green, blue and alpha of a colour; this is what "the pixel's channel
    values" are. *)
Definition NRGBAModel (c : Color) : NRGBA :=
  match c with
  | ColorNRGBA c => c
  | _ =>
      let '(r, g, b, a) := Color_RGBA c in
      if a =? 65535
      then mkNRGBA (uint8 (Z.shiftr r 8)) (uint8 (Z.shiftr g 8)) (uint8 (Z.shiftr b 8)) 255
      else if a =? 0 then mkNRGBA 0 0 0 0
      else
        let r := uint32 (r * 65535) / a in
        let g := uint32 (g * 65535) / a in
        let b := uint32 (b * 65535) / a in
        mkNRGBA (uint8 (Z.shiftr r 8)) (uint8 (Z.shiftr g 8)) (uint8 (Z.shiftr b 8))
          (uint8 (Z.shiftr a 8))
  end.

(** The 8-bit values [MakeTransparent] reads from a pixel. *)
Definition read8 (pixel : Color) : NRGBA :=
  let '(r, g, b, a) := Color_RGBA pixel in
  mkNRGBA (uint8 (Z.shiftr r 8)) (uint8 (Z.shiftr g 8)) (uint8 (Z.shiftr b 8))
    (uint8 (Z.shiftr a 8)).

(** Colours whose fields hold values of their Go types. *)
Definition wf_color (c : Color) : Prop :=
  match c with
  | ColorNRGBA c => wf_NRGBA c
  | ColorRGBA c => is_uint8 (cR c) /\ is_uint8 (cG c) /\ is_uint8 (cB c) /\ is_uint8 (cA c)
  | ColorGray y => is_uint8 y
  | ColorRGBA64 r g b a =>
      0 <= r < 65536 /\ 0 <= g < 65536 /\ 0 <= b < 65536 /\ 0 <= a < 65536
  end.

(** A pixel is opaque when the alpha its colour reports is the maximum,
    and fully transparent when it is zero. *)
Definition alpha16 (c : Color) : Z := snd (Color_RGBA c).
Definition opaque (c : Color) : Prop := alpha16 c = 65535.
Definition fullyTransparent (c : Color) : Prop := alpha16 c = 0.

Definition wf_target (target : RGBA) : Prop :=
  is_uint8 (cR target) /\ is_uint8 (cG target) /\ is_uint8 (cB target).

(** (Δr)² + (Δg)² + (Δb)² *)
Definition squaredDistance (r g b : Z) (target : RGBA) : Z :=
  (r - cR target) * (r - cR target) + (g - cG target) * (g - cG target)
  + (b - cB target) * (b - cB target).

(** ((Δr)² + (Δg)² + (Δb)²) / 3 <= t / 100 * 255, over the rationals. *)
Definition withinTolerance (c : NRGBA) (target : RGBA) (t : Z) : Prop :=
  (inject_Z (squaredDistance (nR c) (nG c) (nB c) target) / 3
     <= inject_Z t / 100 * 255)%Q.

Definition sameRGB (c d : NRGBA) : Prop :=
  nR c = nR d /\ nG c = nG d /\ nB c = nB d.

(** *** Transformation *)

(** The operations of a transform request, in the order of the
    specification; the unset ones are absent. *)
Inductive Step :=
| StepCrop (spec : string)
| StepResize (spec fit : string)
| StepRotate (degrees : Z)
| StepFlip
| StepFlop.

Definition requested (opts : Transform.TransformOptions) : list Step :=
  (if String.eqb (Transform.Crop opts) "" then [] else [StepCrop (Transform.Crop opts)])
  ++ (if String.eqb (Transform.Resize opts) "" then []
      else [StepResize (Transform.Resize opts) (Transform.Fit opts)])
  ++ (if Transform.Rotate opts =? 0 then [] else [StepRotate (Transform.Rotate opts)])
  ++ (if Transform.Flip opts then [StepFlip] else [])
  ++ (if Transform.Flop opts then [StepFlop] else []).

Definition applyStep (lib : Transform.Library) (s : Step) (img : Image)
  : Image + Transform.Error :=
  match s with
  | StepCrop spec =>
      match Transform.applyCrop lib img spec with
      | inl img' => inl img'
      | inr e => inr (Transform.ErrCrop e)
      end
  | StepResize spec fit =>
      match Transform.applyResize lib img spec fit with
      | inl img' => inl img'
      | inr e => inr (Transform.ErrResize e)
      end
  | StepRotate degrees =>
      inl (Transform.imaging_Rotate lib img (GoFloat.of_int degrees) (mkNRGBA 0 0 0 0))
  | StepFlip => inl (Transform.imaging_FlipV lib img)
  | StepFlop => inl (Transform.imaging_FlipH lib img)
  end.

Fixpoint applySteps (lib : Transform.Library) (steps : list Step) (img : Image)
  : Image + Transform.Error :=
  match steps with
  | [] => inl img
  | s :: rest =>
      match applyStep lib s img with
      | inl img' => applySteps lib rest img'
      | inr e => inr e
      end
  end.

(** *** Crop specifications *)

Definition isDigit (c : ascii) : Prop := 48 <= GoStrings.byte_of c <= 57.

Fixpoint allDigits (s : string) : Prop :=
  match s with
  | EmptyString => True
  | String c s' => isDigit c /\ allDigits s'
  end.

(** The number a string of decimal digits denotes. *)
Fixpoint decimalValue (s : string) : Z :=
  match s with
  | EmptyString => 0
  | String c s' =>
      (GoStrings.byte_of c - 48) * 10 ^ Z.of_nat (String.length s') + decimalValue s'
  end.

(** [s] is the decimal literal of the [int] [z]: an optional sign and at
    least one digit. *)
Definition intLiteral (s : string) (z : Z) : Prop :=
  exists (sign body : string),
    s = sign +:+ body /\
    (sign = "" \/ sign = "+" \/ sign = "-") /\
    body <> "" /\ allDigits body /\
    z = (if String.eqb sign "-" then - decimalValue body else decimalValue body) /\
    GoInt.in_range z.

Definition isInt (s : string) : Prop := exists z, intLiteral s z.

Fixpoint commaFree (s : string) : Prop :=
  match s with
  | EmptyString => True
  | String c s' => c <> ","%char /\ commaFree s'
  end.

(** [spec] is [f0,f1,f2,f3]. *)
Definition fourFields (spec f0 f1 f2 f3 : string) : Prop :=
  spec = f0 +:+ "," +:+ f1 +:+ "," +:+ f2 +:+ "," +:+ f3 /\
  commaFree f0 /\ commaFree f1 /\ commaFree f2 /\ commaFree f3.

(** [f0,f1,...]: the fields with a comma between neighbours. *)
Fixpoint joinComma (fields : list string) : string :=
  match fields with
  | [] => ""
  | [f] => f
  | f :: rest => f +:+ "," +:+ joinComma rest
  end.

(** The end of a transformation: the output directory is created when
    the path names one, the raster is saved, and its width, its height and
    the format tag of the output path are reported. *)
Definition writeResult (lib : Transform.Library) (env : Env) (fs : FileSystem)
  (outputPath : string) (result : Image)
  : FileSystem * (Transform.TransformResult + Transform.Error) :=
  let dir := Transform.filepath_Dir lib outputPath in
  let made :=
    if negb (String.eqb dir "") && negb (String.eqb dir ".")
    then os_MkdirAll env fs dir
    else Some fs in
  match made with
  | None => (fs, inr Transform.ErrMkdir)
  | Some fs1 =>
      match Transform.imaging_Save lib fs1 result outputPath with
      | (fs2, false) => (fs2, inr Transform.ErrSave)
      | (fs2, true) =>
          (fs2, inl (Transform.mkTransformResult (Dx (Bounds result)) (Dy (Bounds result))
                       (Transform.TrimPrefixDot (Transform.filepath_Ext lib outputPath))))
      end
  end.

End Spec.

(** ** Exhaustive checks of the floating-point steps

    The pixel channels and the tolerance range over small intervals, so
    the roundings of [colorDistance] and of the threshold are settled by
    evaluation of the binary64 operations over the whole interval. *)

Module FloatCheck.

Fixpoint forall_int (n : nat) (i : int) (p : int -> bool) : bool :=
  match n with
  | O => true
  | S k => p i && forall_int k (Uint63.add i 1) p
  end.

(** [p 0 && p 1 && ... && p (n - 1)] *)
Definition forall_upto (n : Z) (p : int -> bool) : bool :=
  forall_int (Z.to_nat n) 0%uint63 p.

Definition F (i : int) : float := PrimFloat.of_uint63 i.

(** [(r - t) * (r - t)] is the float of the integer [(r - t)²]. *)
Definition square_ok (r t : int) : bool :=
  PrimFloat.Leibniz.eqb
    ((F r - F t) * (F r - F t))%float
    (F (Uint63.mul (Uint63.sub r t) (Uint63.sub r t))).

(** [a² + b² + c²] is added without rounding. *)
Definition sum_ok (a b c : int) : bool :=
  PrimFloat.Leibniz.eqb
    (F (Uint63.mul a a) + F (Uint63.mul b b) + F (Uint63.mul c c))%float
    (F (Uint63.add (Uint63.add (Uint63.mul a a) (Uint63.mul b b)) (Uint63.mul c c))).

(** [s / 3 <= t / 100 * 255] in binary64 is [100 * s <= 765 * t]. *)
Definition compare_ok (t s : int) : bool :=
  Bool.eqb (PrimFloat.leb (F s / 3)%float (F t / 100 * 255)%float)
           (Uint63.leb (Uint63.mul 100 s) (Uint63.mul 765 t)).

(** [v], widened to 16 bits and narrowed again, is [v]. *)
Definition narrow_ok (v : int) : bool :=
  let z := Uint63.to_Z v in
  (GoColor.uint8 (Z.shiftr (GoColor.widen z) 8) =? z)
  && (GoColor.uint8 (Z.shiftr (GoColor.uint32 (GoColor.widen z * 255) / 255) 8) =? z).

End FloatCheck.

(** ** Shifts of mantissas *)

Module FloatExact.

(** [m] shifted left by [k] bits ([m] itself when [k] is not positive). *)
Definition shlp (m : positive) (k : Z) : positive :=
  match k with
  | Zpos q => Pos.iter xO m q
  | _ => m
  end.

End FloatExact.

(** ** Concrete inputs for the examples *)

Module Example.
Import Geom GoColor Raster FileSys.

Definition pixelImage (c : GoColor.Color) : Image :=
  mkImage (mkRectangle (mkPoint 0 0) (mkPoint 1 1)) (fun _ _ => c).
Definition allowAll : Env := mkEnv (fun _ => true) (fun _ => true) (fun _ => true).
Definition emptyFS : FileSystem := mkFS ∅ ∅.
Definition here (path : string) : string := ".".
Definition openAs (img : Image) (fs : FileSystem) (path : string) : option Image := Some img.
Definition white : RGBA := mkRGBA 255 255 255 255.
(** An opaque grey image of the given size. *)
Definition blank (width height : Z) : Image :=
  mkImage (mkRectangle (mkPoint 0 0) (mkPoint width height)) (fun _ _ => ColorGray 128).
(** An environment in which writing to the output file fails. *)
Definition diskFull : Env := mkEnv (fun _ => true) (fun _ => true) (fun _ => false).

Definition twoImages : list Image := [blank 10 20; blank 30 15].
Definition fourImages : list Image := [blank 8 6; blank 8 6; blank 8 6; blank 8 6].

(** A library for the examples: white space is the ASCII one, no
    percentage parses, every path is in the current directory and has the
    extension [.png], and the pixel operations only set the bounds. *)
Definition isSpace (c : ascii) : bool :=
  let b := GoStrings.byte_of c in (b =? 32) || ((9 <=? b) && (b <=? 13)).

Fixpoint trimLeft (s : string) : string :=
  match s with
  | EmptyString => EmptyString
  | String c s' => if isSpace c then trimLeft s' else s
  end.

Fixpoint trimRight (s : string) : string :=
  match s with
  | EmptyString => EmptyString
  | String c s' =>
      match trimRight s' with
      | EmptyString => if isSpace c then EmptyString else String c EmptyString
      | t => String c t
      end
  end.

Definition resized (img : Image) (width height : Z) : Image :=
  mkImage (Rect 0 0 width height) (At img).

Definition exampleLib (src : Image) : Transform.Library :=
  Transform.mkLibrary
    (fun s => trimRight (trimLeft s))
    id
    (fun _ => None)
    here
    (fun _ => ".png")
    (openAs src)
    (fun fs _ path => (mkFS (<[ path := Bytes "image" ]> (files fs)) (dirs fs), true))
    (fun img r => mkImage r (At img))
    (fun img w h _ => resized img w h)
    (fun img w h _ => resized img w h)
    (fun img w h _ _ => resized img w h)
    (fun img _ _ => img)
    (fun img => mkImage (Bounds img) (fun x y => At img x (- y)))
    (fun img => mkImage (Bounds img) (fun x y => At img (- x) y)).

(** A request without any operation, and a file system with one file. *)
Definition noFlags : Cli.TransformFlags := Cli.mkTransformFlags "out.png" "" "inside" "" 0 false false.
Definition oneFile : FileSystem := mkFS {[ "in.png" := Bytes "image" ]} ∅.

End Example.

(** ** Rectangles of a layout *)

Module Layout.
Import Geom Draw Combine.

(** Every point of [r] is a point of [s] ([r.In(s)] for a non-empty [r]). *)
Definition within (r s : Rectangle) : Prop :=
  X (Min s) <= X (Min r) /\ X (Max r) <= X (Max s) /\
  Y (Min s) <= Y (Min r) /\ Y (Max r) <= Y (Max s).

(** [r] and [s] have no point in common: one ends where or before the
    other starts. *)
Definition apart (r s : Rectangle) : Prop :=
  X (Max r) <= X (Min s) \/ X (Max s) <= X (Min r) \/
  Y (Max r) <= Y (Min s) \/ Y (Max s) <= Y (Min r).

(** The cell of image number [i] in a grid of [cols] columns. *)
Definition cellRect (gap cols cellWidth cellHeight : Z) (i : nat) : Rectangle :=
  let r := Z.of_nat i / cols in
  let c := Z.of_nat i mod cols in
  mkRectangle (mkPoint (c * (cellWidth + gap)) (r * (cellHeight + gap)))
              (mkPoint (c * (cellWidth + gap) + cellWidth) (r * (cellHeight + gap) + cellHeight)).

(** The options with another background. *)
Definition withBackground (opts : CombineOptions) (bg : string) : CombineOptions :=
  mkCombineOptions (Direction opts) (Gap opts) (Columns opts) (Align opts) bg.

End Layout.

(** ** More of Go's [strings], [strconv] and [fmt] *)

Module GoText.
Import GoStrings.

Definition ascii_of_byte (b : Z) : ascii := Ascii.ascii_of_N (Z.to_N b).

(** Every byte is below [utf8.RuneSelf]. *)
Fixpoint isASCII (s : string) : bool :=
  match s with
  | EmptyString => true
  | String c s' => (byte_of c <? 128) && isASCII s'
  end.

(** [strings.ToLower] on an ASCII string: the bytes ['A'] to ['Z'] are
    moved to ['a'] to ['z'], the others stay. *)
Definition lowerByte (c : ascii) : ascii :=
  let b := byte_of c in
  if (65 <=? b) && (b <=? 90) then ascii_of_byte (b + 32) else c.

Fixpoint lowerASCII (s : string) : string :=
  match s with
  | EmptyString => EmptyString
  | String c s' => String (lowerByte c) (lowerASCII s')
  end.

(** The decimal digits of a non-negative number, most significant first,
    in front of [acc]; [fuel] bounds the number of digits. *)
Fixpoint utoa (fuel : nat) (n : Z) (acc : string) : string :=
  match fuel with
  | O => acc
  | S k =>
      let acc' := String (ascii_of_byte (48 + n mod 10)) acc in
      if n <? 10 then acc' else utoa k (n / 10) acc'
  end.

(** [strconv.Itoa], and [%d] of [fmt.Sprintf] for an [int]: an [int] has
    at most 19 digits. *)
Definition Itoa (i : Z) : string :=
  if i <? 0 then String "-" (utoa 20 (- i) EmptyString) else utoa 20 i EmptyString.

(** One digit of [%X]. *)
Definition hexDigitUpper (d : Z) : ascii :=
  if d <? 10 then ascii_of_byte (48 + d) else ascii_of_byte (55 + d).

(** [%02X] of a [uint8]: two upper-case hexadecimal digits. *)
Definition fmt02X (v : Z) : string :=
  String (hexDigitUpper (v / 16)) (String (hexDigitUpper (v mod 16)) EmptyString).

(** [strings.Contains(s, substr)] *)
Fixpoint Contains (s substr : string) : bool :=
  HasPrefix s substr
  || match s with
     | EmptyString => false
     | String _ s' => Contains s' substr
     end.

(** [strings.TrimPrefix(s, prefix)] *)
Definition TrimPrefix (s prefix : string) : string :=
  if HasPrefix s prefix then drop (String.length prefix) s else s.

(** [s[lo:hi]]: Go panics unless [0 <= lo <= hi <= len(s)]; [None] is the
    panic. *)
Definition sliceChecked (s : string) (lo hi : Z) : option string :=
  if (0 <=? lo) && (lo <=? hi) && (hi <=? Z.of_nat (String.length s))
  then Some (slice (Z.to_nat lo) (Z.to_nat hi) s)
  else None.

End GoText.

(** ** Transparency analysis: [InspectTransparency] *)

Module Inspect.
Import Geom GoColor Raster FileSys GoStrings GoText.

Record InspectionResult := mkInspectionResult
  { HasAlphaChannel : bool;
    TransparentPixelPercent : float;
    Format : string;
    Width : Z;
    Height : Z;
    DominantBackgroundColor : string;
    Recommendation : string }.

Inductive Error :=
| ErrOpen      (* "failed to open image: ..." *)
| ErrDecode.   (* "failed to decode image: ..." *)

(** A [color.RGBA] as a map key: its four fields. *)
Definition Key : Type := Z * Z * Z * Z.
Definition keyOf (c : RGBA) : Key := (cR c, cG c, cB c, cA c).
Definition colorOf (k : Key) : RGBA :=
  let '(r, g, b, a) := k in mkRGBA r g b a.

(** The variables of the pixel loops. *)
Record Scan := mkScan
  { transparentCount : Z; colorCounts : gmap Key Z; hasAlpha : bool }.

(** [x == bounds.Min.X || x == bounds.Max.X-1 || y == bounds.Min.Y ||
    y == bounds.Max.Y-1] *)
Definition onEdge (bounds : Rectangle) (x y : Z) : bool :=
  (x =? X (Min bounds)) || (x =? GoInt.sub (X (Max bounds)) 1)
  || (y =? Y (Min bounds)) || (y =? GoInt.sub (Y (Max bounds)) 1).

(** [colorCounts[c]++] *)
Definition increment (c : Key) (m : gmap Key Z) : gmap Key Z :=
  <[ c := GoInt.add (default 0 (m !! c)) 1 ]> m.

(** The body of the pixel loops. *)
Definition scanPixel (bounds : Rectangle) (x y : Z) (pixel : GoColor.Color) (s : Scan) : Scan :=
  let '(r, g, b, a) := Color_RGBA pixel in
  let r8 := uint8 (Z.shiftr r 8) in
  let g8 := uint8 (Z.shiftr g 8) in
  let b8 := uint8 (Z.shiftr b 8) in
  let a8 := uint8 (Z.shiftr a 8) in
  let s :=
    if a8 <? 255
    then mkScan (if a8 <? 128 then GoInt.add (transparentCount s) 1 else transparentCount s)
                (colorCounts s) true
    else s in
  if onEdge bounds x y
  then mkScan (transparentCount s) (increment (keyOf (mkRGBA r8 g8 b8 255)) (colorCounts s))
              (hasAlpha s)
  else s.

(** The two nested loops. *)
Definition scanImage (img : Image) : Scan :=
  let bounds := Bounds img in
  Loop.for_loop (Y (Min bounds)) (Y (Max bounds))
    (fun y s =>
       Loop.for_loop (X (Min bounds)) (X (Max bounds))
         (fun x s => scanPixel bounds x y (At img x y) s)
         s)
    (mkScan 0 ∅ false).

(** [for c, count := range colorCounts { if count > maxCount { ... } }]
    over the entries in the order the map yields them. *)
Fixpoint dominantOf (entries : list (Key * Z)) (dominantColor : RGBA) (maxCount : Z)
  : RGBA * Z :=
  match entries with
  | [] => (dominantColor, maxCount)
  | (c, count) :: rest =>
      if count >? maxCount then dominantOf rest (colorOf c) count
      else dominantOf rest dominantColor maxCount
  end.

(** [fmt.Sprintf("#%02X%02X%02X", ...)], then the two names. *)
Definition dominantColorStr (dominantColor : RGBA) : string :=
  if (cR dominantColor =? 255) && (cG dominantColor =? 255) && (cB dominantColor =? 255)
  then "white"
  else if (cR dominantColor =? 0) && (cG dominantColor =? 0) && (cB dominantColor =? 0)
  then "black"
  else "#" +:+ fmt02X (cR dominantColor) +:+ fmt02X (cG dominantColor)
           +:+ fmt02X (cB dominantColor).

Definition recommend (hasAlpha : bool) (transparentPercent : float)
  (dominantColorStr : string) : string :=
  if negb hasAlpha
  then "Image has no alpha channel. Use 'nanobanana transparent make' with --color "
       +:+ dominantColorStr +:+ " to add transparency."
  else if PrimFloat.ltb transparentPercent 1
  then "Image has alpha channel but very few transparent pixels. Background removal may not have been applied."
  else "Image already has transparency.".

Section WithLibrary.
(** [os.Open], [image.Decode] (the image and the name of its format), and
    the order in which [range] yields the entries of a map, which Go leaves
    unspecified. *)
Variable os_Open : FileSystem -> string -> option FileData.
Variable image_Decode : FileData -> option (Image * string).
Variable map_range : gmap Key Z -> list (Key * Z).

(** [InspectTransparency] *)
Definition InspectTransparency (fs : FileSystem) (inputPath : string)
  : InspectionResult + Error :=
  match os_Open fs inputPath with
  | None => inr ErrOpen
  | Some file =>
      match image_Decode file with
      | None => inr ErrDecode
      | Some (img, format) =>
          let bounds := Bounds img in
          let width := Dx bounds in
          let height := Dy bounds in
          let totalPixels := GoInt.mul width height in
          let scan := scanImage img in
          let '(dominantColor, _) :=
            dominantOf (map_range (colorCounts scan)) (mkRGBA 0 0 0 0) 0 in
          let dominantColorStr := dominantColorStr dominantColor in
          let transparentPercent :=
            (GoFloat.of_int (transparentCount scan) / GoFloat.of_int totalPixels * 100)%float in
          inl (mkInspectionResult (hasAlpha scan) transparentPercent format width height
                 dominantColorStr
                 (recommend (hasAlpha scan) transparentPercent dominantColorStr))
      end
  end.

End WithLibrary.

End Inspect.

(** ** The vocabulary of the further properties *)

Module Vocabulary.
Import Geom GoColor Raster GoStrings GoText Inspect.

(** The value of a hexadecimal digit, upper or lower case. *)
Definition hexValue (c : ascii) (v : Z) : Prop :=
  let b := byte_of c in
  (48 <= b <= 57 /\ v = b - 48) \/ (97 <= b <= 102 /\ v = b - 87)
  \/ (65 <= b <= 70 /\ v = b - 55).

(** Two hexadecimal digits and the byte they denote. *)
Definition hexPair (hi lo : ascii) (v : Z) : Prop :=
  exists h l, hexValue hi h /\ hexValue lo l /\ v = 16 * h + l.

(** [body] is [RRGGBB], the colour [c] with full alpha. *)
Definition hexColor (body : string) (c : RGBA) : Prop :=
  exists r1 r2 g1 g2 b1 b2,
    body = String r1 (String r2 (String g1 (String g2 (String b1 (String b2 EmptyString)))))
    /\ hexPair r1 r2 (cR c) /\ hexPair g1 g2 (cG c) /\ hexPair b1 b2 (cB c) /\ cA c = 255.

(** The method [At] of an [image.NRGBA]: the raster read as an
    [image.Image]. *)
Definition asImage (m : NRGBAImage) : Image :=
  mkImage (nBounds m) (fun x y => ColorNRGBA (NRGBAAt m x y)).

(** The points of a rectangle, row by row. *)
Definition pixels (r : Rectangle) : list (Z * Z) :=
  List.concat (map (fun y => map (fun x => (x, y)) (seqZ (X (Min r)) (X (Max r) - X (Min r))))
              (seqZ (Y (Min r)) (Y (Max r) - Y (Min r)))).

(** The 8-bit colour and alpha [InspectTransparency] reads at a point. *)
Definition alpha8 (img : Image) (p : Z * Z) : Z := nA (Spec.read8 (At img p.1 p.2)).
Definition colour8 (img : Image) (p : Z * Z) : Key :=
  let c := Spec.read8 (At img p.1 p.2) in (nR c, nG c, nB c, 255).

(** How many of the points satisfy [f]. *)
Definition countIf {A : Type} (f : A -> bool) (l : list A) : Z :=
  Z.of_nat (List.length (List.filter f l)).

(** The number of edge pixels of the 8-bit colour [c]. *)
Definition edgeCount (img : Image) (c : Key) : Z :=
  countIf (fun p => onEdge (Bounds img) p.1 p.2 && bool_decide (colour8 img p = c))
          (pixels (Bounds img)).

(** What the loop variables hold after the points [l]. *)
Definition scanned (img : Image) (l : list (Z * Z)) (s : Scan) : Prop :=
  transparentCount s = countIf (fun p => alpha8 img p <? 128) l /\
  hasAlpha s = existsb (fun p => alpha8 img p <? 255) l /\
  forall c : Key,
    colorCounts s !! c =
      let n := countIf (fun p => onEdge (Bounds img) p.1 p.2 && bool_decide (colour8 img p = c)) l in
      if n =? 0 then None else Some n.

End Vocabulary.

(** ** White space and suffixes *)

Module GoTrim.
Import GoStrings GoText.

(** The ASCII white space of [strings.TrimSpace]: tab, line feed, vertical
    tab, form feed, carriage return and space. *)
Definition isSpaceByte (c : ascii) : bool :=
  let b := byte_of c in (b =? 32) || ((9 <=? b) && (b <=? 13)).

Fixpoint trimLeftASCII (s : string) : string :=
  match s with
  | EmptyString => EmptyString
  | String c s' => if isSpaceByte c then trimLeftASCII s' else s
  end.

Fixpoint trimRightASCII (s : string) : string :=
  match s with
  | EmptyString => EmptyString
  | String c s' =>
      match trimRightASCII s' with
      | EmptyString => if isSpaceByte c then EmptyString else String c EmptyString
      | t => String c t
      end
  end.

(** [strings.TrimSpace] on an ASCII string. *)
Definition trimSpaceASCII (s : string) : string := trimRightASCII (trimLeftASCII s).

(** [strings.HasSuffix(s, suffix)] *)
Definition HasSuffix (s suffix : string) : bool :=
  (String.length suffix <=? String.length s)%nat
  && String.eqb (drop (String.length s - String.length suffix) s) suffix.

(** [strings.TrimSuffix(s, suffix)] *)
Definition TrimSuffix (s suffix : string) : string :=
  if HasSuffix s suffix
  then slice 0 (String.length s - String.length suffix) s
  else s.

End GoTrim.

(** ** The file names and requests the commands build *)

Module Requests.
Import GoStrings GoText GoTrim Transform.

(** [runIcon]: the request for one size,
    [&image.TransformOptions{Resize: fmt.Sprintf("%dx%d", size, size), Fit: "cover"}]. *)
Definition iconTransformOptions (size : Z) : TransformOptions :=
  mkTransformOptions (Itoa size +:+ "x" +:+ Itoa size) "cover" "" 0 false false.

(** [runGenerate]: the path image number [i] of [n] is saved to. *)
Definition savePath (filepath_Ext : string -> string) (outputPath : string) (n i : Z) : string :=
  if n >? 1
  then
    let ext := filepath_Ext outputPath in
    let base := TrimSuffix outputPath ext in
    base +:+ "_" +:+ Itoa (GoInt.add i 1) +:+ ext
  else outputPath.

End Requests.

(** ** Fields and separators *)

Module Fields.

(** No character of [s] is the separator. *)
Fixpoint sepFree (sep : ascii) (s : string) : Prop :=
  match s with
  | EmptyString => True
  | String c s' => c <> sep /\ sepFree sep s'
  end.

(** The fields with the separator between neighbours. *)
Fixpoint joinWith (sep : ascii) (fields : list string) : string :=
  match fields with
  | [] => ""
  | [f] => f
  | f :: rest => f +:+ String sep (joinWith sep rest)
  end.

(** [s] is [f0], an [x], and [f1], and neither field holds an [x]. *)
Definition twoFields (s f0 f1 : string) : Prop :=
  s = f0 +:+ "x" +:+ f1 /\ sepFree "x" f0 /\ sepFree "x" f1.

(** The characters of a decimal numeral: the digits and the minus sign. *)
Definition plainChar (c : ascii) : Prop := Spec.isDigit c \/ c = "-"%char.

Fixpoint allPlain (s : string) : Prop :=
  match s with
  | EmptyString => True
  | String c s' => plainChar c /\ allPlain s'
  end.

End Fields.

(** ** Package [output]: the formatter *)

Module Output.
Import GoText.

Record ErrorInfo := mkErrorInfo { Code : string; Message : string; Hint : string }.
Record Timing := mkTiming { APICallMs : Z; TotalMs : Z }.
Record ImageSize := mkImageSize { SizeWidth : Z; SizeHeight : Z }.
Record ImageResult := mkImageResult
  { Path : string; Size : option ImageSize; Format : string }.

(** [Response], over the type of the data a command reports. *)
Record Response (D : Type) := mkResponse
  { Success : bool; Command : string; Data : option D;
    Error : option ErrorInfo; ResponseTiming : option Timing }.
Arguments mkResponse {D}.
Arguments Success {D}.
Arguments Command {D}.
Arguments Data {D}.
Arguments Error {D}.
Arguments ResponseTiming {D}.

Record Formatter := mkFormatter { JSONMode : bool; Quiet : bool; NoColor : bool }.

(** What a command writes: text to one of the two streams, or a response
    that [json.NewEncoder(os.Stdout)] encodes. *)
Inductive Event (D : Type) :=
| ToStdout (text : string)
| ToStderr (text : string)
| JSONToStdout (resp : Response D).
Arguments ToStdout {D}.
Arguments ToStderr {D}.
Arguments JSONToStdout {D}.

(** The attributes of [fatih/color] the formatter uses. *)
Inductive Attribute := FgGreen | FgRed | FgYellow | FgCyan | Faint.

(** The bytes of the check mark, of the arrow and of a line feed. *)
Definition checkMark : string :=
  String (ascii_of_byte 226) (String (ascii_of_byte 156) (String (ascii_of_byte 147) "")).
Definition arrow : string :=
  String (ascii_of_byte 226) (String (ascii_of_byte 134) (String (ascii_of_byte 146) "")).
Definition newline : string := String (ascii_of_byte 10) "".

(** The calls a command makes on its formatter; [Info] and [Progress] are
    given the text they format. *)
Inductive Call (D : Type) :=
| CallSuccess (command : string) (data : D) (timing : option Timing)
| CallError (command code message hint : string)
| CallInfo (text : string)
| CallProgress (text : string)
| CallImageSaved (path : string) (width height : Z).
Arguments CallSuccess {D}.
Arguments CallError {D}.
Arguments CallInfo {D}.
Arguments CallProgress {D}.
Arguments CallImageSaved {D}.

Section WithColor.
(** [color.New(attribute).SprintFunc()] *)
Variable paint : Attribute -> string -> string.
Context {D : Type}.

(** [Formatter.Success] *)
Definition Formatter_Success (f : Formatter) (command : string) (data : D)
  (timing : option Timing) : list (Event D) :=
  if JSONMode f
  then [JSONToStdout (mkResponse true command (Some data) None timing)]
  else if negb (Quiet f)
  then [ToStdout (paint FgGreen checkMark +:+ " " +:+ "Success" +:+ newline)]
  else [].

(** [Formatter.Error] *)
Definition Formatter_Error (f : Formatter) (command code message hint : string)
  : list (Event D) :=
  if JSONMode f
  then [JSONToStdout
          (mkResponse false command None (Some (mkErrorInfo code message hint)) None)]
  else
    ToStderr (paint FgRed "Error:" +:+ " [" +:+ code +:+ "] " +:+ message +:+ newline)
    :: (if negb (String.eqb hint "")
        then [ToStderr (paint FgYellow "Hint:" +:+ " " +:+ hint +:+ newline)]
        else []).

(** [Formatter.Info] *)
Definition Formatter_Info (f : Formatter) (text : string) : list (Event D) :=
  if JSONMode f || Quiet f then [] else [ToStdout (text +:+ newline)].

(** [Formatter.Progress] *)
Definition Formatter_Progress (f : Formatter) (text : string) : list (Event D) :=
  if JSONMode f || Quiet f then []
  else [ToStdout (paint FgCyan arrow +:+ " " +:+ text +:+ newline)].

(** [Formatter.ImageSaved] *)
Definition Formatter_ImageSaved (f : Formatter) (path : string) (width height : Z)
  : list (Event D) :=
  if JSONMode f || Quiet f then []
  else [ToStdout (paint FgGreen checkMark +:+ " Saved: " +:+ path +:+ " "
                  +:+ paint Faint ("(" +:+ Itoa width +:+ "x" +:+ Itoa height +:+ ")")
                  +:+ newline)].

Definition perform (f : Formatter) (c : Call D) : list (Event D) :=
  match c with
  | CallSuccess command data timing => Formatter_Success f command data timing
  | CallError command code message hint => Formatter_Error f command code message hint
  | CallInfo text => Formatter_Info f text
  | CallProgress text => Formatter_Progress f text
  | CallImageSaved path width height => Formatter_ImageSaved f path width height
  end.

(** Everything a sequence of calls writes. *)
Definition written (f : Formatter) (calls : list (Call D)) : list (Event D) :=
  List.concat (map (perform f) calls).

End WithColor.

End Output.

(** ** The [combine] and [transparent make] commands *)

Module Commands.
Import Geom GoColor Raster FileSys GoStrings GoText Output.

(** The data a command reports on success. *)
Inductive Data :=
| TransformData (input output : string) (image : ImageResult)
    (resize fit crop : string) (rotate : Z) (flip flop : bool)
| CombineData (inputs : list string) (output : string) (image : ImageResult)
    (direction : string) (gap columns : Z) (align background : string)
| TransparentMakeData (input output : string) (image : ImageResult)
    (color : string) (tolerance : Z).

(** The flag variables of [combine]. *)
Record CombineFlags := mkCombineFlags
  { combineOutput : string; combineDirection : string; combineGap : Z;
    combineColumns : Z; combineAlign : string; combineBackground : string }.

Inductive CombineError :=
| ErrBadPattern                       (* the error of filepath.Glob *)
| ErrNotExist                         (* the error of os.Stat *)
| ErrNotEnoughImages                  (* "not enough images" *)
| ErrInvalidDirection                 (* "invalid direction" *)
| ErrInvalidGap                       (* "invalid gap" *)
| ErrCombineFailed (e : Combine.Error).

(** The flag variables of [transparent make]. *)
Record TransparentMakeFlags := mkTransparentMakeFlags
  { transparentMakeOutput : string; transparentMakeColor : string;
    transparentMakeTolerance : Z; transparentMakeOverwrite : bool }.

Inductive TransparentMakeError :=
| ErrInputNotExist                    (* the error of os.Stat *)
| ErrInvalidTolerance                 (* "invalid tolerance" *)
| ErrTransparencyFailed (e : Transparency.Error).

(** What a command does: it returns, or a slice expression panics. *)
Inductive Outcome (E : Type) :=
| Returned (fs : FileSystem) (calls : list (Call Data)) (err : option E)
| Panicked.
Arguments Returned {E}.
Arguments Panicked {E}.

(** The output path [runTransparentMake] chooses; [None] when a slice
    expression is out of range. *)
Definition transparentOutputPath (flags : TransparentMakeFlags) (inputPath : string)
  : option string :=
  if negb (String.eqb (transparentMakeOutput flags) "")
  then Some (transparentMakeOutput flags)
  else if transparentMakeOverwrite flags then Some inputPath
  else
    let n := Z.of_nat (String.length inputPath) in
    match sliceChecked inputPath 0 (n - 4) with
    | None => None
    | Some stem =>
        match sliceChecked inputPath (n - 4) n with
        | None => None
        | Some tail =>
            if negb (String.eqb tail ".png")
            then Some (inputPath +:+ "_transparent.png")
            else Some (stem +:+ "_transparent.png")
        end
    end.

Section WithLibrary.
(** [strings.ToLower], [filepath.Dir], [imaging.Open]; [filepath.Glob]
    ([None] for [ErrBadPattern]); the text of an error; and the
    milliseconds [time.Since] measures. *)
Variable strings_ToLower : string -> string.
Variable filepath_Dir : string -> string.
Variable imaging_Open : FileSystem -> string -> option Image.
Variable filepath_Glob : FileSystem -> string -> option (list string).
Variable combineErrorText : Combine.Error -> string.
Variable transparencyErrorText : Transparency.Error -> string.
Variable elapsedMs : Z.

(** The first loop of [runCombine]: glob patterns are expanded, other
    arguments have to exist. *)
Fixpoint expandArgs (fs : FileSystem) (args inputPaths : list string)
  : list string + (Call Data * CombineError) :=
  match args with
  | [] => inl inputPaths
  | arg :: rest =>
      match filepath_Glob fs arg with
      | None =>
          inr (CallError "combine" "INVALID_PATTERN" ("Invalid glob pattern: " +:+ arg) "",
               ErrBadPattern)
      | Some matches =>
          if Nat.eqb (List.length matches) 0
          then
            if Cli.notExist fs arg
            then inr (CallError "combine" "FILE_NOT_FOUND"
                        ("Input file not found: " +:+ arg) "",
                      ErrNotExist)
            else expandArgs fs rest (inputPaths ++ [arg])
          else expandArgs fs rest (inputPaths ++ matches)
      end
  end.

(** [runCombine] *)
Definition runCombine (env : Env) (fs : FileSystem) (flags : CombineFlags)
  (args : list string) : FileSystem * list (Call Data) * option CombineError :=
  match expandArgs fs args [] with
  | inr (call, e) => (fs, [call], Some e)
  | inl inputPaths =>
      if Z.of_nat (List.length inputPaths) <? 2
      then (fs,
            [CallError "combine" "NOT_ENOUGH_IMAGES" "At least 2 images are required"
               "Provide multiple image paths or use glob patterns like *.png"],
            Some ErrNotEnoughImages)
      else if negb (String.eqb (combineDirection flags) "horizontal"
                    || String.eqb (combineDirection flags) "vertical"
                    || String.eqb (combineDirection flags) "grid")
      then (fs,
            [CallError "combine" "INVALID_DIRECTION"
               ("Invalid direction: " +:+ combineDirection flags)
               "Use: horizontal, vertical, or grid"],
            Some ErrInvalidDirection)
      else if combineGap flags <? 0
      then (fs,
            [CallError "combine" "INVALID_GAP" "Gap cannot be negative" ""],
            Some ErrInvalidGap)
      else
        let progress :=
          CallProgress ("Combining " +:+ Itoa (Z.of_nat (List.length inputPaths))
                        +:+ " images (" +:+ combineDirection flags +:+ ")...") in
        let opts :=
          Combine.mkCombineOptions (combineDirection flags) (combineGap flags)
            (combineColumns flags) (combineAlign flags) (combineBackground flags) in
        match Combine.CombineImages strings_ToLower filepath_Dir imaging_Open
                env fs inputPaths (combineOutput flags) (Some opts) with
        | (fs', inr e) =>
            (fs',
             [progress; CallError "combine" "COMBINE_FAILED" (combineErrorText e) ""],
             Some (ErrCombineFailed e))
        | (fs', inl result) =>
            (fs',
             [progress;
              CallImageSaved (combineOutput flags)
                (Combine.Width result) (Combine.Height result);
              CallSuccess "combine"
                (CombineData inputPaths (combineOutput flags)
                   (mkImageResult (combineOutput flags)
                      (Some (mkImageSize (Combine.Width result) (Combine.Height result)))
                      (Combine.Format result))
                   (combineDirection flags) (combineGap flags) (combineColumns flags)
                   (combineAlign flags) (combineBackground flags))
                (Some (mkTiming 0 elapsedMs))],
             None)
        end
  end.

(** [runTransparentMake] *)
Definition runTransparentMake (env : Env) (fs : FileSystem) (flags : TransparentMakeFlags)
  (inputPath : string) : Outcome TransparentMakeError :=
  if Cli.notExist fs inputPath
  then Returned fs
         [CallError "transparent make" "FILE_NOT_FOUND"
            ("Input file not found: " +:+ inputPath) ""]
         (Some ErrInputNotExist)
  else
    match transparentOutputPath flags inputPath with
    | None => Panicked
    | Some outputPath =>
        if (transparentMakeTolerance flags <? 0) || (transparentMakeTolerance flags >? 100)
        then Returned fs
               [CallError "transparent make" "INVALID_TOLERANCE"
                  "Tolerance must be between 0 and 100" ""]
               (Some ErrInvalidTolerance)
        else
          let progress :=
            CallProgress ("Removing " +:+ transparentMakeColor flags +:+ " background...") in
          let opts :=
            Transparency.mkTransparencyOptions
              (transparentMakeColor flags) (transparentMakeTolerance flags) in
          match Transparency.MakeTransparent strings_ToLower filepath_Dir imaging_Open
                  env fs inputPath outputPath (Some opts) with
          | (fs', inr e) =>
              Returned fs'
                [progress;
                 CallError "transparent make" "TRANSPARENCY_FAILED"
                   (transparencyErrorText e) ""]
                (Some (ErrTransparencyFailed e))
          | (fs', inl result) =>
              Returned fs'
                [progress;
                 CallImageSaved outputPath
                   (Transparency.Width result) (Transparency.Height result);
                 CallSuccess "transparent make"
                   (TransparentMakeData inputPath outputPath
                      (mkImageResult outputPath
                         (Some (mkImageSize (Transparency.Width result)
                                  (Transparency.Height result)))
                         "png")
                      (transparentMakeColor flags) (transparentMakeTolerance flags))
                   (Some (mkTiming 0 elapsedMs))]
                None
          end
    end.

(** The formatter calls of [runTransform], from what it prints. *)
Variable transformErrorText : Transform.Error -> string.

Definition transformCall (flags : Cli.TransformFlags) (inputPath : string)
  (o : Cli.Output) : Call Data :=
  match o with
  | Cli.OutError command code message hint => CallError command code message hint
  | Cli.OutTransformFailed e =>
      CallError "transform" "TRANSFORM_FAILED" (transformErrorText e) ""
  | Cli.OutProgress message => CallProgress message
  | Cli.OutImageSaved path width height => CallImageSaved path width height
  | Cli.OutSuccess command result =>
      CallSuccess command
        (TransformData inputPath (Cli.transformOutput flags)
           (mkImageResult (Cli.transformOutput flags)
              (Some (mkImageSize (Transform.Width result) (Transform.Height result)))
              (Transform.Format result))
           (Cli.transformResize flags) (Cli.transformFit flags) (Cli.transformCrop flags)
           (Cli.transformRotate flags) (Cli.transformFlip flags) (Cli.transformFlop flags))
        (Some (mkTiming 0 elapsedMs))
  end.

End WithLibrary.

End Commands.

(** ** Package [gemini] and package [config] *)

Module Gemini.
Import GoStrings GoText FileSys.

Definition ModelFlash : string := "gemini-2.5-flash-image-preview".
Definition ModelPro : string := "gemini-3-pro-image-preview".

Definition AspectRatios : list string :=
  ["1:1"; "3:2"; "2:3"; "3:4"; "4:3"; "4:5"; "5:4"; "9:16"; "16:9"; "21:9"].

Definition Resolutions : list string := ["1K"; "2K"; "4K"].

(** [for _, r := range list { if r == x { return true } }; return false] *)
Fixpoint containsString (l : list string) (x : string) : bool :=
  match l with
  | [] => false
  | r :: rest => if String.eqb r x then true else containsString rest x
  end.

(** [IsValidAspectRatio], [IsValidResolution] *)
Definition IsValidAspectRatio (ratio : string) : bool := containsString AspectRatios ratio.
Definition IsValidResolution (resolution : string) : bool :=
  containsString Resolutions resolution.

(** [ResolveModelName] *)
Definition ResolveModelName (name : string) : string :=
  if String.eqb name "flash" || String.eqb name "" then ModelFlash
  else if String.eqb name "pro" then ModelPro
  else name.

Record ImageConfig := mkImageConfig
  { AspectRatio : string; Resolution : string; Count : Z }.

Record GeneratedImage := mkGeneratedImage
  { Data : string; MimeType : string; Width : Z; Height : Z }.

(** The response of the API, as [extractImages] reads it; the candidates
    and the parts themselves are not nil. *)
Record Blob := mkBlob { MIMEType : string; BlobData : string }.
Record Part := mkPart { InlineData : option Blob; Text : string }.
Record Content := mkContent { Parts : list Part }.
Record Candidate := mkCandidate { CandidateContent : option Content }.
Record GenerateContentResponse := mkGenerateContentResponse
  { Candidates : list Candidate }.

(** The contents of a request. *)
Inductive Contents :=
| TextContents (prompt : string)
| ImageAndText (mimeType : string) (data : string) (prompt : string).

Record GeminiError := mkGeminiError { Code : string; Message : string }.

Inductive Error :=
| ErrClassified (e : GeminiError)
| ErrEmptyResponse        (* "empty response from API" *)
| ErrNoImages             (* "no images generated" *)
| ErrReadInput.           (* "failed to read input image: ..." *)

Definition ErrInvalidAPIKey : string := "INVALID_API_KEY".
Definition ErrQuotaExceeded : string := "QUOTA_EXCEEDED".
Definition ErrRateLimited : string := "RATE_LIMITED".
Definition ErrSafetyBlocked : string := "SAFETY_BLOCKED".
Definition ErrAPIError : string := "API_ERROR".

(** [classifyError], on the text of the error. *)
Definition classifyError (errStr : string) : GeminiError :=
  if Contains errStr "API key" || Contains errStr "unauthorized" || Contains errStr "401"
  then mkGeminiError ErrInvalidAPIKey "Invalid or unauthorized API key"
  else if Contains errStr "quota" || Contains errStr "429"
  then mkGeminiError ErrQuotaExceeded "API quota exceeded"
  else if Contains errStr "rate limit"
  then mkGeminiError ErrRateLimited "Rate limit exceeded, please wait"
  else if Contains errStr "safety" || Contains errStr "blocked"
  then mkGeminiError ErrSafetyBlocked "Content blocked by safety filters"
  else mkGeminiError ErrAPIError errStr.

(** The inner loop of [extractImages]. *)
Fixpoint imagesOfParts (parts : list Part) (images : list GeneratedImage)
  : list GeneratedImage :=
  match parts with
  | [] => images
  | part :: rest =>
      match InlineData part with
      | Some blob =>
          if HasPrefix (MIMEType blob) "image/"
          then imagesOfParts rest (images ++ [mkGeneratedImage (BlobData blob) (MIMEType blob) 0 0])
          else imagesOfParts rest images
      | None => imagesOfParts rest images
      end
  end.

(** The outer loop of [extractImages]. *)
Fixpoint imagesOfCandidates (candidates : list Candidate) (images : list GeneratedImage)
  : list GeneratedImage :=
  match candidates with
  | [] => images
  | candidate :: rest =>
      match CandidateContent candidate with
      | None => imagesOfCandidates rest images
      | Some content => imagesOfCandidates rest (imagesOfParts (Parts content) images)
      end
  end.

(** [extractImages] *)
Definition extractImages (result : option GenerateContentResponse)
  : list GeneratedImage + Error :=
  match result with
  | None => inr ErrEmptyResponse
  | Some result =>
      if Nat.eqb (List.length (Candidates result)) 0 then inr ErrEmptyResponse
      else inl (imagesOfCandidates (Candidates result) [])
  end.

Section WithAPI.
(** [c.client.Models.GenerateContent] (the response, or the text of the
    error), [os.ReadFile], [filepath.Ext] and [strings.ToLower]. *)
Variable GenerateContent :
  string -> Contents -> option GenerateContentResponse + string.
Variable os_ReadFile : FileSystem -> string -> option string.
Variable filepath_Ext : string -> string.
Variable strings_ToLower : string -> string.

(** [detectMimeType] *)
Definition detectMimeType (path : string) : string :=
  let ext := strings_ToLower (filepath_Ext path) in
  if String.eqb ext ".png" then "image/png"
  else if String.eqb ext ".jpg" || String.eqb ext ".jpeg" then "image/jpeg"
  else if String.eqb ext ".gif" then "image/gif"
  else if String.eqb ext ".webp" then "image/webp"
  else "image/png".

(** What [GenerateImage] and [EditImage] do with the answer. *)
Definition answer (r : option GenerateContentResponse + string)
  : list GeneratedImage + Error :=
  match r with
  | inr errStr => inr (ErrClassified (classifyError errStr))
  | inl result =>
      match extractImages result with
      | inr e => inr e
      | inl images =>
          if Nat.eqb (List.length images) 0 then inr ErrNoImages else inl images
      end
  end.

(** [Client.GenerateImage], for the client's model. *)
Definition GenerateImage (model : string) (prompt : string) (config : option ImageConfig)
  : list GeneratedImage + Error :=
  let config := match config with
                | None => mkImageConfig "1:1" "" 1
                | Some c => c
                end in
  let enhancedPrompt :=
    if negb (String.eqb (AspectRatio config) "")
       && negb (String.eqb (AspectRatio config) "1:1")
    then prompt +:+ ". Generate this image with " +:+ AspectRatio config
         +:+ " aspect ratio."
    else prompt in
  answer (GenerateContent model (TextContents enhancedPrompt)).

(** [Client.EditImage] *)
Definition EditImage (fs : FileSystem) (model : string) (imagePath prompt : string)
  (config : option ImageConfig) : list GeneratedImage + Error :=
  match os_ReadFile fs imagePath with
  | None => inr ErrReadInput
  | Some imageData =>
      let mimeType := detectMimeType imagePath in
      answer (GenerateContent model (ImageAndText mimeType imageData prompt))
  end.

End WithAPI.

End Gemini.

Module Config.

Definition DefaultModel : string := "gemini-2.5-flash-image-preview".
Definition ProModel : string := "gemini-3-pro-image-preview".

(** [ResolveModel] *)
Definition ResolveModel (model : string) : string :=
  if String.eqb model "flash" || String.eqb model "" then DefaultModel
  else if String.eqb model "pro" then ProModel
  else model.

End Config.

(** Words for the answers of the API. *)
Module Answers.
Import GoStrings GoText Gemini.

(** [s] mentions [w]: [w] occurs in [s]. *)
Definition mentions (s w : string) : Prop := exists pre post, s = pre +:+ w +:+ post.

(** The parts of all candidates of a response, in order. *)
Definition partsOf (result : GenerateContentResponse) : list Part :=
  List.concat
    (map (fun candidate =>
            match CandidateContent candidate with
            | Some content => Parts content
            | None => []
            end)
         (Candidates result)).

(** The image a part carries: inline data whose MIME type starts with
    [image/]. *)
Definition imageOf (part : Part) : option GeneratedImage :=
  match InlineData part with
  | Some blob =>
      if HasPrefix (MIMEType blob) "image/"
      then Some (mkGeneratedImage (BlobData blob) (MIMEType blob) 0 0)
      else None
  | None => None
  end.

Definition inlineImages (result : GenerateContentResponse) : list GeneratedImage :=
  omap imageOf (partsOf result).

End Answers.

(** Words for what a command writes. *)
Module Streams.
Import Output.

Definition onStderr {D : Type} (e : Event D) : bool :=
  match e with
  | ToStderr _ => true
  | _ => false
  end.

(** A command fails when it returns an error. *)
Definition failed {E : Type} (err : option E) : bool :=
  match err with
  | Some _ => true
  | None => false
  end.

(** In text mode: something goes to the standard error stream exactly when
    the command fails, and a quiet formatter writes to no other stream. *)
Definition textModeStreams {D E : Type} (f : Formatter) (events : list (Event D))
  (err : option E) : Prop :=
  existsb onStderr events = failed err /\
  (Quiet f = true -> forallb onStderr events = true).

End Streams.

(** ** Saving a generated image: [Client.SaveImage] *)

Module Save.
Import GoStrings GoText FileSys Gemini.

Inductive Error :=
| ErrMkdir     (* "failed to create directory: ..." *)
| ErrWrite.    (* "failed to write image: ..." *)

(** [os.WriteFile(name, data, 0644)]: the file is created or truncated,
    the data written, the file closed. *)
Definition os_WriteFile (env : Env) (fs : FileSystem) (name : string) (data : string)
  : FileSystem * bool :=
  match os_Create env fs name with
  | None => (fs, false)
  | Some fs1 =>
      if write_ok env name
      then ({| files := <[ name := Bytes data ]> (files fs); dirs := dirs fs |}, true)
      else (fs1, false)
  end.

Section WithLibrary.
(** [filepath.Dir] and [base64.StdEncoding.DecodeString] ([None] for an
    error). *)
Variable filepath_Dir : string -> string.
Variable base64_DecodeString : string -> option string.

(** The bytes [SaveImage] writes for an image. *)
Definition payload (img : GeneratedImage) : string :=
  if (0 <? String.length (Data img))%nat
  then match base64_DecodeString (Data img) with
       | Some decoded => decoded
       | None => Data img
       end
  else "".

(** [Client.SaveImage] *)
Definition SaveImage (env : Env) (fs : FileSystem) (img : GeneratedImage)
  (outputPath : string) : FileSystem * option Error :=
  let dir := filepath_Dir outputPath in
  let made := if negb (String.eqb dir "") && negb (String.eqb dir ".")
              then os_MkdirAll env fs dir else Some fs in
  match made with
  | None => (fs, Some ErrMkdir)
  | Some fs1 =>
      match os_WriteFile env fs1 outputPath (payload img) with
      | (fs2, true) => (fs2, None)
      | (fs2, false) => (fs2, Some ErrWrite)
      end
  end.

End WithLibrary.

End Save.

(** ** The [generate] command: [runGenerate] *)

Module Generate.
Import GoStrings GoText GoTrim FileSys Output Gemini Requests.

(** The flag variables the command reads: the global [--api-key] and
    [--model], and its own. *)
Record GenerateFlags := mkGenerateFlags
  { apiKey : string; model : string;
    outputPath : string; inputPath : string; count : Z;
    aspectRatio : string; resolution : string; noOverwrite : bool }.

(** The data of the success response: the prompt, the model and the
    images. *)
Record GenerateData := mkGenerateData
  { dataPrompt : string; dataModel : string; dataImages : list ImageResult }.

Inductive Error :=
| ErrMissingAPIKey                 (* "missing API key" *)
| ErrInvalidCount                  (* "invalid count" *)
| ErrInvalidAspectRatio            (* "invalid aspect ratio" *)
| ErrFileExists                    (* "file exists" *)
| ErrClient (text : string)        (* the error of gemini.NewClient *)
| ErrInputNotExist                 (* the error of os.Stat *)
| ErrGemini (e : Gemini.Error)     (* the error of GenerateImage or EditImage *)
| ErrSave (e : Save.Error).        (* the error of SaveImage *)

(** [strings.Join(elems, sep)] *)
Fixpoint Join (elems : list string) (sep : string) : string :=
  match elems with
  | [] => ""
  | [e] => e
  | e :: rest => e +:+ sep +:+ Join rest sep
  end.

(** [estimateDimensions] *)
Definition estimateDimensions (ratio : string) : Z * Z :=
  if String.eqb ratio "1:1" || String.eqb ratio "" then (1024, 1024)
  else if String.eqb ratio "16:9" then (1024, 576)
  else if String.eqb ratio "9:16" then (576, 1024)
  else if String.eqb ratio "4:3" then (1024, 768)
  else if String.eqb ratio "3:4" then (768, 1024)
  else if String.eqb ratio "3:2" then (1024, 683)
  else if String.eqb ratio "2:3" then (683, 1024)
  else if String.eqb ratio "21:9" then (1024, 439)
  else (1024, 1024).

(** [_, err := os.Stat(path); err == nil] *)
Definition statOk (fs : FileSystem) (path : string) : bool := negb (Cli.notExist fs path).

(** The hint for a classified error. *)
Definition hintFor (code : string) : string :=
  if String.eqb code ErrInvalidAPIKey
  then "Check your API key at https://aistudio.google.com/apikey"
  else if String.eqb code ErrQuotaExceeded then "Wait before retrying or check your quota"
  else if String.eqb code ErrSafetyBlocked then "Try rephrasing your prompt"
  else "".

Section WithLibrary.
(** The API and the library functions of [gemini]; [genai.NewClient]
    ([Some] for the text of its error); [filepath.Dir] and
    [base64.StdEncoding.DecodeString]; the texts of the errors; and the
    milliseconds [time.Since] measures. *)
Variable GenerateContent :
  string -> Contents -> option GenerateContentResponse + string.
Variable os_ReadFile : FileSystem -> string -> option string.
Variable filepath_Ext : string -> string.
Variable strings_ToLower : string -> string.
Variable genai_NewClient : string -> option string.
Variable filepath_Dir : string -> string.
Variable base64_DecodeString : string -> option string.
Variable geminiErrorText : Gemini.Error -> string.
Variable saveErrorText : Save.Error -> string.
Variable elapsedMs : Z.

(** [gemini.NewClient]: the client, which holds the model name, or the
    text of the error. *)
Definition NewClient (apiKey model : string) : string + string :=
  if String.eqb apiKey "" then inr "API key is required"
  else match genai_NewClient apiKey with
       | Some text => inr ("failed to create Gemini client: " +:+ text)
       | None => inl model
       end.

(** How [runGenerate] reports an error of [GenerateImage] or [EditImage]:
    a [*GeminiError] with its code, its message and a hint, any other error
    as [GENERATION_FAILED]. *)
Definition reportFailure (e : Gemini.Error) : Call GenerateData :=
  match e with
  | ErrClassified g => CallError "generate" (Code g) (Message g) (hintFor (Code g))
  | _ => CallError "generate" "GENERATION_FAILED" (geminiErrorText e) ""
  end.

(** The loop over the images: [i] is the index of the first of [images],
    [n] the number of all images. *)
Fixpoint saveImages (env : Env) (fs : FileSystem) (flags : GenerateFlags) (n i : Z)
  (images : list GeneratedImage) (calls : list (Call GenerateData))
  (results : list ImageResult)
  : FileSystem * list (Call GenerateData) * (list ImageResult + Save.Error) :=
  match images with
  | [] => (fs, calls, inl results)
  | img :: rest =>
      let savePath := savePath filepath_Ext (outputPath flags) n i in
      match Save.SaveImage filepath_Dir base64_DecodeString env fs img savePath with
      | (fs', Some e) =>
          (fs', calls ++ [CallError "generate" "SAVE_FAILED" (saveErrorText e) ""], inr e)
      | (fs', None) =>
          let '(width, height) := estimateDimensions (aspectRatio flags) in
          saveImages env fs' flags n (GoInt.add i 1) rest
            (calls ++ [CallImageSaved savePath width height])
            (results ++ [mkImageResult savePath (Some (mkImageSize width height))
                           (TrimPrefix (MimeType img) "image/")])
      end
  end.

(** [runGenerate], from the answer of the client on. *)
Definition finish (env : Env) (fs : FileSystem) (flags : GenerateFlags)
  (prompt modelName : string) (calls : list (Call GenerateData))
  (answer : list GeneratedImage + Gemini.Error)
  : FileSystem * list (Call GenerateData) * option Error :=
  match answer with
  | inr e => (fs, calls ++ [reportFailure e], Some (ErrGemini e))
  | inl images =>
      match saveImages env fs flags (Z.of_nat (List.length images)) 0 images calls [] with
      | (fs', calls, inr e) => (fs', calls, Some (ErrSave e))
      | (fs', calls, inl results) =>
          (fs',
           calls ++ [CallSuccess "generate" (mkGenerateData prompt modelName results)
                       (Some (mkTiming 0 elapsedMs))],
           None)
      end
  end.

(** [runGenerate] *)
Definition runGenerate (env : Env) (fs : FileSystem) (flags : GenerateFlags)
  (args : list string) : FileSystem * list (Call GenerateData) * option Error :=
  let prompt := Join args " " in
  if String.eqb (apiKey flags) ""
  then (fs,
        [CallError "generate" "MISSING_API_KEY" "No API key provided"
           "Set GEMINI_API_KEY environment variable or use --api-key flag"],
        Some ErrMissingAPIKey)
  else if (count flags <? 1) || (count flags >? 10)
  then (fs,
        [CallError "generate" "INVALID_COUNT" "Count must be between 1 and 10" ""],
        Some ErrInvalidCount)
  else if negb (String.eqb (aspectRatio flags) "")
          && negb (IsValidAspectRatio (aspectRatio flags))
  then (fs,
        [CallError "generate" "INVALID_ASPECT_RATIO"
           ("Invalid aspect ratio: " +:+ aspectRatio flags)
           ("Valid ratios: " +:+ Join AspectRatios ", ")],
        Some ErrInvalidAspectRatio)
  else if noOverwrite flags && statOk fs (outputPath flags)
  then (fs,
        [CallError "generate" "FILE_EXISTS"
           ("Output file already exists: " +:+ outputPath flags)
           "Use a different output path or remove --no-overwrite flag"],
        Some ErrFileExists)
  else
    let modelName := ResolveModelName (model flags) in
    match NewClient (apiKey flags) modelName with
    | inr text =>
        (fs, [CallError "generate" "CLIENT_ERROR" text "Check your API key"],
         Some (ErrClient text))
    | inl client =>
        let config :=
          mkImageConfig (aspectRatio flags) (resolution flags) (count flags) in
        let progress := CallProgress ("Generating image with " +:+ modelName +:+ "...") in
        if negb (String.eqb (inputPath flags) "")
        then
          if Cli.notExist fs (inputPath flags)
          then (fs,
                [progress;
                 CallError "generate" "FILE_NOT_FOUND"
                   ("Input file not found: " +:+ inputPath flags) ""],
                Some ErrInputNotExist)
          else
            finish env fs flags prompt modelName
              [progress; CallProgress ("Editing image: " +:+ inputPath flags)]
              (EditImage GenerateContent os_ReadFile filepath_Ext strings_ToLower
                 fs client (inputPath flags) prompt (Some config))
        else
          finish env fs flags prompt modelName [progress]
            (GenerateImage GenerateContent client prompt (Some config))
    end.

(** Words for the properties: the answer of the client to the request of
    the command, and where and how image number [i] of [n] is saved and
    reported. *)
Definition clientAnswer (fs : FileSystem) (flags : GenerateFlags) (args : list string)
  : list GeneratedImage + Gemini.Error :=
  let config := mkImageConfig (aspectRatio flags) (resolution flags) (count flags) in
  if negb (String.eqb (inputPath flags) "")
  then EditImage GenerateContent os_ReadFile filepath_Ext strings_ToLower
         fs (ResolveModelName (model flags)) (inputPath flags) (Join args " ") (Some config)
  else GenerateImage GenerateContent (ResolveModelName (model flags)) (Join args " ")
         (Some config).

Definition savedAs (flags : GenerateFlags) (n : Z) (i : Z) : string :=
  savePath filepath_Ext (outputPath flags) n i.

Definition savedCall (flags : GenerateFlags) (n : Z) (i : Z) : Call GenerateData :=
  CallImageSaved (savedAs flags n i)
    (estimateDimensions (aspectRatio flags)).1 (estimateDimensions (aspectRatio flags)).2.

Definition savedResult (flags : GenerateFlags) (n : Z) (i : Z) (img : GeneratedImage)
  : ImageResult :=
  mkImageResult (savedAs flags n i)
    (Some (mkImageSize (estimateDimensions (aspectRatio flags)).1
                       (estimateDimensions (aspectRatio flags)).2))
    (TrimPrefix (MimeType img) "image/").

End WithLibrary.

End Generate.

(** ** More examples *)

Module Samples.
Import Geom GoColor Raster FileSys GoText GoTrim Example.

(** A file system whose one file has a name of three bytes. *)
Definition shortFile : FileSystem := mkFS {[ "a.b" := Bytes "image" ]} ∅.

(** Only the file [name] can be opened as an image. *)
Definition openOnly (name : string) (img : Image) (fs : FileSystem) (path : string)
  : option Image :=
  if String.eqb path name then Some img else None.

(** The example library with the ASCII [strings.TrimSpace] and
    [strings.ToLower]. *)
Definition asciiLib (src : Image) : Transform.Library :=
  let lib := exampleLib src in
  Transform.mkLibrary trimSpaceASCII lowerASCII
    (Transform.strconv_ParseFloat lib) (Transform.filepath_Dir lib)
    (Transform.filepath_Ext lib) (Transform.imaging_Open lib) (Transform.imaging_Save lib)
    (Transform.imaging_Crop lib) (Transform.imaging_Resize lib) (Transform.imaging_Fit lib)
    (Transform.imaging_Fill lib) (Transform.imaging_Rotate lib)
    (Transform.imaging_FlipV lib) (Transform.imaging_FlipH lib).

(** Files are opened by name, and every file decodes to the same image. *)
Definition openFile (fs : FileSystem) (path : string) : option FileData := files fs !! path.
Definition decodeAs (img : Image) (format : string) (file : FileData)
  : option (Image * string) := Some (img, format).

(** No colours; a formatter in JSON mode and a quiet one in text mode. *)
Definition plain (a : Output.Attribute) (s : string) : string := s.
Definition jsonFormatter : Output.Formatter := Output.mkFormatter true false false.
Definition quietFormatter : Output.Formatter := Output.mkFormatter false true false.

(** An answer of the API with a text part and one PNG, and an API that
    always gives it. *)
Definition sampleResponse : Gemini.GenerateContentResponse :=
  Gemini.mkGenerateContentResponse
    [Gemini.mkCandidate
       (Some (Gemini.mkContent
                [Gemini.mkPart None "Here is your image";
                 Gemini.mkPart (Some (Gemini.mkBlob "image/png" "data")) ""]))].
Definition sampleAPI (model : string) (contents : Gemini.Contents)
  : option Gemini.GenerateContentResponse + string := inl (Some sampleResponse).

(** A request for four wide images, and the library of the examples for
    [runGenerate]: no file can be read, the client is always created, and
    nothing decodes as base64. *)
Definition sampleFlags : Generate.GenerateFlags :=
  Generate.mkGenerateFlags "key" "flash" "art.png" "" 4 "16:9" "2K" false.

Definition sampleGenerate (env : Env) (fs : FileSystem) (flags : Generate.GenerateFlags)
  (args : list string)
  : FileSystem * list (Output.Call Generate.GenerateData) * option Generate.Error :=
  Generate.runGenerate sampleAPI (fun _ _ => None) (fun _ => ".png") id (fun _ => None) here
    (fun _ => None) (fun _ => "failed") (fun _ => "failed") 7 env fs flags args.

End Samples.

(** * Proofs *)

Module GoIntFacts.
Import GoInt.

Lemma wrap_small (z : Z) : in_range z -> wrap z = z.
Proof.
  unfold in_range, wrap, min_int, max_int. intros H.
  rewrite Z.mod_small; lia.
Qed.

Lemma add_small (a b : Z) : in_range (a + b) -> add a b = a + b.
Proof. apply wrap_small. Qed.

Lemma sub_small (a b : Z) : in_range (a - b) -> sub a b = a - b.
Proof. apply wrap_small. Qed.

Lemma mul_small (a b : Z) : in_range (a * b) -> mul a b = a * b.
Proof. apply wrap_small. Qed.

Lemma quo_nonneg (a b : Z) : 0 <= a <= max_int -> 0 < b -> quo a b = a / b.
Proof.
  intros Ha Hb. unfold quo. rewrite Z.quot_div_nonneg by lia.
  apply wrap_small. unfold in_range, min_int.
  assert (0 <= a / b) by (apply Z.div_pos; lia).
  assert (a / b <= a) by (apply Z.div_le_upper_bound; nia).
  lia.
Qed.

Lemma rem_nonneg (a b : Z) : 0 <= a -> 0 < b -> rem a b = a mod b.
Proof. intros. unfold rem. apply Z.rem_mod_nonneg; lia. Qed.

Lemma in_range_nonneg (z : Z) : 0 <= z <= max_int -> in_range z.
Proof. unfold in_range, min_int. lia. Qed.

End GoIntFacts.

Module GeomFacts.
Import GoInt Geom GoIntFacts.

Lemma Dx_wf (r : Rectangle) : wf_rect r -> Dx r = X (Max r) - X (Min r) /\ 0 <= Dx r <= max_int.
Proof.
  intros (_ & _ & _ & _ & Hx & _). unfold Dx.
  rewrite sub_small by (apply in_range_nonneg; lia). lia.
Qed.

Lemma Dy_wf (r : Rectangle) : wf_rect r -> Dy r = Y (Max r) - Y (Min r) /\ 0 <= Dy r <= max_int.
Proof.
  intros (_ & _ & _ & _ & _ & Hy). unfold Dy.
  rewrite sub_small by (apply in_range_nonneg; lia). lia.
Qed.

Lemma Rect_ordered (x0 y0 x1 y1 : Z) :
  x0 <= x1 -> y0 <= y1 -> Rect x0 y0 x1 y1 = mkRectangle (mkPoint x0 y0) (mkPoint x1 y1).
Proof.
  intros Hx Hy. unfold Rect.
  destruct (Z.gtb_spec x0 x1); [lia|]. destruct (Z.gtb_spec y0 y1); [lia|]. reflexivity.
Qed.

End GeomFacts.

Module FloatFacts.
Import GoColor Transparency Spec FloatCheck.

Lemma forall_int_spec (p : int -> bool) : forall (n : nat) (i : int),
  Uint63.to_Z i + Z.of_nat n < wB ->
  forall_int n i p = true ->
  forall j : int, Uint63.to_Z i <= Uint63.to_Z j < Uint63.to_Z i + Z.of_nat n -> p j = true.
Proof.
  induction n as [|n IH]; intros i Hb Hall j Hj; [lia|].
  cbn [forall_int] in Hall. apply andb_prop in Hall as [Hi Hrest].
  pose proof (Uint63.to_Z_bounded i) as Hib.
  assert (Hs : Uint63.to_Z (Uint63.add i 1) = Uint63.to_Z i + 1).
  { rewrite Uint63.add_spec, Uint63.to_Z_1. apply Z.mod_small. lia. }
  destruct (Z.eq_dec (Uint63.to_Z j) (Uint63.to_Z i)) as [E|E].
  - apply Uint63.to_Z_inj in E. by subst.
  - apply (IH (Uint63.add i 1)); [lia | assumption | lia].
Qed.

Lemma forall_upto_spec (p : int -> bool) (n : Z) :
  0 <= n < wB -> forall_upto n p = true ->
  forall z : Z, 0 <= z < n -> p (Uint63.of_Z z) = true.
Proof.
  intros Hn Hall z Hz. apply (forall_int_spec p (Z.to_nat n) 0%uint63).
  - rewrite Uint63.to_Z_0, Z2Nat.id; lia.
  - assumption.
  - rewrite Uint63.to_Z_0, Uint63.of_Z_spec, Z.mod_small, Z2Nat.id; lia.
Qed.

Lemma small_bound (n : Z) : 0 <= n < 1000000 -> 0 <= n < wB.
Proof. change wB with 9223372036854775808. lia. Qed.

Lemma forall_upto2_spec (p : int -> int -> bool) (n m : Z) :
  0 <= n < wB -> 0 <= m < wB ->
  forall_upto n (fun a => forall_upto m (fun b => p a b)) = true ->
  forall a b : Z, 0 <= a < n -> 0 <= b < m -> p (Uint63.of_Z a) (Uint63.of_Z b) = true.
Proof.
  intros Hn Hm Hall a b Ha Hb.
  apply (forall_upto_spec (fun b => p (Uint63.of_Z a) b) m Hm); [|assumption].
  apply (forall_upto_spec (fun a => forall_upto m (fun b => p a b)) n Hn); assumption.
Qed.

Lemma forall_upto3_spec (p : int -> int -> int -> bool) (n m k : Z) :
  0 <= n < wB -> 0 <= m < wB -> 0 <= k < wB ->
  forall_upto n (fun a => forall_upto m (fun b => forall_upto k (fun c => p a b c))) = true ->
  forall a b c : Z, 0 <= a < n -> 0 <= b < m -> 0 <= c < k ->
    p (Uint63.of_Z a) (Uint63.of_Z b) (Uint63.of_Z c) = true.
Proof.
  intros Hn Hm Hk Hall a b c Ha Hb Hc.
  apply (forall_upto_spec (fun c => p (Uint63.of_Z a) (Uint63.of_Z b) c) k Hk); [|assumption].
  apply (forall_upto2_spec (fun a b => forall_upto k (fun c => p a b c)) n m Hn Hm);
    assumption.
Qed.

Lemma squares_checked :
  forall_upto 256 (fun r => forall_upto 256 (fun t => square_ok r t)) = true.
Proof. vm_compute. reflexivity. Qed.

Lemma sums_checked :
  forall_upto 256 (fun a => forall_upto 256 (fun b => forall_upto 256 (fun c => sum_ok a b c)))
  = true.
Proof. vm_compute. reflexivity. Qed.

Lemma compares_checked :
  forall_upto 101 (fun t => forall_upto 195076 (fun s => compare_ok t s)) = true.
Proof. vm_compute. reflexivity. Qed.

Lemma of_Z_add (a b : Z) : Uint63.of_Z (a + b) = Uint63.add (Uint63.of_Z a) (Uint63.of_Z b).
Proof.
  apply Uint63.to_Z_inj. rewrite Uint63.add_spec, !Uint63.of_Z_spec.
  apply Zplus_mod.
Qed.

Lemma of_Z_sub (a b : Z) : Uint63.of_Z (a - b) = Uint63.sub (Uint63.of_Z a) (Uint63.of_Z b).
Proof.
  apply Uint63.to_Z_inj. rewrite Uint63.sub_spec, !Uint63.of_Z_spec.
  apply Zminus_mod.
Qed.

Lemma of_Z_mul (a b : Z) : Uint63.of_Z (a * b) = Uint63.mul (Uint63.of_Z a) (Uint63.of_Z b).
Proof.
  apply Uint63.to_Z_inj. rewrite Uint63.mul_spec, !Uint63.of_Z_spec.
  apply Zmult_mod.
Qed.

Lemma square_exact (r t : Z) :
  0 <= r < 256 -> 0 <= t < 256 ->
  ((GoFloat.of_uint r - GoFloat.of_uint t) * (GoFloat.of_uint r - GoFloat.of_uint t))%float
  = GoFloat.of_uint ((r - t) * (r - t)).
Proof.
  intros Hr Ht.
  pose proof (forall_upto2_spec square_ok 256 256 (small_bound 256 ltac:(lia))
                (small_bound 256 ltac:(lia)) squares_checked r t Hr Ht) as H2.
  unfold square_ok in H2.
  apply FloatAxioms.Leibniz.eqb_spec in H2.
  unfold GoFloat.of_uint. rewrite of_Z_mul, of_Z_sub. exact H2.
Qed.

Lemma sum_exact (a b c : Z) :
  0 <= a < 256 -> 0 <= b < 256 -> 0 <= c < 256 ->
  (GoFloat.of_uint (a * a) + GoFloat.of_uint (b * b) + GoFloat.of_uint (c * c))%float
  = GoFloat.of_uint (a * a + b * b + c * c).
Proof.
  intros Ha Hb Hc.
  pose proof (forall_upto3_spec sum_ok 256 256 256 (small_bound 256 ltac:(lia))
                (small_bound 256 ltac:(lia)) (small_bound 256 ltac:(lia))
                sums_checked a b c Ha Hb Hc) as H3.
  unfold sum_ok in H3.
  apply FloatAxioms.Leibniz.eqb_spec in H3.
  unfold GoFloat.of_uint. rewrite !of_Z_add, !of_Z_mul. exact H3.
Qed.

Lemma colorDistance_exact (r g b : Z) (target : RGBA) :
  0 <= r < 256 -> 0 <= g < 256 -> 0 <= b < 256 ->
  0 <= cR target < 256 -> 0 <= cG target < 256 -> 0 <= cB target < 256 ->
  colorDistance r g b target = (GoFloat.of_uint (squaredDistance r g b target) / 3)%float.
Proof.
  intros Hr Hg Hb Htr Htg Htb. unfold colorDistance, squaredDistance.
  rewrite !square_exact by assumption.
  replace ((r - cR target) * (r - cR target))
    with (Z.abs (r - cR target) * Z.abs (r - cR target)) by lia.
  replace ((g - cG target) * (g - cG target))
    with (Z.abs (g - cG target) * Z.abs (g - cG target)) by lia.
  replace ((b - cB target) * (b - cB target))
    with (Z.abs (b - cB target) * Z.abs (b - cB target)) by lia.
  rewrite sum_exact by lia. reflexivity.
Qed.

Lemma compare_exact (s t : Z) :
  0 <= s < 195076 -> 0 <= t <= 100 ->
  PrimFloat.leb (GoFloat.of_uint s / 3)%float (threshold t) = (100 * s <=? 765 * t).
Proof.
  intros Hs Ht.
  pose proof (forall_upto2_spec compare_ok 101 195076 (small_bound 101 ltac:(lia))
                (small_bound 195076 ltac:(lia)) compares_checked t s ltac:(lia) ltac:(lia)) as H2.
  unfold compare_ok in H2.
  apply Bool.eqb_prop in H2.
  unfold threshold, GoFloat.of_int. destruct (Z.ltb_spec t 0); [lia|].
  unfold GoFloat.of_uint. unfold F in H2. rewrite H2.
  apply eq_iff_eq_true. rewrite Uint63.leb_spec, Z.leb_le.
  rewrite !Uint63.mul_spec, !Uint63.of_Z_spec.
  change (Uint63.to_Z 100) with 100. change (Uint63.to_Z 765) with 765.
  assert (HwB : wB = 9223372036854775808) by reflexivity.
  rewrite (Z.mod_small s), (Z.mod_small t) by lia.
  rewrite !Z.mod_small by lia. reflexivity.
Qed.

End FloatFacts.

(** *** [float64(n)*0.5 + 0.5] without rounding *)

Module ExactFacts.
Import GoInt GoFloat FloatExact SpecFloat.

Lemma shlp_value (m : positive) (k : Z) : 0 <= k -> Z.pos (shlp m k) = Z.pos m * 2 ^ k.
Proof.
  intros Hk. destruct k as [|q|q]; [cbn; lia | | lia]. cbn [shlp].
  revert m. induction q as [|q IH] using Pos.peano_ind; intros m.
  - cbn. lia.
  - rewrite Pos.iter_succ, (Pos2Z.inj_xO (Pos.iter xO m q)), IH, Pos2Z.inj_succ,
      Z.pow_succ_r by lia. lia.
Qed.

Lemma shlp_shlp (m : positive) (a b : Z) : 0 <= a -> 0 <= b -> shlp (shlp m a) b = shlp m (a + b).
Proof.
  intros Ha Hb. apply Pos2Z.inj. rewrite !shlp_value by lia.
  rewrite Z.pow_add_r by lia. lia.
Qed.

Lemma digits_bounds (m : positive) :
  2 ^ (Z.pos (digits2_pos m) - 1) <= Z.pos m < 2 ^ Z.pos (digits2_pos m).
Proof.
  induction m as [m IH|m IH|]; cbn [digits2_pos]; [| |cbn; lia].
  - rewrite Pos2Z.inj_succ, (Pos2Z.inj_xI m).
    replace (Z.succ (Z.pos (digits2_pos m)) - 1) with (Z.succ (Z.pos (digits2_pos m) - 1)) by lia.
    rewrite !Z.pow_succ_r by lia. lia.
  - rewrite Pos2Z.inj_succ, (Pos2Z.inj_xO m).
    replace (Z.succ (Z.pos (digits2_pos m)) - 1) with (Z.succ (Z.pos (digits2_pos m) - 1)) by lia.
    rewrite !Z.pow_succ_r by lia. lia.
Qed.

Lemma digits_unique (m : positive) (d : Z) :
  2 ^ (d - 1) <= Z.pos m < 2 ^ d -> Z.pos (digits2_pos m) = d.
Proof.
  intros [Hlo Hhi]. pose proof (digits_bounds m) as [Hlo' Hhi'].
  assert (0 < d).
  { destruct d as [|q|q]; [cbn in Hhi; lia | lia |].
    rewrite (Z.pow_neg_r 2 (Z.neg q)) in Hhi by lia. lia. }
  assert (d - 1 < Z.pos (digits2_pos m)) by (apply (Z.pow_lt_mono_r_iff 2); lia).
  assert (Z.pos (digits2_pos m) - 1 < d) by (apply (Z.pow_lt_mono_r_iff 2); lia).
  lia.
Qed.

Lemma digits_shlp (m : positive) (k : Z) :
  0 <= k -> Z.pos (digits2_pos (shlp m k)) = Z.pos (digits2_pos m) + k.
Proof.
  intros Hk. apply digits_unique. rewrite shlp_value by lia.
  pose proof (digits_bounds m) as [Hlo Hhi].
  replace (Z.pos (digits2_pos m) + k - 1) with (Z.pos (digits2_pos m) - 1 + k) by lia.
  rewrite !Z.pow_add_r by lia. assert (0 < 2 ^ k) by (apply Z.pow_pos_nonneg; lia). nia.
Qed.

(** Shifting out zero bits loses nothing. *)
Lemma shr_exact (q : positive) : forall m : positive,
  iter_pos shr_1 q (Build_shr_record (Z.pos (Pos.iter xO m q)) false false)
  = Build_shr_record (Z.pos m) false false.
Proof.
  induction q as [q IH|q IH|]; intros m; cbn [iter_pos Pos.iter].
  - cbn [shr_1 orb]. rewrite IH, IH. reflexivity.
  - rewrite IH, IH. reflexivity.
  - reflexivity.
Qed.

Lemma shr_shlp (m : positive) (e k : Z) :
  0 <= k ->
  shr (Build_shr_record (Z.pos (shlp m k)) false false) e k
  = (Build_shr_record (Z.pos m) false false, e + k).
Proof.
  intros Hk. destruct k as [|q|q]; [|cbn [shr shlp]; by rewrite shr_exact | lia].
  cbn [shr shlp]. by rewrite Z.add_0_r.
Qed.

Lemma shl_align_shlp (mx : positive) (ex ex' : Z) :
  shl_align mx ex ex' = (shlp mx (ex - ex'), Z.min ex ex').
Proof.
  unfold shl_align. destruct (ex' - ex) as [|d|d] eqn:Hd.
  - replace (ex - ex') with 0 by lia. cbn [shlp]. f_equal. lia.
  - replace (ex - ex') with (Z.neg d) by lia. cbn [shlp]. f_equal. lia.
  - replace (ex - ex') with (Z.pos d) by lia. cbn [shlp]. f_equal. lia.
Qed.

(** A mantissa of 53 digits with [k] more zero bits rounds to itself. *)
Lemma binary_round_aux_exact (s : bool) (m : positive) (e k : Z) :
  Z.pos (digits2_pos m) = 53 -> 0 <= k -> -1074 <= e + k <= 971 ->
  binary_round_aux prec emax s (Z.pos (shlp m k)) e loc_Exact = S754_finite s m (e + k).
Proof.
  intros Hd Hk He. unfold binary_round_aux, shr_fexp. cbn [shr_record_of_loc Zdigits2].
  rewrite digits_shlp, Hd by lia.
  replace (fexp prec emax (53 + k + e) - e) with k
    by (unfold fexp, SpecFloat.emin, prec, emax; lia).
  rewrite shr_shlp by lia. cbn [shr_m loc_of_shr_record round_nearest_even Zdigits2].
  rewrite Hd.
  replace (fexp prec emax (53 + (e + k)) - (e + k)) with 0
    by (unfold fexp, SpecFloat.emin, prec, emax; lia).
  cbn [shr shr_record_of_loc shr_m].
  destruct (Z.leb_spec (e + k) (emax - prec)); [reflexivity|].
  unfold prec, emax in *. lia.
Qed.

(** [float64(n)] for [0 < n < 2^53]: the digits of [n], moved to the top
    of the mantissa. *)
Lemma normalize_small (p : positive) :
  Z.pos (digits2_pos p) <= 53 ->
  binary_normalize prec emax (Z.pos p) 0 false
  = S754_finite false (shlp p (53 - Z.pos (digits2_pos p))) (Z.pos (digits2_pos p) - 53).
Proof.
  intros Hd. cbn [binary_normalize]. unfold binary_round. rewrite shl_align_shlp.
  pose proof (Pos2Z.is_pos (digits2_pos p)) as Hpos.
  replace (fexp prec emax (Z.pos (digits2_pos p) + 0)) with (Z.pos (digits2_pos p) - 53)
    by (unfold fexp, SpecFloat.emin, prec, emax; lia).
  replace (0 - (Z.pos (digits2_pos p) - 53)) with (53 - Z.pos (digits2_pos p)) by lia.
  rewrite Z.min_r by lia.
  change (shlp p (53 - Z.pos (digits2_pos p)))
    with (shlp (shlp p (53 - Z.pos (digits2_pos p))) 0) at 1.
  rewrite binary_round_aux_exact; [f_equal; lia | | lia | lia].
  rewrite digits_shlp by lia. lia.
Qed.

Lemma half_SF : Prim2SF 0.5 = S754_finite false 4503599627370496 (-53).
Proof. reflexivity. Qed.

(** [float64(n)*0.5 + 0.5] for [0 < n] and [n + 1 < 2^53]: no operation
    rounds, the result is [(n + 1) / 2]. *)
Lemma half_up_SF (p : positive) :
  Z.pos (digits2_pos (p + 1)) <= 53 ->
  Prim2SF (PrimFloat.of_uint63 (Uint63.of_Z (Z.pos p)) * 0.5 + 0.5)
  = S754_finite false (shlp (p + 1) (53 - Z.pos (digits2_pos (p + 1))))
      (Z.pos (digits2_pos (p + 1)) - 54).
Proof.
  intros Hd'. set (d' := Z.pos (digits2_pos (p + 1))) in *.
  set (d := Z.pos (digits2_pos p)).
  assert (Hd : 1 <= d <= d').
  { pose proof (digits_bounds p) as [Hlo Hhi]. pose proof (digits_bounds (p + 1)) as [Hlo' Hhi'].
    fold d in Hlo, Hhi. fold d' in Hlo', Hhi'. split; [unfold d; lia|].
    destruct (Z.leb_spec d d'); [assumption|]. exfalso.
    assert (2 ^ d' <= 2 ^ (d - 1)) by (apply Z.pow_le_mono_r; lia). lia. }
  assert (Hsmall : Z.pos p < 2 ^ 53).
  { pose proof (digits_bounds p) as [_ Hhi]. fold d in Hhi.
    assert (2 ^ d <= 2 ^ 53) by (apply Z.pow_le_mono_r; lia). lia. }
  rewrite FloatAxioms.add_spec, FloatAxioms.mul_spec, FloatAxioms.of_uint63_spec, half_SF.
  rewrite Uint63.of_Z_spec, Z.mod_small
    by (change wB with 9223372036854775808; change (2 ^ 53) with 9007199254740992 in Hsmall; lia).
  rewrite normalize_small by (fold d; lia). fold d.
  unfold SF64mul, SFmul. cbn [xorb].
  replace (Z.pos (shlp p (53 - d) * 4503599627370496))
    with (Z.pos (shlp (shlp p (53 - d)) 52)).
  2:{ rewrite shlp_value by lia. rewrite Pos2Z.inj_mul. reflexivity. }
  rewrite binary_round_aux_exact; [| unfold d; rewrite digits_shlp by lia; lia | lia | lia].
  unfold SF64add, SFadd. cbn [cond_Zopp].
  rewrite !shl_align_shlp. cbn [fst].
  replace (Z.min (d - 53 + -53 + 52) (-53)) with (-53) by lia.
  replace (d - 53 + -53 + 52 - -53) with (d - 1) by lia.
  replace (-53 - -53) with 0 by lia. cbn [shlp].
  rewrite shlp_shlp by lia. replace (53 - d + (d - 1)) with 52 by lia.
  replace (Z.pos (shlp p 52) + 4503599627370496) with (Z.pos (shlp (p + 1) 52)).
  2:{ rewrite !shlp_value by lia. rewrite Pos2Z.inj_add. lia. }
  cbn [binary_normalize]. unfold binary_round. rewrite shl_align_shlp.
  rewrite digits_shlp by lia. fold d'.
  replace (fexp prec emax (d' + 52 + -53)) with (d' - 54)
    by (unfold fexp, SpecFloat.emin, prec, emax; lia).
  replace (shlp (shlp (p + 1) 52) (-53 - (d' - 54))) with (shlp (p + 1) 52).
  2:{ destruct (-53 - (d' - 54)) as [|q|q] eqn:Hq; [reflexivity | lia | reflexivity]. }
  rewrite Z.min_l by lia.
  replace (shlp (p + 1) 52) with (shlp (shlp (p + 1) (53 - d')) (d' - 1)).
  2:{ rewrite shlp_shlp by lia. f_equal. lia. }
  rewrite binary_round_aux_exact; [f_equal; lia | | lia | lia].
  rewrite digits_shlp by lia. fold d'. lia.
Qed.

(** [int(float64(n)*0.5 + 0.5) = (n + 1) / 2] wherever [float64(n)] is
    exact. *)
Lemma half_up_exact (n : Z) :
  0 <= n <= 2 ^ 53 ->
  to_int (of_uint n * 0.5 + 0.5)%float = (n + 1) / 2.
Proof.
  intros Hn. unfold of_uint.
  destruct (Z.eq_dec n 0) as [->|Hn0]; [reflexivity|].
  destruct (Z.eq_dec n (2 ^ 53)) as [->|Hn1]; [vm_compute; reflexivity|].
  destruct (Z.eq_dec n (2 ^ 53 - 1)) as [->|Hn2]; [vm_compute; reflexivity|].
  destruct n as [|p|p]; [lia | | lia].
  assert (Hd' : Z.pos (digits2_pos (p + 1)) <= 53).
  { pose proof (digits_bounds (p + 1)) as [Hlo _].
    destruct (Z.leb_spec (Z.pos (digits2_pos (p + 1))) 53); [assumption|]. exfalso.
    assert (2 ^ 53 <= 2 ^ (Z.pos (digits2_pos (p + 1)) - 1)) by (apply Z.pow_le_mono_r; lia).
    lia. }
  unfold to_int. rewrite (half_up_SF p Hd').
  set (d' := Z.pos (digits2_pos (p + 1))) in *.
  assert (1 <= d') by (unfold d'; lia).
  destruct (Z.leb_spec 0 (d' - 54)); [lia|].
  rewrite Z.shiftr_div_pow2 by lia. rewrite shlp_value by lia.
  replace (- (d' - 54)) with (53 - d' + 1) by lia.
  rewrite Z.pow_add_r by lia. change (2 ^ 1) with 2.
  rewrite (Z.mul_comm (Z.pos (p + 1))).
  rewrite Z.div_mul_cancel_l by (try apply Z.pow_nonzero; lia).
  rewrite Pos2Z.inj_add.
  assert (0 <= (Z.pos p + 1) / 2 <= Z.pos p).
  { split; [apply Z.div_pos; lia|]. apply Z.div_le_upper_bound; lia. }
  assert (Hfit : (min_int <=? (Z.pos p + 1) / 2) && ((Z.pos p + 1) / 2 <=? max_int) = true).
  { change (2 ^ 53) with 9007199254740992 in Hn.
    apply andb_true_intro. split; apply Z.leb_le; unfold min_int, max_int; lia. }
  rewrite Hfit. reflexivity.
Qed.

End ExactFacts.

Module CombineFacts.
Import GoInt Geom GoColor Raster Draw FileSys Spec Combine GoIntFacts GeomFacts.
Import FloatCheck FloatFacts Example.

Lemma maxZ_nonneg l : 0 <= maxZ l.
Proof. induction l; simpl; lia. Qed.

Lemma maxZ_ge l x : x ∈ l -> x <= maxZ l.
Proof. induction 1; simpl; lia. Qed.

Lemma sumZ_nonneg l : Forall (fun x => 0 <= x) l -> 0 <= sumZ l.
Proof. induction 1; simpl; lia. Qed.

Lemma wf_widths images : wf_images images -> Forall (fun x => 0 <= x) (widths images).
Proof.
  induction 1; simpl; constructor; auto.
  apply Dx_wf in H. lia.
Qed.

Lemma wf_heights images : wf_images images -> Forall (fun x => 0 <= x) (heights images).
Proof.
  induction 1; simpl; constructor; auto.
  apply Dy_wf in H. lia.
Qed.

(** The measuring loop past the first image. *)
Lemma measureHorizontal_tail gap images : forall i tw mh,
  wf_images images -> 0 <= gap -> 0 < i -> 0 <= tw -> 0 <= mh ->
  tw + sumZ (widths images) + gap * Z.of_nat (List.length images) <= max_int ->
  measureHorizontal gap i images tw mh =
    (tw + sumZ (widths images) + gap * Z.of_nat (List.length images),
     Z.max mh (maxZ (heights images))).
Proof.
  induction images as [|img rest IH]; intros i tw mh Hwf Hgap Hi Htw Hmh Hfit.
  - simpl. f_equal; lia.
  - inversion Hwf as [|? ? Himg Hrest]; subst.
    pose proof (Dx_wf _ Himg) as [_ Hw]. pose proof (Dy_wf _ Himg) as [_ Hh].
    pose proof (sumZ_nonneg _ (wf_widths _ Hrest)) as Hs.
    cbn [measureHorizontal]. cbn [widths heights map sumZ maxZ foldr List.length] in *.
    fold (widths rest) in *. fold (heights rest) in *.
    fold (sumZ (widths rest)) in *. fold (maxZ (heights rest)) in *.
    rewrite Nat2Z.inj_succ in *.
    destruct (Z.gtb_spec i 0); [|lia].
    rewrite (add_small tw) by (apply in_range_nonneg; nia).
    rewrite add_small by (apply in_range_nonneg; nia).
    set (mh' := if Dy (Bounds img) >? mh then Dy (Bounds img) else mh).
    assert (Hmh' : mh' = Z.max mh (Dy (Bounds img)))
      by (unfold mh'; destruct (Z.gtb_spec (Dy (Bounds img)) mh); lia).
    rewrite IH; [f_equal; lia | assumption | lia | lia | nia | lia | nia].
Qed.

Lemma measureHorizontal_total gap images :
  wf_images images -> 0 <= gap -> images <> [] ->
  sumZ (widths images) + gap * (Z.of_nat (List.length images) - 1) <= max_int ->
  measureHorizontal gap 0 images 0 0 =
    (sumZ (widths images) + gap * (Z.of_nat (List.length images) - 1),
     maxZ (heights images)).
Proof.
  intros Hwf Hgap Hne Hfit. destruct images as [|img rest]; [congruence|].
  inversion Hwf as [|? ? Himg Hrest]; subst.
  pose proof (Dx_wf _ Himg) as [_ Hw]. pose proof (Dy_wf _ Himg) as [_ Hh].
  pose proof (sumZ_nonneg _ (wf_widths _ Hrest)) as Hs.
  pose proof (maxZ_nonneg (heights rest)) as Hm.
  cbn [measureHorizontal]. cbn [widths heights map sumZ maxZ foldr List.length] in *.
  fold (widths rest) in *. fold (heights rest) in *.
  fold (sumZ (widths rest)) in *. fold (maxZ (heights rest)) in *.
  rewrite Nat2Z.inj_succ in *.
  change (0 >? 0) with false. cbv iota.
  rewrite (add_small 0) by (apply in_range_nonneg; lia).
  set (mh' := if Dy (Bounds img) >? 0 then Dy (Bounds img) else 0).
  assert (Hmh' : mh' = Dy (Bounds img))
    by (unfold mh'; destruct (Z.gtb_spec (Dy (Bounds img)) 0); lia).
  change (0 + 1) with 1.
  rewrite measureHorizontal_tail; [f_equal; lia | assumption | lia | lia | lia | lia | nia].
Qed.

Lemma calculateAlignment_cross (container item : Z) (align : string) :
  0 <= item <= container -> container <= max_int ->
  calculateAlignment container item align = crossOffset align container item /\
  0 <= crossOffset align container item /\
  crossOffset align container item + item <= container.
Proof.
  intros Hi Hc. unfold calculateAlignment, crossOffset.
  assert (Hd : 0 <= (container - item) / 2 <= container - item).
  { split; [apply Z.div_pos; lia | apply Z.div_le_upper_bound; lia]. }
  destruct (String.eqb align "start"); [lia|].
  destruct (String.eqb align "end").
  - rewrite sub_small by (apply in_range_nonneg; lia). lia.
  - assert (Hq : quo (sub container item) 2 = (container - item) / 2).
    { rewrite sub_small by (apply in_range_nonneg; lia).
      apply quo_nonneg; lia. }
    destruct (String.eqb align "center" || String.eqb align ""); rewrite Hq; lia.
Qed.

Lemma drawHorizontal_row opts n height images : forall i x canvas,
  wf_images images -> 0 <= Gap opts ->
  i + Z.of_nat (List.length images) = n -> 0 <= x ->
  x + sumZ (widths images) + Gap opts * (Z.of_nat (List.length images) - 1) <= max_int ->
  Forall (fun h => h <= height) (heights images) -> height <= max_int ->
  drawHorizontal opts n height i images x canvas =
    mkCanvas (cv_bounds canvas)
      (cv_draws canvas ++ row (Align opts) (Gap opts) height x images).
Proof.
  induction images as [|img rest IH]; intros i x canvas Hwf Hgap Hn Hx Hfit Hle Hmax.
  - simpl. rewrite app_nil_r. by destruct canvas.
  - inversion Hwf as [|? ? Himg Hrest]; subst.
    inversion Hle as [|? ? Hh Hhs]; subst.
    pose proof (Dx_wf _ Himg) as [_ Hw]. pose proof (Dy_wf _ Himg) as [_ Hd].
    pose proof (sumZ_nonneg _ (wf_widths _ Hrest)) as Hs.
    cbn [drawHorizontal row]. cbn [widths heights map sumZ maxZ foldr List.length] in *.
    fold (widths rest) in *. fold (heights rest) in *.
    fold (sumZ (widths rest)) in *.
    rewrite Nat2Z.inj_succ in *.
    destruct (calculateAlignment_cross height (Dy (Bounds img)) (Align opts))
      as (Hy & Hy0 & Hy1); [lia | lia |].
    rewrite Hy.
    assert (Hxw : x + Dx (Bounds img) <= max_int).
    { destruct rest; cbn [List.length widths map sumZ foldr] in *; [lia|].
      rewrite Nat2Z.inj_succ in *. nia. }
    rewrite (add_small x) by (apply in_range_nonneg; lia).
    rewrite (add_small (crossOffset _ _ _)) by (apply in_range_nonneg; lia).
    rewrite Rect_ordered by lia.
    destruct rest as [|img' rest'].
    + cbn [drawHorizontal row]. cbn [List.length] in *.
      unfold draw_Draw, placed. cbn [cv_bounds cv_draws]. reflexivity.
    + assert (Hlt : (i <? i + Z.succ (Z.of_nat (List.length (img' :: rest'))) - 1) = true).
      { apply Z.ltb_lt. cbn [List.length]. lia. }
      rewrite Hlt.
      assert (Hfit' : x + Dx (Bounds img) + Gap opts <= max_int).
      { cbn [List.length] in *. rewrite Nat2Z.inj_succ in *.
        inversion Hrest as [|? ? Himg' _]; subst.
        pose proof (Dx_wf _ Himg') as [_ Hw'].
        cbn [widths map sumZ foldr] in *. fold (widths rest') in *. fold (sumZ (widths rest')) in *.
        inversion Hrest; subst.
        pose proof (sumZ_nonneg _ (wf_widths rest' ltac:(assumption))). nia. }
      rewrite (add_small (x + _)) by (apply in_range_nonneg; lia).
      rewrite IH; [| assumption | assumption | lia | lia | lia | assumption | assumption].
      unfold draw_Draw, placed. cbn [cv_bounds cv_draws].
      rewrite <- app_assoc. reflexivity.
Qed.

Lemma row_lookup align gap height images : forall x i img,
  images !! i = Some img ->
  row align gap height x images !! i =
    Some (placed img (x + sumZ (take i (widths images)) + Z.of_nat i * gap)
            (crossOffset align height (Dy (Bounds img)))).
Proof.
  induction images as [|img0 rest IH]; intros x i img Hi; [done|].
  destruct i as [|i].
  - simpl in Hi. injection Hi as ->. simpl. do 2 f_equal. lia.
  - simpl in Hi. cbn [row]. rewrite lookup_cons_ne_0 by lia. cbn [Nat.pred].
    rewrite (IH _ _ _ Hi). do 2 f_equal.
    cbn [widths map take sumZ foldr]. fold (widths rest). fold (sumZ (take i (widths rest))).
    lia.
Qed.

Lemma row_length align gap height images : forall x,
  List.length (row align gap height x images) = List.length images.
Proof. induction images; intros; simpl; auto. Qed.

Lemma heights_le_maxZ images :
  Forall (fun h => h <= maxZ (heights images)) (heights images).
Proof. apply Forall_forall. intros h Hh. by apply maxZ_ge. Qed.

Lemma maxZ_le l b : 0 <= b -> Forall (fun x => x <= b) l -> maxZ l <= b.
Proof. intros Hb. induction 1; simpl; lia. Qed.

Lemma maxZ_heights_fit images : wf_images images -> 0 <= maxZ (heights images) <= max_int.
Proof.
  intros Hwf. split; [apply maxZ_nonneg|].
  apply maxZ_le; [unfold max_int; lia|].
  induction Hwf; simpl; constructor; auto.
  match goal with H : wf_rect _ |- _ => apply Dy_wf in H end. lia.
Qed.

Section Horizontal.
Variable strings_ToLower : string -> string.

Lemma fillBackground_shape canvas bg :
  exists call, fillBackground strings_ToLower canvas bg =
    mkCanvas (cv_bounds canvas) (cv_draws canvas ++ [call]).
Proof. unfold fillBackground, draw_Draw. eexists. reflexivity. Qed.

(** C3.  A row of at least two images: the canvas is as wide as the
    images and the gaps between them and as high as the highest image;
    image [i] is drawn at the sum of the widths before it plus [i] gaps,
    so the gap falls between neighbours only; its vertical offset is [0]
    for [start], the free height for [end] and half of it for [center]. *)
Theorem combineHorizontal_layout (images : list Image) (opts : CombineOptions) :
  (2 <= List.length images)%nat ->
  wf_images images ->
  0 <= Gap opts ->
  sumZ (widths images) + Gap opts * (Z.of_nat (List.length images) - 1) <= max_int ->
  let canvas := combineHorizontal strings_ToLower images opts in
  let W := sumZ (widths images) + Gap opts * (Z.of_nat (List.length images) - 1) in
  let H := maxZ (heights images) in
  cv_bounds canvas = mkRectangle (mkPoint 0 0) (mkPoint W H) /\
  Dx (cv_bounds canvas) = W /\
  Dy (cv_bounds canvas) = H /\
  forall (i : nat) (img : Image), images !! i = Some img ->
    exists y,
      cv_draws canvas !! S i =
        Some (placed img (sumZ (take i (widths images)) + Z.of_nat i * Gap opts) y) /\
      (Align opts = "start" -> y = 0) /\
      (Align opts = "end" -> y = H - Dy (Bounds img)) /\
      (Align opts = "center" -> y = (H - Dy (Bounds img)) / 2).
Proof.
  intros Hlen Hwf Hgap Hfit canvas W H.
  assert (Hne : images <> []) by (destruct images; simpl in *; [lia | congruence]).
  pose proof (maxZ_heights_fit _ Hwf) as HH. fold H in HH.
  pose proof (sumZ_nonneg _ (wf_widths _ Hwf)) as Hs.
  assert (HW : 0 <= W <= max_int) by (unfold W; split; [nia | lia]).
  assert (Hcanvas : canvas =
    mkCanvas (mkRectangle (mkPoint 0 0) (mkPoint W H))
      (cv_draws (fillBackground strings_ToLower
                   (NewCanvas (mkRectangle (mkPoint 0 0) (mkPoint W H))) (Background opts))
       ++ row (Align opts) (Gap opts) H 0 images)).
  { unfold canvas, combineHorizontal.
    rewrite measureHorizontal_total by assumption. fold W H.
    rewrite Rect_ordered by lia.
    rewrite drawHorizontal_row;
      [reflexivity | assumption | assumption | lia | lia | fold W; lia
      | apply heights_le_maxZ | lia]. }
  rewrite Hcanvas. cbn [cv_bounds cv_draws].
  split; [reflexivity|]. split.
  { unfold Dx. cbn. rewrite sub_small; [lia | apply in_range_nonneg; lia]. }
  split.
  { unfold Dy. cbn. rewrite sub_small; [lia | apply in_range_nonneg; lia]. }
  intros i img Hi.
  exists (crossOffset (Align opts) H (Dy (Bounds img))). split.
  - unfold fillBackground, draw_Draw, NewCanvas. cbn [cv_draws app].
    rewrite lookup_cons_ne_0 by lia. cbn [Nat.pred].
    rewrite (row_lookup _ _ _ _ _ _ _ Hi). rewrite Z.add_0_l. reflexivity.
  - unfold crossOffset. repeat split; intros ->; reflexivity.
Qed.
End Horizontal.

(** The measuring loop of a column past the first image. *)
Lemma measureVertical_tail gap images : forall i mw th,
  wf_images images -> 0 <= gap -> 0 < i -> 0 <= th -> 0 <= mw ->
  th + sumZ (heights images) + gap * Z.of_nat (List.length images) <= max_int ->
  measureVertical gap i images mw th =
    (Z.max mw (maxZ (widths images)),
     th + sumZ (heights images) + gap * Z.of_nat (List.length images)).
Proof.
  induction images as [|img rest IH]; intros i mw th Hwf Hgap Hi Hth Hmw Hfit.
  - simpl. f_equal; lia.
  - inversion Hwf as [|? ? Himg Hrest]; subst.
    pose proof (Dx_wf _ Himg) as [_ Hw]. pose proof (Dy_wf _ Himg) as [_ Hh].
    pose proof (sumZ_nonneg _ (wf_heights _ Hrest)) as Hs.
    cbn [measureVertical]. cbn [widths heights map sumZ maxZ foldr List.length] in *.
    fold (widths rest) in *. fold (heights rest) in *.
    fold (sumZ (heights rest)) in *. fold (maxZ (widths rest)) in *.
    rewrite Nat2Z.inj_succ in *.
    destruct (Z.gtb_spec i 0); [|lia].
    rewrite (add_small th) by (apply in_range_nonneg; nia).
    rewrite add_small by (apply in_range_nonneg; nia).
    set (mw' := if Dx (Bounds img) >? mw then Dx (Bounds img) else mw).
    assert (Hmw' : mw' = Z.max mw (Dx (Bounds img)))
      by (unfold mw'; destruct (Z.gtb_spec (Dx (Bounds img)) mw); lia).
    rewrite IH; [f_equal; lia | assumption | lia | lia | nia | lia | nia].
Qed.

Lemma measureVertical_total gap images :
  wf_images images -> 0 <= gap -> images <> [] ->
  sumZ (heights images) + gap * (Z.of_nat (List.length images) - 1) <= max_int ->
  measureVertical gap 0 images 0 0 =
    (maxZ (widths images),
     sumZ (heights images) + gap * (Z.of_nat (List.length images) - 1)).
Proof.
  intros Hwf Hgap Hne Hfit. destruct images as [|img rest]; [congruence|].
  inversion Hwf as [|? ? Himg Hrest]; subst.
  pose proof (Dx_wf _ Himg) as [_ Hw]. pose proof (Dy_wf _ Himg) as [_ Hh].
  pose proof (sumZ_nonneg _ (wf_heights _ Hrest)) as Hs.
  pose proof (maxZ_nonneg (widths rest)) as Hm.
  cbn [measureVertical]. cbn [widths heights map sumZ maxZ foldr List.length] in *.
  fold (widths rest) in *. fold (heights rest) in *.
  fold (sumZ (heights rest)) in *. fold (maxZ (widths rest)) in *.
  rewrite Nat2Z.inj_succ in *.
  change (0 >? 0) with false. cbv iota.
  rewrite (add_small 0) by (apply in_range_nonneg; lia).
  set (mw' := if Dx (Bounds img) >? 0 then Dx (Bounds img) else 0).
  assert (Hmw' : mw' = Dx (Bounds img))
    by (unfold mw'; destruct (Z.gtb_spec (Dx (Bounds img)) 0); lia).
  change (0 + 1) with 1.
  rewrite measureVertical_tail; [f_equal; lia | assumption | lia | lia | lia | lia | nia].
Qed.

Lemma drawVertical_column opts n width images : forall i y canvas,
  wf_images images -> 0 <= Gap opts ->
  i + Z.of_nat (List.length images) = n -> 0 <= y ->
  y + sumZ (heights images) + Gap opts * (Z.of_nat (List.length images) - 1) <= max_int ->
  Forall (fun w => w <= width) (widths images) -> width <= max_int ->
  drawVertical opts n width i images y canvas =
    mkCanvas (cv_bounds canvas)
      (cv_draws canvas ++ column (Align opts) (Gap opts) width y images).
Proof.
  induction images as [|img rest IH]; intros i y canvas Hwf Hgap Hn Hy Hfit Hle Hmax.
  - simpl. rewrite app_nil_r. by destruct canvas.
  - inversion Hwf as [|? ? Himg Hrest]; subst.
    inversion Hle as [|? ? Hw Hws]; subst.
    pose proof (Dx_wf _ Himg) as [_ Hd]. pose proof (Dy_wf _ Himg) as [_ Hh].
    pose proof (sumZ_nonneg _ (wf_heights _ Hrest)) as Hs.
    cbn [drawVertical column]. cbn [widths heights map sumZ maxZ foldr List.length] in *.
    fold (widths rest) in *. fold (heights rest) in *.
    fold (sumZ (heights rest)) in *.
    rewrite Nat2Z.inj_succ in *.
    destruct (calculateAlignment_cross width (Dx (Bounds img)) (Align opts))
      as (Hx & Hx0 & Hx1); [lia | lia |].
    rewrite Hx.
    assert (Hyh : y + Dy (Bounds img) <= max_int).
    { destruct rest; cbn [List.length heights map sumZ foldr] in *; [lia|].
      rewrite Nat2Z.inj_succ in *. nia. }
    rewrite (add_small y) by (apply in_range_nonneg; lia).
    rewrite (add_small (crossOffset _ _ _)) by (apply in_range_nonneg; lia).
    rewrite Rect_ordered by lia.
    destruct rest as [|img' rest'].
    + cbn [drawVertical column]. cbn [List.length] in *.
      unfold draw_Draw, placed. cbn [cv_bounds cv_draws]. reflexivity.
    + assert (Hlt : (i <? i + Z.succ (Z.of_nat (List.length (img' :: rest'))) - 1) = true).
      { apply Z.ltb_lt. cbn [List.length]. lia. }
      rewrite Hlt.
      assert (Hfit' : y + Dy (Bounds img) + Gap opts <= max_int).
      { cbn [List.length] in *. rewrite Nat2Z.inj_succ in *.
        inversion Hrest as [|? ? Himg' Hrest']; subst.
        pose proof (Dy_wf _ Himg') as [_ Hh'].
        cbn [heights map sumZ foldr] in *. fold (heights rest') in *.
        fold (sumZ (heights rest')) in *.
        pose proof (sumZ_nonneg _ (wf_heights rest' Hrest')). nia. }
      rewrite (add_small (y + _)) by (apply in_range_nonneg; lia).
      rewrite IH; [| assumption | assumption | lia | lia | lia | assumption | assumption].
      unfold draw_Draw, placed. cbn [cv_bounds cv_draws].
      rewrite <- app_assoc. reflexivity.
Qed.

Lemma column_lookup align gap width images : forall y i img,
  images !! i = Some img ->
  column align gap width y images !! i =
    Some (placed img (crossOffset align width (Dx (Bounds img)))
            (y + sumZ (take i (heights images)) + Z.of_nat i * gap)).
Proof.
  induction images as [|img0 rest IH]; intros y i img Hi; [done|].
  destruct i as [|i].
  - simpl in Hi. injection Hi as ->. simpl. do 2 f_equal. lia.
  - simpl in Hi. cbn [column]. rewrite lookup_cons_ne_0 by lia. cbn [Nat.pred].
    rewrite (IH _ _ _ Hi). do 2 f_equal.
    cbn [heights map take sumZ foldr]. fold (heights rest). fold (sumZ (take i (heights rest))).
    lia.
Qed.

Lemma widths_le_maxZ images :
  Forall (fun w => w <= maxZ (widths images)) (widths images).
Proof. apply Forall_forall. intros w Hw. by apply maxZ_ge. Qed.

Lemma maxZ_widths_fit images : wf_images images -> 0 <= maxZ (widths images) <= max_int.
Proof.
  intros Hwf. split; [apply maxZ_nonneg|].
  apply maxZ_le; [unfold max_int; lia|].
  induction Hwf; simpl; constructor; auto.
  match goal with H : wf_rect _ |- _ => apply Dx_wf in H end. lia.
Qed.

Section Vertical.
Variable strings_ToLower : string -> string.

Lemma combineVertical_layout (images : list Image) (opts : CombineOptions) :
  images <> [] ->
  wf_images images ->
  0 <= Gap opts ->
  sumZ (heights images) + Gap opts * (Z.of_nat (List.length images) - 1) <= max_int ->
  let W := maxZ (widths images) in
  let H := sumZ (heights images) + Gap opts * (Z.of_nat (List.length images) - 1) in
  exists background,
    combineVertical strings_ToLower images opts =
      mkCanvas (mkRectangle (mkPoint 0 0) (mkPoint W H))
        (background :: column (Align opts) (Gap opts) W 0 images).
Proof.
  intros Hne Hwf Hgap Hfit W H.
  pose proof (maxZ_widths_fit _ Hwf) as HW. fold W in HW.
  pose proof (sumZ_nonneg _ (wf_heights _ Hwf)) as Hs.
  assert (Hlen : 1 <= Z.of_nat (List.length images))
    by (destruct images; simpl in *; [congruence | lia]).
  assert (HH : 0 <= H <= max_int) by (unfold H; split; [nia | lia]).
  eexists. unfold combineVertical.
  rewrite measureVertical_total by assumption. fold W H.
  rewrite Rect_ordered by lia.
  rewrite drawVertical_column;
    [ | assumption | assumption | lia | lia | fold H; lia | apply widths_le_maxZ | lia].
  unfold fillBackground, draw_Draw, NewCanvas. cbn [cv_bounds cv_draws app]. reflexivity.
Qed.
End Vertical.

Lemma round_half_up_half (n : Z) : round_half_up ((1 # 2) * inject_Z n) = (n + 1) / 2.
Proof.
  unfold round_half_up, Qfloor, Qplus, Qmult, inject_Z. cbn.
  change (Z.pos (2 * 1)) with 2. change (Z.pos (2 * 1 * 2)) with (2 * 2).
  replace (1 * n * 2 + 1 * 2) with ((n + 1) * 2) by lia.
  rewrite Z.div_mul_cancel_r by lia. reflexivity.
Qed.

Lemma ceil_div_Z (a b : Z) : 0 < b -> ceil_div a b = (a + b - 1) / b.
Proof.
  intros Hb. unfold ceil_div, Qceiling, Qfloor, Qdiv, Qmult, Qinv, Qopp, inject_Z.
  destruct b as [|p|p]; try lia. cbn.
  rewrite Z.mul_1_r. change (Z.pos (1 * p)) with (Z.pos p).
  pose proof (Z.mod_pos_bound (- a) (Z.pos p) ltac:(lia)) as Hr.
  pose proof (Z.div_mod (- a) (Z.pos p) ltac:(lia)) as Hq.
  apply Z.div_unique with (r := Z.pos p - 1 - (- a) mod Z.pos p); [left; lia | lia].
Qed.

(** The column count is at least 1, whatever the count. *)
Lemma gridColumns_pos (columns count : Z) : 1 <= gridColumns columns count.
Proof.
  unfold gridColumns. destruct (Z.leb_spec columns 0); [|lia]. cbv zeta.
  destruct (Z.ltb_spec (GoFloat.to_int (GoFloat.of_uint count * 0.5 + 0.5)) 1); lia.
Qed.

Lemma gridColumns_given (columns count : Z) :
  0 < columns -> gridColumns columns count = columns.
Proof. intros Hc. unfold gridColumns. destruct (Z.leb_spec columns 0); [lia | reflexivity]. Qed.

(** The automatic column count, wherever [float64(count)] is exact. *)
Lemma gridColumns_auto (columns count : Z) :
  columns <= 0 -> 0 <= count <= 2 ^ 53 ->
  gridColumns columns count = Z.max 1 (round_half_up ((1 # 2) * inject_Z count)).
Proof.
  intros Hc Hn. unfold gridColumns. destruct (Z.leb_spec columns 0); [|lia]. cbv zeta.
  rewrite ExactFacts.half_up_exact by assumption. rewrite round_half_up_half.
  destruct (Z.ltb_spec ((count + 1) / 2) 1); lia.
Qed.

Lemma measureCells_max images : forall mw mh,
  0 <= mw -> 0 <= mh ->
  measureCells images mw mh =
    (Z.max mw (maxZ (widths images)), Z.max mh (maxZ (heights images))).
Proof.
  induction images as [|img rest IH]; intros mw mh Hmw Hmh.
  - simpl. f_equal; lia.
  - cbn [measureCells widths heights map maxZ foldr].
    fold (widths rest). fold (heights rest).
    fold (maxZ (widths rest)). fold (maxZ (heights rest)).
    rewrite IH.
    + f_equal.
      * destruct (Z.gtb_spec (Dx (Bounds img)) mw); lia.
      * destruct (Z.gtb_spec (Dy (Bounds img)) mh); lia.
    + destruct (Z.gtb_spec (Dx (Bounds img)) mw); lia.
    + destruct (Z.gtb_spec (Dy (Bounds img)) mh); lia.
Qed.

(** One image of the grid loop. *)
Lemma drawGrid_cell (gap cols cw ch lastRow : Z) (i : nat) (img : Image) :
  wf_rect (Bounds img) -> 0 <= gap -> 1 <= cols ->
  Dx (Bounds img) <= cw -> Dy (Bounds img) <= ch ->
  Z.of_nat i <= max_int -> Z.of_nat i / cols <= lastRow ->
  cols * (cw + gap) <= max_int -> (lastRow + 1) * (ch + gap) <= max_int ->
  let row := quo (Z.of_nat i) cols in
  let col := rem (Z.of_nat i) cols in
  let cellX := mul col (add cw gap) in
  let cellY := mul row (add ch gap) in
  let x := add cellX (quo (sub cw (Dx (Bounds img))) 2) in
  let y := add cellY (quo (sub ch (Dy (Bounds img))) 2) in
  mkDrawCall (Rect x y (add x (Dx (Bounds img))) (add y (Dy (Bounds img))))
    (SrcImage img) (Min (Bounds img)) Over
  = inCell gap cols cw ch i img.
Proof.
  intros Hwf Hgap Hcols Hw Hh Hi Hrow Hfx Hfy.
  pose proof (Dx_wf _ Hwf) as [_ Hdx]. pose proof (Dy_wf _ Hwf) as [_ Hdy].
  pose proof (Z.mod_pos_bound (Z.of_nat i) cols ltac:(lia)) as Hc.
  assert (Hr : 0 <= Z.of_nat i / cols) by (apply Z.div_pos; lia).
  set (c := Z.of_nat i mod cols) in *. set (r := Z.of_nat i / cols) in *.
  assert (Hcw : 0 <= cw + gap <= max_int) by nia.
  assert (Hch : 0 <= ch + gap <= max_int) by nia.
  assert (Hcx : 0 <= c * (cw + gap) /\ (c + 1) * (cw + gap) <= max_int) by nia.
  assert (Hry : 0 <= r * (ch + gap) /\ (r + 1) * (ch + gap) <= max_int) by nia.
  assert (Hhx : 0 <= (cw - Dx (Bounds img)) / 2 <= cw - Dx (Bounds img)).
  { split; [apply Z.div_pos; lia | apply Z.div_le_upper_bound; lia]. }
  assert (Hhy : 0 <= (ch - Dy (Bounds img)) / 2 <= ch - Dy (Bounds img)).
  { split; [apply Z.div_pos; lia | apply Z.div_le_upper_bound; lia]. }
  cbv zeta.
  rewrite (quo_nonneg (Z.of_nat i) cols) by lia. rewrite rem_nonneg by lia. fold c r.
  rewrite !(add_small cw gap), !(add_small ch gap) by (apply in_range_nonneg; lia).
  rewrite !(mul_small c), !(mul_small r) by (apply in_range_nonneg; lia).
  rewrite !(sub_small cw), !(sub_small ch) by (apply in_range_nonneg; lia).
  rewrite !quo_nonneg by lia.
  rewrite !(add_small (c * (cw + gap))), !(add_small (r * (ch + gap)))
    by (apply in_range_nonneg; nia).
  rewrite !add_small by (apply in_range_nonneg; nia).
  rewrite Rect_ordered by lia.
  reflexivity.
Qed.

Lemma drawGrid_cells (gap cols cw ch lastRow : Z) (count : nat) images :
  forall (i : nat) canvas,
  wf_images images -> 0 <= gap -> 1 <= cols ->
  (i + List.length images = count)%nat ->
  Forall (fun w => w <= cw) (widths images) -> Forall (fun h => h <= ch) (heights images) ->
  Z.of_nat count <= max_int -> (Z.of_nat count - 1) / cols <= lastRow ->
  cols * (cw + gap) <= max_int -> (lastRow + 1) * (ch + gap) <= max_int ->
  drawGrid gap cols cw ch (Z.of_nat i) images canvas =
    mkCanvas (cv_bounds canvas) (cv_draws canvas ++ cells gap cols cw ch i images).
Proof.
  induction images as [|img rest IH];
    intros i canvas Hwf Hgap Hcols Hn Hws Hhs Hcount Hrow Hfx Hfy.
  - simpl. rewrite app_nil_r. by destruct canvas.
  - inversion Hwf as [|? ? Himg Hrest]; subst.
    inversion Hws as [|? ? Hw Hws']; subst. inversion Hhs as [|? ? Hh Hhs']; subst.
    cbn [drawGrid cells]. cbn [List.length] in *. unfold draw_Draw.
    rewrite (drawGrid_cell gap cols cw ch lastRow i img); try assumption; try lia.
    + replace (Z.of_nat i + 1) with (Z.of_nat (S i)) by lia.
      rewrite IH; try assumption; try lia.
      cbn [cv_bounds cv_draws]. rewrite <- app_assoc. reflexivity.
    + etransitivity; [|exact Hrow]. apply Z.div_le_mono; lia.
Qed.

Lemma cells_lookup gap cols cw ch images : forall (i k : nat) img,
  images !! k = Some img ->
  cells gap cols cw ch i images !! k = Some (inCell gap cols cw ch (i + k) img).
Proof.
  induction images as [|img0 rest IH]; intros i k img Hk; [done|].
  destruct k as [|k].
  - simpl in Hk. injection Hk as ->. simpl. rewrite Nat.add_0_r. reflexivity.
  - simpl in Hk. cbn [cells]. rewrite lookup_cons_ne_0 by lia. cbn [Nat.pred].
    rewrite (IH _ _ _ Hk). do 2 f_equal. lia.
Qed.

Lemma maxZ_const (l : list Z) (w : Z) :
  l <> [] -> 0 <= w -> Forall (fun x => x = w) l -> maxZ l = w.
Proof.
  intros Hne Hw Hall. induction Hall as [|x l Hx Hall IH]; [congruence|].
  subst x. cbn [maxZ foldr]. fold (maxZ l).
  destruct l as [|y l']; [cbn; lia|]. rewrite IH by congruence. lia.
Qed.

Section Grid.
Variable strings_ToLower : string -> string.

(** C4.  A grid of at least two images, with [cols] the column count of
    the code: it is the one given, or, when none is given and the count is
    at most 2^53 (where [float64] holds every count exactly),
    round(0.5 * count) and at least 1; the row count is
    ceil(count / columns); a cell is as wide and as high as the widest and
    the highest image; the canvas is columns*cellWidth + (columns-1)*gap
    wide and rows*cellHeight + (rows-1)*gap high; image [i] is centred in
    the cell of row [i / columns] and column [i mod columns]; four images
    of one size in two columns give a canvas of 2*width + gap by
    2*height + gap. *)
Theorem combineGrid_layout (images : list Image) (opts : CombineOptions) :
  (2 <= List.length images)%nat ->
  wf_images images ->
  0 <= Gap opts ->
  let count := Z.of_nat (List.length images) in
  let cols := gridColumns (Columns opts) count in
  let rows := ceil_div count cols in
  let cellWidth := maxZ (widths images) in
  let cellHeight := maxZ (heights images) in
  grid_fits (Gap opts) cols rows cellWidth cellHeight count ->
  let canvas := combineGrid strings_ToLower images opts in
  let W := cols * cellWidth + (cols - 1) * Gap opts in
  let H := rows * cellHeight + (rows - 1) * Gap opts in
  (0 < Columns opts -> cols = Columns opts) /\
  (Columns opts <= 0 -> count <= 2 ^ 53 ->
   cols = Z.max 1 (round_half_up ((1 # 2) * inject_Z count))) /\
  cv_bounds canvas = mkRectangle (mkPoint 0 0) (mkPoint W H) /\
  Dx (cv_bounds canvas) = W /\
  Dy (cv_bounds canvas) = H /\
  (forall (i : nat) (img : Image), images !! i = Some img ->
     cv_draws canvas !! S i = Some (inCell (Gap opts) cols cellWidth cellHeight i img)) /\
  (forall w h : Z,
     List.length images = 4%nat -> cols = 2 ->
     Forall (fun img => Dx (Bounds img) = w /\ Dy (Bounds img) = h) images ->
     Dx (cv_bounds canvas) = 2 * w + Gap opts /\ Dy (cv_bounds canvas) = 2 * h + Gap opts).
Proof.
  intros Hlen Hwf Hgap count cols rows cw ch (Hfc & Hfx & Hfy) canvas W H.
  assert (Hcount : 2 <= count) by (unfold count; lia).
  pose proof (gridColumns_pos (Columns opts) count) as Hcols1. fold cols in Hcols1.
  pose proof (maxZ_nonneg (widths images)) as Hcw. fold cw in Hcw.
  pose proof (maxZ_nonneg (heights images)) as Hch. fold ch in Hch.
  assert (Hrows : rows = (count + cols - 1) / cols).
  { unfold rows. apply ceil_div_Z. lia. }
  assert (Hrows' : rows = (count - 1) / cols + 1).
  { rewrite Hrows. replace (count + cols - 1) with (count - 1 + 1 * cols) by lia.
    apply Z.div_add. lia. }
  assert (Hrows1 : 1 <= rows).
  { rewrite Hrows'. assert (0 <= (count - 1) / cols) by (apply Z.div_pos; lia). lia. }
  assert (Hrows_le : rows <= count).
  { rewrite Hrows'. assert ((count - 1) / cols <= count - 1); [|lia].
    apply Z.div_le_upper_bound; nia. }
  assert (HW : 0 <= W <= max_int) by (unfold W; nia).
  assert (HH : 0 <= H <= max_int) by (unfold H; nia).
  assert (Hcanvas : canvas =
    mkCanvas (mkRectangle (mkPoint 0 0) (mkPoint W H))
      (cv_draws (fillBackground strings_ToLower
                   (NewCanvas (mkRectangle (mkPoint 0 0) (mkPoint W H))) (Background opts))
       ++ cells (Gap opts) cols cw ch 0 images)).
  { unfold canvas, combineGrid. fold count cols.
    rewrite (add_small count) by (apply in_range_nonneg; lia).
    rewrite (sub_small (count + cols)) by (apply in_range_nonneg; lia).
    rewrite (quo_nonneg (count + cols - 1)) by lia. rewrite <- Hrows.
    rewrite measureCells_max by lia. rewrite !Z.max_r by assumption. fold cw ch.
    rewrite !sub_small by (apply in_range_nonneg; lia).
    rewrite !mul_small by (apply in_range_nonneg; nia).
    rewrite !add_small by (apply in_range_nonneg; nia).
    fold W H. rewrite Rect_ordered by lia.
    change (drawGrid (Gap opts) cols cw ch 0 images)
      with (drawGrid (Gap opts) cols cw ch (Z.of_nat 0) images).
    rewrite (drawGrid_cells (Gap opts) cols cw ch (rows - 1) (List.length images));
      [reflexivity | assumption | assumption | assumption | reflexivity
      | apply widths_le_maxZ | apply heights_le_maxZ | fold count; lia
      | fold count; lia | assumption | replace (rows - 1 + 1) with rows by lia; assumption]. }
  assert (HDx : Dx (cv_bounds canvas) = W).
  { rewrite Hcanvas. unfold Dx. cbn. rewrite sub_small; [lia | apply in_range_nonneg; lia]. }
  assert (HDy : Dy (cv_bounds canvas) = H).
  { rewrite Hcanvas. unfold Dy. cbn. rewrite sub_small; [lia | apply in_range_nonneg; lia]. }
  split; [intros Hgiven; apply gridColumns_given; exact Hgiven|].
  split; [intros Hle Hbig; apply gridColumns_auto; [exact Hle | fold count; lia]|].
  split; [rewrite Hcanvas; reflexivity|]. split; [exact HDx|]. split; [exact HDy|]. split.
  - intros i img Hi. rewrite Hcanvas. cbn [cv_draws].
    unfold fillBackground, draw_Draw, NewCanvas. cbn [cv_draws app].
    rewrite lookup_cons_ne_0 by lia. cbn [Nat.pred].
    rewrite (cells_lookup _ _ _ _ _ 0%nat i img Hi). reflexivity.
  - intros w h Hfour Hc2 Hsame. rewrite HDx, HDy. unfold W, H.
    assert (Hr2 : rows = 2).
    { rewrite Hrows, Hc2. unfold count. rewrite Hfour. reflexivity. }
    assert (Hne : images <> []) by (destruct images; simpl in *; [lia | congruence]).
    assert (Hw0 : 0 <= w /\ 0 <= h).
    { destruct images as [|img ?]; [congruence|].
      inversion Hsame as [|? ? [Hw Hh] _]; subst.
      inversion Hwf as [|? ? Himg _]; subst.
      pose proof (Dx_wf _ Himg). pose proof (Dy_wf _ Himg). lia. }
    assert (cw = w).
    { apply maxZ_const; [destruct images; simpl; congruence | lia |].
      unfold widths. apply Forall_map. eapply Forall_impl; [exact Hsame|].
      cbn. intros ? [? ?]. assumption. }
    assert (ch = h).
    { apply maxZ_const; [destruct images; simpl; congruence | lia |].
      unfold heights. apply Forall_map. eapply Forall_impl; [exact Hsame|].
      cbn. intros ? [? ?]. assumption. }
    subst. rewrite Hc2, Hr2. lia.
Qed.
End Grid.

Lemma drawHorizontal_bounds opts n height images : forall i x canvas,
  cv_bounds (drawHorizontal opts n height i images x canvas) = cv_bounds canvas.
Proof. induction images; intros; cbn [drawHorizontal]; [reflexivity | rewrite IHimages; reflexivity]. Qed.

Lemma drawVertical_bounds opts n width images : forall i y canvas,
  cv_bounds (drawVertical opts n width i images y canvas) = cv_bounds canvas.
Proof. induction images; intros; cbn [drawVertical]; [reflexivity | rewrite IHimages; reflexivity]. Qed.

Lemma drawGrid_bounds gap cols cw ch images : forall i canvas,
  cv_bounds (drawGrid gap cols cw ch i images canvas) = cv_bounds canvas.
Proof. induction images; intros; cbn [drawGrid]; [reflexivity | rewrite IHimages; reflexivity]. Qed.

Lemma loadImages_readable (open : string -> option Image) (paths : list string) :
  (forall p, p ∈ paths -> is_Some (open p)) -> exists images, loadImages open paths = inl images.
Proof.
  induction paths as [|p rest IH]; intros Hall; [by exists []|].
  cbn [loadImages]. destruct (Hall p ltac:(left)) as [img ->].
  destruct IH as [imgs ->]; [intros q Hq; apply Hall; by right|].
  by eexists.
Qed.

Lemma loadImages_error (open : string -> option Image) (paths : list string) e :
  loadImages open paths = inr e -> exists p, e = ErrOpen p.
Proof.
  induction paths as [|p rest IH]; cbn [loadImages]; [discriminate|].
  destruct (open p); [|intros [= <-]; by eexists].
  destruct (loadImages open rest); [discriminate|].
  intros [= <-]. by apply IH.
Qed.

Section CombineImagesFacts.
Variable strings_ToLower : string -> string.
Variable filepath_Dir : string -> string.
Variable imaging_Open : FileSystem -> string -> option Image.

Local Abbreviation CombineImages :=
  (CombineImages strings_ToLower filepath_Dir imaging_Open).

Lemma combineHorizontal_bounds images opts align :
  cv_bounds (combineHorizontal strings_ToLower images (withAlign opts align))
  = cv_bounds (combineHorizontal strings_ToLower images opts).
Proof.
  unfold combineHorizontal. cbn [Gap withAlign].
  destruct (measureHorizontal (Gap opts) 0 images 0 0) as [tw mh].
  rewrite !drawHorizontal_bounds. reflexivity.
Qed.

Lemma combineVertical_bounds images opts align :
  cv_bounds (combineVertical strings_ToLower images (withAlign opts align))
  = cv_bounds (combineVertical strings_ToLower images opts).
Proof.
  unfold combineVertical. cbn [Gap withAlign].
  destruct (measureVertical (Gap opts) 0 images 0 0) as [mw th].
  rewrite !drawVertical_bounds. reflexivity.
Qed.

Lemma combineGrid_bounds images opts align :
  cv_bounds (combineGrid strings_ToLower images (withAlign opts align))
  = cv_bounds (combineGrid strings_ToLower images opts).
Proof.
  unfold combineGrid. cbn [Gap Columns withAlign].
  destruct (measureCells images 0 0) as [cw ch].
  rewrite !drawGrid_bounds. reflexivity.
Qed.

(** The outcome of writing the canvas depends on its bounds only. *)
Lemma CombineImages_align env fs inputPaths outputPath opts align :
  snd (CombineImages env fs inputPaths outputPath (Some (withAlign opts align)))
  = snd (CombineImages env fs inputPaths outputPath (Some opts)).
Proof.
  unfold Combine.CombineImages.
  destruct (Z.of_nat (List.length inputPaths) <? 2); [reflexivity|].
  destruct (loadImages (imaging_Open fs) inputPaths) as [images|e]; [|reflexivity].
  cbn [Direction withAlign].
  assert (Hwrite : forall c1 c2 : Canvas, cv_bounds c1 = cv_bounds c2 ->
    snd (let dir := filepath_Dir outputPath in
         let made := if negb (String.eqb dir "") && negb (String.eqb dir ".")
                     then os_MkdirAll env fs dir else Some fs in
         match made with
         | None => (fs, inr ErrMkdir)
         | Some fs1 =>
             match os_Create env fs1 outputPath with
             | None => (fs1, inr ErrCreate)
             | Some fs2 =>
                 match png_Encode env fs2 outputPath (PicCanvas c1) with
                 | None => (fs2, inr ErrEncode)
                 | Some fs3 =>
                     (fs3, inl (mkCombineResult (Dx (cv_bounds c1)) (Dy (cv_bounds c1)) "png"))
                 end
             end
         end)
    = snd (let dir := filepath_Dir outputPath in
         let made := if negb (String.eqb dir "") && negb (String.eqb dir ".")
                     then os_MkdirAll env fs dir else Some fs in
         match made with
         | None => (fs, inr ErrMkdir)
         | Some fs1 =>
             match os_Create env fs1 outputPath with
             | None => (fs1, inr ErrCreate)
             | Some fs2 =>
                 match png_Encode env fs2 outputPath (PicCanvas c2) with
                 | None => (fs2, inr ErrEncode)
                 | Some fs3 =>
                     (fs3, inl (mkCombineResult (Dx (cv_bounds c2)) (Dy (cv_bounds c2)) "png"))
                 end
             end
         end)).
  { intros c1 c2 Hb. cbv zeta.
    destruct (if negb _ && negb _ then _ else _) as [fs1|]; [|reflexivity].
    destruct (os_Create env fs1 outputPath) as [fs2|]; [|reflexivity].
    unfold png_Encode. cbn [pic_bounds]. rewrite Hb.
    destruct (_ || _); [reflexivity|].
    destruct (write_ok env outputPath); reflexivity. }
  destruct (String.eqb (Direction opts) "horizontal");
    [apply Hwrite, combineHorizontal_bounds|].
  destruct (String.eqb (Direction opts) "vertical");
    [apply Hwrite, combineVertical_bounds|].
  destruct (String.eqb (Direction opts) "grid");
    [apply Hwrite, combineGrid_bounds|].
  reflexivity.
Qed.

(** C5.  Fewer than two input paths: [CombineImages] fails with the
    not-enough-images error, whatever the options.  At least two readable
    inputs and a direction that is none of horizontal, vertical and grid:
    it fails with the invalid-direction error.  In both cases it returns no
    result and leaves the file system as it was. *)
Theorem CombineImages_rejects env fs inputPaths outputPath opts :
  ((List.length inputPaths < 2)%nat ->
   forall o, CombineImages env fs inputPaths outputPath o = (fs, inr ErrNotEnoughImages)) /\
  ((2 <= List.length inputPaths)%nat ->
   (forall p, p ∈ inputPaths -> is_Some (imaging_Open fs p)) ->
   Direction opts <> "horizontal" -> Direction opts <> "vertical" ->
   Direction opts <> "grid" ->
   CombineImages env fs inputPaths outputPath (Some opts)
   = (fs, inr (ErrInvalidDirection (Direction opts)))).
Proof.
  split.
  - intros Hlen o. unfold Combine.CombineImages.
    destruct (Z.ltb_spec (Z.of_nat (List.length inputPaths)) 2); [reflexivity | lia].
  - intros Hlen Hread Hh Hv Hg. unfold Combine.CombineImages.
    destruct (Z.ltb_spec (Z.of_nat (List.length inputPaths)) 2); [lia|].
    destruct (loadImages_readable _ _ Hread) as [images ->].
    apply String.eqb_neq in Hh, Hv, Hg. rewrite Hh, Hv, Hg. reflexivity.
Qed.

(** What a call leaves in the file system. *)
Lemma CombineImages_files env fs inputPaths outputPath opts :
  let '(fs', r) := CombineImages env fs inputPaths outputPath opts in
  match r with
  | inl _ => exists pic, files fs' = <[ outputPath := PNGOf pic ]> (files fs)
  | inr ErrEncode => files fs' = <[ outputPath := Incomplete ]> (files fs)
  | inr _ => files fs' = files fs
  end.
Proof.
  unfold Combine.CombineImages.
  destruct (Z.of_nat (List.length inputPaths) <? 2); [reflexivity|].
  destruct (loadImages (imaging_Open fs) _) as [images|e] eqn:Hload;
    [|apply loadImages_error in Hload as [p ->]; reflexivity].
  match goal with |- context [if String.eqb ?d "horizontal" then ?a else ?b] =>
    destruct (if String.eqb d "horizontal" then a else b) as [canvas|e] eqn:Hl end.
  2:{ repeat match type of Hl with
             | (if ?c then _ else _) = _ => destruct c
             end; inversion Hl; reflexivity. }
  cbv zeta.
  assert (Hmk : forall fs1,
    (if negb (String.eqb (filepath_Dir outputPath) "")
        && negb (String.eqb (filepath_Dir outputPath) ".")
     then os_MkdirAll env fs (filepath_Dir outputPath) else Some fs) = Some fs1 ->
    files fs1 = files fs).
  { intros fs1. destruct (_ && _); [|congruence].
    unfold os_MkdirAll. destruct (mkdir_ok env _); [|discriminate].
    intros [= <-]. reflexivity. }
  destruct (if negb _ && negb _ then _ else _) as [fs1|]; [|reflexivity].
  specialize (Hmk fs1 eq_refl).
  unfold os_Create. destruct (create_ok env outputPath); [|exact Hmk].
  unfold png_Encode. cbn [files dirs pic_bounds].
  destruct (_ || _); [cbn [files]; rewrite Hmk; reflexivity|].
  destruct (write_ok env outputPath); cbn [files]; rewrite Hmk.
  - eexists. apply insert_insert_eq.
  - reflexivity.
Qed.
End CombineImagesFacts.

Section Shapes.
Variable strings_ToLower : string -> string.

Lemma combineHorizontal_shape (images : list Image) (opts : CombineOptions) :
  images <> [] ->
  wf_images images ->
  0 <= Gap opts ->
  sumZ (widths images) + Gap opts * (Z.of_nat (List.length images) - 1) <= max_int ->
  let W := sumZ (widths images) + Gap opts * (Z.of_nat (List.length images) - 1) in
  let H := maxZ (heights images) in
  exists background,
    combineHorizontal strings_ToLower images opts =
      mkCanvas (mkRectangle (mkPoint 0 0) (mkPoint W H))
        (background :: row (Align opts) (Gap opts) H 0 images).
Proof.
  intros Hne Hwf Hgap Hfit W H.
  pose proof (maxZ_heights_fit _ Hwf) as HH. fold H in HH.
  pose proof (sumZ_nonneg _ (wf_widths _ Hwf)) as Hs.
  assert (Hlen : 1 <= Z.of_nat (List.length images))
    by (destruct images; simpl in *; [congruence | lia]).
  assert (HW : 0 <= W <= max_int) by (unfold W; split; [nia | lia]).
  eexists. unfold combineHorizontal.
  rewrite measureHorizontal_total by assumption. fold W H.
  rewrite Rect_ordered by lia.
  rewrite drawHorizontal_row;
    [ | assumption | assumption | lia | lia | fold W; lia | apply heights_le_maxZ | lia].
  unfold fillBackground, draw_Draw, NewCanvas. cbn [cv_bounds cv_draws app]. reflexivity.
Qed.

Lemma crossOffset_center (align : string) (container item : Z) :
  align <> "start" -> align <> "end" ->
  crossOffset align container item = (container - item) / 2.
Proof.
  intros Hs He. unfold crossOffset.
  apply String.eqb_neq in Hs, He. rewrite Hs, He. reflexivity.
Qed.

(** C10.  An alignment that is neither [start] nor [end] (the empty
    string and unknown values as well as [center]) centres: the offset is
    (containerSize - itemSize) / 2; a row places every image at that
    vertical offset and a column at that horizontal offset; and the
    alignment has no part in whether [CombineImages] returns an error. *)
Theorem alignment_defaults_to_center (align : string) :
  align <> "start" -> align <> "end" ->
  (forall containerSize itemSize : Z,
     calculateAlignment containerSize itemSize align
     = quo (sub containerSize itemSize) 2) /\
  (forall (images : list Image) (opts : CombineOptions),
     Align opts = align -> images <> [] -> wf_images images -> 0 <= Gap opts ->
     sumZ (widths images) + Gap opts * (Z.of_nat (List.length images) - 1) <= max_int ->
     forall (i : nat) (img : Image), images !! i = Some img ->
       exists call,
         cv_draws (combineHorizontal strings_ToLower images opts) !! S i = Some call /\
         dc_src call = SrcImage img /\
         Y (Min (dc_rect call)) = (maxZ (heights images) - Dy (Bounds img)) / 2) /\
  (forall (images : list Image) (opts : CombineOptions),
     Align opts = align -> images <> [] -> wf_images images -> 0 <= Gap opts ->
     sumZ (heights images) + Gap opts * (Z.of_nat (List.length images) - 1) <= max_int ->
     forall (i : nat) (img : Image), images !! i = Some img ->
       exists call,
         cv_draws (combineVertical strings_ToLower images opts) !! S i = Some call /\
         dc_src call = SrcImage img /\
         X (Min (dc_rect call)) = (maxZ (widths images) - Dx (Bounds img)) / 2) /\
  (forall filepath_Dir imaging_Open env fs inputPaths outputPath opts,
     snd (CombineImages strings_ToLower filepath_Dir imaging_Open env fs inputPaths
            outputPath (Some (withAlign opts align)))
     = snd (CombineImages strings_ToLower filepath_Dir imaging_Open env fs inputPaths
              outputPath (Some opts))).
Proof.
  intros Hs He. split; [|split; [|split]].
  - intros c i. unfold calculateAlignment.
    pose proof Hs as Hs'. pose proof He as He'.
    apply String.eqb_neq in Hs', He'. rewrite Hs', He'.
    destruct (_ || _); reflexivity.
  - intros images opts Ha Hne Hwf Hgap Hfit i img Hi.
    destruct (combineHorizontal_shape images opts Hne Hwf Hgap Hfit) as [bg ->].
    cbn [cv_draws]. rewrite lookup_cons_ne_0 by lia. cbn [Nat.pred].
    rewrite (row_lookup _ _ _ _ _ _ _ Hi). eexists. split; [reflexivity|].
    cbn. split; [reflexivity|]. rewrite Ha. apply crossOffset_center; assumption.
  - intros images opts Ha Hne Hwf Hgap Hfit i img Hi.
    destruct (combineVertical_layout strings_ToLower images opts Hne Hwf Hgap Hfit) as [bg ->].
    cbn [cv_draws]. rewrite lookup_cons_ne_0 by lia. cbn [Nat.pred].
    rewrite (column_lookup _ _ _ _ _ _ _ Hi). eexists. split; [reflexivity|].
    cbn. split; [reflexivity|]. rewrite Ha. apply crossOffset_center; assumption.
  - intros. apply CombineImages_align.
Qed.
End Shapes.

Lemma blank_wf (w h : Z) : 0 <= w <= max_int -> 0 <= h <= max_int -> wf_rect (Bounds (blank w h)).
Proof.
  intros Hw Hh. unfold wf_rect, in_range, min_int, max_int in *. cbn. lia.
Qed.

Lemma twoImages_wf : wf_images twoImages.
Proof. repeat constructor; apply blank_wf; unfold max_int; lia. Qed.

Lemma fourImages_wf : wf_images fourImages.
Proof. repeat constructor; apply blank_wf; unfold max_int; lia. Qed.

Lemma combineHorizontal_layout_witness :
  let opts := mkCombineOptions "horizontal" 5 0 "center" "transparent" in
  let canvas := combineHorizontal id twoImages opts in
  cv_bounds canvas = mkRectangle (mkPoint 0 0) (mkPoint 45 20) /\
  exists y,
    cv_draws canvas !! 2%nat = Some (placed (blank 30 15) 15 y) /\
    (Align opts = "center" -> y = 2).
Proof.
  intros opts canvas.
  destruct (combineHorizontal_layout id twoImages opts) as (Hb & _ & _ & Hat).
  - cbn. lia.
  - exact twoImages_wf.
  - cbn. lia.
  - vm_compute. discriminate.
  - split; [exact Hb|].
    destruct (Hat 1%nat (blank 30 15) eq_refl) as (y & Hy & _ & _ & Hc).
    exists y. split; [exact Hy | exact Hc].
Defined.

Lemma combineGrid_layout_witness :
  let opts := mkCombineOptions "grid" 3 0 "center" "transparent" in
  let canvas := combineGrid id fourImages opts in
  gridColumns (Columns opts) 4 = 2 /\
  Dx (cv_bounds canvas) = 2 * 8 + 3 /\ Dy (cv_bounds canvas) = 2 * 6 + 3.
Proof.
  intros opts canvas.
  destruct (combineGrid_layout id fourImages opts) as (_ & Hauto & _ & _ & _ & _ & Hfour).
  - cbn. lia.
  - exact fourImages_wf.
  - cbn. lia.
  - vm_compute. repeat split; discriminate.
  - split.
    + etransitivity; [exact (Hauto ltac:(cbn; lia) ltac:(vm_compute; discriminate))|].
      reflexivity.
    + apply (Hfour 8 6); [reflexivity | reflexivity |].
      repeat constructor.
Defined.

Lemma CombineImages_rejects_witness :
  CombineImages id here (openAs (blank 2 2)) allowAll emptyFS ["a.png"] "out.png" None
  = (emptyFS, inr ErrNotEnoughImages) /\
  CombineImages id here (openAs (blank 2 2)) allowAll emptyFS ["a.png"; "b.png"] "out.png"
    (Some (mkCombineOptions "diagonal" 0 0 "center" "transparent"))
  = (emptyFS, inr (ErrInvalidDirection "diagonal")).
Proof.
  destruct (CombineImages_rejects id here (openAs (blank 2 2)) allowAll emptyFS
              ["a.png"] "out.png" (mkCombineOptions "diagonal" 0 0 "center" "transparent"))
    as [Hfew _].
  destruct (CombineImages_rejects id here (openAs (blank 2 2)) allowAll emptyFS
              ["a.png"; "b.png"] "out.png"
              (mkCombineOptions "diagonal" 0 0 "center" "transparent"))
    as [_ Hdir].
  split.
  - apply Hfew. cbn. lia.
  - apply Hdir; [cbn; lia | intros p _; by eexists | discriminate | discriminate | discriminate].
Defined.

Lemma alignment_defaults_to_center_witness :
  calculateAlignment 20 15 "middle" = 2 /\
  exists call,
    cv_draws (combineHorizontal id twoImages
                (mkCombineOptions "horizontal" 5 0 "middle" "transparent")) !! 2%nat
    = Some call /\
    Y (Min (dc_rect call)) = 2.
Proof.
  destruct (alignment_defaults_to_center id "middle") as (Hcalc & Hrow & _ & _);
    [discriminate | discriminate |].
  split; [rewrite Hcalc; reflexivity|].
  destruct (Hrow twoImages (mkCombineOptions "horizontal" 5 0 "middle" "transparent")
              eq_refl ltac:(discriminate) twoImages_wf ltac:(cbn; lia)
              ltac:(vm_compute; discriminate) 1%nat (blank 30 15) eq_refl)
    as (call & Hcall & _ & Hy).
  exists call. split; [exact Hcall | exact Hy].
Defined.

End CombineFacts.

Module TransparencyFacts.
Import GoInt Geom GoColor Raster Spec Transparency FloatCheck FloatFacts GoIntFacts GeomFacts.
Import Loop GoStrings FileSys Example.

Lemma withinTolerance_Z (c : NRGBA) (target : RGBA) (t : Z) :
  withinTolerance c target t <->
  100 * squaredDistance (nR c) (nG c) (nB c) target <= 765 * t.
Proof.
  unfold withinTolerance, Qle, Qdiv, Qmult, Qinv, inject_Z. cbn. lia.
Qed.

Lemma squaredDistance_bound (r g b : Z) (target : RGBA) :
  is_uint8 r -> is_uint8 g -> is_uint8 b -> wf_target target ->
  0 <= squaredDistance r g b target < 195076.
Proof.
  unfold is_uint8, wf_target, squaredDistance. intros Hr Hg Hb (Htr & Htg & Htb).
  unfold is_uint8 in *.
  assert (Hsq : forall d, -255 <= d <= 255 -> 0 <= d * d <= 65025) by (intros; nia).
  pose proof (Hsq (r - cR target) ltac:(lia)).
  pose proof (Hsq (g - cG target) ltac:(lia)).
  pose proof (Hsq (b - cB target) ltac:(lia)).
  lia.
Qed.

Lemma matches_iff (r g b a : Z) (target : RGBA) (t : Z) :
  is_uint8 r -> is_uint8 g -> is_uint8 b -> wf_target target -> 0 <= t <= 100 ->
  PrimFloat.leb (colorDistance r g b target) (threshold t) = true <->
  withinTolerance (mkNRGBA r g b a) target t.
Proof.
  intros Hr Hg Hb Ht Htol. pose proof Ht as (Htr & Htg & Htb).
  rewrite colorDistance_exact by assumption.
  rewrite compare_exact by (auto using squaredDistance_bound).
  rewrite withinTolerance_Z. cbn [nR nG nB]. apply Z.leb_le.
Qed.

Lemma narrow_checked : forall_upto 256 narrow_ok = true.
Proof. vm_compute. reflexivity. Qed.

Lemma narrow (v : Z) :
  is_uint8 v ->
  uint8 (Z.shiftr (widen v) 8) = v /\
  uint8 (Z.shiftr (uint32 (widen v * 255) / 255) 8) = v.
Proof.
  intros Hv. unfold is_uint8 in Hv.
  pose proof (forall_upto_spec narrow_ok 256 (small_bound 256 ltac:(lia))
                narrow_checked v Hv) as H.
  unfold narrow_ok in H. rewrite Uint63.of_Z_spec in H.
  rewrite Z.mod_small in H by (change wB with 9223372036854775808; lia).
  apply andb_prop in H as [H1 H2]. apply Z.eqb_eq in H1, H2. auto.
Qed.

Lemma widen_max (v : Z) : is_uint8 v -> widen v = 65535 -> v = 255.
Proof.
  intros Hv Hw. destruct (narrow v Hv) as [H _]. rewrite Hw in H.
  rewrite <- H. reflexivity.
Qed.

Lemma widen_zero (v : Z) : is_uint8 v -> widen v = 0 -> v = 0.
Proof.
  intros Hv Hw. destruct (narrow v Hv) as [H _]. rewrite Hw in H.
  rewrite <- H. reflexivity.
Qed.

Lemma uint8_range (z : Z) : is_uint8 (uint8 z).
Proof. unfold is_uint8, uint8. apply Z.mod_pos_bound. lia. Qed.

Lemma keyPixel_read8 (target : RGBA) (tol : float) (pixel : GoColor.Color) :
  keyPixel target tol pixel =
    let c := read8 pixel in
    if PrimFloat.leb (colorDistance (nR c) (nG c) (nB c) target) tol
    then mkNRGBA (nR c) (nG c) (nB c) 0
    else c.
Proof.
  unfold keyPixel, read8. destruct (Color_RGBA pixel) as [[[r g] b] a]. reflexivity.
Qed.

Lemma read8_opaque (pixel : GoColor.Color) :
  wf_color pixel -> opaque pixel -> read8 pixel = NRGBAModel pixel /\ nA (NRGBAModel pixel) = 255.
Proof.
  unfold opaque, alpha16, read8, NRGBAModel.
  destruct pixel as [c|c|y|r g b a]; intros Hwf Hop.
  - destruct c as [R G B A]. destruct Hwf as (HR & HG & HB & HA).
    cbn [nR nG nB nA] in *. cbn [Color_RGBA NRGBA_RGBA nR nG nB nA snd] in *.
    apply widen_max in Hop; [|assumption]. subst A.
    destruct (narrow R HR) as [_ ->], (narrow G HG) as [_ ->], (narrow B HB) as [_ ->].
    split; reflexivity.
  - cbn [Color_RGBA RGBA_RGBA snd] in *. rewrite Hop. split; reflexivity.
  - cbn [Color_RGBA Gray_RGBA snd] in *. split; reflexivity.
  - cbn [Color_RGBA snd] in *. subst a. split; reflexivity.
Qed.

Lemma read8_transparent (pixel : GoColor.Color) :
  fullyTransparent pixel -> nA (read8 pixel) = 0.
Proof.
  unfold fullyTransparent, alpha16, read8.
  destruct (Color_RGBA pixel) as [[[r g] b] a]. cbn [snd]. intros ->. reflexivity.
Qed.

Lemma read8_wf (pixel : GoColor.Color) :
  is_uint8 (nR (read8 pixel)) /\ is_uint8 (nG (read8 pixel)) /\ is_uint8 (nB (read8 pixel)).
Proof.
  unfold read8. destruct (Color_RGBA pixel) as [[[r g] b] a]. cbn.
  auto using uint8_range.
Qed.

Lemma SetNRGBA_bounds m x y c : nBounds (SetNRGBA m x y c) = nBounds m.
Proof. unfold SetNRGBA. destruct (inside (nBounds m) x y); reflexivity. Qed.

Lemma SetNRGBA_at m x y c x' y' :
  NRGBAAt (SetNRGBA m x y c) x' y' =
    if inside (nBounds m) x y && (x' =? x) && (y' =? y) then c else NRGBAAt m x' y'.
Proof.
  unfold SetNRGBA. destruct (inside (nBounds m) x y); cbn; reflexivity.
Qed.

Lemma inside_spec r x y :
  inside r x y = true <-> X (Min r) <= x < X (Max r) /\ Y (Min r) <= y < Y (Max r).
Proof. unfold inside. rewrite !andb_true_iff, !Z.leb_le, !Z.ltb_lt. lia. Qed.

(** One row of the pixel loop. *)
Lemma for_range_row (f : Z -> NRGBA) (y : Z) : forall (n : nat) (x0 : Z) (res : NRGBAImage),
  let res' := for_range n x0 (fun x r => SetNRGBA r x y (f x)) res in
  nBounds res' = nBounds res /\
  forall x' y',
    (y' = y -> x0 <= x' < x0 + Z.of_nat n -> inside (nBounds res) x' y' = true ->
     NRGBAAt res' x' y' = f x') /\
    (y' <> y \/ x' < x0 \/ x0 + Z.of_nat n <= x' \/ inside (nBounds res) x' y' = false ->
     NRGBAAt res' x' y' = NRGBAAt res x' y').
Proof.
  induction n as [|n IH]; intros x0 res res'.
  - split; [reflexivity|]. intros x' y'. subst res'. cbn [for_range].
    split; [lia | reflexivity].
  - subst res'. cbn [for_range].
    destruct (IH (x0 + 1) (SetNRGBA res x0 y (f x0))) as [Hb Hat].
    rewrite SetNRGBA_bounds in Hb, Hat. split; [exact Hb|].
    intros x' y'. destruct (Hat x' y') as [Hin Hout]. rewrite Nat2Z.inj_succ. split.
    + intros -> Hx Hins. destruct (Z.eq_dec x' x0) as [->|Hne].
      * rewrite Hout by lia. rewrite SetNRGBA_at, Hins, !Z.eqb_refl. reflexivity.
      * apply Hin; [reflexivity | lia | assumption].
    + intros Hcase. rewrite Hout by (destruct Hcase as [?|[?|[?|?]]]; auto; lia).
      rewrite SetNRGBA_at.
      destruct (Z.eqb_spec x' x0) as [->|?]; [|rewrite andb_false_r; reflexivity].
      destruct (Z.eqb_spec y' y) as [->|?]; [|rewrite andb_false_r; reflexivity].
      destruct Hcase as [?|[?|[?| -> ]]]; try lia. reflexivity.
Qed.

(** All rows of the pixel loop. *)
Lemma for_range_rows (g : Z -> Z -> NRGBA) (lo hi : Z) :
  forall (n : nat) (y0 : Z) (res : NRGBAImage),
  let res' :=
    for_range n y0
      (fun y r => for_loop lo hi (fun x r => SetNRGBA r x y (g x y)) r) res in
  nBounds res' = nBounds res /\
  forall x' y',
    (y0 <= y' < y0 + Z.of_nat n -> lo <= x' < hi -> inside (nBounds res) x' y' = true ->
     NRGBAAt res' x' y' = g x' y') /\
    (y' < y0 \/ y0 + Z.of_nat n <= y' \/ x' < lo \/ hi <= x'
     \/ inside (nBounds res) x' y' = false ->
     NRGBAAt res' x' y' = NRGBAAt res x' y').
Proof.
  induction n as [|n IH]; intros y0 res res'.
  - split; [reflexivity|]. intros x' y'. subst res'. cbn [for_range].
    split; [lia | reflexivity].
  - subst res'. cbn [for_range].
    set (res1 := for_loop lo hi (fun x r => SetNRGBA r x y0 (g x y0)) res).
    destruct (for_range_row (fun x => g x y0) y0 (Z.to_nat (hi - lo)) lo res) as [Hb1 Hat1].
    fold (for_loop lo hi (fun x r => SetNRGBA r x y0 (g x y0)) res) in Hb1, Hat1.
    fold res1 in Hb1, Hat1.
    destruct (IH (y0 + 1) res1) as [Hb Hat].
    rewrite Hb1 in Hb, Hat. split; [exact Hb|].
    intros x' y'. destruct (Hat x' y') as [Hin Hout]. destruct (Hat1 x' y') as [Hin1 Hout1].
    rewrite Nat2Z.inj_succ. split.
    + intros Hy Hx Hins. destruct (Z.eq_dec y' y0) as [->|Hne].
      * rewrite Hout by lia. apply Hin1; [reflexivity | | assumption].
        rewrite Z2Nat.id by lia. lia.
      * apply Hin; [lia | assumption | assumption].
    + intros Hcase. rewrite Hout by (destruct Hcase as [?|[?|[?|[?|?]]]]; auto; lia).
      apply Hout1. destruct (Z.eq_dec y' y0) as [->|?]; [|auto].
      right. destruct Hcase as [?|[?|[?|[?|?]]]]; try lia; auto.
Qed.

Lemma keyImage_bounds (target : RGBA) (tol : float) (src : Image) :
  nBounds (keyImage target tol src) = Bounds src.
Proof.
  unfold keyImage, for_loop at 1.
  apply (for_range_rows (fun x y => keyPixel target tol (At src x y))).
Qed.

Lemma keyImage_pixel (target : RGBA) (tol : float) (src : Image) (x y : Z) :
  inside (Bounds src) x y = true ->
  NRGBAAt (keyImage target tol src) x y = keyPixel target tol (At src x y).
Proof.
  intros Hin. unfold keyImage, for_loop at 1.
  destruct (for_range_rows (fun x y => keyPixel target tol (At src x y))
              (X (Min (Bounds src))) (X (Max (Bounds src)))
              (Z.to_nat (Y (Max (Bounds src)) - Y (Min (Bounds src))))
              (Y (Min (Bounds src))) (NewNRGBA (Bounds src))) as [Hb Hat].
  destruct (Hat x y) as [Hset _].
  pose proof Hin as Hin'. apply inside_spec in Hin' as [Hx Hy].
  apply Hset; [rewrite Z2Nat.id by lia; lia | assumption | exact Hin].
Qed.

Lemma hexdigit_range c d : hexdigit c = Some d -> 0 <= d < 16.
Proof.
  unfold hexdigit. intros H.
  repeat match type of H with
         | (if ?b then _ else _) = _ => destruct b eqn:?
         end; inversion H; subst; clear H;
    repeat match goal with
           | H : _ && _ = true |- _ => apply andb_prop in H as [? ?]
           | H : (_ <=? _) = true |- _ => apply Z.leb_le in H
           end; lia.
Qed.

Lemma hexdigits_nonneg s : forall acc v, 0 <= acc -> hexdigits acc s = Some v -> 0 <= v.
Proof.
  induction s as [|c s IH]; intros acc v Hacc H; cbn [hexdigits] in H.
  - inversion H; subst; assumption.
  - destruct (hexdigit c) as [d|] eqn:Hd; [|discriminate].
    apply hexdigit_range in Hd. eapply IH; [|exact H]. lia.
Qed.

Lemma ParseUint_16_8_range s v : ParseUint_16_8 s = Some v -> is_uint8 v.
Proof.
  unfold ParseUint_16_8, is_uint8. destruct s as [|c s]; [discriminate|].
  destruct (hexdigits 0 (String c s)) as [w|] eqn:Hw; [|discriminate].
  destruct (Z.ltb_spec w 256); [|discriminate].
  intros [= <-]. apply hexdigits_nonneg in Hw; lia.
Qed.

Lemma parseColor_wf ToLower s target :
  parseColor ToLower s = Some target -> wf_target target.
Proof.
  unfold parseColor, wf_target, is_uint8.
  destruct (String.eqb (ToLower s) "white"); [intros [= <-]; cbn; lia|].
  destruct (String.eqb (ToLower s) "black"); [intros [= <-]; cbn; lia|].
  set (s' := if HasPrefix s "#" then drop 1 s else s).
  destruct (negb (Nat.eqb (String.length s') 6)); [discriminate|].
  destruct (ParseUint_16_8 (slice 0 2 s')) as [r|] eqn:Hr; [|discriminate].
  destruct (ParseUint_16_8 (slice 2 4 s')) as [g|] eqn:Hg; [|discriminate].
  destruct (ParseUint_16_8 (slice 4 6 s')) as [b|] eqn:Hb; [|discriminate].
  intros [= <-]. cbn.
  apply ParseUint_16_8_range in Hr, Hg, Hb. unfold is_uint8 in *. lia.
Qed.

Section MakeTransparentFacts.
Variable strings_ToLower : string -> string.
Variable filepath_Dir : string -> string.
Variable imaging_Open : FileSystem -> string -> option Image.

Local Abbreviation MakeTransparent :=
(MakeTransparent strings_ToLower filepath_Dir imaging_Open).

Lemma MakeTransparent_success env fs inputPath outputPath opts fs' res :
  MakeTransparent env fs inputPath outputPath (Some opts) = (fs', inl res) ->
  exists target src,
    parseColor strings_ToLower (Transparency.Color opts) = Some target /\
    imaging_Open fs inputPath = Some src /\
    files fs' !! outputPath =
      Some (PNGOf (PicNRGBA (keyImage target (threshold (Tolerance opts)) src))) /\
    res = mkTransparencyResult (Dx (Bounds src)) (Dy (Bounds src)).
Proof.
  unfold Transparency.MakeTransparent.
  destruct (parseColor strings_ToLower (Transparency.Color opts)) as [target|]; [|discriminate].
  destruct (imaging_Open fs inputPath) as [src|]; [|discriminate].
  match goal with |- context [match ?m with Some _ => _ | None => _ end] =>
    destruct m as [fs1|] end; [|discriminate].
  destruct (os_Create env fs1 outputPath) as [fs2|]; [|discriminate].
  destruct (png_Encode env fs2 outputPath _) as [fs3|] eqn:Henc; [|discriminate].
  intros [= <- <-]. exists target, src. repeat split; try reflexivity.
  unfold png_Encode in Henc.
  destruct (_ || _); [discriminate|]. destruct (write_ok env outputPath); [|discriminate].
  injection Henc as <-. cbn [files]. apply lookup_insert_eq.
Qed.

(** C1 (amended).  When [MakeTransparent] succeeds, the file it wrote
    holds a raster of the bounds of the source in which, for every
    opaque source pixel, the alpha is zero exactly when
    ((Δr)² + (Δg)² + (Δb)²) / 3 <= t / 100 * 255 and is 255 otherwise,
    and the red, green and blue values are those of the source pixel;
    a source pixel that is fully transparent keeps alpha zero whether or
    not it is within tolerance. *)
Theorem MakeTransparent_alpha env fs inputPath outputPath opts fs' res :
  0 <= Tolerance opts <= 100 ->
  MakeTransparent env fs inputPath outputPath (Some opts) = (fs', inl res) ->
  exists target src out,
    parseColor strings_ToLower (Transparency.Color opts) = Some target /\
    imaging_Open fs inputPath = Some src /\
    files fs' !! outputPath = Some (PNGOf (PicNRGBA out)) /\
    nBounds out = Bounds src /\
    forall x y, inside (Bounds src) x y = true -> wf_color (At src x y) ->
      let pixel := NRGBAModel (At src x y) in
      let result := NRGBAAt out x y in
      (opaque (At src x y) ->
         (nA result = 0 <-> withinTolerance pixel target (Tolerance opts)) /\
         (nA result = 0 \/ nA result = 255) /\
         sameRGB result pixel) /\
      (fullyTransparent (At src x y) -> nA result = 0).
Proof.
  intros Htol Hrun.
  destruct (MakeTransparent_success _ _ _ _ _ _ _ Hrun) as (target & src & Hc & Ho & Hf & _).
  exists target, src, (keyImage target (threshold (Tolerance opts)) src).
  repeat (split; [assumption|]).
  split; [apply keyImage_bounds|].
  intros x y Hin Hwf pixel result. subst result.
  rewrite keyImage_pixel by assumption. rewrite keyPixel_read8. cbv zeta.
  pose proof (parseColor_wf _ _ _ Hc) as Ht.
  destruct (read8_wf (At src x y)) as (HR & HG & HB).
  pose proof (matches_iff _ _ _ (nA (read8 (At src x y))) _ _ HR HG HB Ht Htol) as Hm.
  split.
  - intros Hop. destruct (read8_opaque _ Hwf Hop) as [Hread Ha]. fold pixel in Hread, Ha.
    rewrite Hread in *.
    replace (mkNRGBA (nR pixel) (nG pixel) (nB pixel) (nA pixel)) with pixel in Hm
      by (destruct pixel; reflexivity).
    destruct (PrimFloat.leb _ _).
    + cbn [nA]. split; [|split]; [tauto | auto | repeat split].
    + rewrite Ha. split; [|split]; [|auto|repeat split].
      split; [lia|]. intros Hw. apply Hm in Hw. discriminate.
  - intros Htr. apply read8_transparent in Htr.
    destruct (PrimFloat.leb _ _); [reflexivity | assumption].
Qed.
End MakeTransparentFacts.

(** C1 as stated fails on a fully transparent black pixel keyed against
    white: the output alpha is zero although the pixel is not within
    tolerance. *)
Lemma MakeTransparent_alpha_counterexample :
  let src := pixelImage (ColorNRGBA (mkNRGBA 0 0 0 0)) in
  let run := Transparency.MakeTransparent id here (openAs src) allowAll emptyFS "in.png" "out.png"
               (Some (mkTransparencyOptions "white" 10)) in
  let out := keyImage white (threshold 10) src in
  snd run = inl (mkTransparencyResult 1 1) /\
  files (fst run) !! "out.png" = Some (PNGOf (PicNRGBA out)) /\
  nA (NRGBAAt out 0 0) = 0 /\
  ~ withinTolerance (NRGBAModel (At src 0 0)) white 10.
Proof.
  cbv zeta. split; [reflexivity|]. split; [reflexivity|]. split; [reflexivity|].
  rewrite withinTolerance_Z. vm_compute. intros H. apply H. reflexivity.
Qed.

Lemma MakeTransparent_alpha_witness :
  exists target src out,
    parseColor id "white" = Some target /\
    openAs (pixelImage (ColorGray 250)) emptyFS "in.png" = Some src /\
    files (fst (Transparency.MakeTransparent id here (openAs (pixelImage (ColorGray 250)))
                  allowAll emptyFS "in.png" "out.png"
                  (Some (mkTransparencyOptions "white" 10)))) !! "out.png"
      = Some (PNGOf (PicNRGBA out)) /\
    nBounds out = Bounds src /\
    forall x y, inside (Bounds src) x y = true -> wf_color (At src x y) ->
      let pixel := NRGBAModel (At src x y) in
      let result := NRGBAAt out x y in
      (opaque (At src x y) ->
         (nA result = 0 <-> withinTolerance pixel target 10) /\
         (nA result = 0 \/ nA result = 255) /\
         sameRGB result pixel) /\
      (fullyTransparent (At src x y) -> nA result = 0).
Proof.
  apply (MakeTransparent_alpha id here (openAs (pixelImage (ColorGray 250))) allowAll emptyFS
           "in.png" "out.png" (mkTransparencyOptions "white" 10) _
           (mkTransparencyResult 1 1)).
  - cbn. lia.
  - reflexivity.
Defined.

(** C2: the failing input.  A half-transparent red pixel, not within
    tolerance of white, comes out with red 128 instead of 255: the loop
    stores the alpha-premultiplied values of [RGBA()] in a [color.NRGBA],
    which is not alpha-premultiplied. *)
Theorem MakeTransparent_premultiplied :
  let pixel := ColorNRGBA (mkNRGBA 255 0 0 128) in
  let src := pixelImage pixel in
  let out := keyImage white (threshold 10) src in
  files (fst (Transparency.MakeTransparent id here (openAs src) allowAll emptyFS
                "in.png" "out.png" (Some (mkTransparencyOptions "white" 10)))) !! "out.png"
    = Some (PNGOf (PicNRGBA out)) /\
  ~ withinTolerance (NRGBAModel pixel) white 10 /\
  NRGBAModel pixel = mkNRGBA 255 0 0 128 /\
  NRGBAAt out 0 0 = mkNRGBA 128 0 0 128.
Proof.
  cbv zeta. split; [reflexivity|]. split.
  - rewrite withinTolerance_Z. vm_compute. intros H. apply H. reflexivity.
  - split; reflexivity.
Qed.

End TransparencyFacts.

Module OutputFacts.
Import GoInt Geom GoColor Raster Draw FileSys Spec Combine CombineFacts Example.

Section Files.
Variable strings_ToLower : string -> string.
Variable filepath_Dir : string -> string.
Variable imaging_Open : FileSystem -> string -> option Image.

Lemma MakeTransparent_files env fs inputPath outputPath opts :
  let '(fs', r) := Transparency.MakeTransparent strings_ToLower filepath_Dir imaging_Open
                     env fs inputPath outputPath opts in
  match r with
  | inl _ => exists pic, files fs' = <[ outputPath := PNGOf pic ]> (files fs)
  | inr Transparency.ErrEncode => files fs' = <[ outputPath := Incomplete ]> (files fs)
  | inr _ => files fs' = files fs
  end.
Proof.
  unfold Transparency.MakeTransparent.
  destruct (Transparency.parseColor _ _) as [target|]; [|reflexivity].
  destruct (imaging_Open fs inputPath) as [src|]; [|reflexivity].
  cbv zeta.
  assert (Hmk : forall fs1,
    (if negb (String.eqb (filepath_Dir outputPath) "")
        && negb (String.eqb (filepath_Dir outputPath) ".")
     then os_MkdirAll env fs (filepath_Dir outputPath) else Some fs) = Some fs1 ->
    files fs1 = files fs).
  { intros fs1. destruct (_ && _); [|congruence].
    unfold os_MkdirAll. destruct (mkdir_ok env _); [|discriminate].
    intros [= <-]. reflexivity. }
  destruct (if negb _ && negb _ then _ else _) as [fs1|]; [|reflexivity].
  specialize (Hmk fs1 eq_refl).
  unfold os_Create. destruct (create_ok env outputPath); [|exact Hmk].
  unfold png_Encode. cbn [files dirs pic_bounds].
  destruct (_ || _); [cbn [files]; rewrite Hmk; reflexivity|].
  destruct (write_ok env outputPath); cbn [files]; rewrite Hmk.
  - eexists. apply insert_insert_eq.
  - reflexivity.
Qed.

(** C6 (amended).  A call of [CombineImages] or [MakeTransparent] that
    succeeds changes one file, the output file, which holds a complete
    PNG; a call that fails before or while creating the output file
    changes no file; a call that fails while encoding leaves the output
    file it has created, incomplete. *)
Theorem output_file_on_every_path env fs outputPath :
  (forall inputPaths opts,
     let '(fs', r) := CombineImages strings_ToLower filepath_Dir imaging_Open
                        env fs inputPaths outputPath opts in
     match r with
     | inl _ => exists pic, files fs' = <[ outputPath := PNGOf pic ]> (files fs)
     | inr ErrEncode => files fs' = <[ outputPath := Incomplete ]> (files fs)
     | inr _ => files fs' = files fs
     end) /\
  (forall inputPath opts,
     let '(fs', r) := Transparency.MakeTransparent strings_ToLower filepath_Dir imaging_Open
                        env fs inputPath outputPath opts in
     match r with
     | inl _ => exists pic, files fs' = <[ outputPath := PNGOf pic ]> (files fs)
     | inr Transparency.ErrEncode => files fs' = <[ outputPath := Incomplete ]> (files fs)
     | inr _ => files fs' = files fs
     end).
Proof.
  split; intros.
  - apply CombineImages_files.
  - apply MakeTransparent_files.
Qed.
End Files.

(** C6 as stated fails when the encoder cannot write: the call returns an
    error and the output file, absent before, exists. *)
Lemma output_file_counterexample :
  let run := CombineImages id here (openAs (blank 2 2)) diskFull emptyFS
               ["a.png"; "b.png"] "out.png" None in
  snd run = inr ErrEncode /\
  files emptyFS !! "out.png" = None /\
  files (fst run) !! "out.png" = Some Incomplete.
Proof. cbv zeta. split; [reflexivity|]. split; reflexivity. Qed.

End OutputFacts.

Module CropFacts.
Import GoInt Geom GoColor Raster Spec GoStrings Transform GoIntFacts Example.

Lemma Split_nonempty s sep : Split s sep <> [].
Proof.
  destruct s as [|c s]; cbn [Split]; [discriminate|].
  destruct (Ascii.eqb c sep); [discriminate|]. destruct (Split s sep); discriminate.
Qed.

Lemma Split_join (s : string) :
  joinComma (Split s ",") = s /\ Forall commaFree (Split s ",").
Proof.
  induction s as [|c s [IHj IHf]]; cbn [Split].
  - split; [reflexivity | repeat constructor].
  - destruct (Ascii.eqb_spec c ",") as [->|Hc].
    + split.
      * pose proof (Split_nonempty s ",") as Hne.
        destruct (Split s ",") as [|p ps]; [congruence|].
        change (joinComma ("" :: p :: ps)) with (String "," (joinComma (p :: ps))).
        f_equal. exact IHj.
      * constructor; [exact I | exact IHf].
    + pose proof (Split_nonempty s ",") as Hne.
      destruct (Split s ",") as [|p ps]; [congruence|].
      split.
      * destruct ps as [|q ps].
        -- cbn in *. f_equal. exact IHj.
        -- change (joinComma (String c p :: q :: ps))
             with (String c (joinComma (p :: q :: ps))).
           f_equal. exact IHj.
      * inversion IHf; subst. constructor; [split; assumption | assumption].
Qed.

Lemma Split_commaFree (f : string) : commaFree f -> Split f "," = [f].
Proof.
  induction f as [|c f IH]; intros Hf; [reflexivity|].
  destruct Hf as [Hc Hf]. cbn [Split].
  destruct (Ascii.eqb_spec c ","); [congruence|].
  rewrite (IH Hf). reflexivity.
Qed.

Lemma Split_cons (f rest : string) :
  commaFree f -> Split (f +:+ "," +:+ rest) "," = f :: Split rest ",".
Proof.
  induction f as [|c f IH]; intros Hf.
  - cbn. reflexivity.
  - destruct Hf as [Hc Hf].
    change (String c f +:+ "," +:+ rest) with (String c (f +:+ "," +:+ rest)).
    cbn [Split]. destruct (Ascii.eqb_spec c ","); [congruence|].
    rewrite (IH Hf). reflexivity.
Qed.

Lemma Split_four (spec f0 f1 f2 f3 : string) :
  Split spec "," = [f0; f1; f2; f3] <-> fourFields spec f0 f1 f2 f3.
Proof.
  split.
  - intros Hs. destruct (Split_join spec) as [Hj Hf]. rewrite Hs in Hj, Hf.
    inversion Hf as [|? ? H0 Hf1]; subst. inversion Hf1 as [|? ? H1 Hf2]; subst.
    inversion Hf2 as [|? ? H2 Hf3]; subst. inversion Hf3 as [|? ? H3 _]; subst.
    repeat split; assumption.
  - intros (-> & H0 & H1 & H2 & H3).
    rewrite Split_cons by assumption. rewrite Split_cons by assumption.
    rewrite Split_cons by assumption. rewrite Split_commaFree by assumption.
    reflexivity.
Qed.

Lemma digit_spec (c : ascii) (d : Z) :
  digit c = Some d <-> isDigit c /\ d = byte_of c - 48.
Proof.
  unfold digit, isDigit.
  destruct (Z.leb_spec 48 (byte_of c)), (Z.leb_spec (byte_of c) 57); cbn [andb];
    split; try (intros [= <-]; lia); try (intros [? ->]; reflexivity || lia);
    try discriminate.
Qed.

Lemma digits_spec (s : string) : forall (acc v : Z),
  digits acc s = Some v <->
  allDigits s /\ v = acc * 10 ^ Z.of_nat (String.length s) + decimalValue s.
Proof.
  induction s as [|c s IH]; intros acc v; cbn [digits allDigits decimalValue String.length].
  - split; [intros [= <-]; split; [exact I | lia] | intros [_ ->]; f_equal; lia].
  - rewrite Nat2Z.inj_succ, Z.pow_succ_r by lia.
    destruct (digit c) as [d|] eqn:Hd.
    + apply digit_spec in Hd as [Hc ->]. rewrite IH. split.
      * intros [Hs ->]. split; [split; assumption | lia].
      * intros [[_ Hs] ->]. split; [assumption | lia].
    + split; [discriminate|]. intros [[Hc _] _].
      assert (digit c = Some (byte_of c - 48)) by (apply digit_spec; auto). congruence.
Qed.

Lemma unsigned_spec (s : string) (n : Z) :
  unsigned s = Some n <-> s <> "" /\ allDigits s /\ n = decimalValue s.
Proof.
  unfold unsigned. destruct s as [|c s].
  - split; [discriminate | intros [? _]; congruence].
  - rewrite digits_spec. split.
    + intros [Hs ->]. split; [discriminate | split; [assumption | lia]].
    + intros (_ & Hs & ->). split; [assumption | lia].
Qed.

Lemma isDigit_not_sign (c : ascii) :
  isDigit c -> Ascii.eqb c "-" = false /\ Ascii.eqb c "+" = false.
Proof.
  unfold isDigit. intros Hc. split; apply Ascii.eqb_neq; intros ->; vm_compute in Hc; destruct Hc as [Hc _]; apply Hc; reflexivity.
Qed.

Lemma Atoi_spec (s : string) (z : Z) : Atoi s = Some z <-> intLiteral s z.
Proof.
  unfold Atoi, intLiteral. split.
  - destruct s as [|c s]; [discriminate|].
    destruct (Ascii.eqb_spec c "-") as [->|Hm]; [|destruct (Ascii.eqb_spec c "+") as [->|Hp]].
    + destruct (unsigned s) as [n|] eqn:Hn; [|discriminate].
      apply unsigned_spec in Hn as (Hne & Hd & ->).
      destruct (_ && _) eqn:Hr; [|discriminate]. intros [= <-].
      exists "-", s. apply andb_prop in Hr as [Hlo Hhi].
      apply Z.leb_le in Hlo, Hhi. unfold in_range.
      change (String.eqb "-" "-") with true. cbv iota.
      split; [reflexivity|]. split; [auto|]. split; [assumption|].
      split; [assumption|]. split; [reflexivity|]. split; assumption.
    + destruct (unsigned s) as [n|] eqn:Hn; [|discriminate].
      apply unsigned_spec in Hn as (Hne & Hd & ->).
      destruct (_ && _) eqn:Hr; [|discriminate]. intros [= <-].
      exists "+", s. apply andb_prop in Hr as [Hlo Hhi].
      apply Z.leb_le in Hlo, Hhi. unfold in_range.
      change (String.eqb "+" "-") with false. cbv iota.
      split; [reflexivity|]. split; [auto|]. split; [assumption|].
      split; [assumption|]. split; [reflexivity|]. split; assumption.
    + destruct (unsigned (String c s)) as [n|] eqn:Hn; [|discriminate].
      apply unsigned_spec in Hn as (Hne & Hd & ->).
      destruct (_ && _) eqn:Hr; [|discriminate]. intros [= <-].
      exists "", (String c s). apply andb_prop in Hr as [Hlo Hhi].
      apply Z.leb_le in Hlo, Hhi. unfold in_range.
      change (String.eqb "" "-") with false. cbv iota.
      split; [reflexivity|]. split; [auto|]. split; [assumption|].
      split; [assumption|]. split; [reflexivity|]. split; assumption.
  - intros (sign & body & -> & Hsign & Hne & Hd & -> & Hlo & Hhi).
    assert (Hu : unsigned body = Some (decimalValue body)) by (apply unsigned_spec; auto).
    assert (Hrange : forall v, min_int <= v <= max_int ->
              (min_int <=? v) && (v <=? max_int) = true).
    { intros v [? ?]. apply andb_true_intro. split; apply Z.leb_le; assumption. }
    destruct Hsign as [-> | [-> | ->]].
    + change (String.eqb "" "-") with false in *. cbv iota in *.
      destruct body as [|c body]; [congruence|].
      change ("" +:+ String c body) with (String c body). cbv beta iota zeta.
      destruct Hd as [Hc Hd]. destruct (isDigit_not_sign c Hc) as [-> ->].
      rewrite Hu. rewrite Hrange by auto. reflexivity.
    + change (String.eqb "+" "-") with false in *. cbv iota in *.
      change ("+" +:+ body) with (String "+" body). cbv beta iota zeta.
      change (Ascii.eqb "+" "-") with false. change (Ascii.eqb "+" "+") with true.
      cbv beta iota zeta. rewrite Hu. rewrite Hrange by auto. reflexivity.
    + change (String.eqb "-" "-") with true in *. cbv iota in *.
      change ("-" +:+ body) with (String "-" body). cbv beta iota zeta.
      change (Ascii.eqb "-" "-") with true.
      cbv beta iota zeta. rewrite Hu. rewrite Hrange by auto. reflexivity.
Qed.

Lemma Atoi_isInt (s : string) : is_Some (Atoi s) <-> isInt s.
Proof.
  unfold isInt. split.
  - intros [z Hz]. exists z. by apply Atoi_spec.
  - intros [z Hz]. exists z. by apply Atoi_spec.
Qed.

Section Crop.
Variable lib : Library.
Variable img : Image.

Local Abbreviation trim := (strings_TrimSpace lib).

Lemma applyCrop_fields (spec f0 f1 f2 f3 : string) :
  fourFields spec f0 f1 f2 f3 ->
  applyCrop lib img spec =
    match Atoi (trim f0), Atoi (trim f1), Atoi (trim f2), Atoi (trim f3) with
    | None, _, _, _ => inr CropLeft
    | Some _, None, _, _ => inr CropTop
    | Some _, Some _, None, _ => inr CropWidth
    | Some _, Some _, Some _, None => inr CropHeight
    | Some l, Some t, Some w, Some h =>
        inl (imaging_Crop lib img (Rect l t (add l w) (add t h)))
    end.
Proof.
  intros Hf. apply Split_four in Hf. unfold applyCrop. rewrite Hf.
  destruct (Atoi (trim f0)), (Atoi (trim f1)), (Atoi (trim f2)), (Atoi (trim f3));
    reflexivity.
Qed.

Lemma applyCrop_format (spec : string) :
  applyCrop lib img spec = inr CropFormat <->
  ~ exists f0 f1 f2 f3, fourFields spec f0 f1 f2 f3.
Proof.
  split.
  - intros Hc (f0 & f1 & f2 & f3 & Hf). rewrite (applyCrop_fields _ _ _ _ _ Hf) in Hc.
    destruct (Atoi (trim f0)), (Atoi (trim f1)), (Atoi (trim f2)), (Atoi (trim f3));
      discriminate.
  - intros Hno. unfold applyCrop.
    destruct (Split spec ",") as [|p0 [|p1 [|p2 [|p3 [|p4 ps]]]]] eqn:Hs; try reflexivity.
    exfalso. apply Hno. exists p0, p1, p2, p3. by apply Split_four.
Qed.

Lemma isInt_Some (s : string) : isInt s <-> exists z, Atoi s = Some z.
Proof. rewrite <- Atoi_isInt. reflexivity. Qed.

Lemma not_isInt (s : string) : ~ isInt s <-> Atoi s = None.
Proof.
  rewrite isInt_Some. destruct (Atoi s) as [z|]; split.
  - intros H. exfalso. apply H. by exists z.
  - discriminate.
  - reflexivity.
  - intros _ [? ?]. discriminate.
Qed.

(** C9.  [applyCrop] succeeds exactly on the specifications that are four
    comma-separated fields each of which, white space trimmed, is the
    decimal literal of an [int] (negative and zero values included), and
    then crops to the rectangle these four values give; a specification
    that is not four fields is rejected with the format error, and one
    whose first field that is not an integer is the left, top, width or
    height with the error of that field. *)
Theorem applyCrop_parses (spec : string) :
  ((exists img', applyCrop lib img spec = inl img') <->
   exists f0 f1 f2 f3,
     fourFields spec f0 f1 f2 f3 /\
     isInt (trim f0) /\ isInt (trim f1) /\ isInt (trim f2) /\ isInt (trim f3)) /\
  (forall f0 f1 f2 f3 l t w h,
     fourFields spec f0 f1 f2 f3 ->
     intLiteral (trim f0) l -> intLiteral (trim f1) t ->
     intLiteral (trim f2) w -> intLiteral (trim f3) h ->
     applyCrop lib img spec = inl (imaging_Crop lib img (Rect l t (add l w) (add t h)))) /\
  (applyCrop lib img spec = inr CropFormat <->
   ~ exists f0 f1 f2 f3, fourFields spec f0 f1 f2 f3) /\
  (forall f0 f1 f2 f3,
     fourFields spec f0 f1 f2 f3 ->
     (applyCrop lib img spec = inr CropLeft <-> ~ isInt (trim f0)) /\
     (applyCrop lib img spec = inr CropTop <-> isInt (trim f0) /\ ~ isInt (trim f1)) /\
     (applyCrop lib img spec = inr CropWidth <->
      isInt (trim f0) /\ isInt (trim f1) /\ ~ isInt (trim f2)) /\
     (applyCrop lib img spec = inr CropHeight <->
      isInt (trim f0) /\ isInt (trim f1) /\ isInt (trim f2) /\ ~ isInt (trim f3))).
Proof.
  split; [|split; [|split]].
  - split.
    + intros [img' Hok].
      destruct (Split spec ",") as [|p0 [|p1 [|p2 [|p3 [|p4 ps]]]]] eqn:Hs;
        try (unfold applyCrop in Hok; rewrite Hs in Hok; discriminate).
      apply Split_four in Hs. exists p0, p1, p2, p3. split; [assumption|].
      rewrite (applyCrop_fields _ _ _ _ _ Hs) in Hok.
      rewrite !isInt_Some.
      destruct (Atoi (trim p0)), (Atoi (trim p1)), (Atoi (trim p2)), (Atoi (trim p3));
        try discriminate.
      repeat split; by eexists.
    + intros (f0 & f1 & f2 & f3 & Hf & H0 & H1 & H2 & H3).
      rewrite (applyCrop_fields _ _ _ _ _ Hf).
      apply isInt_Some in H0 as [? ->], H1 as [? ->], H2 as [? ->], H3 as [? ->].
      by eexists.
  - intros f0 f1 f2 f3 l t w h Hf H0 H1 H2 H3.
    rewrite (applyCrop_fields _ _ _ _ _ Hf).
    apply Atoi_spec in H0, H1, H2, H3. rewrite H0, H1, H2, H3. reflexivity.
  - apply applyCrop_format.
  - intros f0 f1 f2 f3 Hf. rewrite (applyCrop_fields _ _ _ _ _ Hf).
    rewrite !not_isInt, !isInt_Some.
    destruct (Atoi (trim f0)), (Atoi (trim f1)), (Atoi (trim f2)), (Atoi (trim f3));
      repeat split; intros; try discriminate; try reflexivity;
      repeat match goal with
             | H : _ /\ _ |- _ => destruct H
             | H : exists _, None = Some _ |- _ => destruct H; discriminate
             | H : None = Some _ |- _ => discriminate
             | H : Some _ = None |- _ => discriminate
             | |- exists z, Some ?x = Some z => by exists x
             | |- _ /\ _ => split
             end.
Qed.
End Crop.

Lemma applyCrop_parses_witness :
  applyCrop (exampleLib (blank 100 80)) (blank 100 80) "10, -20,0 ,+400"
  = inl (imaging_Crop (exampleLib (blank 100 80)) (blank 100 80) (Rect 10 (-20) 10 380)).
Proof.
  destruct (applyCrop_parses (exampleLib (blank 100 80)) (blank 100 80) "10, -20,0 ,+400")
    as (_ & Hvalues & _ & _).
  apply (Hvalues "10" " -20" "0 " "+400" 10 (-20) 0 400).
  - repeat split; vm_compute; discriminate.
  - exists "", "10". vm_compute. repeat split; auto; discriminate.
  - exists "-", "20". vm_compute. repeat split; auto; discriminate.
  - exists "", "0". vm_compute. repeat split; auto; discriminate.
  - exists "+", "400". vm_compute. repeat split; auto; discriminate.
Defined.

End CropFacts.

Module TransformFacts.
Import GoInt Geom GoColor Raster FileSys Spec GoStrings Transform GoIntFacts Example.

(** The five operations in their fixed order. *)
Lemma Transform_steps (lib : Library) (env : Env) (fs : FileSystem)
  (inputPath outputPath : string) (opts : TransformOptions) :
  Transform lib env fs inputPath outputPath opts =
    match imaging_Open lib fs inputPath with
    | None => (fs, inr ErrOpen)
    | Some src =>
        match applySteps lib (requested opts) src with
        | inr e => (fs, inr e)
        | inl result => writeResult lib env fs outputPath result
        end
    end.
Proof.
  unfold Transform, requested, writeResult.
  destruct (imaging_Open lib fs inputPath) as [src|]; [|reflexivity].
  destruct (String.eqb (Crop opts) ""); cbn [negb app applySteps applyStep].
  - destruct (String.eqb (Resize opts) ""); cbn [negb app applySteps applyStep].
    + destruct (Rotate opts =? 0), (Flip opts), (Flop opts); reflexivity.
    + destruct (applyResize lib src (Resize opts) (Fit opts)) as [r|e]; [|reflexivity].
      destruct (Rotate opts =? 0), (Flip opts), (Flop opts); reflexivity.
  - destruct (applyCrop lib src (Crop opts)) as [c|e]; [|reflexivity].
    destruct (String.eqb (Resize opts) ""); cbn [negb app applySteps applyStep].
    + destruct (Rotate opts =? 0), (Flip opts), (Flop opts); reflexivity.
    + destruct (applyResize lib c (Resize opts) (Fit opts)) as [r|e]; [|reflexivity].
      destruct (Rotate opts =? 0), (Flip opts), (Flop opts); reflexivity.
Qed.




End TransformFacts.

Module CliFacts.
Import GoInt Geom GoColor Raster FileSys Spec Transform Cli Example.

(** C7 (amended).  A request with no operation (empty resize and crop
    specifications, rotation zero, no flip and no flop) is rejected without
    any transformation: with the no-operation error when the input file
    exists, and with the file-not-found error, which is checked first,
    when it does not. *)
Theorem runTransform_no_operation (lib : Library) (env : Env) (fs : FileSystem)
  (flags : TransformFlags) (inputPath : string) :
  transformResize flags = "" -> transformCrop flags = "" -> transformRotate flags = 0 ->
  transformFlip flags = false -> transformFlop flags = false ->
  (notExist fs inputPath = false ->
   runTransform lib env fs flags inputPath =
     (fs,
      [OutError "transform" "NO_OPERATION" "No transformation specified"
         "Use --resize, --crop, --rotate, --flip, or --flop"],
      Some ErrNoOperation)) /\
  (notExist fs inputPath = true ->
   runTransform lib env fs flags inputPath =
     (fs,
      [OutError "transform" "FILE_NOT_FOUND" ("Input file not found: " +:+ inputPath) ""],
      Some ErrNotExist)).
Proof.
  intros Hr Hc Hrot Hflip Hflop. unfold runTransform.
  split; intros ->; [|reflexivity].
  rewrite Hr, Hc, Hrot, Hflip, Hflop. reflexivity.
Qed.

(** C7 as stated fails when the input file is missing: the request is
    rejected with the error of [os.Stat], not with the no-operation
    error. *)
Lemma runTransform_no_operation_counterexample :
  transformResize noFlags = "" /\ transformCrop noFlags = "" /\ transformRotate noFlags = 0 /\
  transformFlip noFlags = false /\ transformFlop noFlags = false /\
  snd (runTransform (exampleLib (blank 4 4)) allowAll emptyFS noFlags "in.png")
  = Some ErrNotExist.
Proof. repeat split. Qed.

Lemma runTransform_no_operation_witness :
  runTransform (exampleLib (blank 4 4)) allowAll oneFile noFlags "in.png" =
    (oneFile,
     [OutError "transform" "NO_OPERATION" "No transformation specified"
        "Use --resize, --crop, --rotate, --flip, or --flop"],
     Some ErrNoOperation).
Proof.
  apply (runTransform_no_operation (exampleLib (blank 4 4)) allowAll oneFile noFlags "in.png");
    reflexivity.
Defined.

End CliFacts.

Module LayoutFacts.
Import GoInt Geom GoColor Raster Draw FileSys Spec Combine GoIntFacts GeomFacts.
Import CombineFacts Layout Example.
Import Samples.

Lemma sumZ_take_le (l : list Z) (i j : nat) :
  Forall (fun x => 0 <= x) l -> (i <= j)%nat -> sumZ (take i l) <= sumZ (take j l).
Proof.
  intros Hl. revert i j. induction Hl as [|x l Hx Hl IH]; intros i j Hij.
  - rewrite !take_nil. lia.
  - destruct i as [|i], j as [|j]; cbn [take sumZ foldr]; try lia.
    + fold (sumZ (take j l)).
      pose proof (sumZ_nonneg (take j l)) as Hs.
      assert (Forall (fun x => 0 <= x) (take j l)) by (by apply Forall_take).
      specialize (Hs H). lia.
    + fold (sumZ (take i l)). fold (sumZ (take j l)).
      specialize (IH i j ltac:(lia)). lia.
Qed.

Lemma sumZ_take_all (l : list Z) (i : nat) :
  Forall (fun x => 0 <= x) l -> sumZ (take i l) <= sumZ l.
Proof.
  intros Hl. destruct (Nat.le_ge_cases i (List.length l)) as [Hi|Hi].
  - pose proof (sumZ_take_le l i (List.length l) Hl Hi) as H.
    rewrite firstn_all in H. exact H.
  - rewrite take_ge by lia. lia.
Qed.

Lemma sumZ_take_S (l : list Z) (i : nat) (x : Z) :
  l !! i = Some x -> sumZ (take (S i) l) = sumZ (take i l) + x.
Proof.
  revert i. induction l as [|y l IH]; intros i Hi; [done|].
  destruct i as [|i].
  - simpl in Hi. injection Hi as ->. cbn [take sumZ foldr]. rewrite take_0. cbn [foldr]. lia.
  - simpl in Hi. cbn [take sumZ foldr]. fold (sumZ (take (S i) l)). fold (sumZ (take i l)).
    rewrite (IH _ Hi). lia.
Qed.

Lemma sumZ_ge (l : list Z) (x : Z) :
  Forall (fun x => 0 <= x) l -> x ∈ l -> x <= sumZ l.
Proof.
  induction 1 as [|y l Hy Hl IH]; intros Hx; [by apply elem_of_nil in Hx|].
  cbn [sumZ foldr]. fold (sumZ l). pose proof (sumZ_nonneg _ Hl).
  apply elem_of_cons in Hx as [->|Hx]; [lia | specialize (IH Hx); lia].
Qed.

Lemma widths_lookup images (i : nat) img :
  images !! i = Some img -> widths images !! i = Some (Dx (Bounds img)).
Proof. intros Hi. unfold widths. rewrite list_lookup_fmap, Hi. reflexivity. Qed.

Lemma heights_lookup images (i : nat) img :
  images !! i = Some img -> heights images !! i = Some (Dy (Bounds img)).
Proof. intros Hi. unfold heights. rewrite list_lookup_fmap, Hi. reflexivity. Qed.

Lemma crossOffset_fits (align : string) (container item : Z) :
  0 <= item <= container ->
  0 <= crossOffset align container item /\ crossOffset align container item + item <= container.
Proof.
  intros Hi. unfold crossOffset.
  assert (Hd : 0 <= (container - item) / 2 <= container - item).
  { split; [apply Z.div_pos; lia | apply Z.div_le_upper_bound; lia]. }
  destruct (String.eqb align "start"); [lia|].
  destruct (String.eqb align "end"); lia.
Qed.

Lemma wf_image_lookup images (i : nat) img :
  wf_images images -> images !! i = Some img ->
  0 <= Dx (Bounds img) /\ 0 <= Dy (Bounds img) /\
  Dx (Bounds img) <= maxZ (widths images) /\ Dy (Bounds img) <= maxZ (heights images).
Proof.
  intros Hwf Hi.
  pose proof (proj1 (Forall_lookup _ _) Hwf i img Hi) as Himg. cbv beta in Himg.
  pose proof (Dx_wf _ Himg) as [_ ?]. pose proof (Dy_wf _ Himg) as [_ ?].
  repeat split; try lia.
  - apply maxZ_ge. apply (list_elem_of_lookup_2 _ i). by apply widths_lookup.
  - apply maxZ_ge. apply (list_elem_of_lookup_2 _ i). by apply heights_lookup.
Qed.

Lemma column_length align gap width images : forall y,
  List.length (column align gap width y images) = List.length images.
Proof. induction images; intros; simpl; auto. Qed.

Lemma placed_size (img : Image) (x y : Z) :
  0 <= Dx (Bounds img) <= max_int -> 0 <= Dy (Bounds img) <= max_int ->
  Dx (dc_rect (placed img x y)) = Dx (Bounds img) /\
  Dy (dc_rect (placed img x y)) = Dy (Bounds img).
Proof.
  intros Hw Hh.
  change (Dx (dc_rect (placed img x y))) with (wrap (x + Dx (Bounds img) - x)).
  change (Dy (dc_rect (placed img x y))) with (wrap (y + Dy (Bounds img) - y)).
  split; (rewrite wrap_small; [lia | apply in_range_nonneg; lia]).
Qed.

Section RowsAndColumns.
Variable strings_ToLower : string -> string.


(** X2.  In a row and in a column every image is drawn at its own size and
    inside the canvas; a later image starts at least one gap after an
    earlier one ends, the next one exactly one gap after; so no two images
    overlap and none is cut off. *)
Theorem rows_and_columns_fit_and_keep_apart (images : list Image) (opts : CombineOptions) :
  images <> [] ->
  wf_images images ->
  0 <= Gap opts ->
  (sumZ (widths images) + Gap opts * (Z.of_nat (List.length images) - 1) <= max_int ->
   let canvas := combineHorizontal strings_ToLower images opts in
   (forall (i : nat) img, images !! i = Some img ->
      exists call, cv_draws canvas !! S i = Some call /\ dc_src call = SrcImage img /\
        Dx (dc_rect call) = Dx (Bounds img) /\ Dy (dc_rect call) = Dy (Bounds img) /\
        within (dc_rect call) (cv_bounds canvas)) /\
   (forall (i j : nat) a b, (i < j)%nat ->
      cv_draws canvas !! S i = Some a -> cv_draws canvas !! S j = Some b ->
      X (Max (dc_rect a)) + Gap opts <= X (Min (dc_rect b)) /\
      (j = S i -> X (Max (dc_rect a)) + Gap opts = X (Min (dc_rect b))) /\
      apart (dc_rect a) (dc_rect b))) /\
  (sumZ (heights images) + Gap opts * (Z.of_nat (List.length images) - 1) <= max_int ->
   let canvas := combineVertical strings_ToLower images opts in
   (forall (i : nat) img, images !! i = Some img ->
      exists call, cv_draws canvas !! S i = Some call /\ dc_src call = SrcImage img /\
        Dx (dc_rect call) = Dx (Bounds img) /\ Dy (dc_rect call) = Dy (Bounds img) /\
        within (dc_rect call) (cv_bounds canvas)) /\
   (forall (i j : nat) a b, (i < j)%nat ->
      cv_draws canvas !! S i = Some a -> cv_draws canvas !! S j = Some b ->
      Y (Max (dc_rect a)) + Gap opts <= Y (Min (dc_rect b)) /\
      (j = S i -> Y (Max (dc_rect a)) + Gap opts = Y (Min (dc_rect b))) /\
      apart (dc_rect a) (dc_rect b))).
Proof.
  intros Hne Hwf Hgap.
  assert (Hlen : 1 <= Z.of_nat (List.length images))
    by (destruct images; simpl in *; [congruence | lia]).
  pose proof (wf_widths _ Hwf) as Hws. pose proof (wf_heights _ Hwf) as Hhs.
  assert (Hplaced : forall img x y,
    0 <= Dx (Bounds img) <= max_int -> 0 <= Dy (Bounds img) <= max_int ->
    Dx (dc_rect (placed img x y)) = wrap (x + Dx (Bounds img) - x) /\
    Dy (dc_rect (placed img x y)) = wrap (y + Dy (Bounds img) - y)).
  { intros. unfold placed, Dx at 1, Dy at 1, sub. cbn. split; reflexivity. }
  split.
  - intros Hfit canvas.
    destruct (combineHorizontal_shape strings_ToLower images opts Hne Hwf Hgap Hfit)
      as [bg Hcanvas].
    fold canvas in Hcanvas. rewrite Hcanvas. cbn [cv_draws cv_bounds]. split.
    + intros i img Hi.
      pose proof (row_lookup (Align opts) (Gap opts) (maxZ (heights images)) images 0 i img Hi)
        as Hrow.
      eexists. split; [rewrite lookup_cons_ne_0 by lia; cbn [Nat.pred]; exact Hrow|].
      destruct (wf_image_lookup _ _ _ Hwf Hi) as (Hw0 & Hh0 & Hw & Hh).
      pose proof (maxZ_heights_fit _ Hwf) as HH. pose proof (maxZ_widths_fit _ Hwf) as HW.
      split; [reflexivity|].
      destruct (Hplaced img (0 + sumZ (take i (widths images)) + Z.of_nat i * Gap opts)
                  (crossOffset (Align opts) (maxZ (heights images)) (Dy (Bounds img)))
                  ltac:(lia) ltac:(lia)) as [-> ->].
      split; [rewrite wrap_small; [lia | apply in_range_nonneg; lia]|].
      split; [rewrite wrap_small; [lia | apply in_range_nonneg; lia]|].
      unfold within, placed. cbn.
      pose proof (crossOffset_fits (Align opts) (maxZ (heights images)) (Dy (Bounds img))
                    ltac:(lia)) as [Hc0 Hc1].
      pose proof (sumZ_nonneg (take i (widths images)) ltac:(by apply Forall_take)) as Ht0.
      pose proof (sumZ_take_S _ _ _ (widths_lookup _ _ _ Hi)) as HtS.
      pose proof (sumZ_take_all _ (S i) Hws) as Hta.
      assert (Hi' : Z.of_nat i <= Z.of_nat (List.length images) - 1).
      { apply lookup_lt_Some in Hi. lia. }
      repeat split; try lia; nia.
    + intros i j a b Hij Ha Hb.
      rewrite lookup_cons_ne_0 in Ha, Hb by lia. cbn [Nat.pred] in Ha, Hb.
      destruct (lookup_lt_is_Some_2 images i) as [imgA HA].
      { apply lookup_lt_Some in Ha. rewrite row_length in Ha. lia. }
      destruct (lookup_lt_is_Some_2 images j) as [imgB HB].
      { apply lookup_lt_Some in Hb. rewrite row_length in Hb. lia. }
      rewrite (row_lookup _ _ _ _ _ _ _ HA) in Ha. rewrite (row_lookup _ _ _ _ _ _ _ HB) in Hb.
      injection Ha as <-. injection Hb as <-. unfold apart, placed. cbn.
      pose proof (sumZ_take_S _ _ _ (widths_lookup _ _ _ HA)) as HtS.
      pose proof (sumZ_take_le (widths images) (S i) j Hws ltac:(lia)) as Hle.
      assert (Z.of_nat i * Gap opts + Gap opts <= Z.of_nat j * Gap opts) by nia.
      split; [lia|]. split; [intros ->; lia | left; lia].
  - intros Hfit canvas.
    destruct (combineVertical_layout strings_ToLower images opts Hne Hwf Hgap Hfit)
      as [bg Hcanvas].
    fold canvas in Hcanvas. rewrite Hcanvas. cbn [cv_draws cv_bounds]. split.
    + intros i img Hi.
      pose proof (column_lookup (Align opts) (Gap opts) (maxZ (widths images)) images 0 i img Hi)
        as Hcol.
      eexists. split; [rewrite lookup_cons_ne_0 by lia; cbn [Nat.pred]; exact Hcol|].
      destruct (wf_image_lookup _ _ _ Hwf Hi) as (Hw0 & Hh0 & Hw & Hh).
      pose proof (maxZ_heights_fit _ Hwf) as HH. pose proof (maxZ_widths_fit _ Hwf) as HW.
      split; [reflexivity|].
      destruct (Hplaced img (crossOffset (Align opts) (maxZ (widths images)) (Dx (Bounds img)))
                  (0 + sumZ (take i (heights images)) + Z.of_nat i * Gap opts)
                  ltac:(lia) ltac:(lia)) as [-> ->].
      split; [rewrite wrap_small; [lia | apply in_range_nonneg; lia]|].
      split; [rewrite wrap_small; [lia | apply in_range_nonneg; lia]|].
      unfold within, placed. cbn.
      pose proof (crossOffset_fits (Align opts) (maxZ (widths images)) (Dx (Bounds img))
                    ltac:(lia)) as [Hc0 Hc1].
      pose proof (sumZ_nonneg (take i (heights images)) ltac:(by apply Forall_take)) as Ht0.
      pose proof (sumZ_take_S _ _ _ (heights_lookup _ _ _ Hi)) as HtS.
      pose proof (sumZ_take_all _ (S i) Hhs) as Hta.
      assert (Hi' : Z.of_nat i <= Z.of_nat (List.length images) - 1).
      { apply lookup_lt_Some in Hi. lia. }
      repeat split; try lia; nia.
    + intros i j a b Hij Ha Hb.
      rewrite lookup_cons_ne_0 in Ha, Hb by lia. cbn [Nat.pred] in Ha, Hb.
      destruct (lookup_lt_is_Some_2 images i) as [imgA HA].
      { apply lookup_lt_Some in Ha. rewrite column_length in Ha. lia. }
      destruct (lookup_lt_is_Some_2 images j) as [imgB HB].
      { apply lookup_lt_Some in Hb. rewrite column_length in Hb. lia. }
      rewrite (column_lookup _ _ _ _ _ _ _ HA) in Ha.
      rewrite (column_lookup _ _ _ _ _ _ _ HB) in Hb.
      injection Ha as <-. injection Hb as <-. unfold apart, placed. cbn.
      pose proof (sumZ_take_S _ _ _ (heights_lookup _ _ _ HA)) as HtS.
      pose proof (sumZ_take_le (heights images) (S i) j Hhs ltac:(lia)) as Hle.
      assert (Z.of_nat i * Gap opts + Gap opts <= Z.of_nat j * Gap opts) by nia.
      split; [lia|]. split; [intros ->; lia | right; right; left; lia].
Qed.

End RowsAndColumns.


Lemma rows_and_columns_fit_and_keep_apart_witness :
  let opts := mkCombineOptions "horizontal" 5 0 "center" "transparent" in
  let canvas := combineHorizontal id twoImages opts in
  exists a b,
    cv_draws canvas !! 1%nat = Some a /\ cv_draws canvas !! 2%nat = Some b /\
    within (dc_rect a) (cv_bounds canvas) /\ within (dc_rect b) (cv_bounds canvas) /\
    X (Max (dc_rect a)) + 5 = X (Min (dc_rect b)) /\
    apart (dc_rect a) (dc_rect b).
Proof.
  intros opts canvas.
  destruct (rows_and_columns_fit_and_keep_apart id twoImages opts) as [Hrow _].
  - discriminate.
  - exact twoImages_wf.
  - cbn. lia.
  - destruct Hrow as [Hfit Hapart]; [vm_compute; discriminate|].
    destruct (Hfit 0%nat (blank 10 20) eq_refl) as (a & Ha & _ & _ & _ & Hwa).
    destruct (Hfit 1%nat (blank 30 15) eq_refl) as (b & Hb & _ & _ & _ & Hwb).
    destruct (Hapart 0%nat 1%nat a b ltac:(lia) Ha Hb) as (_ & Hnext & Hab).
    exists a, b. split; [exact Ha|]. split; [exact Hb|]. split; [exact Hwa|].
    split; [exact Hwb|]. split; [exact (Hnext eq_refl) | exact Hab].
Defined.

Lemma cell_coordinates (cols count : Z) (i : nat) :
  1 <= cols -> Z.of_nat i < count ->
  0 <= Z.of_nat i mod cols <= cols - 1 /\
  0 <= Z.of_nat i / cols <= (count - 1) / cols.
Proof.
  intros Hcols Hi.
  pose proof (Z.mod_pos_bound (Z.of_nat i) cols ltac:(lia)).
  assert (0 <= Z.of_nat i / cols) by (apply Z.div_pos; lia).
  assert (Z.of_nat i / cols <= (count - 1) / cols) by (apply Z.div_le_mono; lia).
  lia.
Qed.

Lemma cells_differ (cols : Z) (i j : nat) :
  1 <= cols -> i <> j ->
  Z.of_nat i mod cols <> Z.of_nat j mod cols \/ Z.of_nat i / cols <> Z.of_nat j / cols.
Proof.
  intros Hcols Hij.
  destruct (Z.eq_dec (Z.of_nat i mod cols) (Z.of_nat j mod cols)) as [Hm|]; [|by left].
  right. intros Hd.
  pose proof (Z.div_mod (Z.of_nat i) cols ltac:(lia)).
  pose proof (Z.div_mod (Z.of_nat j) cols ltac:(lia)).
  apply Hij. apply Nat2Z.inj. congruence.
Qed.

Lemma cells_length gap cols cw ch images : forall i,
  List.length (cells gap cols cw ch i images) = List.length images.
Proof. induction images; intros; simpl; auto. Qed.

Section GridCells.
Variable strings_ToLower : string -> string.

Lemma combineGrid_shape (images : list Image) (opts : CombineOptions) :
  images <> [] ->
  wf_images images ->
  0 <= Gap opts ->
  let count := Z.of_nat (List.length images) in
  let cols := gridColumns (Columns opts) count in
  let rows := ceil_div count cols in
  let cellWidth := maxZ (widths images) in
  let cellHeight := maxZ (heights images) in
  grid_fits (Gap opts) cols rows cellWidth cellHeight count ->
  let W := cols * cellWidth + (cols - 1) * Gap opts in
  let H := rows * cellHeight + (rows - 1) * Gap opts in
  1 <= cols /\ rows = (count - 1) / cols + 1 /\ 0 <= W <= max_int /\ 0 <= H <= max_int /\
  exists background,
    combineGrid strings_ToLower images opts =
      mkCanvas (mkRectangle (mkPoint 0 0) (mkPoint W H))
        (background :: cells (Gap opts) cols cellWidth cellHeight 0 images).
Proof.
  intros Hne Hwf Hgap count cols rows cw ch (Hfc & Hfx & Hfy) W H.
  assert (Hcount : 1 <= count).
  { unfold count. destruct images; simpl in *; [congruence | lia]. }
  pose proof (gridColumns_pos (Columns opts) count) as Hcols1. fold cols in Hcols1.
  pose proof (maxZ_nonneg (widths images)) as Hcw. fold cw in Hcw.
  pose proof (maxZ_nonneg (heights images)) as Hch. fold ch in Hch.
  assert (Hrows : rows = (count + cols - 1) / cols).
  { unfold rows. apply ceil_div_Z. lia. }
  assert (Hrows' : rows = (count - 1) / cols + 1).
  { rewrite Hrows. replace (count + cols - 1) with (count - 1 + 1 * cols) by lia.
    apply Z.div_add. lia. }
  assert (Hrows1 : 1 <= rows).
  { rewrite Hrows'. assert (0 <= (count - 1) / cols) by (apply Z.div_pos; lia). lia. }
  assert (Hrows_le : rows <= count).
  { rewrite Hrows'. assert ((count - 1) / cols <= count - 1); [|lia].
    apply Z.div_le_upper_bound; nia. }
  assert (HW : 0 <= W <= max_int) by (unfold W; nia).
  assert (HH : 0 <= H <= max_int) by (unfold H; nia).
  split; [assumption|]. split; [assumption|]. split; [assumption|]. split; [assumption|].
  eexists. unfold combineGrid. fold count cols.
  rewrite (add_small count) by (apply in_range_nonneg; lia).
  rewrite (sub_small (count + cols)) by (apply in_range_nonneg; lia).
  rewrite (quo_nonneg (count + cols - 1)) by lia. rewrite <- Hrows.
  rewrite measureCells_max by lia. rewrite !Z.max_r by assumption. fold cw ch.
  rewrite !sub_small by (apply in_range_nonneg; lia).
  rewrite !mul_small by (apply in_range_nonneg; nia).
  rewrite !add_small by (apply in_range_nonneg; nia).
  fold W H. rewrite Rect_ordered by lia.
  change (drawGrid (Gap opts) cols cw ch 0 images)
    with (drawGrid (Gap opts) cols cw ch (Z.of_nat 0) images).
  rewrite (drawGrid_cells (Gap opts) cols cw ch (rows - 1) (List.length images));
    [ | assumption | assumption | assumption | reflexivity
      | apply widths_le_maxZ | apply heights_le_maxZ | fold count; lia
      | fold count; lia | assumption | replace (rows - 1 + 1) with rows by lia; assumption].
  unfold fillBackground, draw_Draw, NewCanvas. cbn [cv_bounds cv_draws app]. reflexivity.
Qed.

(** X3.  In a grid, whatever the number of images and whether the column
    count is given or computed, every image is drawn at its own size
    inside the cell of its row and column, every cell lies inside the
    canvas, and the cells of two different images have no point in common;
    so no two images overlap and none is cut off. *)
Theorem combineGrid_cells_fit_and_keep_apart (images : list Image) (opts : CombineOptions) :
  images <> [] ->
  wf_images images ->
  0 <= Gap opts ->
  let count := Z.of_nat (List.length images) in
  let cols := gridColumns (Columns opts) count in
  let rows := ceil_div count cols in
  let cellWidth := maxZ (widths images) in
  let cellHeight := maxZ (heights images) in
  grid_fits (Gap opts) cols rows cellWidth cellHeight count ->
  let canvas := combineGrid strings_ToLower images opts in
  let cell := cellRect (Gap opts) cols cellWidth cellHeight in
  List.length (cv_draws canvas) = S (List.length images) /\
  (forall (i : nat) img, images !! i = Some img ->
     exists call, cv_draws canvas !! S i = Some call /\ dc_src call = SrcImage img /\
       Dx (dc_rect call) = Dx (Bounds img) /\ Dy (dc_rect call) = Dy (Bounds img) /\
       within (dc_rect call) (cell i) /\ within (cell i) (cv_bounds canvas)) /\
  (forall (i j : nat) a b, i <> j ->
     cv_draws canvas !! S i = Some a -> cv_draws canvas !! S j = Some b ->
     apart (cell i) (cell j) /\ apart (dc_rect a) (dc_rect b)).
Proof.
  intros Hne Hwf Hgap count cols rows cw ch Hfits canvas cell.
  destruct (combineGrid_shape images opts Hne Hwf Hgap Hfits)
    as (Hcols & Hrows & HW & HH & bg & Hcanvas).
  fold count cols rows cw ch canvas in Hcols, Hrows, HW, HH, Hcanvas.
  destruct Hfits as (Hfc & Hfx & Hfy).
  pose proof (maxZ_nonneg (widths images)) as Hcw. fold cw in Hcw.
  pose proof (maxZ_nonneg (heights images)) as Hch. fold ch in Hch.
  assert (Hcell : forall (i : nat) img, images !! i = Some img ->
    Dx (dc_rect (inCell (Gap opts) cols cw ch i img)) = Dx (Bounds img) /\
    Dy (dc_rect (inCell (Gap opts) cols cw ch i img)) = Dy (Bounds img) /\
    within (dc_rect (inCell (Gap opts) cols cw ch i img)) (cell i) /\
    within (cell i) (mkRectangle (mkPoint 0 0)
      (mkPoint (cols * cw + (cols - 1) * Gap opts) (rows * ch + (rows - 1) * Gap opts)))).
  { intros i img Hi.
    destruct (wf_image_lookup _ _ _ Hwf Hi) as (Hw0 & Hh0 & Hw & Hh). fold cw ch in Hw, Hh.
    pose proof (maxZ_heights_fit _ Hwf) as Hhf. pose proof (maxZ_widths_fit _ Hwf) as Hwf'.
    fold cw ch in Hhf, Hwf'.
    assert (Hic : Z.of_nat i < count) by (apply lookup_lt_Some in Hi; unfold count; lia).
    destruct (cell_coordinates cols count i Hcols Hic) as [Hc Hr].
    assert (Hhx : 0 <= (cw - Dx (Bounds img)) / 2 <= cw - Dx (Bounds img)).
    { split; [apply Z.div_pos; lia | apply Z.div_le_upper_bound; lia]. }
    assert (Hhy : 0 <= (ch - Dy (Bounds img)) / 2 <= ch - Dy (Bounds img)).
    { split; [apply Z.div_pos; lia | apply Z.div_le_upper_bound; lia]. }
    unfold inCell.
    destruct (placed_size img
                (Z.of_nat i mod cols * (cw + Gap opts) + (cw - Dx (Bounds img)) / 2)
                (Z.of_nat i / cols * (ch + Gap opts) + (ch - Dy (Bounds img)) / 2)
                ltac:(lia) ltac:(lia)) as [-> ->].
    split; [reflexivity|]. split; [reflexivity|].
    unfold placed, cell, cellRect, within. cbn [dc_rect Min Max X Y].
    set (c := Z.of_nat i mod cols) in *. set (r := Z.of_nat i / cols) in *.
    split; [lia|]. rewrite Hrows. repeat split; nia. }
  rewrite Hcanvas. cbn [cv_draws cv_bounds]. split.
  { cbn [List.length]. rewrite cells_length. reflexivity. }
  split.
  - intros i img Hi.
    pose proof (cells_lookup (Gap opts) cols cw ch images 0 i img Hi) as Hlook.
    eexists. split; [rewrite lookup_cons_ne_0 by lia; cbn [Nat.pred]; exact Hlook|].
    split; [reflexivity|]. cbn [Nat.add]. apply Hcell. exact Hi.
  - intros i j a b Hij Ha Hb.
    rewrite lookup_cons_ne_0 in Ha, Hb by lia. cbn [Nat.pred] in Ha, Hb.
    destruct (lookup_lt_is_Some_2 images i) as [imgA HA].
    { apply lookup_lt_Some in Ha. rewrite cells_length in Ha. lia. }
    destruct (lookup_lt_is_Some_2 images j) as [imgB HB].
    { apply lookup_lt_Some in Hb. rewrite cells_length in Hb. lia. }
    rewrite (cells_lookup _ _ _ _ _ 0%nat _ _ HA) in Ha.
    rewrite (cells_lookup _ _ _ _ _ 0%nat _ _ HB) in Hb.
    injection Ha as <-. injection Hb as <-. cbn [Nat.add].
    destruct (Hcell i imgA HA) as (_ & _ & Hwa & _).
    destruct (Hcell j imgB HB) as (_ & _ & Hwb & _).
    assert (Hap : apart (cell i) (cell j)).
    { unfold apart, cell, cellRect. cbn.
      destruct (cells_differ cols i j Hcols Hij) as [Hc|Hr].
      - destruct (Z.lt_total (Z.of_nat i mod cols) (Z.of_nat j mod cols)) as [Hlt|[Heq|Hgt]];
          [left | congruence | right; left]; nia.
      - destruct (Z.lt_total (Z.of_nat i / cols) (Z.of_nat j / cols)) as [Hlt|[Heq|Hgt]];
          [right; right; left | congruence | right; right; right]; nia. }
    split; [exact Hap|].
    unfold apart, within in *. lia.
Qed.

End GridCells.

Lemma combineGrid_cells_fit_and_keep_apart_witness :
  let opts := mkCombineOptions "grid" 3 0 "center" "transparent" in
  let canvas := combineGrid id fourImages opts in
  exists a b,
    cv_draws canvas !! 2%nat = Some a /\ cv_draws canvas !! 3%nat = Some b /\
    within (dc_rect a) (cellRect 3 2 8 6 1) /\
    within (cellRect 3 2 8 6 1) (cv_bounds canvas) /\
    apart (dc_rect a) (dc_rect b).
Proof.
  intros opts canvas.
  destruct (combineGrid_cells_fit_and_keep_apart id fourImages opts)
    as (_ & Hfit & Hapart).
  - discriminate.
  - exact fourImages_wf.
  - cbn. lia.
  - vm_compute. repeat split; discriminate.
  - destruct (Hfit 1%nat (blank 8 6) eq_refl) as (a & Ha & _ & _ & _ & Hcell & Hcanvas).
    destruct (Hfit 2%nat (blank 8 6) eq_refl) as (b & Hb & _).
    destruct (Hapart 1%nat 2%nat a b ltac:(lia) Ha Hb) as [_ Hab].
    exists a, b. split; [exact Ha|]. split; [exact Hb|]. split; [exact Hcell|].
    split; [exact Hcanvas | exact Hab].
Defined.

Lemma loadImages_all (open : string -> option Image) (paths : list string) (images : list Image) :
  Forall2 (fun p img => open p = Some img) paths images ->
  loadImages open paths = inl images.
Proof.
  induction 1 as [|p img paths images Hp _ IH]; [reflexivity|].
  cbn [loadImages]. rewrite Hp, IH. reflexivity.
Qed.

Lemma loadImages_first (open : string -> option Image) (pre : list string) p post :
  (forall q, q ∈ pre -> is_Some (open q)) -> open p = None ->
  loadImages open (pre ++ p :: post) = inr (ErrOpen p).
Proof.
  induction pre as [|q pre IH]; intros Hpre Hp; cbn [app loadImages].
  - rewrite Hp. reflexivity.
  - destruct (Hpre q ltac:(left)) as [img ->].
    rewrite IH; [reflexivity | intros; apply Hpre; by right | assumption].
Qed.

Lemma parseColor_opaque ToLower s target :
  Transparency.parseColor ToLower s = Some target -> cA target = 255.
Proof.
  unfold Transparency.parseColor.
  destruct (String.eqb (ToLower s) "white"); [intros [= <-]; reflexivity|].
  destruct (String.eqb (ToLower s) "black"); [intros [= <-]; reflexivity|].
  destruct (negb _); [discriminate|].
  destruct (GoStrings.ParseUint_16_8 _); [|discriminate].
  destruct (GoStrings.ParseUint_16_8 _); [|discriminate].
  destruct (GoStrings.ParseUint_16_8 _); [|discriminate].
  intros [= <-]. reflexivity.
Qed.

Section CombineImagesMore.
Variable strings_ToLower : string -> string.
Variable filepath_Dir : string -> string.
Variable imaging_Open : FileSystem -> string -> option Image.

Local Abbreviation CombineImages :=
  (CombineImages strings_ToLower filepath_Dir imaging_Open).

(** Writing two canvases of the same bounds has the same outcome. *)
Lemma write_canvas_bounds env fs outputPath (c1 c2 : Canvas) :
  cv_bounds c1 = cv_bounds c2 ->
  snd (let dir := filepath_Dir outputPath in
       let made := if negb (String.eqb dir "") && negb (String.eqb dir ".")
                   then os_MkdirAll env fs dir else Some fs in
       match made with
       | None => (fs, inr ErrMkdir)
       | Some fs1 =>
           match os_Create env fs1 outputPath with
           | None => (fs1, inr ErrCreate)
           | Some fs2 =>
               match png_Encode env fs2 outputPath (PicCanvas c1) with
               | None => (fs2, inr ErrEncode)
               | Some fs3 =>
                   (fs3, inl (mkCombineResult (Dx (cv_bounds c1)) (Dy (cv_bounds c1)) "png"))
               end
           end
       end)
  = snd (let dir := filepath_Dir outputPath in
       let made := if negb (String.eqb dir "") && negb (String.eqb dir ".")
                   then os_MkdirAll env fs dir else Some fs in
       match made with
       | None => (fs, inr ErrMkdir)
       | Some fs1 =>
           match os_Create env fs1 outputPath with
           | None => (fs1, inr ErrCreate)
           | Some fs2 =>
               match png_Encode env fs2 outputPath (PicCanvas c2) with
               | None => (fs2, inr ErrEncode)
               | Some fs3 =>
                   (fs3, inl (mkCombineResult (Dx (cv_bounds c2)) (Dy (cv_bounds c2)) "png"))
               end
           end
       end).
Proof.
  intros Hb. cbv zeta.
  destruct (if negb _ && negb _ then _ else _) as [fs1|]; [|reflexivity].
  destruct (os_Create env fs1 outputPath) as [fs2|]; [|reflexivity].
  unfold png_Encode. cbn [pic_bounds]. rewrite Hb.
  destruct (_ || _); [reflexivity|].
  destruct (write_ok env outputPath); reflexivity.
Qed.

(** X4.  [fillBackground] has no error path: it fills the whole canvas with one
    colour, which is the transparent one when [parseColor] rejects the
    background string and the parsed colour with alpha 255 when it accepts
    it; and the background string has no part in whether [CombineImages]
    fails nor in the result it reports. *)
Theorem background_never_fails (bg : string) :
  (forall canvas : Canvas, exists c : NRGBA,
     fillBackground strings_ToLower canvas bg =
       draw_Draw canvas (cv_bounds canvas) (SrcUniform c) (mkPoint 0 0) Src /\
     (Transparency.parseColor strings_ToLower bg = None -> c = mkNRGBA 0 0 0 0) /\
     (forall t, Transparency.parseColor strings_ToLower bg = Some t ->
        strings_ToLower bg <> "transparent" -> strings_ToLower bg <> "" ->
        c = mkNRGBA (cR t) (cG t) (cB t) 255)) /\
  (forall env fs inputPaths outputPath opts,
     snd (CombineImages env fs inputPaths outputPath (Some (withBackground opts bg)))
     = snd (CombineImages env fs inputPaths outputPath (Some opts))).
Proof.
  split.
  - intros canvas.
    assert (Hwhite : String.eqb (strings_ToLower bg) "white" = true ->
              Transparency.parseColor strings_ToLower bg = Some (mkRGBA 255 255 255 255)).
    { intros H. unfold Transparency.parseColor. rewrite H. reflexivity. }
    assert (Hblack : String.eqb (strings_ToLower bg) "white" = false ->
              String.eqb (strings_ToLower bg) "black" = true ->
              Transparency.parseColor strings_ToLower bg = Some (mkRGBA 0 0 0 255)).
    { intros H1 H2. unfold Transparency.parseColor. rewrite H1, H2. reflexivity. }
    unfold fillBackground. eexists. split; [reflexivity|].
    destruct (String.eqb_spec (strings_ToLower bg) "transparent") as [Ht|Ht].
    { cbn [orb]. split; [reflexivity|]. intros; congruence. }
    destruct (String.eqb_spec (strings_ToLower bg) "") as [He|He].
    { cbn [orb]. split; [reflexivity|]. intros; congruence. }
    cbn [orb].
    destruct (String.eqb (strings_ToLower bg) "white") eqn:Hw.
    { rewrite (Hwhite eq_refl). split; [discriminate|]. intros t [= <-] _ _. reflexivity. }
    destruct (String.eqb (strings_ToLower bg) "black") eqn:Hb.
    { rewrite (Hblack eq_refl eq_refl). split; [discriminate|].
      intros t [= <-] _ _. reflexivity. }
    destruct (Transparency.parseColor strings_ToLower bg) as [t|] eqn:Hp.
    + split; [discriminate|]. intros t' [= <-] _ _.
      rewrite (parseColor_opaque _ _ _ Hp). reflexivity.
    + split; [reflexivity|]. intros t [=].
  - intros env fs inputPaths outputPath opts. unfold Combine.CombineImages.
    destruct (Z.of_nat (List.length inputPaths) <? 2); [reflexivity|].
    destruct (loadImages (imaging_Open fs) inputPaths) as [images|e]; [|reflexivity].
    cbn [Direction withBackground].
    destruct (String.eqb (Direction opts) "horizontal").
    { apply write_canvas_bounds. unfold combineHorizontal. cbn [Gap withBackground].
      destruct (measureHorizontal (Gap opts) 0 images 0 0) as [tw mh].
      rewrite !drawHorizontal_bounds. reflexivity. }
    destruct (String.eqb (Direction opts) "vertical").
    { apply write_canvas_bounds. unfold combineVertical. cbn [Gap withBackground].
      destruct (measureVertical (Gap opts) 0 images 0 0) as [mw th].
      rewrite !drawVertical_bounds. reflexivity. }
    destruct (String.eqb (Direction opts) "grid").
    { apply write_canvas_bounds. unfold combineGrid. cbn [Gap Columns withBackground].
      destruct (measureCells images 0 0) as [cw ch].
      rewrite !drawGrid_bounds. reflexivity. }
    reflexivity.
Qed.

(** X5.  [CombineImages] opens the inputs in order and stops at the first one
    that cannot be opened: it returns the open error for that path and
    leaves the file system as it was, whatever the options are (the
    direction is looked at only after all inputs are loaded). *)
Theorem CombineImages_first_unreadable env fs (pre : list string) (p : string)
  (post : list string) outputPath opts :
  (2 <= List.length (pre ++ p :: post))%nat ->
  (forall q, q ∈ pre -> is_Some (imaging_Open fs q)) ->
  imaging_Open fs p = None ->
  CombineImages env fs (pre ++ p :: post) outputPath opts = (fs, inr (ErrOpen p)).
Proof.
  intros Hlen Hpre Hp. unfold Combine.CombineImages.
  destruct (Z.ltb_spec (Z.of_nat (List.length (pre ++ p :: post))) 2); [lia|].
  rewrite (loadImages_first _ _ _ _ Hpre Hp). reflexivity.
Qed.

(** Writing a canvas that the encoder accepts. *)
Lemma write_canvas_ok env fs outputPath (canvas : Canvas) :
  (filepath_Dir outputPath = "" \/ filepath_Dir outputPath = "." \/
   mkdir_ok env (filepath_Dir outputPath) = true) ->
  create_ok env outputPath = true -> write_ok env outputPath = true ->
  1 <= Dx (cv_bounds canvas) < 2 ^ 32 -> 1 <= Dy (cv_bounds canvas) < 2 ^ 32 ->
  exists fs',
    (let dir := filepath_Dir outputPath in
     let made := if negb (String.eqb dir "") && negb (String.eqb dir ".")
                 then os_MkdirAll env fs dir else Some fs in
     match made with
     | None => (fs, inr ErrMkdir)
     | Some fs1 =>
         match os_Create env fs1 outputPath with
         | None => (fs1, inr ErrCreate)
         | Some fs2 =>
             match png_Encode env fs2 outputPath (PicCanvas canvas) with
             | None => (fs2, inr ErrEncode)
             | Some fs3 =>
                 (fs3, inl (mkCombineResult (Dx (cv_bounds canvas)) (Dy (cv_bounds canvas)) "png"))
             end
         end
     end) = (fs', inl (mkCombineResult (Dx (cv_bounds canvas)) (Dy (cv_bounds canvas)) "png")) /\
    files fs' = <[ outputPath := PNGOf (PicCanvas canvas) ]> (files fs).
Proof.
  intros Hdir Hcreate Hwrite Hw Hh. cbv zeta.
  assert (Hmade : exists fs1,
    (if negb (String.eqb (filepath_Dir outputPath) "")
        && negb (String.eqb (filepath_Dir outputPath) ".")
     then os_MkdirAll env fs (filepath_Dir outputPath) else Some fs) = Some fs1 /\
    files fs1 = files fs).
  { destruct (String.eqb_spec (filepath_Dir outputPath) ""); [by exists fs|].
    destruct (String.eqb_spec (filepath_Dir outputPath) "."); [by exists fs|].
    destruct Hdir as [?|[?|Hmk]]; [congruence | congruence |].
    cbn [negb andb]. unfold os_MkdirAll. rewrite Hmk. eexists. split; reflexivity. }
  destruct Hmade as (fs1 & -> & Hfiles).
  unfold os_Create. rewrite Hcreate. unfold png_Encode. cbn [pic_bounds files dirs].
  destruct (Z.leb_spec (Dx (cv_bounds canvas)) 0); [lia|].
  destruct (Z.leb_spec (Dy (cv_bounds canvas)) 0); [lia|].
  destruct (Z.leb_spec (2 ^ 32) (Dx (cv_bounds canvas))); [lia|].
  destruct (Z.leb_spec (2 ^ 32) (Dy (cv_bounds canvas))); [lia|].
  cbn [orb]. rewrite Hwrite. eexists. split; [reflexivity|].
  cbn [files]. rewrite Hfiles. apply insert_insert_eq.
Qed.

(** X6.  When every input opens to an image of at least one pixel, the gap is
    not negative, the sides of the canvas are below 2^32 and the
    directory, the file and the encoding succeed,
    [CombineImages] with direction [horizontal] reports the sum of the
    widths plus the gaps by the greatest height, and with direction
    [vertical] the greatest width by the sum of the heights plus the gaps,
    both with format [png]; the files afterwards are the files before with
    the output path holding the PNG of the laid-out canvas. *)
Theorem CombineImages_writes_row_or_column env fs (inputPaths : list string)
  (images : list Image) outputPath opts :
  (2 <= List.length inputPaths)%nat ->
  Forall2 (fun p img => imaging_Open fs p = Some img) inputPaths images ->
  wf_images images ->
  Forall (fun img => 1 <= Dx (Bounds img) /\ 1 <= Dy (Bounds img)) images ->
  0 <= Gap opts ->
  (filepath_Dir outputPath = "" \/ filepath_Dir outputPath = "." \/
   mkdir_ok env (filepath_Dir outputPath) = true) ->
  create_ok env outputPath = true -> write_ok env outputPath = true ->
  let n := Z.of_nat (List.length images) in
  (Direction opts = "horizontal" ->
   let W := sumZ (widths images) + Gap opts * (n - 1) in
   let H := maxZ (heights images) in
   W < 2 ^ 32 -> H < 2 ^ 32 ->
   exists fs',
     CombineImages env fs inputPaths outputPath (Some opts)
     = (fs', inl (mkCombineResult W H "png")) /\
     files fs' = <[ outputPath :=
                     PNGOf (PicCanvas (combineHorizontal strings_ToLower images opts)) ]>
                   (files fs)) /\
  (Direction opts = "vertical" ->
   let W := maxZ (widths images) in
   let H := sumZ (heights images) + Gap opts * (n - 1) in
   W < 2 ^ 32 -> H < 2 ^ 32 ->
   exists fs',
     CombineImages env fs inputPaths outputPath (Some opts)
     = (fs', inl (mkCombineResult W H "png")) /\
     files fs' = <[ outputPath :=
                     PNGOf (PicCanvas (combineVertical strings_ToLower images opts)) ]>
                   (files fs)).
Proof.
  intros Hlen Hopen Hwf Hpos Hgap Hdir Hcreate Hwrite n.
  assert (Hn : List.length images = List.length inputPaths)
    by (symmetry; eapply Forall2_length; exact Hopen).
  assert (Hne : images <> []) by (destruct images; simpl in *; [lia | congruence]).
  assert (Hfirst : exists img, images !! 0%nat = Some img /\
                     1 <= Dx (Bounds img) /\ 1 <= Dy (Bounds img)).
  { destruct images as [|img rest]; [congruence|]. exists img. split; [reflexivity|].
    by inversion Hpos. }
  destruct Hfirst as (img0 & Hi0 & Hw0 & Hh0).
  destruct (wf_image_lookup _ _ _ Hwf Hi0) as (_ & _ & Hmw & Hmh).
  assert (Hsw : Dx (Bounds img0) <= sumZ (widths images)).
  { apply sumZ_ge; [by apply wf_widths|].
    apply (list_elem_of_lookup_2 _ 0%nat). by apply widths_lookup. }
  assert (Hsh : Dy (Bounds img0) <= sumZ (heights images)).
  { apply sumZ_ge; [by apply wf_heights|].
    apply (list_elem_of_lookup_2 _ 0%nat). by apply heights_lookup. }
  assert (Hn1 : 0 <= n - 1) by (unfold n; lia).
  assert (Hlt : (Z.of_nat (List.length inputPaths) <? 2) = false) by (apply Z.ltb_ge; lia).
  split.
  - intros Hd W H HW HH.
    assert (Hfit : sumZ (widths images) + Gap opts * (Z.of_nat (List.length images) - 1)
                   <= max_int) by (fold n W; unfold max_int; lia).
    destruct (combineHorizontal_shape strings_ToLower images opts Hne Hwf Hgap Hfit)
      as [bg Hcanvas].
    fold n W H in Hcanvas.
    assert (Hb : cv_bounds (combineHorizontal strings_ToLower images opts)
                 = mkRectangle (mkPoint 0 0) (mkPoint W H)) by (rewrite Hcanvas; reflexivity).
    assert (HDx : Dx (cv_bounds (combineHorizontal strings_ToLower images opts)) = W).
    { rewrite Hb. unfold Dx. cbn. rewrite sub_small; [lia|].
      apply in_range_nonneg. unfold max_int. nia. }
    assert (HDy : Dy (cv_bounds (combineHorizontal strings_ToLower images opts)) = H).
    { rewrite Hb. unfold Dy. cbn. rewrite sub_small; [lia|].
      apply in_range_nonneg. unfold max_int. lia. }
    destruct (write_canvas_ok env fs outputPath
                (combineHorizontal strings_ToLower images opts) Hdir Hcreate Hwrite)
      as (fs' & Hrun & Hfiles); [rewrite HDx; nia | rewrite HDy; lia |].
    exists fs'. split; [|exact Hfiles].
    unfold Combine.CombineImages. rewrite Hlt, (loadImages_all _ _ _ Hopen), Hd.
    change (String.eqb "horizontal" "horizontal") with true. cbv iota.
    etransitivity; [exact Hrun|]. rewrite HDx, HDy. reflexivity.
  - intros Hd W H HW HH.
    assert (Hfit : sumZ (heights images) + Gap opts * (Z.of_nat (List.length images) - 1)
                   <= max_int) by (fold n H; unfold max_int; lia).
    destruct (combineVertical_layout strings_ToLower images opts Hne Hwf Hgap Hfit)
      as [bg Hcanvas].
    fold n W H in Hcanvas.
    assert (Hb : cv_bounds (combineVertical strings_ToLower images opts)
                 = mkRectangle (mkPoint 0 0) (mkPoint W H)) by (rewrite Hcanvas; reflexivity).
    assert (HDx : Dx (cv_bounds (combineVertical strings_ToLower images opts)) = W).
    { rewrite Hb. unfold Dx. cbn. rewrite sub_small; [lia|].
      apply in_range_nonneg. unfold max_int. lia. }
    assert (HDy : Dy (cv_bounds (combineVertical strings_ToLower images opts)) = H).
    { rewrite Hb. unfold Dy. cbn. rewrite sub_small; [lia|].
      apply in_range_nonneg. unfold max_int. nia. }
    destruct (write_canvas_ok env fs outputPath
                (combineVertical strings_ToLower images opts) Hdir Hcreate Hwrite)
      as (fs' & Hrun & Hfiles); [rewrite HDx; lia | rewrite HDy; nia |].
    exists fs'. split; [|exact Hfiles].
    unfold Combine.CombineImages. rewrite Hlt, (loadImages_all _ _ _ Hopen), Hd.
    change (String.eqb "vertical" "horizontal") with false.
    change (String.eqb "vertical" "vertical") with true. cbv iota.
    etransitivity; [exact Hrun|]. rewrite HDx, HDy. reflexivity.
Qed.

End CombineImagesMore.

Lemma CombineImages_first_unreadable_witness :
  CombineImages id here (openOnly "a.png" (blank 2 2)) allowAll emptyFS
    ["a.png"; "b.png"; "c.png"] "out.png" None
  = (emptyFS, inr (ErrOpen "b.png")).
Proof.
  apply (CombineImages_first_unreadable id here (openOnly "a.png" (blank 2 2)) allowAll
           emptyFS ["a.png"] "b.png" ["c.png"] "out.png" None).
  - cbn. lia.
  - intros q Hq. apply list_elem_of_singleton in Hq as ->. by eexists.
  - reflexivity.
Defined.

Lemma CombineImages_writes_row_or_column_witness :
  exists fs',
    CombineImages id here (openAs (blank 2 2)) allowAll emptyFS ["a.png"; "b.png"] "out.png"
      (Some (mkCombineOptions "horizontal" 1 0 "center" "transparent"))
    = (fs', inl (mkCombineResult 5 2 "png")) /\
    files fs' !! "out.png"
    = Some (PNGOf (PicCanvas (combineHorizontal id [blank 2 2; blank 2 2]
                                (mkCombineOptions "horizontal" 1 0 "center" "transparent")))).
Proof.
  destruct (CombineImages_writes_row_or_column id here (openAs (blank 2 2)) allowAll emptyFS
              ["a.png"; "b.png"] [blank 2 2; blank 2 2] "out.png"
              (mkCombineOptions "horizontal" 1 0 "center" "transparent")) as [Hrow _].
  - cbn. lia.
  - repeat constructor.
  - repeat constructor; apply blank_wf; unfold max_int; lia.
  - apply List.Forall_cons; [split; vm_compute; discriminate|].
    apply List.Forall_cons; [split; vm_compute; discriminate|]. apply List.Forall_nil.
  - cbn. lia.
  - right. left. reflexivity.
  - reflexivity.
  - reflexivity.
  - destruct Hrow as (fs' & Hrun & Hfiles); [reflexivity | vm_compute; reflexivity
                                            | vm_compute; reflexivity |].
    exists fs'. split; [exact Hrun|]. rewrite Hfiles. apply lookup_insert_eq.
Defined.

End LayoutFacts.

Module KeyFacts.
Import GoInt Geom GoColor Raster Spec Transparency FloatCheck FloatFacts GoIntFacts GeomFacts.
Import Loop GoStrings FileSys Example TransparencyFacts GoText Vocabulary.
Import Samples.

(** The decision of the pixel loop, on the values it reads. *)
Lemma keyPixel_decision (target : RGBA) (t : Z) (pixel : GoColor.Color) :
  wf_target target -> 0 <= t <= 100 ->
  keyPixel target (threshold t) pixel =
    let c := read8 pixel in
    if Z.leb (100 * squaredDistance (nR c) (nG c) (nB c) target) (765 * t)
    then mkNRGBA (nR c) (nG c) (nB c) 0
    else c.
Proof.
  intros Ht Htol. rewrite keyPixel_read8. cbv zeta.
  destruct (read8_wf pixel) as (HR & HG & HB).
  pose proof (matches_iff _ _ _ 0 _ _ HR HG HB Ht Htol) as Hm.
  rewrite withinTolerance_Z in Hm. cbn [nR nG nB] in Hm.
  destruct (PrimFloat.leb _ _); destruct (Z.leb_spec
    (100 * squaredDistance (nR (read8 pixel)) (nG (read8 pixel)) (nB (read8 pixel)) target)
    (765 * t)); try reflexivity.
  - assert (true = true) as H' by reflexivity. apply Hm in H'. lia.
  - apply Hm in H. discriminate.
Qed.

(** X9.  Raising the tolerance never brings a pixel back: for tolerances
    [t <= t' <= 100], a pixel the chroma key makes transparent at [t] is
    transparent at [t'], the colour channels written are the same at both
    tolerances, and a pixel that is kept at [t'] comes out exactly as at
    [t]. *)
Theorem tolerance_is_monotone (target : RGBA) (src : Image) (t t' x y : Z) :
  wf_target target -> 0 <= t -> t <= t' -> t' <= 100 ->
  inside (Bounds src) x y = true ->
  let lower := NRGBAAt (keyImage target (threshold t) src) x y in
  let higher := NRGBAAt (keyImage target (threshold t') src) x y in
  sameRGB lower higher /\
  (nA lower = 0 -> nA higher = 0) /\
  (nA higher <> 0 -> higher = lower).
Proof.
  intros Ht H0 Hle H100 Hin lower higher. subst lower higher.
  rewrite !keyImage_pixel by assumption.
  rewrite !keyPixel_decision by (assumption || lia). cbv zeta.
  set (c := read8 (At src x y)).
  set (d := squaredDistance (nR c) (nG c) (nB c) target).
  destruct (Z.leb_spec (100 * d) (765 * t)), (Z.leb_spec (100 * d) (765 * t'));
    try lia; cbn [nA]; unfold sameRGB; cbn [nR nG nB]; repeat split; auto; try congruence.
Qed.

Lemma tolerance_is_monotone_witness :
  let src := pixelImage (ColorGray 250) in
  let lower := NRGBAAt (keyImage white (threshold 0) src) 0 0 in
  let higher := NRGBAAt (keyImage white (threshold 10) src) 0 0 in
  sameRGB lower higher /\
  (nA lower = 0 -> nA higher = 0) /\
  (nA higher <> 0 -> higher = lower).
Proof.
  apply (tolerance_is_monotone white (pixelImage (ColorGray 250)) 0 10 0 0).
  - unfold wf_target, is_uint8. cbn. lia.
  - lia.
  - lia.
  - lia.
  - reflexivity.
Defined.

Lemma square_small (d : Z) : d * d <= 765 -> -27 <= d <= 27.
Proof. intros H. nia. Qed.

(** X10.  How far the tolerance reaches: at any tolerance up to 100 an opaque
    pixel is made transparent only if each of its channels is within 27
    levels of the target's; at tolerance 0 exactly the pixels of the target
    colour are made transparent. *)
Theorem tolerance_reaches_27_levels (target : RGBA) (src : Image) (t x y : Z) :
  wf_target target -> 0 <= t <= 100 ->
  inside (Bounds src) x y = true ->
  wf_color (At src x y) -> opaque (At src x y) ->
  let pixel := NRGBAModel (At src x y) in
  let out := NRGBAAt (keyImage target (threshold t) src) x y in
  (nA out = 0 ->
   -27 <= nR pixel - cR target <= 27 /\
   -27 <= nG pixel - cG target <= 27 /\
   -27 <= nB pixel - cB target <= 27) /\
  (t = 0 ->
   (nA out = 0 <->
    nR pixel = cR target /\ nG pixel = cG target /\ nB pixel = cB target)).
Proof.
  intros Ht Htol Hin Hwf Hop pixel out. subst out.
  rewrite keyImage_pixel by assumption. rewrite keyPixel_decision by assumption. cbv zeta.
  destruct (read8_opaque _ Hwf Hop) as [Hread Ha]. fold pixel in Hread, Ha. rewrite Hread.
  unfold squaredDistance.
  set (dr := nR pixel - cR target). set (dg := nG pixel - cG target).
  set (db := nB pixel - cB target).
  assert (0 <= dr * dr) by nia. assert (0 <= dg * dg) by nia. assert (0 <= db * db) by nia.
  destruct (Z.leb_spec (100 * (dr * dr + dg * dg + db * db)) (765 * t)) as [Hle|Hgt];
    cbn [nA].
  - split.
    + intros _. repeat split; (apply square_small || (apply Z.opp_le_mono; apply square_small));
        lia.
    + intros ->. split; [intros _|reflexivity].
      assert (dr * dr = 0 /\ dg * dg = 0 /\ db * db = 0) as (Hr & Hg & Hb) by lia.
      apply Z.mul_eq_0 in Hr, Hg, Hb. lia.
  - rewrite Ha. split; [lia|]. intros ->. split; [lia|].
    intros (Hr & Hg & Hb). exfalso.
    assert (dr = 0) by lia. assert (dg = 0) by lia. assert (db = 0) by lia. nia.
Qed.

Lemma tolerance_reaches_27_levels_witness :
  let src := pixelImage (ColorGray 250) in
  let pixel := NRGBAModel (At src 0 0) in
  let out := NRGBAAt (keyImage white (threshold 100) src) 0 0 in
  (nA out = 0 ->
   -27 <= nR pixel - cR white <= 27 /\
   -27 <= nG pixel - cG white <= 27 /\
   -27 <= nB pixel - cB white <= 27) /\
  (100 = 0 ->
   (nA out = 0 <->
    nR pixel = cR white /\ nG pixel = cG white /\ nB pixel = cB white)).
Proof.
  apply (tolerance_reaches_27_levels white (pixelImage (ColorGray 250)) 100 0 0).
  - unfold wf_target, is_uint8. cbn. lia.
  - lia.
  - reflexivity.
  - unfold wf_color, is_uint8. cbn. lia.
  - reflexivity.
Defined.

Lemma read8_keyed (r g b : Z) : read8 (ColorNRGBA (mkNRGBA r g b 0)) = mkNRGBA 0 0 0 0.
Proof.
  unfold read8. cbn [Color_RGBA NRGBA_RGBA nR nG nB nA]. rewrite !Z.mul_0_r. reflexivity.
Qed.

Lemma read8_kept (c : NRGBA) : wf_NRGBA c -> nA c = 255 -> read8 (ColorNRGBA c) = c.
Proof.
  destruct c as [r g b a]. intros (HR & HG & HB & HA) Ha. cbn [nR nG nB nA] in *. subst a.
  unfold read8. cbn [Color_RGBA NRGBA_RGBA nR nG nB nA].
  destruct (narrow r HR) as [_ ->], (narrow g HG) as [_ ->], (narrow b HB) as [_ ->].
  reflexivity.
Qed.

(** X11.  Keying the output once more with the same colour and tolerance changes
    no alpha value (for opaque source pixels): a pixel that was kept is
    unchanged, and a pixel that was made transparent stays transparent,
    its colour channels now reading zero. *)
Theorem second_pass_keeps_alpha (target : RGBA) (src : Image) (t x y : Z) :
  wf_target target -> 0 <= t <= 100 ->
  inside (Bounds src) x y = true ->
  wf_color (At src x y) -> opaque (At src x y) ->
  let first := keyImage target (threshold t) src in
  let second := keyImage target (threshold t) (asImage first) in
  nA (NRGBAAt second x y) = nA (NRGBAAt first x y) /\
  (nA (NRGBAAt first x y) = 255 -> NRGBAAt second x y = NRGBAAt first x y) /\
  (nA (NRGBAAt first x y) = 0 -> sameRGB (NRGBAAt second x y) (mkNRGBA 0 0 0 0)).
Proof.
  intros Ht Htol Hin Hwf Hop first second. subst second.
  assert (Hin2 : inside (Bounds (asImage first)) x y = true).
  { unfold asImage. cbn [Bounds]. unfold first. rewrite keyImage_bounds. exact Hin. }
  rewrite (keyImage_pixel _ _ (asImage first)) by assumption.
  unfold asImage at 1 2 3. cbn [At]. unfold first.
  rewrite keyImage_pixel by assumption.
  rewrite (keyPixel_decision target t (At src x y)) by assumption. cbv zeta.
  destruct (read8_opaque _ Hwf Hop) as [Hread Ha]. rewrite Hread.
  set (pixel := NRGBAModel (At src x y)) in *.
  assert (Hpw : wf_NRGBA pixel).
  { rewrite <- Hread. destruct (read8_wf (At src x y)) as (? & ? & ?).
    repeat split; try apply H; try apply H0; try apply H1.
    - rewrite Hread, Ha. lia.
    - rewrite Hread, Ha. lia. }
  destruct (Z.leb_spec (100 * squaredDistance (nR pixel) (nG pixel) (nB pixel) target)
              (765 * t)) as [Hle|Hgt].
  - rewrite keyPixel_decision by assumption. cbv zeta. rewrite read8_keyed. cbn [nR nG nB nA].
    destruct (Z.leb _ _); cbn [nA]; unfold sameRGB; cbn [nR nG nB];
      repeat split; auto; try lia.
  - rewrite keyPixel_decision by assumption. cbv zeta.
    rewrite (read8_kept pixel Hpw Ha).
    destruct (Z.leb_spec (100 * squaredDistance (nR pixel) (nG pixel) (nB pixel) target)
                (765 * t)); [lia|].
    split; [reflexivity|]. split; [reflexivity|]. intros. lia.
Qed.

Lemma second_pass_keeps_alpha_witness :
  let src := pixelImage (ColorGray 250) in
  let first := keyImage white (threshold 10) src in
  let second := keyImage white (threshold 10) (asImage first) in
  nA (NRGBAAt second 0 0) = nA (NRGBAAt first 0 0) /\
  (nA (NRGBAAt first 0 0) = 255 -> NRGBAAt second 0 0 = NRGBAAt first 0 0) /\
  (nA (NRGBAAt first 0 0) = 0 -> sameRGB (NRGBAAt second 0 0) (mkNRGBA 0 0 0 0)).
Proof.
  apply (second_pass_keeps_alpha white (pixelImage (ColorGray 250)) 10 0 0).
  - unfold wf_target, is_uint8. cbn. lia.
  - lia.
  - reflexivity.
  - unfold wf_color, is_uint8. cbn. lia.
  - reflexivity.
Defined.

End KeyFacts.

Module ParseColorFacts.
Import GoInt Geom GoColor Raster Spec Transparency GoIntFacts GeomFacts.
Import GoStrings FileSys Example TransparencyFacts GoText Vocabulary Inspect.

Lemma byte_of_ascii_of_byte (b : Z) : 0 <= b < 256 -> byte_of (ascii_of_byte b) = b.
Proof.
  intros Hb. unfold byte_of, ascii_of_byte.
  rewrite Ascii.N_ascii_embedding by lia. lia.
Qed.

Lemma hexdigit_spec (c : ascii) (v : Z) : hexdigit c = Some v <-> hexValue c v.
Proof.
  unfold hexdigit, hexValue. cbv zeta.
  destruct (Z.leb_spec 48 (byte_of c)), (Z.leb_spec (byte_of c) 57); cbn [andb];
    [split; [intros [= <-]; lia | intros [[_ ->]|[[? _]|[? _]]]; [reflexivity | lia | lia]]| | |];
    (destruct (Z.leb_spec 97 (byte_of c)), (Z.leb_spec (byte_of c) 102); cbn [andb];
     [split; [intros [= <-]; lia | intros [[? _]|[[_ ->]|[? _]]]; [lia | f_equal; lia | lia]]| | |];
     (destruct (Z.leb_spec 65 (byte_of c)), (Z.leb_spec (byte_of c) 70); cbn [andb];
      [split; [intros [= <-]; lia | intros [[? _]|[[? _]|[_ ->]]]; [lia | lia | f_equal; lia]]| | |];
      (split; [discriminate | intros [[? _]|[[? _]|[? _]]]; lia]))).
Qed.

Lemma hexValue_range (c : ascii) (v : Z) : hexValue c v -> 0 <= v < 16.
Proof. unfold hexValue. cbv zeta. intros [[? ->]|[[? ->]|[? ->]]]; lia. Qed.

Lemma hexValue_not_hash (c : ascii) (v : Z) : hexValue c v -> c <> "#"%char.
Proof.
  intros H ->. unfold hexValue in H. cbv zeta in H.
  change (byte_of "#") with 35 in H. lia.
Qed.

Lemma ParseUint_pair (a b : ascii) (v : Z) :
  ParseUint_16_8 (String a (String b EmptyString)) = Some v <-> hexPair a b v.
Proof.
  unfold ParseUint_16_8, hexPair. cbn [hexdigits]. split.
  - destruct (hexdigit a) as [h|] eqn:Ha; [|discriminate].
    destruct (hexdigit b) as [l|] eqn:Hb; [|discriminate].
    destruct (Z.ltb_spec ((0 * 16 + h) * 16 + l) 256); [|discriminate].
    intros [= <-]. exists h, l. rewrite <- !hexdigit_spec. repeat split; auto. lia.
  - intros (h & l & Ha & Hb & ->).
    pose proof (hexValue_range _ _ Ha). pose proof (hexValue_range _ _ Hb).
    apply hexdigit_spec in Ha, Hb. rewrite Ha, Hb.
    destruct (Z.ltb_spec ((0 * 16 + h) * 16 + l) 256); [f_equal; lia | lia].
Qed.

Lemma HasPrefix_hash (s : string) :
  HasPrefix s "#" = true <-> exists rest, s = String "#" rest.
Proof.
  unfold HasPrefix. destruct s as [|c s]; cbn [String.prefix].
  - split; [discriminate | intros [? ?]; discriminate].
  - destruct (Ascii.ascii_dec "#" c) as [<-|Hne].
    + split; [intros _; by eexists | intros _; by destruct s].
    + split; [discriminate|]. intros [rest Heq]. injection Heq as Hc _. congruence.
Qed.

Section ParseColor.
Variable strings_ToLower : string -> string.

Local Abbreviation parseColor := (Transparency.parseColor strings_ToLower).

(** The hexadecimal branch of [parseColor]. *)
Lemma parseColor_hex (s body : string) (c : RGBA) :
  strings_ToLower s <> "white" -> strings_ToLower s <> "black" ->
  s = String "#" body \/ s = body ->
  hexColor body c ->
  parseColor s = Some c.
Proof.
  intros Hw Hb Hs (r1 & r2 & g1 & g2 & b1 & b2 & -> & Hr & Hg & Hbl & Ha).
  unfold Transparency.parseColor.
  apply String.eqb_neq in Hw, Hb. rewrite Hw, Hb.
  set (body := String r1 (String r2 (String g1 (String g2 (String b1 (String b2 "")))))) in *.
  assert (Hstr : (if HasPrefix s "#" then drop 1 s else s) = body).
  { destruct Hs as [->| ->].
    - replace (HasPrefix (String "#" body) "#") with true; [reflexivity|].
      symmetry. apply HasPrefix_hash. by eexists.
    - destruct (HasPrefix body "#") eqn:Hp; [|reflexivity].
      apply HasPrefix_hash in Hp as [rest [= -> _]].
      destruct Hr as (h & l & Hh & _). by apply hexValue_not_hash in Hh. }
  rewrite Hstr. unfold body. cbn [String.length Nat.eqb negb].
  change (slice 0 2 (String r1 (String r2 (String g1 (String g2 (String b1 (String b2 "")))))))
    with (String r1 (String r2 "")).
  change (slice 2 4 (String r1 (String r2 (String g1 (String g2 (String b1 (String b2 "")))))))
    with (String g1 (String g2 "")).
  change (slice 4 6 (String r1 (String r2 (String g1 (String g2 (String b1 (String b2 "")))))))
    with (String b1 (String b2 "")).
  apply ParseUint_pair in Hr, Hg, Hbl. rewrite Hr, Hg, Hbl.
  destruct c as [r g b a]. cbn in Ha. subst a. reflexivity.
Qed.

(** X7.  What [parseColor] accepts: a string whose lower-case form is [white]
    or [black], and otherwise exactly six hexadecimal digits, upper or
    lower case, with or without one leading [#].  The colour is white,
    black, or the three bytes the digit pairs denote, always with alpha
    255; everything else is an error. *)
Theorem parseColor_accepts (s : string) (c : RGBA) :
  parseColor s = Some c <->
  (strings_ToLower s = "white" /\ c = mkRGBA 255 255 255 255) \/
  (strings_ToLower s = "black" /\ c = mkRGBA 0 0 0 255) \/
  (strings_ToLower s <> "white" /\ strings_ToLower s <> "black" /\
   exists body, (s = String "#" body \/ s = body) /\ hexColor body c).
Proof.
  split.
  - unfold Transparency.parseColor.
    destruct (String.eqb_spec (strings_ToLower s) "white") as [Hw|Hw];
      [intros [= <-]; left; auto|].
    destruct (String.eqb_spec (strings_ToLower s) "black") as [Hb|Hb];
      [intros [= <-]; right; left; auto|].
    intros H. right. right. split; [assumption|]. split; [assumption|].
    exists (if HasPrefix s "#" then drop 1 s else s). split.
    { destruct (HasPrefix s "#") eqn:Hp; [|by right].
      apply HasPrefix_hash in Hp as [rest ->]. left. reflexivity. }
    destruct (if HasPrefix s "#" then drop 1 s else s) as [|r1 [|r2 [|g1 [|g2 [|b1 [|b2 [|x rest]]]]]]];
      try discriminate H.
    cbn [String.length Nat.eqb negb] in H.
    change (slice 0 2 (String r1 (String r2 (String g1 (String g2 (String b1 (String b2 "")))))))
      with (String r1 (String r2 "")) in H.
    change (slice 2 4 (String r1 (String r2 (String g1 (String g2 (String b1 (String b2 "")))))))
      with (String g1 (String g2 "")) in H.
    change (slice 4 6 (String r1 (String r2 (String g1 (String g2 (String b1 (String b2 "")))))))
      with (String b1 (String b2 "")) in H.
    destruct (ParseUint_16_8 (String r1 (String r2 ""))) as [r|] eqn:Hr; [|discriminate].
    destruct (ParseUint_16_8 (String g1 (String g2 ""))) as [g|] eqn:Hg; [|discriminate].
    destruct (ParseUint_16_8 (String b1 (String b2 ""))) as [b|] eqn:Hbl; [|discriminate].
    injection H as <-. apply ParseUint_pair in Hr, Hg, Hbl.
    exists r1, r2, g1, g2, b1, b2. cbn. auto.
  - intros [[Hw ->]|[[Hb ->]|(Hw & Hb & body & Hs & Hc)]].
    + unfold Transparency.parseColor. rewrite Hw. reflexivity.
    + unfold Transparency.parseColor. rewrite Hb. reflexivity.
    + by apply (parseColor_hex s body).
Qed.

Lemma hexDigitUpper_value (d : Z) : 0 <= d < 16 -> hexValue (hexDigitUpper d) d.
Proof.
  intros Hd. unfold hexValue, hexDigitUpper. cbv zeta.
  destruct (Z.ltb_spec d 10); rewrite byte_of_ascii_of_byte by lia; lia.
Qed.

Lemma fmt02X_pair (v : Z) :
  is_uint8 v -> hexPair (hexDigitUpper (v / 16)) (hexDigitUpper (v mod 16)) v.
Proof.
  unfold is_uint8. intros Hv. exists (v / 16), (v mod 16).
  pose proof (Z.mod_pos_bound v 16 ltac:(lia)).
  assert (0 <= v / 16 < 16).
  { split; [apply Z.div_pos; lia | apply Z.div_lt_upper_bound; lia]. }
  split; [by apply hexDigitUpper_value|]. split; [by apply hexDigitUpper_value|].
  pose proof (Z.div_mod v 16 ltac:(lia)). lia.
Qed.

Lemma hexDigitUpper_ascii (d : Z) :
  0 <= d < 16 -> byte_of (hexDigitUpper d) < 128 /\ lowerByte (hexDigitUpper d) <> "#"%char.
Proof.
  intros Hd. unfold hexDigitUpper, lowerByte. cbv zeta.
  destruct (Z.ltb_spec d 10); rewrite !byte_of_ascii_of_byte by lia.
  - split; [lia|]. destruct (Z.leb_spec 65 (48 + d)); [lia|]. cbn [andb].
    intros Heq. apply (f_equal byte_of) in Heq. rewrite byte_of_ascii_of_byte in Heq by lia.
    change (byte_of "#") with 35 in Heq. lia.
  - split; [lia|]. destruct (Z.leb_spec 65 (55 + d)), (Z.leb_spec (55 + d) 90); try lia.
    cbn [andb]. intros Heq. apply (f_equal byte_of) in Heq.
    rewrite byte_of_ascii_of_byte in Heq by lia. change (byte_of "#") with 35 in Heq. lia.
Qed.

Lemma hexDigitUpper_lt (d : Z) : 0 <= d < 16 -> (byte_of (hexDigitUpper d) <? 128) = true.
Proof. intros Hd. apply Z.ltb_lt. by apply hexDigitUpper_ascii. Qed.

(** X8.  The colour string [InspectTransparency] recommends for a colour
    ([white], [black] or [#RRGGBB] from [%02X]) is one [parseColor]
    accepts, and it parses back to the same red, green and blue with alpha
    255: the recommendation can be passed to [transparent make] as it is. *)
Theorem recommended_color_parses (c : RGBA) :
  (forall s, isASCII s = true -> strings_ToLower s = lowerASCII s) ->
  is_uint8 (cR c) -> is_uint8 (cG c) -> is_uint8 (cB c) ->
  parseColor (dominantColorStr c) = Some (mkRGBA (cR c) (cG c) (cB c) 255).
Proof.
  intros Hlower HR HG HB. unfold dominantColorStr.
  destruct (Z.eqb_spec (cR c) 255) as [Hr|Hr]; [destruct (Z.eqb_spec (cG c) 255) as [Hg|Hg];
    [destruct (Z.eqb_spec (cB c) 255) as [Hb|Hb]|]|]; cbn [andb].
  1:{ unfold Transparency.parseColor. rewrite (Hlower "white" eq_refl).
      rewrite Hr, Hg, Hb. reflexivity. }
  all: match goal with |- context [if ?b then "black" else _] => destruct b eqn:Hblack end.
  all: try (unfold Transparency.parseColor; rewrite (Hlower "black" eq_refl);
            apply andb_prop in Hblack as [Hblack Hb0]; apply andb_prop in Hblack as [Hr0 Hg0];
            apply Z.eqb_eq in Hr0, Hg0, Hb0; rewrite Hr0, Hg0, Hb0; reflexivity).
  all: unfold fmt02X, String.append.
  all: unfold is_uint8 in HR, HG, HB.
  all: assert (Hd : forall v, 0 <= v < 256 -> 0 <= v / 16 < 16 /\ 0 <= v mod 16 < 16)
         by (intros v Hv; pose proof (Z.mod_pos_bound v 16 ltac:(lia)); split; [|lia];
             split; [apply Z.div_pos; lia | apply Z.div_lt_upper_bound; lia]).
  all: destruct (Hd _ HR) as [HR1 HR2], (Hd _ HG) as [HG1 HG2], (Hd _ HB) as [HB1 HB2].
  all: match goal with |- parseColor (String "#" ?body) = _ =>
         assert (Hascii : isASCII (String "#" body) = true);
         [cbn [isASCII]; change (byte_of "#" <? 128) with true;
          rewrite !hexDigitUpper_lt by assumption; reflexivity|];
         apply (parseColor_hex _ body);
         [rewrite (Hlower _ Hascii); cbn [lowerASCII];
          change (lowerByte "#") with "#"%char; discriminate
         |rewrite (Hlower _ Hascii); cbn [lowerASCII];
          change (lowerByte "#") with "#"%char; discriminate
         |by left
         |eexists _, _, _, _, _, _; split; [reflexivity|]; cbn [cR cG cB cA];
          auto using fmt02X_pair]
       end.
Qed.

End ParseColor.

Lemma recommended_color_parses_witness :
  dominantColorStr (mkRGBA 18 52 171 255) = "#1234AB" /\
  parseColor lowerASCII "#1234AB" = Some (mkRGBA 18 52 171 255).
Proof.
  split; [reflexivity|].
  apply (recommended_color_parses lowerASCII (mkRGBA 18 52 171 255)).
  - intros s _. reflexivity.
  - unfold is_uint8. cbn. lia.
  - unfold is_uint8. cbn. lia.
  - unfold is_uint8. cbn. lia.
Defined.
End ParseColorFacts.

Module InspectFacts.
Import GoInt Geom GoColor Raster Spec GoIntFacts GeomFacts.
Import Loop GoStrings FileSys Example TransparencyFacts GoText Vocabulary Inspect.
Import Samples CombineFacts.

Lemma seqZ_step (m : Z) (n : nat) : seqZ m (Z.of_nat (S n)) = m :: seqZ (m + 1) (Z.of_nat n).
Proof.
  rewrite seqZ_cons by lia. f_equal. f_equal; lia.
Qed.

(** A counting loop is a fold over its indices. *)
Lemma for_range_fold {S : Type} (body : Z -> S -> S) : forall (n : nat) (i : Z) (s : S),
  for_range n i body s = fold_left (fun s k => body k s) (seqZ i (Z.of_nat n)) s.
Proof.
  induction n as [|n IH]; intros i s; [reflexivity|].
  rewrite seqZ_step. cbn [for_range fold_left]. apply IH.
Qed.

Lemma for_loop_fold {S : Type} (lo hi : Z) (body : Z -> S -> S) (s : S) :
  for_loop lo hi body s = fold_left (fun s k => body k s) (seqZ lo (hi - lo)) s.
Proof.
  unfold for_loop. rewrite for_range_fold. f_equal.
  unfold seqZ. rewrite Nat2Z.id. reflexivity.
Qed.

Lemma fold_left_concat_map {S A B : Type} (f : S -> B -> S) (g : A -> list B) (l : list A) :
  forall s, fold_left f (List.concat (map g l)) s
            = fold_left (fun s a => fold_left f (g a) s) l s.
Proof.
  induction l as [|a l IH]; intros s; [reflexivity|].
  cbn [map List.concat fold_left]. rewrite fold_left_app. apply IH.
Qed.

Lemma fold_left_map {S A B : Type} (f : S -> B -> S) (h : A -> B) (l : list A) :
  forall s, fold_left f (map h l) s = fold_left (fun s a => f s (h a)) l s.
Proof. induction l as [|a l IH]; intros s; [reflexivity | apply IH]. Qed.

Lemma fold_left_ext {S A : Type} (f g : S -> A -> S) (l : list A) :
  (forall s a, f s a = g s a) -> forall s, fold_left f l s = fold_left g l s.
Proof.
  intros Hfg. induction l as [|a l IH]; intros s; [reflexivity|].
  cbn [fold_left]. rewrite Hfg. apply IH.
Qed.

(** The loops of [InspectTransparency] visit the points row by row. *)
Lemma scanImage_fold (img : Image) :
  scanImage img =
    fold_left (fun s p => scanPixel (Bounds img) p.1 p.2 (At img p.1 p.2) s)
      (pixels (Bounds img)) (mkScan 0 ∅ false).
Proof.
  unfold scanImage, pixels. cbv zeta. rewrite for_loop_fold.
  rewrite fold_left_concat_map. apply fold_left_ext. intros s y.
  rewrite for_loop_fold, fold_left_map. reflexivity.
Qed.

Lemma pixels_inside (r : Rectangle) (x y : Z) :
  (x, y) ∈ pixels r <-> inside r x y = true.
Proof.
  unfold pixels. rewrite inside_spec. rewrite list_elem_of_In, in_concat. split.
  - intros (row & Hrow & Hin). apply in_map_iff in Hrow as (y' & <- & Hy).
    apply in_map_iff in Hin as (x' & [= <- <-] & Hx).
    apply list_elem_of_In in Hy, Hx. apply elem_of_seqZ in Hy, Hx. lia.
  - intros [Hx Hy]. exists (map (fun x => (x, y)) (seqZ (X (Min r)) (X (Max r) - X (Min r)))).
    split.
    + apply in_map_iff. exists y. split; [reflexivity|].
      apply list_elem_of_In, elem_of_seqZ. lia.
    + apply in_map_iff. exists x. split; [reflexivity|].
      apply list_elem_of_In, elem_of_seqZ. lia.
Qed.

Lemma pixels_length (r : Rectangle) :
  0 <= X (Max r) - X (Min r) -> 0 <= Y (Max r) - Y (Min r) ->
  Z.of_nat (List.length (pixels r)) = (X (Max r) - X (Min r)) * (Y (Max r) - Y (Min r)).
Proof.
  intros Hx Hy. unfold pixels.
  set (w := X (Max r) - X (Min r)) in *. set (h := Y (Max r) - Y (Min r)) in *.
  assert (Hrows : forall l : list Z,
    Z.of_nat (List.length (List.concat (map (fun y => map (fun x => (x, y)) (seqZ (X (Min r)) w)) l)))
    = w * Z.of_nat (List.length l)).
  { induction l as [|y l IH]; [cbn; lia|].
    cbn [map List.concat List.length]. rewrite length_app, Nat2Z.inj_add, IH.
    rewrite length_map, length_seqZ. lia. }
  rewrite Hrows, length_seqZ. lia.
Qed.

Lemma countIf_nil {A : Type} (f : A -> bool) : countIf f [] = 0.
Proof. reflexivity. Qed.

Lemma countIf_snoc {A : Type} (f : A -> bool) (l : list A) (a : A) :
  countIf f (l ++ [a]) = countIf f l + (if f a then 1 else 0).
Proof.
  unfold countIf. rewrite List.filter_app, length_app. cbn [List.filter].
  destruct (f a); cbn [List.length]; lia.
Qed.

Lemma countIf_bounds {A : Type} (f : A -> bool) (l : list A) :
  0 <= countIf f l <= Z.of_nat (List.length l).
Proof.
  unfold countIf. split; [lia|]. apply inj_le. apply List.filter_length_le.
Qed.

Lemma countIf_pos {A : Type} (f : A -> bool) (l : list A) :
  0 < countIf f l <-> exists a, a ∈ l /\ f a = true.
Proof.
  induction l as [|a l IH] using rev_ind.
  - rewrite countIf_nil. split; [lia | intros (a & Ha & _); by apply elem_of_nil in Ha].
  - rewrite countIf_snoc. pose proof (countIf_bounds f l). split.
    + intros Hpos. destruct (f a) eqn:Hfa.
      * exists a. split; [apply elem_of_app; right; by left | assumption].
      * destruct (proj1 IH ltac:(lia)) as (b & Hb & Hfb).
        exists b. split; [apply elem_of_app; by left | assumption].
    + intros (b & Hb & Hfb). apply elem_of_app in Hb as [Hb|Hb].
      * assert (0 < countIf f l) by (apply IH; eauto). destruct (f a); lia.
      * apply list_elem_of_singleton in Hb as ->. rewrite Hfb. lia.
Qed.

Lemma scanPixel_read8 (bounds : Rectangle) (x y : Z) (pixel : GoColor.Color) (s : Scan) :
  scanPixel bounds x y pixel s =
    let c := read8 pixel in
    let s1 :=
      if nA c <? 255
      then mkScan (if nA c <? 128 then add (transparentCount s) 1 else transparentCount s)
             (colorCounts s) true
      else s in
    if onEdge bounds x y
    then mkScan (transparentCount s1) (increment (nR c, nG c, nB c, 255) (colorCounts s1))
           (hasAlpha s1)
    else s1.
Proof.
  unfold scanPixel, read8. destruct (Color_RGBA pixel) as [[[r g] b] a]. reflexivity.
Qed.

Lemma scanPixel_scanned (img : Image) (l : list (Z * Z)) (p : Z * Z) (s : Scan) :
  Z.of_nat (List.length l) < max_int ->
  scanned img l s ->
  scanned img (l ++ [p]) (scanPixel (Bounds img) p.1 p.2 (At img p.1 p.2) s).
Proof.
  intros Hlen (Ht & Ha & Hc). unfold scanned.
  rewrite !countIf_snoc, existsb_app. cbn [existsb]. rewrite orb_false_r. cbv beta.
  rewrite scanPixel_read8. cbv zeta.
  change (nA (read8 (At img p.1 p.2))) with (alpha8 img p).
  change (nR (read8 (At img p.1 p.2)), nG (read8 (At img p.1 p.2)),
          nB (read8 (At img p.1 p.2)), 255) with (colour8 img p).
  set (a8 := alpha8 img p). set (k := colour8 img p).
  pose proof (countIf_bounds (fun p => alpha8 img p <? 128) l) as Hb1.
  assert (Hstate :
    transparentCount (if a8 <? 255
       then mkScan (if a8 <? 128 then add (transparentCount s) 1 else transparentCount s)
              (colorCounts s) true else s)
    = countIf (fun p => alpha8 img p <? 128) l + (if a8 <? 128 then 1 else 0) /\
    hasAlpha (if a8 <? 255
       then mkScan (if a8 <? 128 then add (transparentCount s) 1 else transparentCount s)
              (colorCounts s) true else s)
    = existsb (fun p => alpha8 img p <? 255) l || (a8 <? 255) /\
    colorCounts (if a8 <? 255
       then mkScan (if a8 <? 128 then add (transparentCount s) 1 else transparentCount s)
              (colorCounts s) true else s) = colorCounts s).
  { destruct (Z.ltb_spec a8 255); cbn [transparentCount hasAlpha colorCounts].
    - destruct (Z.ltb_spec a8 128).
      + rewrite Ht, add_small by (apply in_range_nonneg; lia).
        rewrite orb_true_r. auto.
      + rewrite Ht, orb_true_r. split; [lia | auto].
    - destruct (Z.ltb_spec a8 128); [lia|]. rewrite Ht, Ha, orb_false_r. split; [lia | auto]. }
  destruct Hstate as (Ht' & Ha' & Hc').
  destruct (onEdge (Bounds img) p.1 p.2) eqn:He;
    cbn [transparentCount hasAlpha colorCounts andb].
  - split; [exact Ht'|]. split; [exact Ha'|]. intros c. rewrite Hc'. cbv zeta.
    rewrite !countIf_snoc. cbv beta. fold k. rewrite He. cbn [andb].
    unfold increment.
    pose proof (countIf_bounds
      (fun p => onEdge (Bounds img) p.1 p.2 && bool_decide (colour8 img p = c)) l) as Hb2.
    destruct (decide (k = c)) as [<-|Hne].
    + rewrite lookup_insert_eq, Hc. cbv zeta. rewrite (bool_decide_eq_true_2 (k = k)) by reflexivity.
      destruct (Z.eqb_spec (countIf (fun p0 => onEdge (Bounds img) p0.1 p0.2
                                && bool_decide (colour8 img p0 = k)) l) 0) as [->|Hn].
      * cbn [default]. reflexivity.
      * cbn [default]. unfold id. rewrite add_small by (apply in_range_nonneg; lia).
        destruct (Z.eqb_spec (countIf (fun p0 => onEdge (Bounds img) p0.1 p0.2
                                && bool_decide (colour8 img p0 = k)) l + 1) 0); [lia|].
        reflexivity.
    + rewrite lookup_insert_ne by assumption. rewrite Hc. cbv zeta.
      rewrite (bool_decide_eq_false_2 (k = c)) by assumption. rewrite Z.add_0_r. reflexivity.
  - split; [exact Ht'|]. split; [exact Ha'|]. intros c. rewrite Hc', Hc. cbv zeta.
    rewrite !countIf_snoc. cbv beta. rewrite He. cbn [andb].
    rewrite Z.add_0_r. reflexivity.
Qed.

Lemma fold_scanned (img : Image) (l : list (Z * Z)) :
  Z.of_nat (List.length l) <= max_int ->
  scanned img l
    (fold_left (fun s p => scanPixel (Bounds img) p.1 p.2 (At img p.1 p.2) s) l
       (mkScan 0 ∅ false)).
Proof.
  induction l as [|p l IH] using rev_ind; intros Hlen.
  - split; [reflexivity|]. split; [reflexivity|]. intros c. apply lookup_empty.
  - rewrite length_app in Hlen. cbn [List.length] in Hlen.
    rewrite fold_left_app. cbn [fold_left].
    apply scanPixel_scanned; [lia|]. apply IH. lia.
Qed.

Lemma scanImage_scanned (img : Image) :
  wf_rect (Bounds img) ->
  (X (Max (Bounds img)) - X (Min (Bounds img))) * (Y (Max (Bounds img)) - Y (Min (Bounds img)))
    <= max_int ->
  scanned img (pixels (Bounds img)) (scanImage img).
Proof.
  intros (_ & _ & _ & _ & Hx & Hy) Hfit. rewrite scanImage_fold. apply fold_scanned.
  rewrite pixels_length by lia. exact Hfit.
Qed.

(** The search for the most frequent colour. *)
Lemma dominantOf_spec (entries : list (Key * Z)) : forall (d : RGBA) (m : Z),
  let '(d', m') := dominantOf entries d m in
  m <= m' /\
  (forall c n, (c, n) ∈ entries -> n <= m') /\
  ((d' = d /\ m' = m) \/ (exists c, (c, m') ∈ entries /\ d' = colorOf c /\ m < m')).
Proof.
  induction entries as [|[c n] rest IH]; intros d m; cbn [dominantOf].
  - split; [lia|]. split; [|by left]. intros c n Hin. by apply elem_of_nil in Hin.
  - destruct (Z.gtb_spec n m) as [Hgt|Hle].
    + specialize (IH (colorOf c) n). destruct (dominantOf rest (colorOf c) n) as [d' m'].
      destruct IH as (Hm & Hall & Hcase). split; [lia|]. split.
      * intros c0 n0 Hin. apply elem_of_cons in Hin as [[= -> ->]|Hin]; [lia | eauto].
      * right. destruct Hcase as [[-> ->]|(c1 & Hin & -> & Hlt)].
        -- exists c. split; [by left | split; [reflexivity | lia]].
        -- exists c1. split; [by right | split; [reflexivity | lia]].
    + specialize (IH d m). destruct (dominantOf rest d m) as [d' m'].
      destruct IH as (Hm & Hall & Hcase). split; [lia|]. split.
      * intros c0 n0 Hin. apply elem_of_cons in Hin as [[= -> ->]|Hin]; [lia | eauto].
      * destruct Hcase as [[-> ->]|(c1 & Hin & -> & Hlt)]; [by left|].
        right. exists c1. split; [by right | auto].
Qed.

Lemma keyOf_colorOf (k : Key) : keyOf (colorOf k) = k.
Proof. destruct k as [[[r g] b] a]. reflexivity. Qed.

Section InspectTransparencyFacts.
Variable os_Open : FileSystem -> string -> option FileData.
Variable image_Decode : FileData -> option (Image * string).
Variable map_range : gmap Key Z -> list (Key * Z).

Local Abbreviation InspectTransparency :=
  (InspectTransparency os_Open image_Decode map_range).

(** X12.  [InspectTransparency] on a file that opens and decodes succeeds and
    reports the format and the width and height of the bounds;
    [HasAlphaChannel] is true exactly when some pixel has an 8-bit alpha
    below 255; the count of transparent pixels is the number of pixels with
    alpha below 128, between 0 and the number of pixels; without an alpha
    channel the count is zero and the recommendation names the dominant
    colour for [transparent make]. *)
Theorem InspectTransparency_alpha fs inputPath file img format :
  os_Open fs inputPath = Some file ->
  image_Decode file = Some (img, format) ->
  wf_rect (Bounds img) ->
  Dx (Bounds img) * Dy (Bounds img) <= max_int ->
  exists res,
    InspectTransparency fs inputPath = inl res /\
    Format res = format /\ Width res = Dx (Bounds img) /\ Height res = Dy (Bounds img) /\
    (HasAlphaChannel res = true <->
     exists x y, inside (Bounds img) x y = true /\ alpha8 img (x, y) < 255) /\
    transparentCount (scanImage img)
      = countIf (fun p => alpha8 img p <? 128) (pixels (Bounds img)) /\
    0 <= transparentCount (scanImage img) <= Dx (Bounds img) * Dy (Bounds img) /\
    (HasAlphaChannel res = false ->
     transparentCount (scanImage img) = 0 /\
     Recommendation res =
       "Image has no alpha channel. Use 'nanobanana transparent make' with --color "
       +:+ DominantBackgroundColor res +:+ " to add transparency.").
Proof.
  intros Hopen Hdec Hwf Hfit.
  pose proof (Dx_wf _ Hwf) as [HDx _]. pose proof (Dy_wf _ Hwf) as [HDy _].
  rewrite HDx, HDy in Hfit.
  destruct (scanImage_scanned img Hwf Hfit) as (Ht & Ha & _).
  unfold Inspect.InspectTransparency. rewrite Hopen, Hdec. cbv zeta.
  destruct (dominantOf _ _ _) as [d m]. eexists. split; [reflexivity|].
  cbn [Format Width Height HasAlphaChannel Recommendation DominantBackgroundColor].
  split; [reflexivity|]. split; [reflexivity|]. split; [reflexivity|].
  assert (Hex : hasAlpha (scanImage img) = true <->
            exists x y, inside (Bounds img) x y = true /\ alpha8 img (x, y) < 255).
  { rewrite Ha, existsb_exists. split.
    - intros ([x y] & Hin & Hlt). exists x, y.
      apply list_elem_of_In, pixels_inside in Hin. apply Z.ltb_lt in Hlt. auto.
    - intros (x & y & Hin & Hlt). exists (x, y).
      split; [by apply list_elem_of_In, pixels_inside | by apply Z.ltb_lt]. }
  split; [exact Hex|]. split; [exact Ht|].
  pose proof (countIf_bounds (fun p => alpha8 img p <? 128) (pixels (Bounds img))) as Hb.
  destruct Hwf as (_ & _ & _ & _ & Hx & Hy).
  rewrite pixels_length in Hb by lia. rewrite HDx, HDy.
  split; [rewrite Ht; lia|].
  intros Hno. split.
  - rewrite Ht.
    pose proof (countIf_bounds (fun p => alpha8 img p <? 128) (pixels (Bounds img))) as Hb'.
    destruct (Z.eq_dec (countIf (fun p => alpha8 img p <? 128) (pixels (Bounds img))) 0)
      as [?|Hne]; [assumption|].
    assert (Hpos : 0 < countIf (fun p => alpha8 img p <? 128) (pixels (Bounds img))) by lia.
    apply countIf_pos in Hpos as ([x y] & Hin & Hlt).
    assert (hasAlpha (scanImage img) = true); [|congruence].
    apply Hex. exists x, y. split; [by apply pixels_inside|]. apply Z.ltb_lt in Hlt. lia.
  - unfold recommend. rewrite Hno. reflexivity.
Qed.

(** X13.  The dominant background colour [InspectTransparency] reports is an
    8-bit colour with alpha 255 that occurs on the edge of the image at
    least as often as every other colour, in whatever order the map of
    counts is iterated; for an image without pixels it is the zero
    colour. *)
Theorem InspectTransparency_dominant fs inputPath file img format :
  (forall m, map_range m ≡ₚ map_to_list m) ->
  os_Open fs inputPath = Some file ->
  image_Decode file = Some (img, format) ->
  wf_rect (Bounds img) ->
  Dx (Bounds img) * Dy (Bounds img) <= max_int ->
  exists res (c : RGBA),
    InspectTransparency fs inputPath = inl res /\
    DominantBackgroundColor res = dominantColorStr c /\
    ((exists x y, inside (Bounds img) x y = true) ->
     cA c = 255 /\ is_uint8 (cR c) /\ is_uint8 (cG c) /\ is_uint8 (cB c) /\
     1 <= edgeCount img (keyOf c) /\
     forall c' : Key, edgeCount img c' <= edgeCount img (keyOf c)) /\
    ((forall x y, inside (Bounds img) x y = false) -> c = mkRGBA 0 0 0 0).
Proof.
  intros Hrange Hopen Hdec Hwf Hfit.
  pose proof (Dx_wf _ Hwf) as [HDx _]. pose proof (Dy_wf _ Hwf) as [HDy _].
  rewrite HDx, HDy in Hfit.
  destruct (scanImage_scanned img Hwf Hfit) as (_ & _ & Hc). cbv zeta in Hc.
  unfold Inspect.InspectTransparency. rewrite Hopen, Hdec. cbv zeta.
  pose proof (dominantOf_spec (map_range (colorCounts (scanImage img))) (mkRGBA 0 0 0 0) 0)
    as Hdom.
  destruct (dominantOf _ _ _) as [d m]. destruct Hdom as (Hm & Hall & Hcase).
  exists (mkInspectionResult (hasAlpha (scanImage img))
            (GoFloat.of_int (transparentCount (scanImage img))
             / GoFloat.of_int (mul (Dx (Bounds img)) (Dy (Bounds img))) * 100)%float
            format (Dx (Bounds img)) (Dy (Bounds img)) (dominantColorStr d)
            (recommend (hasAlpha (scanImage img))
               (GoFloat.of_int (transparentCount (scanImage img))
                / GoFloat.of_int (mul (Dx (Bounds img)) (Dy (Bounds img))) * 100)%float
               (dominantColorStr d))), d.
  split; [reflexivity|]. split; [reflexivity|].
  assert (Hentry : forall k n, (k, n) ∈ map_range (colorCounts (scanImage img)) <->
            n = edgeCount img k /\ n <> 0).
  { intros k n. rewrite (Hrange _), elem_of_map_to_list, Hc. fold (edgeCount img k).
    destruct (Z.eqb_spec (edgeCount img k) 0); split; try discriminate.
    - intros [-> ?]. congruence.
    - intros [= <-]. auto.
    - intros [-> _]. reflexivity. }
  assert (Hnonneg : forall k, 0 <= edgeCount img k) by (intros; apply countIf_bounds).
  split.
  - intros (x & y & Hin).
    (* the first point is on the edge *)
    assert (Hedge : exists k, 0 < edgeCount img k).
    { pose proof Hin as Hin'. apply inside_spec in Hin' as [Hx Hy].
      exists (colour8 img (X (Min (Bounds img)), Y (Min (Bounds img)))).
      apply countIf_pos. exists (X (Min (Bounds img)), Y (Min (Bounds img))). split.
      - apply pixels_inside, inside_spec. lia.
      - unfold onEdge. cbn [fst snd]. rewrite Z.eqb_refl. cbn [orb andb].
        by apply bool_decide_eq_true_2. }
    destruct Hedge as (k0 & Hk0).
    assert (Hk0in : (k0, edgeCount img k0) ∈ map_range (colorCounts (scanImage img)))
      by (apply Hentry; split; [reflexivity | lia]).
    pose proof (Hall _ _ Hk0in) as Hk0m.
    destruct Hcase as [[-> ->]|(k & Hkin & -> & Hlt)]; [lia|].
    apply Hentry in Hkin as [-> Hne].
    assert (Hkey : exists p, p ∈ pixels (Bounds img) /\ colour8 img p = k).
    { assert (Hpos : 0 < edgeCount img k) by (specialize (Hnonneg k); lia).
      apply countIf_pos in Hpos as (p & Hp & Hf). exists p. split; [assumption|].
      apply andb_prop in Hf as [_ Hf]. by apply bool_decide_eq_true_1 in Hf. }
    rewrite keyOf_colorOf.
    assert (Hchan : cA (colorOf k) = 255 /\ is_uint8 (cR (colorOf k)) /\
                    is_uint8 (cG (colorOf k)) /\ is_uint8 (cB (colorOf k))).
    { destruct Hkey as (p & _ & <-). unfold colour8. cbv zeta. cbn [colorOf cR cG cB cA].
      destruct (read8_wf (At img p.1 p.2)) as (? & ? & ?). auto. }
    destruct Hchan as (? & ? & ? & ?).
    split; [assumption|]. split; [assumption|]. split; [assumption|]. split; [assumption|].
    split; [specialize (Hnonneg k); lia|].
    intros c'. destruct (Z.eq_dec (edgeCount img c') 0) as [->|Hc'];
      [apply Hnonneg|].
    apply (Hall c'). apply Hentry. auto.
  - intros Hempty. destruct Hcase as [[-> _]|(k & Hkin & _ & _)]; [reflexivity|].
    apply Hentry in Hkin as [-> Hne]. exfalso.
    assert (Hpos : 0 < edgeCount img k) by (specialize (Hnonneg k); lia).
    apply countIf_pos in Hpos as ([x y] & Hp & _).
    apply pixels_inside in Hp. rewrite Hempty in Hp. discriminate.
Qed.

End InspectTransparencyFacts.

Lemma InspectTransparency_alpha_witness :
  exists res,
    InspectTransparency openFile (decodeAs (blank 2 2) "png") map_to_list oneFile "in.png"
    = inl res /\
    Format res = "png" /\ Width res = 2 /\ Height res = 2 /\
    (HasAlphaChannel res = true <->
     exists x y, inside (Bounds (blank 2 2)) x y = true /\ alpha8 (blank 2 2) (x, y) < 255).
Proof.
  destruct (InspectTransparency_alpha openFile (decodeAs (blank 2 2) "png") map_to_list
              oneFile "in.png" (Bytes "image") (blank 2 2) "png")
    as (res & Hrun & Hformat & Hwidth & Hheight & Halpha & _).
  - reflexivity.
  - reflexivity.
  - apply blank_wf; unfold max_int; lia.
  - vm_compute. discriminate.
  - exists res. split; [exact Hrun|]. split; [exact Hformat|]. split; [exact Hwidth|].
    split; [exact Hheight | exact Halpha].
Defined.

Lemma InspectTransparency_dominant_witness :
  exists res (c : RGBA),
    InspectTransparency openFile (decodeAs (blank 2 2) "png") map_to_list oneFile "in.png"
    = inl res /\
    DominantBackgroundColor res = dominantColorStr c /\
    cA c = 255 /\ 1 <= edgeCount (blank 2 2) (keyOf c) /\
    forall c' : Key, edgeCount (blank 2 2) c' <= edgeCount (blank 2 2) (keyOf c).
Proof.
  destruct (InspectTransparency_dominant openFile (decodeAs (blank 2 2) "png") map_to_list
              oneFile "in.png" (Bytes "image") (blank 2 2) "png")
    as (res & c & Hrun & Hstr & Hsome & _).
  - intros m. reflexivity.
  - reflexivity.
  - reflexivity.
  - apply blank_wf; unfold max_int; lia.
  - vm_compute. discriminate.
  - destruct Hsome as (Ha & _ & _ & _ & Hone & Hmax).
    { exists 0, 0. reflexivity. }
    exists res, c. split; [exact Hrun|]. split; [exact Hstr|]. split; [exact Ha|].
    split; [exact Hone | exact Hmax].
Defined.
End InspectFacts.

Module TextFacts.
Import GoInt Geom GoColor Raster Spec GoStrings Transform GoIntFacts GeomFacts CropFacts.
Import GoText GoTrim Fields Requests ParseColorFacts.

Lemma append_cons (c : ascii) (s t : string) : String c s +:+ t = String c (s +:+ t).
Proof. reflexivity. Qed.

Lemma append_nil_l (s : string) : "" +:+ s = s.
Proof. reflexivity. Qed.

Lemma append_nil_r (s : string) : s +:+ "" = s.
Proof. induction s as [|c s IH]; [reflexivity|]. rewrite !append_cons. by rewrite IH. Qed.

Lemma append_assoc (a b c : string) : (a +:+ b) +:+ c = a +:+ (b +:+ c).
Proof. induction a as [|x a IH]; [reflexivity|]. rewrite !append_cons. by rewrite IH. Qed.

Lemma append_length (a b : string) :
  String.length (a +:+ b) = (String.length a + String.length b)%nat.
Proof. induction a as [|x a IH]; [reflexivity|]. rewrite !append_cons. cbn [String.length]. by rewrite IH. Qed.

Lemma append_inv_head (a b c : string) : a +:+ b = a +:+ c -> b = c.
Proof.
  induction a as [|x a IH]; [auto|]. rewrite !append_cons. intros [= H]. auto.
Qed.

Lemma append_inv_tail (a b c : string) : a +:+ c = b +:+ c -> a = b.
Proof.
  revert b. induction a as [|x a IH]; intros [|y b] H.
  - reflexivity.
  - apply (f_equal String.length) in H. rewrite !append_length in H.
    cbn [String.length] in H. lia.
  - apply (f_equal String.length) in H. rewrite !append_length in H.
    cbn [String.length] in H. lia.
  - rewrite !append_cons in H. injection H as -> H. f_equal. by apply IH.
Qed.

(** *** Decimal numerals *)

Lemma digit_of_byte (d : Z) : 0 <= d < 10 -> digit (ascii_of_byte (48 + d)) = Some d.
Proof.
  intros Hd. unfold digit. cbv zeta. rewrite byte_of_ascii_of_byte by lia.
  destruct (Z.leb_spec 48 (48 + d)), (Z.leb_spec (48 + d) 57); try lia.
  cbn [andb]. f_equal. lia.
Qed.

Lemma isDigit_of_byte (d : Z) : 0 <= d < 10 -> isDigit (ascii_of_byte (48 + d)).
Proof. intros Hd. unfold isDigit. rewrite byte_of_ascii_of_byte by lia. lia. Qed.

Lemma utoa_digits : forall (fuel : nat) (n : Z) (acc : string) (a : Z),
  (0 < fuel)%nat -> 0 <= n < 10 ^ Z.of_nat fuel ->
  exists k, 0 < k /\ digits a (utoa fuel n acc) = digits (a * 10 ^ k + n) acc.
Proof.
  induction fuel as [|fuel IH]; intros n acc a Hf Hn; [lia|].
  cbn [utoa]. pose proof (Z.mod_pos_bound n 10 ltac:(lia)) as Hm.
  destruct (Z.ltb_spec n 10) as [Hlt|Hge].
  - exists 1. split; [lia|]. cbn [digits].
    rewrite digit_of_byte by lia. rewrite Z.mod_small by lia. f_equal; lia.
  - rewrite Nat2Z.inj_succ, Z.pow_succ_r in Hn by lia.
    assert (Hq : 0 <= n / 10 < 10 ^ Z.of_nat fuel).
    { split; [apply Z.div_pos; lia | apply Z.div_lt_upper_bound; lia]. }
    assert (Hf' : (0 < fuel)%nat).
    { destruct fuel; [|lia]. change (10 ^ Z.of_nat 0) with 1 in Hn. lia. }
    destruct (IH (n / 10) (String (ascii_of_byte (48 + n mod 10)) acc) a Hf' Hq)
      as (k & Hk & ->).
    exists (k + 1). split; [lia|]. cbn [digits]. rewrite digit_of_byte by lia.
    f_equal; rewrite ?Z.pow_add_r by lia; pose proof (Z.div_mod n 10 ltac:(lia)); lia.
Qed.

Lemma utoa_shape : forall (fuel : nat) (n : Z) (acc : string),
  (0 < fuel)%nat -> 0 <= n ->
  exists pre, utoa fuel n acc = pre +:+ acc /\ pre <> "" /\ allDigits pre.
Proof.
  induction fuel as [|fuel IH]; intros n acc Hf Hn; [lia|].
  cbn [utoa]. pose proof (Z.mod_pos_bound n 10 ltac:(lia)) as Hm.
  destruct (Z.ltb_spec n 10) as [Hlt|Hge].
  - exists (String (ascii_of_byte (48 + n mod 10)) ""). split; [reflexivity|].
    split; [discriminate|]. split; [by apply isDigit_of_byte | exact I].
  - destruct fuel as [|fuel].
    + cbn [utoa]. exists (String (ascii_of_byte (48 + n mod 10)) ""). split; [reflexivity|].
      split; [discriminate|]. split; [by apply isDigit_of_byte | exact I].
    + destruct (IH (n / 10) (String (ascii_of_byte (48 + n mod 10)) acc) ltac:(lia))
        as (pre & -> & Hne & Hd); [apply Z.div_pos; lia|].
      exists (pre +:+ String (ascii_of_byte (48 + n mod 10)) ""). split.
      * rewrite append_assoc. reflexivity.
      * split; [destruct pre; [congruence | discriminate]|].
        clear - Hd Hm. induction pre as [|c pre IH]; rewrite ?append_cons, ?append_nil_l;
          cbn [allDigits] in *.
        -- split; [apply isDigit_of_byte; lia | exact I].
        -- destruct Hd. split; auto.
Qed.

Lemma pow10_20 : 2 ^ 63 < 10 ^ Z.of_nat 20.
Proof. reflexivity. Qed.

(** The decimal numeral of a number of 20 digits or fewer. *)
Lemma utoa_numeral (n : Z) :
  0 <= n <= 2 ^ 63 ->
  utoa 20 n "" <> "" /\ allDigits (utoa 20 n "") /\ decimalValue (utoa 20 n "") = n.
Proof.
  intros Hn. pose proof pow10_20.
  destruct (utoa_shape 20 n "" ltac:(lia) ltac:(lia)) as (pre & Hpre & Hne & Hd).
  rewrite append_nil_r in Hpre.
  destruct (utoa_digits 20 n "" 0 ltac:(lia) ltac:(lia)) as (k & _ & Hk).
  cbn [digits] in Hk. rewrite Z.mul_0_l, Z.add_0_l in Hk.
  apply digits_spec in Hk as [_ Hv].
  rewrite Hpre in *. split; [assumption|]. split; [assumption | lia].
Qed.

Lemma Itoa_literal (z : Z) : in_range z -> intLiteral (Itoa z) z.
Proof.
  intros Hz. pose proof Hz as [Hlo Hhi]. unfold min_int, max_int in Hlo, Hhi.
  unfold Itoa, intLiteral. destruct (Z.ltb_spec z 0).
  - destruct (utoa_numeral (- z) ltac:(lia)) as (Hne & Hd & Hv).
    exists "-", (utoa 20 (- z) ""). split; [reflexivity|]. split; [auto|].
    split; [assumption|]. split; [assumption|].
    change (String.eqb "-" "-") with true. cbv iota. split; [lia | assumption].
  - destruct (utoa_numeral z ltac:(lia)) as (Hne & Hd & Hv).
    exists "", (utoa 20 z ""). split; [reflexivity|]. split; [auto|].
    split; [assumption|]. split; [assumption|].
    change (String.eqb "" "-") with false. cbv iota. split; [lia | assumption].
Qed.

(** Reading back what [Itoa] writes. *)
Lemma Atoi_Itoa (z : Z) : in_range z -> Atoi (Itoa z) = Some z.
Proof. intros Hz. apply Atoi_spec. by apply Itoa_literal. Qed.

Lemma Itoa_inj (a b : Z) : in_range a -> in_range b -> Itoa a = Itoa b -> a = b.
Proof.
  intros Ha Hb H. apply Atoi_Itoa in Ha, Hb. rewrite H in Ha. congruence.
Qed.

(** *** Characters of a numeral: digits and the sign *)

Lemma plainChar_bytes (c : ascii) :
  plainChar c -> byte_of c = 45 \/ 48 <= byte_of c <= 57.
Proof. intros [H| ->]; [right; exact H | left; reflexivity]. Qed.

Lemma allDigits_plain (s : string) : allDigits s -> allPlain s.
Proof.
  induction s as [|c s IH]; [auto|]. intros [Hc Hs]. split; [by left | auto].
Qed.

Lemma Itoa_plain (z : Z) : in_range z -> allPlain (Itoa z) /\ Itoa z <> "".
Proof.
  intros [Hlo Hhi]. unfold min_int, max_int in Hlo, Hhi. unfold Itoa.
  destruct (Z.ltb_spec z 0).
  - destruct (utoa_numeral (- z) ltac:(lia)) as (_ & Hd & _).
    split; [split; [by right | by apply allDigits_plain] | discriminate].
  - destruct (utoa_numeral z ltac:(lia)) as (Hne & Hd & _).
    split; [by apply allDigits_plain | assumption].
Qed.

Lemma plain_isASCII (s : string) : allPlain s -> isASCII s = true.
Proof.
  induction s as [|c s IH]; [reflexivity|]. intros [Hc Hs]. cbn [isASCII].
  rewrite (IH Hs). apply plainChar_bytes in Hc.
  destruct (Z.ltb_spec (byte_of c) 128); [reflexivity | lia].
Qed.

Lemma plain_lower (s : string) : allPlain s -> lowerASCII s = s.
Proof.
  induction s as [|c s IH]; [reflexivity|]. intros [Hc Hs]. cbn [lowerASCII].
  rewrite (IH Hs). f_equal. unfold lowerByte. cbv zeta. apply plainChar_bytes in Hc.
  destruct (Z.leb_spec 65 (byte_of c)), (Z.leb_spec (byte_of c) 90); try reflexivity; lia.
Qed.

Lemma plain_not_space (c : ascii) : plainChar c -> isSpaceByte c = false.
Proof.
  intros Hc. apply plainChar_bytes in Hc. unfold isSpaceByte. cbv zeta.
  destruct (Z.eqb_spec (byte_of c) 32), (Z.leb_spec 9 (byte_of c)),
    (Z.leb_spec (byte_of c) 13); try reflexivity; lia.
Qed.

Lemma plain_trim (s : string) : allPlain s -> trimSpaceASCII s = s.
Proof.
  intros Hs. unfold trimSpaceASCII.
  assert (Hl : trimLeftASCII s = s).
  { destruct s as [|c s]; [reflexivity|]. destruct Hs as [Hc _]. cbn [trimLeftASCII].
    by rewrite plain_not_space. }
  rewrite Hl. clear Hl. induction s as [|c s IH]; [reflexivity|].
  destruct Hs as [Hc Hs]. cbn [trimRightASCII]. rewrite (IH Hs).
  destruct s; [by rewrite plain_not_space | reflexivity].
Qed.

Lemma plain_sepFree (sep : ascii) (s : string) :
  ~ plainChar sep -> allPlain s -> sepFree sep s.
Proof.
  intros Hsep. induction s as [|c s IH]; [auto|]. intros [Hc Hs].
  split; [intros ->; contradiction | auto].
Qed.

Lemma x_not_plain : ~ plainChar "x".
Proof.
  intros H. apply plainChar_bytes in H. change (byte_of "x") with 120 in H. lia.
Qed.

(** *** Splitting at a separator *)

Lemma Split_not_nil (s : string) (sep : ascii) : Split s sep <> [].
Proof.
  destruct s as [|c s]; cbn [Split]; [discriminate|].
  destruct (Ascii.eqb c sep); [discriminate|]. destruct (Split s sep); discriminate.
Qed.

Lemma Split_sepFree (sep : ascii) (f : string) : sepFree sep f -> Split f sep = [f].
Proof.
  induction f as [|c f IH]; intros Hf; [reflexivity|].
  destruct Hf as [Hc Hf]. cbn [Split].
  destruct (Ascii.eqb_spec c sep); [congruence|].
  rewrite (IH Hf). reflexivity.
Qed.

Lemma Split_sep_cons (sep : ascii) (f rest : string) :
  sepFree sep f -> Split (f +:+ String sep rest) sep = f :: Split rest sep.
Proof.
  induction f as [|c f IH]; intros Hf.
  - rewrite append_nil_l. cbn [Split]. rewrite Ascii.eqb_refl. reflexivity.
  - destruct Hf as [Hc Hf]. rewrite append_cons. cbn [Split].
    destruct (Ascii.eqb_spec c sep); [congruence|].
    rewrite (IH Hf). reflexivity.
Qed.

Lemma Split_joinWith (sep : ascii) (s : string) :
  joinWith sep (Split s sep) = s /\ Forall (sepFree sep) (Split s sep).
Proof.
  induction s as [|c s [IHj IHf]]; cbn [Split].
  - split; [reflexivity | repeat constructor].
  - pose proof (Split_not_nil s sep) as Hne.
    destruct (Ascii.eqb_spec c sep) as [->|Hc].
    + split.
      * destruct (Split s sep) as [|p ps]; [congruence|].
        change (joinWith sep ("" :: p :: ps)) with (String sep (joinWith sep (p :: ps))).
        f_equal. exact IHj.
      * constructor; [exact I | exact IHf].
    + destruct (Split s sep) as [|p ps]; [congruence|]. split.
      * destruct ps as [|q ps].
        -- cbn [joinWith] in *. f_equal. exact IHj.
        -- change (joinWith sep (String c p :: q :: ps))
             with (String c (joinWith sep (p :: q :: ps))).
           f_equal. exact IHj.
      * inversion IHf; subst. constructor; [split; assumption | assumption].
Qed.

Lemma Split_two (s f0 f1 : string) : Split s "x" = [f0; f1] <-> twoFields s f0 f1.
Proof.
  split.
  - intros Hs. destruct (Split_joinWith "x" s) as [Hj Hf]. rewrite Hs in Hj, Hf.
    inversion Hf as [|? ? H0 Hf1]; subst. inversion Hf1 as [|? ? H1 _]; subst.
    split; [|split; assumption]. reflexivity.
  - intros (-> & H0 & H1).
    change (f0 +:+ "x" +:+ f1) with (f0 +:+ String "x" f1).
    rewrite Split_sep_cons by assumption. rewrite Split_sepFree by assumption. reflexivity.
Qed.

Lemma HasSuffixByte_app (a b : string) (c : ascii) :
  b <> "" -> HasSuffixByte (a +:+ b) c = HasSuffixByte b c.
Proof.
  intros Hb. induction a as [|x a IH]; [reflexivity|].
  rewrite append_cons. rewrite <- IH.
  destruct (a +:+ b) as [|y r] eqn:Hab; [|reflexivity].
  exfalso. apply (f_equal String.length) in Hab. rewrite append_length in Hab.
  destruct b; [congruence|]. cbn [String.length] in Hab. lia.
Qed.

Lemma plain_no_percent (s : string) : allPlain s -> HasSuffixByte s "%" = false.
Proof.
  induction s as [|c s IH]; [reflexivity|]. intros [Hc Hs]. cbn [HasSuffixByte].
  destruct s; [|auto].
  apply Ascii.eqb_neq. intros ->. apply plainChar_bytes in Hc.
  change (byte_of "%") with 37 in Hc. lia.
Qed.

End TextFacts.

Module RequestFacts.
Import GoInt Geom GoColor Raster FileSys Spec GoStrings Transform GoIntFacts GeomFacts CropFacts.
Import TransformFacts GoText GoTrim Fields Requests ParseColorFacts TextFacts.
Import Example Samples.

Section CropAndResize.
Variable lib : Library.

Local Abbreviation trim := (strings_TrimSpace lib).
Local Abbreviation lower := (strings_ToLower lib).

(** X14.  A crop specification of four integers [left,top,width,height] whose
    sums [left+width] and [top+height] fit an [int] always crops, to the
    rectangle between [(left, top)] and [(left+width, top+height)] with
    the corners put in order: a negative width or height is not rejected
    but mirrors the rectangle, and the bounds of the image play no part. *)
Theorem applyCrop_rectangle (img : Image) (spec f0 f1 f2 f3 : string) (l t w h : Z) :
  fourFields spec f0 f1 f2 f3 ->
  intLiteral (trim f0) l -> intLiteral (trim f1) t ->
  intLiteral (trim f2) w -> intLiteral (trim f3) h ->
  in_range (l + w) -> in_range (t + h) ->
  exists r : Rectangle,
    applyCrop lib img spec = inl (imaging_Crop lib img r) /\
    X (Min r) = Z.min l (l + w) /\ X (Max r) = Z.max l (l + w) /\
    Y (Min r) = Z.min t (t + h) /\ Y (Max r) = Z.max t (t + h) /\
    (0 <= w -> 0 <= h -> r = mkRectangle (mkPoint l t) (mkPoint (l + w) (t + h))).
Proof.
  intros Hf H0 H1 H2 H3 Hx Hy.
  rewrite (applyCrop_fields lib img _ _ _ _ _ Hf).
  apply Atoi_spec in H0, H1, H2, H3. rewrite H0, H1, H2, H3.
  rewrite !add_small by assumption.
  eexists. split; [reflexivity|]. unfold Rect.
  destruct (Z.gtb_spec l (l + w)), (Z.gtb_spec t (t + h)); cbn [Min Max X Y];
    repeat split; try lia; intros; try lia; reflexivity.
Qed.

Lemma resizeTarget_fields (ow oh : Z) (spec f0 f1 : string) :
  HasSuffixByte spec "%" = false ->
  twoFields (lower spec) f0 f1 ->
  resizeTarget lib ow oh spec =
    match Atoi (trim f0), Atoi (trim f1) with
    | None, _ => inr ResizeWidth
    | Some _, None => inr ResizeHeight
    | Some w, Some h => inl (w, h)
    end.
Proof.
  intros Hp Hf. apply Split_two in Hf. unfold resizeTarget. rewrite Hp, Hf.
  destruct (Atoi (trim f0)), (Atoi (trim f1)); reflexivity.
Qed.

(** X15.  A resize specification that does not end in [%] gives a size exactly
    when its lower-case form is two fields with one [x] between them and
    both fields are integers once trimmed; the format error is returned
    exactly when there are not two fields, the width error exactly when
    the first field is no integer, the height error exactly when the first
    is one and the second is not; and [applyResize] fails with the same
    error. *)
Theorem resizeTarget_parses (ow oh : Z) (spec : string) :
  HasSuffixByte spec "%" = false ->
  (forall w h : Z,
     resizeTarget lib ow oh spec = inl (w, h) <->
     exists f0 f1, twoFields (lower spec) f0 f1 /\
                   intLiteral (trim f0) w /\ intLiteral (trim f1) h) /\
  (resizeTarget lib ow oh spec = inr ResizeFormat <->
   ~ exists f0 f1, twoFields (lower spec) f0 f1) /\
  (forall f0 f1, twoFields (lower spec) f0 f1 ->
     (resizeTarget lib ow oh spec = inr ResizeWidth <-> ~ isInt (trim f0)) /\
     (resizeTarget lib ow oh spec = inr ResizeHeight <->
      isInt (trim f0) /\ ~ isInt (trim f1))) /\
  (forall (img : Image) (fit : string) (e : ResizeError),
     resizeTarget lib (Dx (Bounds img)) (Dy (Bounds img)) spec = inr e ->
     applyResize lib img spec fit = inr e).
Proof.
  intros Hp. split; [|split; [|split]].
  - intros w h. split.
    + intros Hok. unfold resizeTarget in Hok. rewrite Hp in Hok.
      destruct (Split (lower spec) "x") as [|p0 [|p1 [|p2 ps]]] eqn:Hs; try discriminate.
      apply Split_two in Hs. exists p0, p1. split; [assumption|].
      destruct (Atoi (trim p0)) as [w'|] eqn:H0; [|discriminate].
      destruct (Atoi (trim p1)) as [h'|] eqn:H1; [|discriminate].
      injection Hok as <- <-. split; by apply Atoi_spec.
    + intros (f0 & f1 & Hf & H0 & H1). rewrite (resizeTarget_fields _ _ _ _ _ Hp Hf).
      apply Atoi_spec in H0, H1. rewrite H0, H1. reflexivity.
  - split.
    + intros Hc (f0 & f1 & Hf). rewrite (resizeTarget_fields _ _ _ _ _ Hp Hf) in Hc.
      destruct (Atoi (trim f0)), (Atoi (trim f1)); discriminate.
    + intros Hno. unfold resizeTarget. rewrite Hp.
      destruct (Split (lower spec) "x") as [|p0 [|p1 [|p2 ps]]] eqn:Hs; try reflexivity.
      exfalso. apply Hno. exists p0, p1. by apply Split_two.
  - intros f0 f1 Hf. rewrite (resizeTarget_fields _ _ _ _ _ Hp Hf).
    rewrite !not_isInt, !isInt_Some.
    destruct (Atoi (trim f0)), (Atoi (trim f1)); repeat split; intros;
      try discriminate; try reflexivity;
      repeat match goal with
             | H : _ /\ _ |- _ => destruct H
             | H : exists _, None = Some _ |- _ => destruct H; discriminate
             | H : None = Some _ |- _ => discriminate
             | H : Some _ = None |- _ => discriminate
             | |- exists z, Some ?x = Some z => by exists x
             | |- _ /\ _ => split
             end.
  - intros img fit e He. unfold applyResize. rewrite He. reflexivity.
Qed.

(** X16.  The request [runIcon] builds for a size, [%dx%d] with fit [cover],
    always parses to that size in both directions: [Transform] then opens
    the base image, fills to [size] by [size] from the centre with the
    Lanczos filter and saves, so it can fail only in opening or saving. *)
Theorem icon_resize_never_fails (env : Env) (fs : FileSystem)
  (tempFile outputPath : string) (size : Z) :
  (forall s, isASCII s = true -> lower s = lowerASCII s) ->
  (forall s, isASCII s = true -> trim s = trimSpaceASCII s) ->
  in_range size ->
  resizeTarget lib 0 0 (Resize (iconTransformOptions size)) = inl (size, size) /\
  Transform lib env fs tempFile outputPath (iconTransformOptions size) =
    match imaging_Open lib fs tempFile with
    | None => (fs, inr ErrOpen)
    | Some src =>
        writeResult lib env fs outputPath (imaging_Fill lib src size size Center Lanczos)
    end.
Proof.
  intros Hlower Htrim Hsize.
  destruct (Itoa_plain size Hsize) as [Hplain Hne].
  assert (Hspec : forall ow oh,
    resizeTarget lib ow oh (Itoa size +:+ "x" +:+ Itoa size) = inl (size, size)).
  { intros ow oh.
    assert (Hall : allPlain (Itoa size) /\ isASCII (Itoa size +:+ "x" +:+ Itoa size) = true
                   /\ lowerASCII (Itoa size +:+ "x" +:+ Itoa size)
                      = Itoa size +:+ "x" +:+ Itoa size).
    { split; [assumption|].
      assert (Hgen : forall a b, allPlain a -> allPlain b ->
                isASCII (a +:+ "x" +:+ b) = true /\
                lowerASCII (a +:+ "x" +:+ b) = a +:+ "x" +:+ b).
      { intros a b Ha Hb. induction a as [|c a IH].
        - rewrite append_nil_l. change ("x" +:+ b) with (String "x" b).
          cbn [isASCII lowerASCII]. rewrite (plain_isASCII _ Hb), (plain_lower _ Hb).
          split; reflexivity.
        - destruct Ha as [Hc Ha]. destruct (IH Ha) as [IH1 IH2].
          rewrite append_cons. cbn [isASCII lowerASCII]. rewrite IH1, IH2.
          pose proof (plain_isASCII (String c "") (conj Hc I)) as H1.
          pose proof (plain_lower (String c "") (conj Hc I)) as H2.
          cbn [isASCII lowerASCII] in H1, H2. rewrite andb_true_r in H1.
          injection H2 as H2. rewrite H1, H2. split; reflexivity. }
      by apply Hgen. }
    destruct Hall as (_ & Hascii & Hlow).
    rewrite (resizeTarget_fields ow oh _ (Itoa size) (Itoa size)).
    - rewrite (Htrim _ (plain_isASCII _ Hplain)), (plain_trim _ Hplain).
      rewrite (Atoi_Itoa _ Hsize). reflexivity.
    - rewrite HasSuffixByte_app; [|destruct (Itoa size); [congruence | discriminate]].
      change ("x" +:+ Itoa size) with (String "x" (Itoa size)).
      change (String "x" (Itoa size)) with ("x" +:+ Itoa size).
      rewrite HasSuffixByte_app by assumption. by apply plain_no_percent.
    - rewrite (Hlower _ Hascii), Hlow. split; [reflexivity|].
      split; apply plain_sepFree; auto using x_not_plain. }
  split; [apply Hspec|].
  rewrite Transform_steps.
  destruct (imaging_Open lib fs tempFile) as [src|]; [|reflexivity].
  unfold requested, iconTransformOptions. cbn [Crop Resize Fit Rotate Flip Flop].
  change (String.eqb "" "") with true.
  destruct (String.eqb (Itoa size +:+ "x" +:+ Itoa size) "") eqn:He.
  { apply String.eqb_eq in He. apply (f_equal String.length) in He.
    rewrite append_length in He. destruct (Itoa size); [congruence|].
    cbn [String.length] in He. lia. }
  change (0 =? 0) with true. cbn [app applySteps applyStep].
  unfold applyResize. rewrite Hspec. reflexivity.
Qed.

End CropAndResize.

Lemma applyCrop_rectangle_witness :
  exists r : Rectangle,
    applyCrop (exampleLib (blank 100 80)) (blank 100 80) "10,20,-5,30"
    = inl (imaging_Crop (exampleLib (blank 100 80)) (blank 100 80) r) /\
    X (Min r) = 5 /\ X (Max r) = 10 /\ Y (Min r) = 20 /\ Y (Max r) = 50.
Proof.
  destruct (applyCrop_rectangle (exampleLib (blank 100 80)) (blank 100 80) "10,20,-5,30"
              "10" "20" "-5" "30" 10 20 (-5) 30)
    as (r & Hrun & Hx0 & Hx1 & Hy0 & Hy1 & _).
  - repeat split; vm_compute; discriminate.
  - exists "", "10". vm_compute. repeat split; auto; discriminate.
  - exists "", "20". vm_compute. repeat split; auto; discriminate.
  - exists "-", "5". vm_compute. repeat split; auto; discriminate.
  - exists "", "30". vm_compute. repeat split; auto; discriminate.
  - vm_compute. split; discriminate.
  - vm_compute. split; discriminate.
  - exists r. split; [exact Hrun|]. split; [exact Hx0|]. split; [exact Hx1|].
    split; [exact Hy0 | exact Hy1].
Defined.

Lemma resizeTarget_parses_witness :
  resizeTarget (exampleLib (blank 100 80)) 100 80 "800x600" = inl (800, 600).
Proof.
  destruct (resizeTarget_parses (exampleLib (blank 100 80)) 100 80 "800x600" eq_refl)
    as (Hok & _).
  apply Hok. exists "800", "600". split; [|split].
  - repeat split; vm_compute; discriminate.
  - exists "", "800". vm_compute. repeat split; auto; discriminate.
  - exists "", "600". vm_compute. repeat split; auto; discriminate.
Defined.

Lemma icon_resize_never_fails_witness :
  resizeTarget (asciiLib (blank 100 80)) 0 0 "512x512" = inl (512, 512) /\
  Transform (asciiLib (blank 100 80)) allowAll emptyFS "base.png" "icon.png"
    (iconTransformOptions 512)
  = writeResult (asciiLib (blank 100 80)) allowAll emptyFS "icon.png"
      (imaging_Fill (asciiLib (blank 100 80)) (blank 100 80) 512 512 Center Lanczos).
Proof.
  apply (icon_resize_never_fails (asciiLib (blank 100 80)) allowAll emptyFS
           "base.png" "icon.png" 512).
  - intros s _. reflexivity.
  - intros s _. reflexivity.
  - vm_compute. split; discriminate.
Defined.

(** X17.  When [runGenerate] saves more than one image, image [i] goes to the
    output path with [_] and [i+1] put before the extension: the paths of
    two different images differ, so no image overwrites another, and each
    path ends in the extension of the output path. *)
Theorem save_paths_are_distinct (filepath_Ext : string -> string) (outputPath : string)
  (n i j : Z) :
  1 < n -> 0 <= i < n -> 0 <= j < n -> n <= max_int -> i <> j ->
  savePath filepath_Ext outputPath n i <> savePath filepath_Ext outputPath n j /\
  exists stem, savePath filepath_Ext outputPath n i = stem +:+ filepath_Ext outputPath.
Proof.
  intros Hn Hi Hj Hmax Hij. unfold savePath.
  destruct (Z.gtb_spec n 1); [|lia]. cbv zeta.
  rewrite !add_small by (apply in_range_nonneg; lia).
  split.
  - intros Heq. apply append_inv_head in Heq.
    change ("_" +:+ Itoa (i + 1) +:+ filepath_Ext outputPath)
      with (String "_" (Itoa (i + 1) +:+ filepath_Ext outputPath)) in Heq.
    change ("_" +:+ Itoa (j + 1) +:+ filepath_Ext outputPath)
      with (String "_" (Itoa (j + 1) +:+ filepath_Ext outputPath)) in Heq.
    injection Heq as Heq. apply append_inv_tail in Heq.
    apply Itoa_inj in Heq; [lia | |]; apply in_range_nonneg; lia.
  - exists (TrimSuffix outputPath (filepath_Ext outputPath) +:+ "_" +:+ Itoa (i + 1)).
    rewrite !append_assoc. reflexivity.
Qed.

Lemma save_paths_are_distinct_witness :
  savePath (fun _ => ".png") "art.png" 4 0 <> savePath (fun _ => ".png") "art.png" 4 1 /\
  exists stem, savePath (fun _ => ".png") "art.png" 4 0 = stem +:+ ".png".
Proof.
  apply (save_paths_are_distinct (fun _ => ".png") "art.png" 4 0 1).
  - lia.
  - lia.
  - lia.
  - vm_compute. discriminate.
  - lia.
Defined.

End RequestFacts.

Module CommandFacts.
Import GoInt Geom GoColor Raster FileSys Spec GoStrings GoIntFacts GeomFacts.
Import CombineFacts GoText GoTrim Fields Output Commands TextFacts Streams.
Import Example Samples.

(** *** [runTransform] *)

(** X18.  [runTransform] on an existing input: a rotation below -360 or above
    360 is reported as [INVALID_ROTATION] and nothing is touched; with a
    rotation from -360 to 360 and at least one operation, [Transform] is
    called with the flags as options, the file system afterwards is the one
    [Transform] leaves, a success is reported as progress, saved image and
    success, a failure as progress and [TRANSFORM_FAILED] with the error of
    [Transform] returned; and whenever the command returns no error or an
    error of [Transform], the rotation was in range. *)
Theorem runTransform_validates (lib : Transform.Library) (env : Env) (fs : FileSystem)
  (flags : Cli.TransformFlags) (inputPath : string) :
  Cli.notExist fs inputPath = false ->
  let rotate := Cli.transformRotate flags in
  let run := Cli.runTransform lib env fs flags inputPath in
  let opts :=
    Transform.mkTransformOptions
      (Cli.transformResize flags) (Cli.transformFit flags) (Cli.transformCrop flags)
      rotate (Cli.transformFlip flags) (Cli.transformFlop flags) in
  (rotate < -360 \/ 360 < rotate ->
   run = (fs,
          [Cli.OutError "transform" "INVALID_ROTATION"
             "Rotation must be between -360 and 360 degrees" ""],
          Some Cli.ErrInvalidRotation)) /\
  (-360 <= rotate <= 360 ->
   Cli.transformResize flags <> "" \/ Cli.transformCrop flags <> "" \/ rotate <> 0
   \/ Cli.transformFlip flags = true \/ Cli.transformFlop flags = true ->
   fst (fst run)
     = fst (Transform.Transform lib env fs inputPath (Cli.transformOutput flags) opts) /\
   match snd (Transform.Transform lib env fs inputPath (Cli.transformOutput flags) opts) with
   | inl result =>
       snd run = None /\
       snd (fst run) =
         [Cli.OutProgress "Transforming image...";
          Cli.OutImageSaved (Cli.transformOutput flags)
            (Transform.Width result) (Transform.Height result);
          Cli.OutSuccess "transform" result]
   | inr e =>
       snd run = Some (Cli.ErrTransform e) /\
       snd (fst run) = [Cli.OutProgress "Transforming image..."; Cli.OutTransformFailed e]
   end) /\
  (snd run = None \/ (exists e, snd run = Some (Cli.ErrTransform e)) ->
   -360 <= rotate <= 360).
Proof.
  intros Hex rotate run opts. subst run. unfold Cli.runTransform. rewrite Hex.
  fold rotate. fold opts.
  split; [|split].
  - intros Hrot.
    assert (Hz : (rotate =? 0) = false) by (apply Z.eqb_neq; lia).
    rewrite Hz, !andb_false_r. cbn [andb].
    destruct (Z.ltb_spec rotate (-360)), (Z.gtb_spec rotate 360); try reflexivity; lia.
  - intros Hrot Hany.
    assert (Hop : String.eqb (Cli.transformResize flags) ""
                  && String.eqb (Cli.transformCrop flags) "" && (rotate =? 0)
                  && negb (Cli.transformFlip flags) && negb (Cli.transformFlop flags)
                  = false).
    { destruct (String.eqb_spec (Cli.transformResize flags) "");
        destruct (String.eqb_spec (Cli.transformCrop flags) "");
        destruct (Z.eqb_spec rotate 0);
        destruct (Cli.transformFlip flags), (Cli.transformFlop flags);
        try reflexivity; destruct Hany as [?|[?|[?|[?|?]]]]; congruence. }
    rewrite Hop.
    destruct (Z.ltb_spec rotate (-360)); [lia|]. destruct (Z.gtb_spec rotate 360); [lia|].
    cbn [orb].
    destruct (Transform.Transform lib env fs inputPath (Cli.transformOutput flags) opts)
      as [fs' [result|e]]; cbn [fst snd]; auto.
  - destruct (_ && _ && _ && _ && _); [intros [?|[? ?]]; discriminate|].
    destruct (Z.ltb_spec rotate (-360)); [intros [?|[? ?]]; discriminate|].
    destruct (Z.gtb_spec rotate 360); [intros [?|[? ?]]; discriminate|].
    intros _. lia.
Qed.

Lemma runTransform_validates_witness :
  Cli.runTransform (exampleLib (blank 100 80)) allowAll oneFile
    (Cli.mkTransformFlags "out.png" "" "inside" "" 400 false false) "in.png"
  = (oneFile,
     [Cli.OutError "transform" "INVALID_ROTATION"
        "Rotation must be between -360 and 360 degrees" ""],
     Some Cli.ErrInvalidRotation).
Proof.
  destruct (runTransform_validates (exampleLib (blank 100 80)) allowAll oneFile
              (Cli.mkTransformFlags "out.png" "" "inside" "" 400 false false) "in.png")
    as (Hout & _).
  - reflexivity.
  - apply Hout. right. cbn. lia.
Defined.

(** *** [runCombine] *)

Lemma CombineImages_own_checks (ToLower Dir : string -> string)
  (Open : FileSystem -> string -> option Image) env fs inputPaths outputPath opts :
  (2 <= List.length inputPaths)%nat ->
  Combine.Direction opts = "horizontal" \/ Combine.Direction opts = "vertical"
  \/ Combine.Direction opts = "grid" ->
  snd (Combine.CombineImages ToLower Dir Open env fs inputPaths outputPath (Some opts))
    <> inr Combine.ErrNotEnoughImages /\
  forall d,
    snd (Combine.CombineImages ToLower Dir Open env fs inputPaths outputPath (Some opts))
      <> inr (Combine.ErrInvalidDirection d).
Proof.
  intros Hlen Hdir. unfold Combine.CombineImages.
  destruct (Z.ltb_spec (Z.of_nat (List.length inputPaths)) 2); [lia|].
  destruct (Combine.loadImages (Open fs) inputPaths) as [images|e] eqn:Hload.
  2:{ apply loadImages_error in Hload as [p ->]. cbn [snd]. split; [|intros d]; discriminate. }
  assert (Hlayout : exists canvas,
    (if String.eqb (Combine.Direction opts) "horizontal"
     then inl (Combine.combineHorizontal ToLower images opts)
     else if String.eqb (Combine.Direction opts) "vertical"
     then inl (Combine.combineVertical ToLower images opts)
     else if String.eqb (Combine.Direction opts) "grid"
     then inl (Combine.combineGrid ToLower images opts)
     else inr (Combine.ErrInvalidDirection (Combine.Direction opts)))
    = (inl canvas : Draw.Canvas + Combine.Error)).
  { destruct Hdir as [->|[->| ->]]; eexists; reflexivity. }
  destruct Hlayout as [canvas ->]. cbv zeta.
  destruct (if negb _ && negb _ then _ else _) as [fs1|];
    [|cbn [snd]; split; [|intros d]; discriminate].
  destruct (os_Create env fs1 outputPath) as [fs2|];
    [|cbn [snd]; split; [|intros d]; discriminate].
  destruct (png_Encode env fs2 outputPath _) as [fs3|];
    cbn [snd]; split; try intros d; discriminate.
Qed.

Section CombineCommand.
Variable strings_ToLower : string -> string.
Variable filepath_Dir : string -> string.
Variable imaging_Open : FileSystem -> string -> option Image.
Variable filepath_Glob : FileSystem -> string -> option (list string).
Variable combineErrorText : Combine.Error -> string.
Variable elapsedMs : Z.

Local Abbreviation runCombine :=
  (runCombine strings_ToLower filepath_Dir imaging_Open filepath_Glob combineErrorText
     elapsedMs).

(** X20.  [runCombine] checks before [CombineImages] does: [COMBINE_FAILED] never
    carries the not-enough-images or the invalid-direction error of
    [CombineImages]; a negative gap is rejected with the file system
    untouched and without calling [CombineImages]; and a run that returns
    no error or an error of [CombineImages] had a gap that is not negative
    and one of the three directions. *)
Theorem runCombine_guards (env : Env) (fs : FileSystem) (flags : CombineFlags)
  (args : list string) :
  let run := runCombine env fs flags args in
  let err := snd run in
  err <> Some (ErrCombineFailed Combine.ErrNotEnoughImages) /\
  (forall d, err <> Some (ErrCombineFailed (Combine.ErrInvalidDirection d))) /\
  (combineGap flags < 0 ->
   fst (fst run) = fs /\ err <> None /\ forall e, err <> Some (ErrCombineFailed e)) /\
  (err = None \/ (exists e, err = Some (ErrCombineFailed e)) ->
   0 <= combineGap flags /\
   (combineDirection flags = "horizontal" \/ combineDirection flags = "vertical"
    \/ combineDirection flags = "grid")).
Proof.
  intros run err. subst err run. unfold Commands.runCombine.
  destruct (expandArgs filepath_Glob fs args []) as [inputPaths|[call e]] eqn:Hargs.
  2:{ cbn [fst snd].
      assert (He : e = ErrBadPattern \/ e = ErrNotExist).
      { clear - Hargs. revert Hargs. generalize (@nil string) as acc.
        induction args as [|arg rest IH]; intros acc; cbn [expandArgs]; [discriminate|].
        destruct (filepath_Glob fs arg) as [matches|]; [|intros [= _ <-]; auto].
        destruct (Nat.eqb (List.length matches) 0); [|exact (IH _)].
        destruct (Cli.notExist fs arg); [intros [= _ <-]; auto | exact (IH _)]. }
      split; [destruct He as [->| ->]; discriminate|].
      split; [intros d; destruct He as [->| ->]; discriminate|].
      split; [intros _; split; [reflexivity|]; split; [discriminate|];
              intros e'; destruct He as [->| ->]; discriminate|].
      intros [?|[e' ?]]; destruct He as [->| ->]; discriminate. }
  destruct (Z.ltb_spec (Z.of_nat (List.length inputPaths)) 2) as [Hfew|Hlen].
  { cbn [fst snd]. split; [discriminate|]. split; [intros d; discriminate|].
    split; [intros _; split; [reflexivity|]; split; [discriminate | intros e; discriminate]|].
    intros [?|[e ?]]; discriminate. }
  destruct (String.eqb_spec (combineDirection flags) "horizontal") as [Hh|Hh];
    [|destruct (String.eqb_spec (combineDirection flags) "vertical") as [Hv|Hv];
      [|destruct (String.eqb_spec (combineDirection flags) "grid") as [Hg|Hg]]];
    cbn [orb negb].
  4:{ cbn [fst snd]. split; [discriminate|]. split; [intros d; discriminate|].
      split; [intros _; split; [reflexivity|]; split; [discriminate | intros e; discriminate]|].
      intros [?|[e ?]]; discriminate. }
  all: destruct (Z.ltb_spec (combineGap flags) 0) as [Hneg|Hgap];
    [cbn [fst snd]; split; [discriminate|]; split; [intros d; discriminate|];
     split; [intros _; split; [reflexivity|]; split; [discriminate | intros e; discriminate]|];
     intros [?|[e ?]]; discriminate|].
  all: match goal with
       | |- context [Combine.CombineImages ?a ?b ?c ?d ?e ?f ?g (Some ?o)] =>
           pose proof (CombineImages_own_checks a b c d e f g o ltac:(lia)
                         ltac:(cbn [Combine.Direction]; auto)) as [Hn Hd];
           destruct (Combine.CombineImages a b c d e f g (Some o)) as [fs' [result|e']]
       end; cbn [fst snd] in *.
  all: split; [try discriminate; intros [= ->]; congruence|].
  all: split; [intros d; try discriminate; intros [= ->]; exact (Hd d eq_refl)|].
  all: split; [intros; lia|].
  all: intros _; split; [lia | auto].
Qed.

End CombineCommand.

(** *** [runTransparentMake] *)

Lemma substring_all (s : string) : String.substring 0 (String.length s) s = s.
Proof. induction s as [|c s IH]; [reflexivity|]. cbn. by rewrite IH. Qed.

Lemma substring_suffix (a b : string) :
  String.substring (String.length a) (String.length b) (a +:+ b) = b.
Proof.
  induction a as [|c a IH]; [apply substring_all|].
  rewrite append_cons. cbn [String.length String.substring]. exact IH.
Qed.

Lemma substring_split (s : string) (k : nat) :
  (k <= String.length s)%nat ->
  s = String.substring 0 k s +:+ String.substring k (String.length s - k) s.
Proof.
  revert k. induction s as [|c s IH]; intros k Hk.
  - cbn [String.length] in Hk. assert (k = 0%nat) as -> by lia. reflexivity.
  - destruct k as [|k].
    + rewrite Nat.sub_0_r, substring_all. by destruct s.
    + cbn [String.length] in *. cbn [String.substring Nat.sub]. rewrite append_cons.
      f_equal. apply IH. lia.
Qed.

Lemma substring_length (s : string) (k n : nat) :
  (k + n <= String.length s)%nat -> String.length (String.substring k n s) = n.
Proof.
  revert k n. induction s as [|c s IH]; intros k n H; cbn [String.length] in H.
  - assert (k = 0%nat) as -> by lia. assert (n = 0%nat) as -> by lia. reflexivity.
  - destruct k as [|k]; cbn [String.substring].
    + destruct n as [|n]; [reflexivity|]. cbn [String.length]. f_equal. apply IH. lia.
    + apply IH. lia.
Qed.

(** X21.  [transparent make] without [-o] and without [--overwrite]: for an
    input path of fewer than four bytes the slice expression is out of
    range and the command panics instead of returning; otherwise the
    output path is the input path with [.png] replaced by
    [_transparent.png] when it ends in [.png], and the input path followed
    by [_transparent.png] when it does not; it is never the input path. *)
Theorem transparent_default_output (flags : TransparentMakeFlags) (inputPath : string) :
  transparentMakeOutput flags = "" -> transparentMakeOverwrite flags = false ->
  ((String.length inputPath < 4)%nat ->
   transparentOutputPath flags inputPath = None /\
   forall ToLower Dir Open errorText elapsedMs env fs,
     Cli.notExist fs inputPath = false ->
     runTransparentMake ToLower Dir Open errorText elapsedMs env fs flags inputPath
     = Panicked) /\
  ((4 <= String.length inputPath)%nat ->
   exists out,
     transparentOutputPath flags inputPath = Some out /\
     out <> inputPath /\
     (forall stem, inputPath = stem +:+ ".png" -> out = stem +:+ "_transparent.png") /\
     ((forall stem, inputPath <> stem +:+ ".png") ->
      out = inputPath +:+ "_transparent.png")).
Proof.
  intros Hout Hover. unfold transparentOutputPath. rewrite Hout, Hover.
  change (negb (String.eqb "" "")) with false. cbv iota zeta. unfold sliceChecked.
  split.
  - intros Hshort.
    assert (Hnone : (if (0 <=? 0) && (0 <=? Z.of_nat (String.length inputPath) - 4)
                        && (Z.of_nat (String.length inputPath) - 4
                            <=? Z.of_nat (String.length inputPath))
                     then Some (slice (Z.to_nat 0)
                                  (Z.to_nat (Z.of_nat (String.length inputPath) - 4)) inputPath)
                     else None) = None).
    { destruct (Z.leb_spec 0 (Z.of_nat (String.length inputPath) - 4)); [lia|]. reflexivity. }
    split.
    + rewrite Hnone. reflexivity.
    + intros ToLower Dir Open errorText elapsedMs env fs Hex.
      unfold runTransparentMake, transparentOutputPath. rewrite Hex, Hout, Hover.
      change (negb (String.eqb "" "")) with false. cbv iota zeta. unfold sliceChecked.
      rewrite Hnone. reflexivity.
  - intros Hlong. set (n := String.length inputPath) in *.
    destruct (Z.leb_spec 0 (Z.of_nat n - 4)); [|lia].
    destruct (Z.leb_spec (Z.of_nat n - 4) (Z.of_nat n)); [|lia].
    destruct (Z.leb_spec (Z.of_nat n) (Z.of_nat n)); [|lia].
    change (0 <=? 0) with true. cbn [andb]. unfold slice.
    replace (Z.to_nat (Z.of_nat n - 4)) with (n - 4)%nat by lia.
    rewrite Nat2Z.id. change (Z.to_nat 0) with 0%nat. rewrite Nat.sub_0_r.
    replace (n - (n - 4))%nat with 4%nat by lia.
    pose proof (substring_split inputPath (n - 4) ltac:(lia)) as Hsplit. fold n in Hsplit.
    replace (n - (n - 4))%nat with 4%nat in Hsplit by lia.
    set (stem := String.substring 0 (n - 4) inputPath) in *.
    set (tail := String.substring (n - 4) 4 inputPath) in *.
    assert (Hlen : forall a : string,
              String.length (a +:+ "_transparent.png") = (String.length a + 16)%nat).
    { intros a. rewrite append_length. reflexivity. }
    assert (Hstem : String.length stem = (n - 4)%nat).
    { apply substring_length. fold n. lia. }
    destruct (String.eqb_spec tail ".png") as [Htail|Htail]; cbn [negb].
    + eexists. split; [reflexivity|]. split.
      { intros Heq. apply (f_equal String.length) in Heq. rewrite Hlen, Hstem in Heq.
        fold n in Heq. lia. }
      split.
      * intros stem' Hin. f_equal. rewrite Htail in Hsplit. rewrite Hsplit in Hin.
        by apply append_inv_tail in Hin.
      * intros Hno. exfalso. apply (Hno stem). rewrite Htail in Hsplit. exact Hsplit.
    + eexists. split; [reflexivity|]. split.
      { intros Heq. apply (f_equal String.length) in Heq. rewrite Hlen in Heq. lia. }
      split.
      * intros stem' Hin. exfalso. apply Htail. unfold tail, n. rewrite Hin.
        rewrite append_length. cbn [String.length].
        replace (String.length stem' + 4 - 4)%nat with (String.length stem') by lia.
        apply (substring_suffix stem' ".png").
      * intros _. reflexivity.
Qed.

Lemma transparent_default_output_witness :
  transparentOutputPath (mkTransparentMakeFlags "" "white" 10 false) "logo.png"
  = Some "logo_transparent.png" /\
  transparentOutputPath (mkTransparentMakeFlags "" "white" 10 false) "a.b" = None.
Proof.
  destruct (transparent_default_output (mkTransparentMakeFlags "" "white" 10 false)
              "logo.png" eq_refl eq_refl) as [_ Hlong].
  destruct (transparent_default_output (mkTransparentMakeFlags "" "white" 10 false)
              "a.b" eq_refl eq_refl) as [Hshort _].
  split.
  - destruct Hlong as (out & Hout & _ & Hstem & _); [cbn; lia|].
    rewrite Hout. f_equal. apply (Hstem "logo"). reflexivity.
  - apply Hshort. cbn. lia.
Defined.

Section TransparentCommand.
Variable strings_ToLower : string -> string.
Variable filepath_Dir : string -> string.
Variable imaging_Open : FileSystem -> string -> option Image.
Variable transparencyErrorText : Transparency.Error -> string.
Variable elapsedMs : Z.

Local Abbreviation runTransparentMake :=
  (runTransparentMake strings_ToLower filepath_Dir imaging_Open transparencyErrorText
     elapsedMs).

(** X22.  [runTransparentMake] with a tolerance below 0 or above 100 never calls
    [MakeTransparent] and changes no file: it returns the missing-input
    error when the input does not exist; it panics when the input exists
    and the default output path cannot be sliced (no output path can be
    chosen); and it returns the invalid-tolerance error in every other
    case.  Whenever it returns no error or an error of [MakeTransparent],
    the input existed, the tolerance was from 0 to 100, and the file
    system afterwards is the one [MakeTransparent] leaves for the chosen
    output path, the colour and the tolerance of the flags. *)
Theorem runTransparentMake_validates (env : Env) (fs : FileSystem)
  (flags : TransparentMakeFlags) (inputPath : string) :
  let tolerance := transparentMakeTolerance flags in
  let run := runTransparentMake env fs flags inputPath in
  (tolerance < 0 \/ 100 < tolerance ->
   (Cli.notExist fs inputPath = true ->
    run = Returned fs
            [CallError "transparent make" "FILE_NOT_FOUND"
               ("Input file not found: " +:+ inputPath) ""]
            (Some ErrInputNotExist)) /\
   (Cli.notExist fs inputPath = false -> transparentOutputPath flags inputPath = None ->
    run = Panicked) /\
   (Cli.notExist fs inputPath = false -> transparentOutputPath flags inputPath <> None ->
    run = Returned fs
            [CallError "transparent make" "INVALID_TOLERANCE"
               "Tolerance must be between 0 and 100" ""]
            (Some ErrInvalidTolerance))) /\
  (forall fs' calls err,
     run = Returned fs' calls err ->
     err = None \/ (exists e, err = Some (ErrTransparencyFailed e)) ->
     0 <= tolerance <= 100 /\ Cli.notExist fs inputPath = false /\
     exists outputPath,
       transparentOutputPath flags inputPath = Some outputPath /\
       fs' = fst (Transparency.MakeTransparent strings_ToLower filepath_Dir imaging_Open env fs
                    inputPath outputPath
                    (Some (Transparency.mkTransparencyOptions
                             (transparentMakeColor flags) tolerance)))).
Proof.
  intros tolerance run. subst run. unfold Commands.runTransparentMake.
  fold tolerance. split.
  - intros Hbad. split; [|split].
    + intros ->. reflexivity.
    + intros -> ->. reflexivity.
    + intros -> Hout.
      destruct (transparentOutputPath flags inputPath) as [outputPath|]; [|done].
      destruct (Z.ltb_spec tolerance 0); [reflexivity|].
      destruct (Z.gtb_spec tolerance 100); [reflexivity | lia].
  - intros fs' calls err Hrun Herr.
    destruct (Cli.notExist fs inputPath).
    { injection Hrun as <- <- <-. destruct Herr as [?|[e ?]]; discriminate. }
    destruct (transparentOutputPath flags inputPath) as [outputPath|]; [|discriminate].
    destruct (Z.ltb_spec tolerance 0);
      [injection Hrun as <- <- <-; destruct Herr as [?|[e ?]]; discriminate|].
    destruct (Z.gtb_spec tolerance 100);
      [injection Hrun as <- <- <-; destruct Herr as [?|[e ?]]; discriminate|].
    cbn [orb] in Hrun. split; [lia|]. split; [reflexivity|].
    exists outputPath. split; [reflexivity|].
    destruct (Transparency.MakeTransparent _ _ _ _ _ _ _ _) as [fs1 [result|e]];
      injection Hrun as <- _ _; reflexivity.
Qed.

End TransparentCommand.

Lemma runTransparentMake_validates_witness :
  runTransparentMake id here (openAs (blank 2 2)) (fun _ => "failed") 7
    allowAll oneFile (mkTransparentMakeFlags "out.png" "white" 150 false) "in.png"
  = Returned oneFile
      [CallError "transparent make" "INVALID_TOLERANCE"
         "Tolerance must be between 0 and 100" ""]
      (Some ErrInvalidTolerance) /\
  runTransparentMake id here (openAs (blank 2 2)) (fun _ => "failed") 7
    allowAll shortFile (mkTransparentMakeFlags "" "white" 150 false) "a.b"
  = Panicked.
Proof.
  destruct (runTransparentMake_validates id here (openAs (blank 2 2)) (fun _ => "failed") 7
              allowAll oneFile (mkTransparentMakeFlags "out.png" "white" 150 false) "in.png")
    as [Hbad _].
  destruct (runTransparentMake_validates id here (openAs (blank 2 2)) (fun _ => "failed") 7
              allowAll shortFile (mkTransparentMakeFlags "" "white" 150 false) "a.b")
    as [Hshort _].
  split.
  - destruct Hbad as (_ & _ & Hret); [right; cbn; lia|].
    apply Hret; [reflexivity | discriminate].
  - destruct Hshort as (_ & Hpanic & _); [right; cbn; lia|].
    apply Hpanic; reflexivity.
Defined.

(** *** JSON mode *)

Section JSONMode.
Variable paint : Attribute -> string -> string.

Lemma written_cons (f : Formatter) (c : Call Data) (calls : list (Call Data)) :
  written paint f (c :: calls) = perform paint f c ++ written paint f calls.
Proof. reflexivity. Qed.

(** X19.  In JSON mode every run of [transform], [combine] and
    [transparent make] that returns writes exactly one JSON response to the
    standard output and nothing else, neither progress lines nor anything
    on the standard error; the response names the command, and its
    [success] field is true exactly when the command returns no error. *)
Theorem json_mode_prints_one_response (f : Formatter) :
  JSONMode f = true ->
  (forall lib env fs flags inputPath elapsedMs errorText,
     exists resp,
       written paint f
         (map (transformCall elapsedMs errorText flags inputPath)
              (snd (fst (Cli.runTransform lib env fs flags inputPath))))
       = [JSONToStdout resp] /\
       Command resp = "transform" /\
       (Success resp = true <-> snd (Cli.runTransform lib env fs flags inputPath) = None)) /\
  (forall ToLower Dir Open Glob errorText elapsedMs env fs flags args,
     exists resp,
       written paint f
         (snd (fst (runCombine ToLower Dir Open Glob errorText elapsedMs env fs flags args)))
       = [JSONToStdout resp] /\
       Command resp = "combine" /\
       (Success resp = true <->
        snd (runCombine ToLower Dir Open Glob errorText elapsedMs env fs flags args) = None)) /\
  (forall ToLower Dir Open errorText elapsedMs env fs flags inputPath fs' calls err,
     runTransparentMake ToLower Dir Open errorText elapsedMs env fs flags inputPath
     = Returned fs' calls err ->
     exists resp,
       written paint f calls = [JSONToStdout resp] /\
       Command resp = "transparent make" /\
       (Success resp = true <-> err = None)).
Proof.
  intros Hjson.
  assert (Herr : forall command code message hint,
    perform paint f (CallError command code message hint : Call Data)
    = [JSONToStdout (mkResponse false command None
                       (Some (mkErrorInfo code message hint)) None)]).
  { intros. cbn [perform]. unfold Formatter_Error. rewrite Hjson. reflexivity. }
  assert (Hprog : forall text, perform paint f (CallProgress text : Call Data) = []).
  { intros. cbn [perform]. unfold Formatter_Progress. rewrite Hjson. reflexivity. }
  assert (Hsaved : forall path w h,
    perform paint f (CallImageSaved path w h : Call Data) = []).
  { intros. cbn [perform]. unfold Formatter_ImageSaved. rewrite Hjson. reflexivity. }
  assert (Hok : forall command (data : Data) timing,
    perform paint f (CallSuccess command data timing)
    = [JSONToStdout (mkResponse true command (Some data) None timing)]).
  { intros. cbn [perform]. unfold Formatter_Success. rewrite Hjson. reflexivity. }
  split; [|split].
  - intros lib env fs flags inputPath elapsedMs errorText. unfold Cli.runTransform.
    destruct (Cli.notExist fs inputPath).
    { cbn [fst snd map transformCall]. rewrite written_cons, Herr. eexists.
      split; [reflexivity|]. split; [reflexivity|]. cbn. split; discriminate. }
    destruct (_ && _ && _ && _ && _).
    { cbn [fst snd map transformCall]. rewrite written_cons, Herr. eexists.
      split; [reflexivity|]. split; [reflexivity|]. cbn. split; discriminate. }
    destruct (_ || _).
    { cbn [fst snd map transformCall]. rewrite written_cons, Herr. eexists.
      split; [reflexivity|]. split; [reflexivity|]. cbn. split; discriminate. }
    destruct (Transform.Transform _ _ _ _ _ _) as [fs' [result|e]];
      cbn [fst snd map transformCall].
    + rewrite !written_cons, Hprog, Hsaved, Hok. eexists.
      split; [reflexivity|]. split; [reflexivity|]. cbn. split; reflexivity.
    + rewrite !written_cons, Hprog, Herr. eexists.
      split; [reflexivity|]. split; [reflexivity|]. cbn. split; discriminate.
  - intros ToLower Dir Open Glob errorText elapsedMs env fs flags args.
    unfold runCombine.
    destruct (expandArgs Glob fs args []) as [inputPaths|[call e]] eqn:Hargs.
    2:{ cbn [fst snd].
        assert (Hcall : exists code message, call = CallError "combine" code message "").
        { clear - Hargs. revert Hargs. generalize (@nil string) as acc.
          induction args as [|arg rest IH]; intros acc; cbn [expandArgs]; [discriminate|].
          destruct (Glob fs arg) as [matches|]; [|intros [= <- _]; eauto].
          destruct (Nat.eqb (List.length matches) 0); [|exact (IH _)].
          destruct (Cli.notExist fs arg); [intros [= <- _]; eauto | exact (IH _)]. }
        destruct Hcall as (code & message & ->). rewrite written_cons, Herr. eexists.
        split; [reflexivity|]. split; [reflexivity|]. cbn. split; discriminate. }
    destruct (_ <? 2).
    { cbn [fst snd]. rewrite written_cons, Herr. eexists.
      split; [reflexivity|]. split; [reflexivity|]. cbn. split; discriminate. }
    destruct (negb _).
    { cbn [fst snd]. rewrite written_cons, Herr. eexists.
      split; [reflexivity|]. split; [reflexivity|]. cbn. split; discriminate. }
    destruct (_ <? 0).
    { cbn [fst snd]. rewrite written_cons, Herr. eexists.
      split; [reflexivity|]. split; [reflexivity|]. cbn. split; discriminate. }
    cbv zeta. destruct (Combine.CombineImages _ _ _ _ _ _ _ _) as [fs' [result|e]];
      cbn [fst snd].
    + rewrite !written_cons, Hprog, Hsaved, Hok. eexists.
      split; [reflexivity|]. split; [reflexivity|]. cbn. split; reflexivity.
    + rewrite !written_cons, Hprog, Herr. eexists.
      split; [reflexivity|]. split; [reflexivity|]. cbn. split; discriminate.
  - intros ToLower Dir Open errorText elapsedMs env fs flags inputPath fs' calls err.
    unfold runTransparentMake.
    destruct (Cli.notExist fs inputPath).
    { intros [= <- <- <-]. rewrite written_cons, Herr. eexists.
      split; [reflexivity|]. split; [reflexivity|]. cbn. split; discriminate. }
    destruct (transparentOutputPath flags inputPath) as [outputPath|]; [|discriminate].
    destruct (_ || _).
    { intros [= <- <- <-]. rewrite written_cons, Herr. eexists.
      split; [reflexivity|]. split; [reflexivity|]. cbn. split; discriminate. }
    cbv zeta. destruct (Transparency.MakeTransparent _ _ _ _ _ _ _ _) as [fs1 [result|e]].
    + intros [= <- <- <-]. rewrite !written_cons, Hprog, Hsaved, Hok. eexists.
      split; [reflexivity|]. split; [reflexivity|]. cbn. split; reflexivity.
    + intros [= <- <- <-]. rewrite !written_cons, Hprog, Herr. eexists.
      split; [reflexivity|]. split; [reflexivity|]. cbn. split; discriminate.
Qed.

Lemma written_error_text (f : Formatter) (command code message hint : string) :
  JSONMode f = false ->
  existsb onStderr (perform paint f (CallError command code message hint : Call Data)) = true /\
  forallb onStderr (perform paint f (CallError command code message hint : Call Data)) = true.
Proof.
  intros Htext. cbn [perform]. unfold Formatter_Error. rewrite Htext.
  destruct (negb (String.eqb hint "")); split; reflexivity.
Qed.

Lemma written_other_text (f : Formatter) (c : Call Data) :
  JSONMode f = false ->
  (forall command code message hint, c <> CallError command code message hint) ->
  existsb onStderr (perform paint f c) = false /\
  (Quiet f = true -> perform paint f c = []).
Proof.
  intros Htext Hc. destruct c as [command data timing|command code message hint|text|text|path w h].
  - cbn [perform]. unfold Formatter_Success. rewrite Htext.
    destruct (Quiet f); split; try reflexivity; discriminate.
  - exfalso. by eapply Hc.
  - cbn [perform]. unfold Formatter_Info. rewrite Htext.
    destruct (Quiet f); split; try reflexivity; discriminate.
  - cbn [perform]. unfold Formatter_Progress. rewrite Htext.
    destruct (Quiet f); split; try reflexivity; discriminate.
  - cbn [perform]. unfold Formatter_ImageSaved. rewrite Htext.
    destruct (Quiet f); split; try reflexivity; discriminate.
Qed.

(** The three shapes of what a command asks of its formatter. *)
Lemma text_only_error (f : Formatter) (command code message hint : string) (E : Type) (e : E) :
  JSONMode f = false ->
  textModeStreams f (written paint f [CallError command code message hint : Call Data])
    (Some e).
Proof.
  intros Htext. unfold textModeStreams. rewrite written_cons.
  change (written paint f []) with (@nil (Event Data)). rewrite app_nil_r.
  destruct (written_error_text f command code message hint Htext) as [H1 H2].
  split; [exact H1 | intros _; exact H2].
Qed.

Lemma text_progress_error (f : Formatter) (text command code message hint : string)
  (E : Type) (e : E) :
  JSONMode f = false ->
  textModeStreams f
    (written paint f [CallProgress text; CallError command code message hint : Call Data])
    (Some e).
Proof.
  intros Htext. unfold textModeStreams. rewrite !written_cons.
  change (written paint f []) with (@nil (Event Data)). rewrite app_nil_r.
  destruct (written_error_text f command code message hint Htext) as [H1 H2].
  destruct (written_other_text f (CallProgress text) Htext ltac:(discriminate)) as [H3 H4].
  rewrite existsb_app, forallb_app, H1, H2, H3. split; [reflexivity|].
  intros Hq. rewrite (H4 Hq). reflexivity.
Qed.

Lemma text_success (f : Formatter) (text command path : string) (w h : Z) (data : Data)
  (timing : option Timing) (E : Type) :
  JSONMode f = false ->
  textModeStreams f
    (written paint f [CallProgress text; CallImageSaved path w h;
                      CallSuccess command data timing])
    (@None E).
Proof.
  intros Htext. unfold textModeStreams. rewrite !written_cons.
  change (written paint f []) with (@nil (Event Data)). rewrite app_nil_r.
  destruct (written_other_text f (CallProgress text) Htext ltac:(discriminate)) as [H1 H2].
  destruct (written_other_text f (CallImageSaved path w h) Htext ltac:(discriminate))
    as [H3 H4].
  destruct (written_other_text f (CallSuccess command data timing) Htext ltac:(discriminate))
    as [H5 H6].
  rewrite !existsb_app, H1, H3, H5. split; [reflexivity|].
  intros Hq. rewrite (H2 Hq), (H4 Hq), (H6 Hq). reflexivity.
Qed.

(** X27.  In text mode every run of [transform], [combine] and
    [transparent make] that returns writes to the standard error exactly
    when it returns an error, and with a quiet formatter it writes to no
    other stream: a quiet run that succeeds writes nothing. *)
Theorem text_mode_errors_go_to_stderr (f : Formatter) :
  JSONMode f = false ->
  (forall lib env fs flags inputPath elapsedMs errorText,
     textModeStreams f
       (written paint f
          (map (transformCall elapsedMs errorText flags inputPath)
               (snd (fst (Cli.runTransform lib env fs flags inputPath)))))
       (snd (Cli.runTransform lib env fs flags inputPath))) /\
  (forall ToLower Dir Open Glob errorText elapsedMs env fs flags args,
     textModeStreams f
       (written paint f
          (snd (fst (runCombine ToLower Dir Open Glob errorText elapsedMs env fs flags args))))
       (snd (runCombine ToLower Dir Open Glob errorText elapsedMs env fs flags args))) /\
  (forall ToLower Dir Open errorText elapsedMs env fs flags inputPath fs' calls err,
     runTransparentMake ToLower Dir Open errorText elapsedMs env fs flags inputPath
     = Returned fs' calls err ->
     textModeStreams f (written paint f calls) err).
Proof.
  intros Htext. split; [|split].
  - intros lib env fs flags inputPath elapsedMs errorText. unfold Cli.runTransform.
    destruct (Cli.notExist fs inputPath);
      [cbn [fst snd map transformCall]; by apply text_only_error|].
    destruct (_ && _ && _ && _ && _);
      [cbn [fst snd map transformCall]; by apply text_only_error|].
    destruct (_ || _); [cbn [fst snd map transformCall]; by apply text_only_error|].
    destruct (Transform.Transform _ _ _ _ _ _) as [fs' [result|e]];
      cbn [fst snd map transformCall].
    + by apply text_success.
    + by apply text_progress_error.
  - intros ToLower Dir Open Glob errorText elapsedMs env fs flags args.
    unfold runCombine.
    destruct (expandArgs Glob fs args []) as [inputPaths|[call e]] eqn:Hargs.
    2:{ cbn [fst snd].
        assert (Hcall : exists code message, call = CallError "combine" code message "").
        { clear - Hargs. revert Hargs. generalize (@nil string) as acc.
          induction args as [|arg rest IH]; intros acc; cbn [expandArgs]; [discriminate|].
          destruct (Glob fs arg) as [matches|]; [|intros [= <- _]; eauto].
          destruct (Nat.eqb (List.length matches) 0); [|exact (IH _)].
          destruct (Cli.notExist fs arg); [intros [= <- _]; eauto | exact (IH _)]. }
        destruct Hcall as (code & message & ->). by apply text_only_error. }
    destruct (_ <? 2); [cbn [fst snd]; by apply text_only_error|].
    destruct (negb _); [cbn [fst snd]; by apply text_only_error|].
    destruct (_ <? 0); [cbn [fst snd]; by apply text_only_error|].
    cbv zeta. destruct (Combine.CombineImages _ _ _ _ _ _ _ _) as [fs' [result|e]];
      cbn [fst snd].
    + by apply text_success.
    + by apply text_progress_error.
  - intros ToLower Dir Open errorText elapsedMs env fs flags inputPath fs' calls err.
    unfold runTransparentMake.
    destruct (Cli.notExist fs inputPath); [intros [= <- <- <-]; by apply text_only_error|].
    destruct (transparentOutputPath flags inputPath) as [outputPath|]; [|discriminate].
    destruct (_ || _); [intros [= <- <- <-]; by apply text_only_error|].
    cbv zeta. destruct (Transparency.MakeTransparent _ _ _ _ _ _ _ _) as [fs1 [result|e]].
    + intros [= <- <- <-]. by apply text_success.
    + intros [= <- <- <-]. by apply text_progress_error.
Qed.

End JSONMode.

Lemma json_mode_prints_one_response_witness :
  exists resp,
    written plain jsonFormatter
      (map (transformCall 7 (fun _ => "failed") noFlags "in.png")
           (snd (fst (Cli.runTransform (exampleLib (blank 100 80)) allowAll oneFile
                        noFlags "in.png"))))
    = [JSONToStdout resp] /\
    Command resp = "transform" /\
    (Success resp = true <->
     snd (Cli.runTransform (exampleLib (blank 100 80)) allowAll oneFile noFlags "in.png")
     = None).
Proof.
  destruct (json_mode_prints_one_response plain jsonFormatter eq_refl) as (Htransform & _).
  exact (Htransform (exampleLib (blank 100 80)) allowAll oneFile noFlags "in.png" 7
           (fun _ => "failed")).
Defined.

Lemma text_mode_errors_go_to_stderr_witness :
  textModeStreams quietFormatter
    (written plain quietFormatter
       (map (transformCall 7 (fun _ => "failed") noFlags "in.png")
            (snd (fst (Cli.runTransform (exampleLib (blank 100 80)) allowAll oneFile
                         noFlags "in.png")))))
    (snd (Cli.runTransform (exampleLib (blank 100 80)) allowAll oneFile noFlags "in.png")).
Proof.
  destruct (text_mode_errors_go_to_stderr plain quietFormatter eq_refl) as (Htransform & _).
  exact (Htransform (exampleLib (blank 100 80)) allowAll oneFile noFlags "in.png" 7
           (fun _ => "failed")).
Defined.

End CommandFacts.

Module GeminiFacts.
Import GoStrings GoText FileSys Gemini Answers TextFacts.
Import Example Samples.

Lemma HasPrefix_spec (s p : string) :
  HasPrefix s p = true <-> exists post, s = p +:+ post.
Proof.
  unfold HasPrefix. revert s. induction p as [|c p IH]; intros s.
  - replace (String.prefix "" s) with true by (by destruct s).
    split; [intros _; exists s; by rewrite append_nil_l | done].
  - destruct s as [|a s]; cbn [String.prefix].
    + split; [discriminate|]. intros [post H]. rewrite append_cons in H. discriminate.
    + destruct (ascii_dec c a) as [->|Hne].
      * rewrite IH. split; intros [post H]; exists post.
        -- rewrite append_cons. by f_equal.
        -- rewrite append_cons in H. by injection H.
      * split; [discriminate|]. intros [post H]. rewrite append_cons in H.
        injection H as H _. congruence.
Qed.

Lemma Contains_spec (s w : string) : Contains s w = true <-> mentions s w.
Proof.
  unfold mentions. induction s as [|c s IH].
  - cbn [Contains]. rewrite orb_false_r, HasPrefix_spec. split.
    + intros [post H]. exists EmptyString, post. by rewrite append_nil_l.
    + intros (pre & post & H). destruct pre as [|a pre].
      * rewrite append_nil_l in H. by exists post.
      * rewrite append_cons in H. discriminate.
  - cbn [Contains]. rewrite orb_true_iff, HasPrefix_spec, IH. split.
    + intros [[post H]|(pre & post & H)].
      * exists EmptyString, post. by rewrite append_nil_l.
      * exists (String c pre), post. rewrite append_cons. by f_equal.
    + intros (pre & post & H). destruct pre as [|a pre].
      * left. rewrite append_nil_l in H. by exists post.
      * right. rewrite append_cons in H. injection H as _ H. by exists pre, post.
Qed.

(** X25.  [classifyError] decides by the first group of words the error text
    mentions, case-sensitively: [API key], [unauthorized] or [401] give
    [INVALID_API_KEY] even when the text also mentions a quota; otherwise
    [quota] or [429] give [QUOTA_EXCEEDED]; otherwise [rate limit] gives
    [RATE_LIMITED]; otherwise [safety] or [blocked] give [SAFETY_BLOCKED];
    a text that mentions none of them gives [API_ERROR] with the text
    itself as the message. *)
Theorem classifyError_priorities (errStr : string) :
  let key := mentions errStr "API key" \/ mentions errStr "unauthorized"
             \/ mentions errStr "401" in
  let quota := mentions errStr "quota" \/ mentions errStr "429" in
  let rate := mentions errStr "rate limit" in
  let safety := mentions errStr "safety" \/ mentions errStr "blocked" in
  (key ->
   classifyError errStr = mkGeminiError ErrInvalidAPIKey "Invalid or unauthorized API key") /\
  (~ key -> quota ->
   classifyError errStr = mkGeminiError ErrQuotaExceeded "API quota exceeded") /\
  (~ key -> ~ quota -> rate ->
   classifyError errStr = mkGeminiError ErrRateLimited "Rate limit exceeded, please wait") /\
  (~ key -> ~ quota -> ~ rate -> safety ->
   classifyError errStr
   = mkGeminiError ErrSafetyBlocked "Content blocked by safety filters") /\
  (~ key -> ~ quota -> ~ rate -> ~ safety ->
   classifyError errStr = mkGeminiError ErrAPIError errStr).
Proof.
  intros key quota rate safety. unfold classifyError.
  assert (Hkey : Contains errStr "API key" || Contains errStr "unauthorized"
                 || Contains errStr "401" = true <-> key).
  { rewrite !orb_true_iff, !Contains_spec. subst key. tauto. }
  assert (Hquota : Contains errStr "quota" || Contains errStr "429" = true <-> quota).
  { rewrite !orb_true_iff, !Contains_spec. subst quota. tauto. }
  assert (Hrate : Contains errStr "rate limit" = true <-> rate).
  { rewrite Contains_spec. subst rate. tauto. }
  assert (Hsafety : Contains errStr "safety" || Contains errStr "blocked" = true <-> safety).
  { rewrite !orb_true_iff, !Contains_spec. subst safety. tauto. }
  destruct (_ || _ || _).
  { split; [reflexivity|]. repeat split; intros Hn; exfalso; apply Hn, Hkey; reflexivity. }
  split; [intros H; apply Hkey in H; discriminate|].
  destruct (Contains errStr "quota" || Contains errStr "429").
  { split; [reflexivity|]. repeat split; intros _ Hn; exfalso; apply Hn, Hquota; reflexivity. }
  split; [intros _ H; apply Hquota in H; discriminate|].
  destruct (Contains errStr "rate limit").
  { split; [reflexivity|]. repeat split; intros _ _ Hn; exfalso; apply Hn, Hrate; reflexivity. }
  split; [intros _ _ H; apply Hrate in H; discriminate|].
  destruct (Contains errStr "safety" || Contains errStr "blocked").
  { split; [reflexivity|]. intros _ _ _ Hn; exfalso; apply Hn, Hsafety; reflexivity. }
  split; [intros _ _ _ H; apply Hsafety in H; discriminate|]. reflexivity.
Qed.

(** *** [extractImages] *)

Lemma imagesOfParts_spec (parts : list Part) (images : list GeneratedImage) :
  imagesOfParts parts images = images ++ omap imageOf parts.
Proof.
  revert images. induction parts as [|part rest IH]; intros images.
  - cbn. by rewrite app_nil_r.
  - cbn [imagesOfParts omap list_omap]. unfold imageOf at 1.
    destruct (InlineData part) as [blob|]; [|apply IH].
    destruct (HasPrefix (MIMEType blob) "image/"); [|apply IH].
    rewrite IH, <- app_assoc. reflexivity.
Qed.

Lemma imagesOfCandidates_spec (candidates : list Candidate) (images : list GeneratedImage) :
  imagesOfCandidates candidates images
  = images ++ inlineImages (mkGenerateContentResponse candidates).
Proof.
  unfold inlineImages, partsOf. cbn [Candidates].
  revert images. induction candidates as [|candidate rest IH]; intros images.
  - cbn. by rewrite app_nil_r.
  - cbn [imagesOfCandidates map List.concat].
    destruct (CandidateContent candidate) as [content|].
    + rewrite IH, imagesOfParts_spec, omap_app, app_assoc. reflexivity.
    + rewrite IH. reflexivity.
Qed.

Lemma imageOf_shape (part : Part) (img : GeneratedImage) :
  imageOf part = Some img ->
  HasPrefix (MimeType img) "image/" = true /\ Width img = 0 /\ Height img = 0.
Proof.
  unfold imageOf. destruct (InlineData part) as [blob|]; [|discriminate].
  destruct (HasPrefix (MIMEType blob) "image/") eqn:Hp; [|discriminate].
  intros [= <-]. cbn. auto.
Qed.

Lemma answer_images (r : option GenerateContentResponse + string)
  (images : list GeneratedImage) :
  answer r = inl images <->
  exists result, r = inl (Some result) /\ images = inlineImages result /\ images <> [].
Proof.
  unfold answer, extractImages. split.
  - destruct r as [[result|]|errStr]; try discriminate.
    destruct (Nat.eqb (List.length (Candidates result)) 0); [discriminate|].
    rewrite imagesOfCandidates_spec. cbn [app]. destruct result as [candidates].
    cbn [Candidates].
    destruct (inlineImages (mkGenerateContentResponse candidates)) as [|img rest] eqn:Himgs;
      [discriminate|].
    cbn [List.length Nat.eqb]. intros [= <-]. eexists. split; [reflexivity|].
    split; [by rewrite Himgs | discriminate].
  - intros (result & -> & -> & Hne). destruct result as [candidates].
    cbn [Candidates]. destruct candidates as [|candidate rest].
    { exfalso. apply Hne. reflexivity. }
    cbn [List.length Nat.eqb]. rewrite imagesOfCandidates_spec. cbn [app].
    destruct (inlineImages _) as [|img imgs]; [by exfalso|]. reflexivity.
Qed.

Section Client.
Variable GenerateContent : string -> Contents -> option GenerateContentResponse + string.
Variable os_ReadFile : FileSystem -> string -> option string.
Variable filepath_Ext : string -> string.
Variable strings_ToLower : string -> string.

Local Abbreviation GenerateImage := (GenerateImage GenerateContent).
Local Abbreviation EditImage :=
  (EditImage GenerateContent os_ReadFile filepath_Ext strings_ToLower).

(** X23.  What [GenerateImage] and [EditImage] return on success is never empty;
    every image has a MIME type that starts with [image/] and width and
    height zero (they are never filled in); and the list is, in order, the
    inline image parts of all candidates of the response of the API. *)
Theorem generated_images_are_inline_images (fs : FileSystem) (model prompt imagePath : string)
  (config : option ImageConfig) (images : list GeneratedImage) :
  GenerateImage model prompt config = inl images
  \/ EditImage fs model imagePath prompt config = inl images ->
  images <> [] /\
  Forall (fun img => HasPrefix (MimeType img) "image/" = true
                     /\ Width img = 0 /\ Height img = 0) images /\
  exists request result,
    GenerateContent model request = inl (Some result) /\ images = inlineImages result.
Proof.
  intros Hrun.
  assert (Hanswer : exists request, answer (GenerateContent model request) = inl images).
  { destruct Hrun as [Hrun|Hrun].
    - unfold Gemini.GenerateImage in Hrun. eexists. exact Hrun.
    - unfold Gemini.EditImage in Hrun. destruct (os_ReadFile fs imagePath); [|discriminate].
      eexists. exact Hrun. }
  destruct Hanswer as [request Hanswer].
  apply answer_images in Hanswer as (result & Hr & -> & Hne).
  split; [exact Hne|]. split; [|by exists request, result].
  apply Forall_forall. intros img Hin. unfold inlineImages in Hin.
  apply list_elem_of_omap in Hin as (part & _ & Hpart).
  by apply imageOf_shape in Hpart.
Qed.

(** X24.  Of its configuration [GenerateImage] uses the aspect ratio only: two
    configurations with the same ratio give the same call, whatever their
    count and resolution; an empty ratio, [1:1] and no configuration at all
    send the prompt unchanged, any other ratio sends the prompt with one
    sentence naming the ratio added; and [EditImage] does not look at its
    configuration. *)
Theorem image_config_is_mostly_ignored (model prompt : string) :
  (forall c1 c2 : ImageConfig,
     AspectRatio c1 = AspectRatio c2 ->
     GenerateImage model prompt (Some c1) = GenerateImage model prompt (Some c2)) /\
  (forall c : ImageConfig,
     AspectRatio c = "" \/ AspectRatio c = "1:1" ->
     GenerateImage model prompt (Some c) = GenerateImage model prompt None /\
     GenerateImage model prompt (Some c)
     = answer (GenerateContent model (TextContents prompt))) /\
  (forall (c : ImageConfig),
     AspectRatio c <> "" -> AspectRatio c <> "1:1" ->
     GenerateImage model prompt (Some c)
     = answer (GenerateContent model
                 (TextContents (prompt +:+ ". Generate this image with " +:+ AspectRatio c
                                +:+ " aspect ratio.")))) /\
  (forall fs imagePath (c1 c2 : option ImageConfig),
     EditImage fs model imagePath prompt c1 = EditImage fs model imagePath prompt c2).
Proof.
  split; [|split; [|split]].
  - intros c1 c2 H. unfold Gemini.GenerateImage. cbv zeta. rewrite H. reflexivity.
  - intros c [H|H]; unfold Gemini.GenerateImage; cbv zeta; rewrite H; split; reflexivity.
  - intros c H1 H2. unfold Gemini.GenerateImage. cbv zeta.
    destruct (String.eqb_spec (AspectRatio c) ""); [done|].
    destruct (String.eqb_spec (AspectRatio c) "1:1"); [done|]. reflexivity.
  - reflexivity.
Qed.

End Client.

Lemma generated_images_are_inline_images_witness :
  let images := [mkGeneratedImage "data" "image/png" 0 0] in
  GenerateImage sampleAPI "gemini-2.5-flash-image-preview" "a sunset" None = inl images /\
  images <> [] /\
  Forall (fun img => HasPrefix (MimeType img) "image/" = true
                     /\ Width img = 0 /\ Height img = 0) images.
Proof.
  intros images. split; [reflexivity|].
  destruct (generated_images_are_inline_images sampleAPI (fun _ _ => None) (fun _ => ".png") id
              emptyFS "gemini-2.5-flash-image-preview" "a sunset" "in.png" None images)
    as (Hne & Hall & _).
  - left. reflexivity.
  - split; [exact Hne | exact Hall].
Defined.

(** *** Model names *)

(** X26.  [gemini.ResolveModelName] and [config.ResolveModel] agree on every
    name; resolving a resolved name changes nothing; and a name is
    returned as it is exactly when it is none of [flash], [pro] and the
    empty string. *)
Theorem model_names_resolve_alike (name : string) :
  Config.ResolveModel name = ResolveModelName name /\
  ResolveModelName (ResolveModelName name) = ResolveModelName name /\
  (ResolveModelName name = name <-> name <> "flash" /\ name <> "" /\ name <> "pro").
Proof.
  unfold Config.ResolveModel, ResolveModelName.
  destruct (String.eqb_spec name "flash") as [->|Hf]; [repeat split; try done; tauto|].
  destruct (String.eqb_spec name "") as [->|He]; [repeat split; try done; tauto|].
  destruct (String.eqb_spec name "pro") as [->|Hp]; [repeat split; try done; tauto|].
  cbn [orb]. split; [reflexivity|].
  destruct (String.eqb_spec name "flash"); [done|].
  destruct (String.eqb_spec name ""); [done|].
  destruct (String.eqb_spec name "pro"); [done|].
  cbn [orb]. tauto.
Qed.

End GeminiFacts.

Module GenerateFacts.
Import GoInt GoStrings GoText GoTrim FileSys Output Gemini Requests Generate.
Import GoIntFacts TextFacts GeminiFacts.
Import Example Samples.

Lemma containsString_spec (l : list string) (x : string) :
  containsString l x = true <-> x ∈ l.
Proof.
  induction l as [|r rest IH]; cbn [containsString].
  - split; [discriminate | intros H; by apply elem_of_nil in H].
  - rewrite elem_of_cons. destruct (String.eqb_spec r x) as [->|Hne].
    + split; auto.
    + rewrite IH. split; [auto | intros [->|H]; [done | exact H]].
Qed.

(** Two images of one run are saved under different names. *)
Lemma savePath_differ (Ext : string -> string) (out : string) (n i j : Z) :
  1 < n -> 0 <= i < n -> 0 <= j < n -> n <= max_int -> i <> j ->
  savePath Ext out n i <> savePath Ext out n j.
Proof.
  intros Hn Hi Hj Hmax Hij. unfold savePath.
  destruct (Z.gtb_spec n 1); [|lia]. cbv zeta.
  rewrite !add_small by (apply in_range_nonneg; lia).
  intros Heq. apply append_inv_head in Heq.
  change ("_" +:+ Itoa (i + 1) +:+ Ext out)
    with (String "_" (Itoa (i + 1) +:+ Ext out)) in Heq.
  change ("_" +:+ Itoa (j + 1) +:+ Ext out)
    with (String "_" (Itoa (j + 1) +:+ Ext out)) in Heq.
  injection Heq as Heq. apply append_inv_tail in Heq.
  apply Itoa_inj in Heq; [lia | |]; apply in_range_nonneg; lia.
Qed.

Section SaveFacts.
Variable filepath_Dir : string -> string.
Variable base64_DecodeString : string -> option string.

Lemma SaveImage_files env fs img path fs' :
  Save.SaveImage filepath_Dir base64_DecodeString env fs img path = (fs', None) ->
  files fs' = <[ path := Bytes (Save.payload base64_DecodeString img) ]> (files fs).
Proof.
  unfold Save.SaveImage. cbv zeta.
  destruct (negb _ && negb _).
  - unfold os_MkdirAll. destruct (mkdir_ok env _); [|discriminate].
    unfold Save.os_WriteFile, os_Create. cbn [files dirs].
    destruct (create_ok env path); [|discriminate].
    destruct (write_ok env path); [|discriminate]. intros [= <-]. reflexivity.
  - unfold Save.os_WriteFile, os_Create.
    destruct (create_ok env path); [|discriminate].
    destruct (write_ok env path); [|discriminate]. intros [= <-]. reflexivity.
Qed.

End SaveFacts.

Section GenerateCommand.
Variable GenerateContent : string -> Contents -> option GenerateContentResponse + string.
Variable os_ReadFile : FileSystem -> string -> option string.
Variable filepath_Ext : string -> string.
Variable strings_ToLower : string -> string.
Variable genai_NewClient : string -> option string.
Variable filepath_Dir : string -> string.
Variable base64_DecodeString : string -> option string.
Variable geminiErrorText : Gemini.Error -> string.
Variable saveErrorText : Save.Error -> string.
Variable elapsedMs : Z.

Local Abbreviation runGenerate :=
  (runGenerate GenerateContent os_ReadFile filepath_Ext strings_ToLower genai_NewClient
     filepath_Dir base64_DecodeString geminiErrorText saveErrorText elapsedMs).
Local Abbreviation saveImages :=
  (saveImages filepath_Ext filepath_Dir base64_DecodeString saveErrorText).
Local Abbreviation finish :=
  (finish filepath_Ext filepath_Dir base64_DecodeString geminiErrorText saveErrorText elapsedMs).
Local Abbreviation clientAnswer :=
  (clientAnswer GenerateContent os_ReadFile filepath_Ext strings_ToLower).
Local Abbreviation savedAs := (savedAs filepath_Ext).
Local Abbreviation savedCall := (savedCall filepath_Ext).
Local Abbreviation savedResult := (savedResult filepath_Ext).
Local Abbreviation payload := (Save.payload base64_DecodeString).

(** The loop uses the output path and the aspect ratio of the flags
    only. *)
Lemma saveImages_flags env (f1 f2 : GenerateFlags) images :
  outputPath f1 = outputPath f2 -> aspectRatio f1 = aspectRatio f2 ->
  forall fs n i calls results,
    saveImages env fs f1 n i images calls results
    = saveImages env fs f2 n i images calls results.
Proof.
  intros Ho Ha. induction images as [|img rest IH]; intros fs n i calls results.
  - reflexivity.
  - cbn [Generate.saveImages]. rewrite Ho, Ha.
    destruct (Save.SaveImage _ _ _ _ _ _) as [fs' [e|]]; [reflexivity|].
    destruct (estimateDimensions (aspectRatio f2)) as [w h]. apply IH.
Qed.

Lemma finish_flags env fs (f1 f2 : GenerateFlags) prompt modelName calls answer :
  outputPath f1 = outputPath f2 -> aspectRatio f1 = aspectRatio f2 ->
  finish env fs f1 prompt modelName calls answer
  = finish env fs f2 prompt modelName calls answer.
Proof.
  intros Ho Ha. unfold Generate.finish. destruct answer as [images|e]; [|reflexivity].
  rewrite (saveImages_flags env f1 f2 images Ho Ha). reflexivity.
Qed.

(** X29.  The count and the resolution are checked and then not used: for counts
    from 1 to 10, [runGenerate] with another count and another resolution
    leaves the same files, makes the same formatter calls and returns the
    same error; how many images are saved is up to the answer of the API
    alone. *)
Theorem count_and_resolution_are_not_used (env : Env) (fs : FileSystem)
  (flags : GenerateFlags) (args : list string) (count' : Z) (resolution' : string) :
  1 <= count flags <= 10 -> 1 <= count' <= 10 ->
  runGenerate env fs
    (mkGenerateFlags (apiKey flags) (model flags) (outputPath flags) (inputPath flags)
       count' (aspectRatio flags) resolution' (noOverwrite flags)) args
  = runGenerate env fs flags args.
Proof.
  intros Hc Hc'. unfold Generate.runGenerate.
  cbn [apiKey model outputPath inputPath count aspectRatio resolution noOverwrite].
  destruct (String.eqb (apiKey flags) ""); [reflexivity|].
  destruct (Z.ltb_spec (count flags) 1); [lia|]. destruct (Z.gtb_spec (count flags) 10); [lia|].
  destruct (Z.ltb_spec count' 1); [lia|]. destruct (Z.gtb_spec count' 10); [lia|].
  cbn [orb].
  destruct (negb _ && negb (IsValidAspectRatio _)); [reflexivity|].
  destruct (noOverwrite flags && _); [reflexivity|].
  cbv zeta. destruct (NewClient _ _ _) as [client|text]; [|reflexivity].
  destruct (negb (String.eqb (inputPath flags) "")).
  - destruct (Cli.notExist fs (inputPath flags)); [reflexivity|].
    unfold EditImage. apply finish_flags; reflexivity.
  - unfold GenerateImage. cbn [AspectRatio]. apply finish_flags; reflexivity.
Qed.

Lemma finish_outcome env fs flags prompt modelName calls answer :
  let r := finish env fs flags prompt modelName calls answer in
  snd r = None \/ (exists e, snd r = Some (ErrGemini e)) \/ (exists e, snd r = Some (ErrSave e)).
Proof.
  unfold Generate.finish. destruct answer as [images|e]; cbn [snd]; [|eauto].
  destruct (Generate.saveImages _ _ _ _ _ _ _ _ _ _ _ _) as [[fs' calls'] [results|e]];
    cbn [snd]; eauto.
Qed.

(** X28.  [runGenerate] checks in this order: without an API key it returns the
    missing-key error; with a count below 1 or above 10 the invalid-count
    error; with an aspect ratio that is neither empty nor in the list the
    invalid-ratio error.  A run that ends in an error that is neither one
    of the client's call nor one of saving has changed no file; and a run
    that returns no error, or an error of the client's call or of saving,
    had an API key, a count from 1 to 10, an aspect ratio that is empty or
    in the list, a free output path when [--no-overwrite] is set, and an
    existing input when one is given. *)
Theorem runGenerate_validates (env : Env) (fs : FileSystem) (flags : GenerateFlags)
  (args : list string) :
  let run := runGenerate env fs flags args in
  (apiKey flags = "" -> snd run = Some ErrMissingAPIKey) /\
  (apiKey flags <> "" -> count flags < 1 \/ 10 < count flags ->
   snd run = Some ErrInvalidCount) /\
  (apiKey flags <> "" -> 1 <= count flags <= 10 ->
   aspectRatio flags <> "" -> aspectRatio flags ∉ AspectRatios ->
   snd run = Some ErrInvalidAspectRatio) /\
  (snd run <> None ->
   (forall e, snd run <> Some (ErrGemini e)) -> (forall e, snd run <> Some (ErrSave e)) ->
   fst (fst run) = fs) /\
  (snd run = None \/ (exists e, snd run = Some (ErrGemini e))
   \/ (exists e, snd run = Some (ErrSave e)) ->
   apiKey flags <> "" /\ 1 <= count flags <= 10 /\
   (aspectRatio flags = "" \/ aspectRatio flags ∈ AspectRatios) /\
   (noOverwrite flags = true -> Cli.notExist fs (outputPath flags) = true) /\
   (inputPath flags <> "" -> Cli.notExist fs (inputPath flags) = false)).
Proof.
  intros run. subst run. unfold Generate.runGenerate. cbv zeta.
  destruct (String.eqb_spec (apiKey flags) "") as [Hkey|Hkey].
  { cbn [fst snd]. split; [reflexivity|]. split; [done|]. split; [done|].
    split; [reflexivity|]. intros [?|[[e ?]|[e ?]]]; discriminate. }
  split; [done|].
  destruct (Z.ltb_spec (count flags) 1) as [Hlo|Hlo].
  { cbn [orb fst snd]. split; [reflexivity|]. split; [intros; lia|].
    split; [reflexivity|]. intros [?|[[e ?]|[e ?]]]; discriminate. }
  destruct (Z.gtb_spec (count flags) 10) as [Hhi|Hhi].
  { cbn [orb fst snd]. split; [reflexivity|]. split; [intros; lia|].
    split; [reflexivity|]. intros [?|[[e ?]|[e ?]]]; discriminate. }
  cbn [orb]. split; [intros; lia|].
  destruct (negb (String.eqb (aspectRatio flags) "")
            && negb (IsValidAspectRatio (aspectRatio flags))) eqn:Hratio.
  { cbn [fst snd]. split; [reflexivity|]. split; [reflexivity|].
    intros [?|[[e ?]|[e ?]]]; discriminate. }
  assert (Hvalid : aspectRatio flags = "" \/ aspectRatio flags ∈ AspectRatios).
  { destruct (String.eqb_spec (aspectRatio flags) ""); [by left|]. right.
    cbn [negb andb] in Hratio. apply negb_false_iff in Hratio.
    by apply containsString_spec. }
  split; [intros _ _ Hne Hnot; destruct Hvalid; done|].
  destruct (noOverwrite flags && statOk fs (outputPath flags)) eqn:Hover.
  { cbn [fst snd]. split; [reflexivity|]. intros [?|[[e ?]|[e ?]]]; discriminate. }
  assert (Hfree : noOverwrite flags = true -> Cli.notExist fs (outputPath flags) = true).
  { intros Hno. rewrite Hno in Hover. cbn [andb] in Hover. unfold statOk in Hover.
    by apply negb_false_iff in Hover. }
  destruct (NewClient _ _ _) as [client|text].
  2:{ cbn [fst snd]. split; [reflexivity|]. intros [?|[[e ?]|[e ?]]]; discriminate. }
  destruct (String.eqb_spec (inputPath flags) "") as [Hin|Hin]; cbn [negb].
  - match goal with
    | |- context [Generate.finish ?a ?b ?c ?d ?e ?f ?g ?h ?i ?j ?k ?l ?m] =>
        pose proof (finish_outcome g h i j k l m) as Hout;
        destruct (Generate.finish a b c d e f g h i j k l m) as [[fs' calls'] err]
    end.
    cbn [fst snd] in *. split.
    + intros Hnone Hgemini Hsave. destruct Hout as [?|[[e ?]|[e ?]]]; [done| |].
      * by destruct (Hgemini e).
      * by destruct (Hsave e).
    + intros _. repeat split; try lia; try assumption. done.
  - destruct (Cli.notExist fs (inputPath flags)) eqn:Hex.
    { cbn [fst snd]. split; [reflexivity|]. intros [?|[[e ?]|[e ?]]]; discriminate. }
    match goal with
    | |- context [Generate.finish ?a ?b ?c ?d ?e ?f ?g ?h ?i ?j ?k ?l ?m] =>
        pose proof (finish_outcome g h i j k l m) as Hout;
        destruct (Generate.finish a b c d e f g h i j k l m) as [[fs' calls'] err]
    end.
    cbn [fst snd] in *. split.
    + intros Hnone Hgemini Hsave. destruct Hout as [?|[[e ?]|[e ?]]]; [done| |].
      * by destruct (Hgemini e).
      * by destruct (Hsave e).
    + intros _. repeat split; try lia; try assumption.
Qed.

(** What the loop does when every image is saved: one call and one result
    per image, every image in the file of its name, no other file
    touched. *)
Lemma saveImages_ok (env : Env) (flags : GenerateFlags) (n : Z)
  (images : list GeneratedImage) :
  forall (fs : FileSystem) (i : Z) calls results fs' calls' results',
    0 <= i -> i + Z.of_nat (List.length images) <= max_int ->
    (forall a b, i <= a < b -> b < i + Z.of_nat (List.length images) ->
                 savedAs flags n a <> savedAs flags n b) ->
    saveImages env fs flags n i images calls results = (fs', calls', inl results') ->
    calls' = calls ++ imap (fun k _ => savedCall flags n (i + Z.of_nat k)) images /\
    results' = results ++ imap (fun k img => savedResult flags n (i + Z.of_nat k) img) images /\
    (forall (k : nat) img, images !! k = Some img ->
       files fs' !! savedAs flags n (i + Z.of_nat k) = Some (Bytes (payload img))) /\
    (forall path, (forall k : nat, (k < List.length images)%nat ->
                                   path <> savedAs flags n (i + Z.of_nat k)) ->
       files fs' !! path = files fs !! path).
Proof.
  induction images as [|img rest IH]; intros fs i calls results fs' calls' results' Hi Hmax Hd.
  - cbn [Generate.saveImages]. intros [= <- <- <-]. cbn [imap].
    rewrite !app_nil_r. repeat split; try done.
  - cbn [Generate.saveImages List.length] in *.
    destruct (Save.SaveImage _ _ _ _ _ _) as [fs1 [e|]] eqn:Hsave; [discriminate|].
    destruct (estimateDimensions (aspectRatio flags)) as [w h] eqn:Hdim.
    rewrite add_small by (apply in_range_nonneg; lia).
    intros Hrun. apply IH in Hrun as (Hcalls & Hresults & Hsaved & Hother); [|lia|lia|].
    2:{ intros a b Hab Hb. apply Hd; lia. }
    pose proof (SaveImage_files _ _ _ _ _ _ _ Hsave) as Hfiles.
    assert (Hshift : forall k : nat, i + 1 + Z.of_nat k = i + Z.of_nat (S k)) by (intros; lia).
    split; [|split; [|split]].
    + rewrite Hcalls, <- app_assoc. f_equal. cbn [imap app]. f_equal.
      * unfold Generate.savedCall, Generate.savedAs. rewrite Hdim, Z.add_0_r. reflexivity.
      * apply imap_ext. intros k x _. cbn. by rewrite Hshift.
    + rewrite Hresults, <- app_assoc. f_equal. cbn [imap app]. f_equal.
      * unfold Generate.savedResult, Generate.savedAs. rewrite Hdim, Z.add_0_r. reflexivity.
      * apply imap_ext. intros k x _. cbn. by rewrite Hshift.
    + intros [|k] img' Hk.
      * injection Hk as <-. rewrite Z.add_0_r. rewrite Hother.
        -- unfold Generate.savedAs. rewrite Hfiles. apply lookup_insert_eq.
        -- intros k Hk. rewrite Hshift. apply Hd; lia.
      * rewrite <- Hshift. by apply Hsaved.
    + intros path Hpath. rewrite Hother.
      * rewrite Hfiles. apply lookup_insert_ne. intros Heq.
        apply (Hpath 0%nat); [lia|]. rewrite Z.add_0_r. by symmetry.
      * intros k Hk. rewrite Hshift. apply Hpath. lia.
Qed.

(** X30.  A run of [runGenerate] that succeeds has saved every image of the
    client's answer: image [i] of [n] is in the file of its name and holds
    the image's data, decoded when it decodes as base64; a single image
    goes to the output path itself; no other file has changed; and the
    formatter was given progress lines, one saved-image call per image and
    one success call that names the prompt, the resolved model and, for
    every image, its path, the size estimated from the aspect ratio and
    its MIME type without [image/]. *)
Theorem runGenerate_saves_every_image (env : Env) (fs : FileSystem)
  (flags : GenerateFlags) (args : list string) (images : list GeneratedImage)
  (fs' : FileSystem) (calls : list (Call GenerateData)) :
  runGenerate env fs flags args = (fs', calls, None) ->
  clientAnswer fs flags args = inl images ->
  Z.of_nat (List.length images) <= max_int ->
  let n := Z.of_nat (List.length images) in
  images <> [] /\
  (n = 1 -> savedAs flags n 0 = outputPath flags) /\
  (forall (i : nat) img, images !! i = Some img ->
     files fs' !! savedAs flags n (Z.of_nat i) = Some (Bytes (payload img))) /\
  (forall path, (forall i : nat, (i < List.length images)%nat ->
                                 path <> savedAs flags n (Z.of_nat i)) ->
     files fs' !! path = files fs !! path) /\
  exists progress,
    Forall (fun c => exists text, c = CallProgress text) progress /\
    calls = progress
            ++ imap (fun i _ => savedCall flags n (Z.of_nat i)) images
            ++ [CallSuccess "generate"
                  (mkGenerateData (Join args " ") (ResolveModelName (model flags))
                     (imap (fun i img => savedResult flags n (Z.of_nat i) img) images))
                  (Some (mkTiming 0 elapsedMs))].
Proof.
  intros Hrun Hanswer Hmax n.
  assert (Hne : images <> []).
  { intros ->. unfold Generate.clientAnswer in Hanswer. cbv zeta in Hanswer.
    destruct (negb _).
    - unfold EditImage in Hanswer. destruct (os_ReadFile _ _); [|discriminate].
      apply answer_images in Hanswer as (_ & _ & _ & H). done.
    - unfold GenerateImage in Hanswer. cbv zeta in Hanswer.
      apply answer_images in Hanswer as (_ & _ & _ & H). done. }
  split; [exact Hne|]. split.
  { intros Hone. unfold Generate.savedAs, savePath. rewrite Hone. reflexivity. }
  assert (Hfinish : exists progress,
    Forall (fun c => exists text, c = CallProgress text) progress /\
    finish env fs flags (Join args " ") (ResolveModelName (model flags)) progress
      (inl images) = (fs', calls, None)).
  { unfold Generate.runGenerate in Hrun. cbv zeta in Hrun.
    unfold Generate.clientAnswer in Hanswer. cbv zeta in Hanswer.
    destruct (String.eqb (apiKey flags) "") eqn:Hkey; [discriminate|].
    destruct (_ || _); [discriminate|].
    destruct (negb _ && negb (IsValidAspectRatio _)); [discriminate|].
    destruct (noOverwrite flags && _); [discriminate|].
    unfold NewClient in Hrun. rewrite Hkey in Hrun.
    destruct (genai_NewClient (apiKey flags)); [discriminate|].
    destruct (negb (String.eqb (inputPath flags) "")).
    - destruct (Cli.notExist fs (inputPath flags)); [discriminate|].
      rewrite Hanswer in Hrun. eexists. split; [|exact Hrun].
      repeat constructor; eauto.
    - rewrite Hanswer in Hrun. eexists. split; [|exact Hrun].
      repeat constructor; eauto. }
  destruct Hfinish as (progress & Hprogress & Hfinish).
  unfold Generate.finish in Hfinish. fold n in Hfinish.
  destruct (Generate.saveImages _ _ _ _ _ _ _ _ _ _ _ _) as [[fs1 calls1] [results|e]] eqn:Hloop;
    [|discriminate].
  injection Hfinish as -> <-.
  apply saveImages_ok in Hloop as (Hcalls & Hresults & Hsaved & Hother); [|lia|lia|].
  2:{ intros a b Hab Hb. unfold Generate.savedAs. apply savePath_differ; lia. }
  cbn [app] in Hresults. subst calls1 results.
  split; [intros i img Hi; apply (Hsaved i img Hi)|].
  split; [intros path Hpath; apply Hother; intros k Hk; apply (Hpath k Hk)|].
  exists progress. split; [exact Hprogress|]. rewrite <- app_assoc. reflexivity.
Qed.

End GenerateCommand.

Lemma count_and_resolution_are_not_used_witness :
  sampleGenerate allowAll emptyFS
    (mkGenerateFlags "key" "flash" "art.png" "" 1 "16:9" "" false) ["a"; "sunset"]
  = sampleGenerate allowAll emptyFS sampleFlags ["a"; "sunset"].
Proof.
  apply (count_and_resolution_are_not_used sampleAPI (fun _ _ => None) (fun _ => ".png") id
           (fun _ => None) here (fun _ => None) (fun _ => "failed") (fun _ => "failed") 7
           allowAll emptyFS sampleFlags ["a"; "sunset"] 1 "").
  - cbn. lia.
  - lia.
Defined.

Lemma runGenerate_saves_every_image_witness :
  exists fs' calls,
    sampleGenerate allowAll emptyFS sampleFlags ["a"; "sunset"] = (fs', calls, None) /\
    files fs' !! "art.png" = Some (Bytes "data") /\
    forall path, path <> "art.png" -> files fs' !! path = None.
Proof.
  eexists _, _. split; [reflexivity|].
  destruct (runGenerate_saves_every_image sampleAPI (fun _ _ => None) (fun _ => ".png") id
              (fun _ => None) here (fun _ => None) (fun _ => "failed") (fun _ => "failed") 7
              allowAll emptyFS sampleFlags ["a"; "sunset"]
              [mkGeneratedImage "data" "image/png" 0 0] _ _ eq_refl eq_refl)
    as (_ & _ & Hsaved & Hother & _).
  - vm_compute. discriminate.
  - split.
    + exact (Hsaved 0%nat _ eq_refl).
    + intros path Hpath. rewrite Hother; [reflexivity|].
      intros [|i] Hi; [exact Hpath | cbn in Hi; lia].
Defined.

End GenerateFacts.
